(* ===== verification/_CoqProject ===== *)
-Q . S2P
Prelude.v
Memory.v
Copying.v
Layout.v
DeepCopy.v
DeepCopyProps.v
GoStrings.v
StableSort.v
Ownership.v
ApiTypes.v
UrlResolver.v
Links.v
Collectors.v
Dashboard.v
RequestMemory.v
DashboardSpec.v
MergeSpec.v
RenderSpec.v
Sample.v
DashboardProps.v
OrderProps.v
RequestOwnership.v
RequestMemoryProps.v
Json.v
JsonSpec.v
Wire.v
Any.v
Sync.v
SyncProps.v
Federation.v
FederationSpec.v
Typing.v
Notifier.v
NotifierProps.v
Url.v
Path.v
Flags.v
Http.v
Updates.v
Controllers.v
ControllerProps.v
Webhook.v
Base64.v
Sha256.v
Auth.v
AuthProps.v
AuthCache.v
Templates.v
Handler.v
HandlerProps.v
ForeignCluster.v
ForeignClusterProps.v
Setup.v
Main.v
MainProps.v
WatchProps.v
SettingsProps.v
