(* ===== verification/Prelude.v ===== *)
(** * cupboard: a verification library

    cupboard is a Kubernetes operator that serves a link dashboard.  It reads
    bookmarks, Forecastle apps, labelled ingresses, routes and services from
    its own cluster, merges what sync peers and foreign clusters show, filters
    the result by the groups of the reader and renders it; reconcilers check
    URLs and fill info tiles, webhooks validate bookmarks, and an OpenID
    Connect provider authenticates readers.  This library models that program
    and proves what makes it correct.

    ** Files

    Foundations:
    - Prelude: Go results and errors, machine integers, the order of a [range]
      over a map, list lemmas, automation (this file);
    - GoStrings: Go strings as bytes (package strings, UTF-8, case mapping,
      [%q]);
    - StableSort: [sort.SliceStable] as an interface, and Go's insertion sort;
    - Memory: Go's memory, pointers, slices and maps on a heap, and what a
      value in memory means; Ownership: append, sorting in place, loops, and
      who may write which location; Copying: the building blocks of deep copies;
    - Json, JsonSpec: encoding/json, its round trip and the parser's fuel;
    - Any: JSON as [any] and [map[string]any];
    - Url, Path, Http: net/url with query strings, package path, requests,
      status texts, clocks;
    - Flags: package flag, the parsing of a command line;
    - Base64, Sha256: the encodings and HMAC of session cookies.

    The program, by component:
    - ApiTypes (src/api): the custom resources, the Kubernetes objects and the
      client interfaces ([Reader], [Discovery]);
    - Layout, DeepCopy (src/api, zz_generated.deepcopy.go): the resources as
      structs in memory, and their generated deep copies;
    - UrlResolver (src/internal/webhook/.../url_resolver.go): the URL behind a
      reference;
    - Links (src/web/dashboard.go, auth.go): response types, group
      normalisation, visibility and replication filters, the order of groups;
    - Collectors (src/web/dashboard.go): the collect functions, each a
      transformer of the maps a request fills;
    - Dashboard (src/web/dashboard.go): [collectDashboard], the merging of
      peers and foreign clusters, and rendering;
    - RequestMemory (src/web/dashboard.go, sync.go): the second half of
      [collectDashboard], from the snapshot of the cache to the response, with
      slices and maps in memory;
    - Wire, Sync (src/web/dashboard.go struct tags, src/web/sync.go): the JSON
      of a response, the polling client and its cache, the sync endpoint, TLS;
    - Notifier (src/web/notifier.go): the broadcaster as a step relation;
    - Updates (src/web/handler.go, the goroutine behind
      [/api/dashboard/updates]): the notifier together with the read loops of
      its connections and their deadlines;
    - Controllers (src/internal/controller/dashboard): the three reconcilers;
    - Webhook (src/internal/webhook/dashboard/v1alpha1): the validators;
    - Auth (src/web/auth.go): sessions, bearer tokens, the caches, the
      configuration of browsers, the discovery proxy;
    - Templates (src/web/templates.go): the files of a template set, and the
      functions of the templates;
    - Handler (src/web/handler.go): routes, handlers and [NewHandler];
    - ForeignCluster (src/internal/foreigncluster): the cluster list, Azure
      tokens, REST configurations, connections, permission probes;
    - Setup (src/cmd/main.go, src/api, the controllers and webhooks): the
      scheme, and what [SetupWithManager] registers;
    - Main (src/cmd/main.go): flags, environment and configuration file, what
      is registered with the manager, the probe of the identity provider, the
      informers;
    - AuthCache (src/web/auth.go): the reachability check as two critical
      sections that other requests may come between;
    - Federation: instances of the program that poll each other, as a
      transition system built from [collectDashboard], [serveSync] and
      [fetchAll]; FederationSpec: the replicated store that it refines.

    ** State

    A request's maps ([groups], [groupDetails], [tiles], ...) are the record
    [dash] threaded through the collectors. The sync client's cache is a [gmap]
    from peer to response; the authentication service's caches are [authCache];
    a cluster manager is the list of its handles; the notifier's state is its
    clients, its one-slot channel and the program counter of its goroutine; a
    hub adds the read loops of the connections and a clock. A federation is the
    map of its instances, each with its collector and its cache. Startup is a
    small monad: [main] goes on, exits with a code, or waits for the identity
    provider. A reconcile takes what the API server answers and gives the object
    it writes. These values are immutable: where sharing matters the same code
    is modelled again on a heap ([mem], a state monad that a panic ends), and
    [view]s say what a location means in the records above. Go errors are
    [result], and an error keeps the kind [errors.Is] and apimachinery's
    predicates see.

    ** What is proved

    - DashboardSpec, MergeSpec and RenderSpec describe what the collectors, the
      merges and the rendering do; DashboardProps states the guarantees of a
      request: exactly which links and tiles a browser and a sync peer get, who
      may see a link, where links come from.  OrderProps: the order of the
      page, what it depends on, and which failures surface.
    - RequestOwnership, RequestMemoryProps: in memory, a request computes what
      Dashboard says, and appends, overwrites and sorts only slices and maps
      of its own: the cache it shares with other requests is left alone, and
      what the poller does to the cache meanwhile does not reach it.
    - DeepCopyProps: a deep copy reads like the original and shares no memory
      with it.
    - SyncProps: a peer's endpoint and a client's fetch are inverse up to the
      flags that are not on the wire; the cache after a poll; nothing fetched
      is exported again; mutual TLS.
    - Federation: in any history of changes and polls a cached response is
      what its peer served before, a link travels one hop and keeps the groups
      that guard it, and one round of polls brings every instance up to date.
      FederationSpec: a federation refines an abstract replicated store.
      Typing: every response of a federation is well formed.
    - NotifierProps: coalescing, no lost notification (it waits, or a tick
      tells every client), delivery to the whole snapshot under any
      interleaving, shutdown.  Updates: connections do not leak.
    - WatchProps: the informers see every change of the page, except those of
      bookmarks, info tiles and kinds without an informer, which they miss.
    - ControllerProps: the reachability of a bookmark over its history of edits
      and checks, counts, the content of a tile through failing reads and
      updates, query parameters.
    - Webhook: what is admitted, and that admitted links are http(s) links.
    - AuthProps: who gets a session, with the endpoint of the provider tracked
      over the life of the service, and how long a cookie lasts.  AuthCache: how
      old the answer about the issuer may be, under any interleaving of
      requests.
    - HandlerProps: requests without a session, forged and rejected tokens
      included, learn nothing of the cluster, a reply is the dashboard of its session, the injected script is safe.
    - Templates: a template set cannot lead out of its directory.
    - ForeignClusterProps: the cluster list, tokens, connections, permissions.
    - Setup: the scheme knows every kind the program reads or writes.
    - MainProps, SettingsProps: startup ends when the identity provider
      answers; what a process runs follows from its settings; where settings
      come from; a sync endpoint with certificate and key never falls back to
      plain text, and one without the one or the other is plain text; a
      process is closed to unauthenticated readers unless somebody opened it.
    - Sample: concrete inputs at which the witnesses apply the theorems.

    ** Outside the model

    What Go leaves open or other code decides is a class or an argument, and
    theorems hold for every instance: the iteration order of maps ([MapRange];
    decided by the keys alone, [KeyOrder], where two runs are compared), the
    capacity of grown slices ([Growth]), any stable sort ([StableSort]), the
    Unicode tables beyond ASCII ([Unicode]), the text of floating point numbers
    ([Float64Text], with [Float64Laws]), apimachinery's accessors and error
    constructor ([Apimachinery], [ApiErrors]), the deep copies of its types
    ([MetaV1], with [MetaV1Laws]), its schemes ([SchemeLib], with [SchemeLaws]),
    the API server ([Reader], [ApiWorld]), DNS and HTTP ([Network], [HTTPDo],
    [TokenWorld]), certificates ([TLSFiles]), client-go, kubeconfig files and
    the environment ([World]), the template engines ([Controllers.Templates],
    [PageTemplates], [Site]), viper and controller-runtime's manager ([Viper],
    [Platform]). That viper reads the environment before the file is the
    hypothesis [SettingsProps.reads_environment]; that what answers at a sync
    URL is the instance there is [Federation.honest]; that an HTTP client
    refuses an empty URL is [ControllerProps.refuses_no_url].

    Recursion is structural except in the JSON parser, which runs on fuel:
    [parse] gives it twice the length of the input plus one, and
    [JsonSpec.parse_fuel] shows that more changes nothing.  Loops over ticks
    are lists of what each tick sees.  The loop that probes the identity
    provider runs on fuel, one attempt each; [MainProps.startup_terminates]
    says how much is enough.

    Not modelled: context deadlines, logging, the decoder's nesting limit and
    its merging of duplicate slice-valued keys, the limit on the number of
    query parameters, what controller-runtime does with what is registered
    (scheduling, leader election, shutdown), the timeouts of the servers,
    the memory of the collectors and of foreign clusters, the front end and
    tests.  Critical sections are single steps; a poll of the
    sync client, which locks its cache once for each peer, is one step, and so
    are the registration of an upgraded connection and the start of its read
    loop; a method of the authentication service that holds its mutex twice is one step in Auth, and
    two in AuthCache. *)

From Stdlib Require Export Permutation Sorted.
From stdpp Require Export sorting pretty option strings gmap fin_maps list.

#[export] Set Default Goal Selector "1".

(** ** Go results and errors

    A Go function that returns [(T, error)] is modelled by [result T]; the
    kind of an error is what [errors.Is], [errors.As] and the predicates of
    [k8s.io/apimachinery/pkg/api/errors] can observe through any number of
    [%w] wrappings, and the message is what [Error()] prints. *)
Inductive err_kind :=
| KNotFound
| KForbidden
| KUnauthorized
| KNotExist
| KOther.

#[export] Instance err_kind_eq_dec : EqDecision err_kind.
Proof. solve_decision. Defined.

Record error := Error { err_class : err_kind; err_msg : string }.

#[export] Instance error_eq_dec : EqDecision error.
Proof. solve_decision. Defined.

(** [errors.New(msg)] and [fmt.Errorf] without [%w]. *)
Definition new_error (msg : string) : error := Error KOther msg.

(** [fmt.Errorf(prefix + "%w", err)]: the message is extended, the kind is
    still found by unwrapping. *)
Definition wrap_error (prefix : string) (e : error) : error :=
  Error (err_class e) (prefix +:+ err_msg e).

Inductive result (A : Type) :=
| Ok (a : A)
| Err (e : error).
Arguments Ok {_} _.
Arguments Err {_} _.

#[export] Instance result_eq_dec `{EqDecision A} : EqDecision (result A).
Proof. solve_decision. Defined.

#[export] Instance result_ret : MRet result := fun _ a => Ok a.
#[export] Instance result_bind : MBind result := fun _ _ f r =>
  match r with Ok a => f a | Err e => Err e end.
#[export] Instance result_fmap : FMap result := fun _ _ f r =>
  match r with Ok a => Ok (f a) | Err e => Err e end.

Definition is_ok {A} (r : result A) : bool :=
  match r with Ok _ => true | Err _ => false end.

(** ** Machine integers

    Go's [int] and [int64] are 64-bit two's complement on every platform the
    program is built for; [wrap64] is the value an arithmetic result takes. *)
Definition int64_min : Z := (-9223372036854775808)%Z.
Definition int64_max : Z := 9223372036854775807%Z.
Definition wrap64 (z : Z) : Z := ((z - int64_min) mod 18446744073709551616 + int64_min)%Z.
Definition wrap32 (z : Z) : Z := ((z + 2147483648) mod 4294967296 - 2147483648)%Z.

Definition in_int64 (z : Z) : Prop := (int64_min ≤ z ≤ int64_max)%Z.

Lemma wrap64_id z : in_int64 z → wrap64 z = z.
Proof.
  unfold in_int64, wrap64, int64_min, int64_max. intros ?.
  rewrite Z.mod_small; lia.
Qed.

Lemma wrap64_range z : in_int64 (wrap64 z).
Proof.
  unfold in_int64, wrap64, int64_min, int64_max.
  pose proof (Z.mod_pos_bound (z - -9223372036854775808) 18446744073709551616). lia.
Qed.

Lemma wrap32_id z : (-2147483648 ≤ z ≤ 2147483647)%Z → wrap32 z = z.
Proof. unfold wrap32. intros ?. rewrite Z.mod_small; lia. Qed.

(** ** Ranging over a Go map

    [for k, v := range m] visits every entry once, in an order the language
    leaves unspecified and that may change from one loop to the next.  The
    order is an oracle indexed by the execution of the loop (a path: the loop,
    and the iteration of each loop around it); a theorem that quantifies over
    the instance holds for every order. *)
Class MapRange := {
  range : ∀ {A : Type}, list nat → gmap string A → list (string * A);
  range_perm : ∀ (A : Type) (loop : list nat) (m : gmap string A),
    range loop m ≡ₚ map_to_list m
}.

(** Two concrete orders, for evaluation. *)
Definition range_asc : MapRange.
Proof. refine {| range := fun A _ m => map_to_list m |}. reflexivity. Defined.

Definition range_desc : MapRange.
Proof.
  refine {| range := fun A _ m => reverse (map_to_list m) |}.
  intros. apply reverse_Permutation.
Defined.

Section map_range.
Context `{MapRange} {A : Type}.
Implicit Types (m : gmap string A).

Lemma elem_of_range n m k v : (k, v) ∈ range n m ↔ m !! k = Some v.
Proof. rewrite range_perm. apply elem_of_map_to_list. Qed.

Lemma NoDup_fst_range n m : NoDup (range n m).*1.
Proof. rewrite range_perm. apply NoDup_fst_map_to_list. Qed.
End map_range.

(** ** Lists *)

(** An assertion kept by every iteration of a loop holds at its end. *)
Lemma foldl_ind {A B} (P : A → Prop) (f : A → B → A) (l : list B) (a : A) :
  P a → (∀ a b, b ∈ l → P a → P (f a b)) → P (foldl f a l).
Proof.
  revert a. induction l as [|b l IH]; intros a Ha Hf; simpl; [done|].
  apply IH; [apply Hf; [left|done] |].
  intros a' b' Hb'. apply Hf. by right.
Qed.

(** A loop establishes [Q] when one of its iterations does and the later
    ones keep it. *)
Lemma foldl_reaches {A B} (P Q : A → Prop) (f : A → B → A) (l : list B) (a : A) (b : B) :
  b ∈ l → P a →
  (∀ a, P a → Q (f a b)) →
  (∀ a c, c ∈ l → P a → P (f a c)) →
  (∀ a c, c ∈ l → Q a → Q (f a c)) →
  Q (foldl f a l).
Proof.
  intros Hb. revert a. induction Hb as [b l|b c l Hb IH]; intros a Ha Hfb HP HQ; simpl.
  - apply foldl_ind; [by apply Hfb|]. intros; apply HQ; [by right|done].
  - apply IH; [apply HP; [left|done] | done | |];
      intros; [apply HP | apply HQ]; try done; by right.
Qed.

Lemma foldl_preorder {A B} (R : relation A) `{!PreOrder R} (f : A → B → A) l a :
  (∀ a b, b ∈ l → R a (f a b)) → R a (foldl f a l).
Proof.
  intros Hf. apply foldl_ind with (P := R a); [done|].
  intros a' b Hb Ha. etrans; [done|by apply Hf].
Qed.

Lemma filter_Permutation_bool {A} (P : A → bool) (l k : list A) :
  l ≡ₚ k → List.filter P l ≡ₚ List.filter P k.
Proof.
  induction 1 as [|x l k _ IH|x y l|l k m _ IH1 _ IH2]; simpl.
  - done.
  - destruct (P x); by rewrite IH.
  - destruct (P x), (P y); try done. by constructor.
  - by rewrite IH1.
Qed.

Lemma elem_of_filter_bool {A} (P : A → bool) (l : list A) x :
  x ∈ List.filter P l ↔ P x = true ∧ x ∈ l.
Proof. rewrite !list_elem_of_In, filter_In. tauto. Qed.

(** A list with a single distinct element has one arrangement. *)
Lemma Permutation_all_equal {A} (l k : list A) :
  (∀ x y, x ∈ l → y ∈ l → x = y) → l ≡ₚ k → l = k.
Proof.
  intros Hl Hp.
  assert (∀ n : list A, (∀ y z, y ∈ n → z ∈ n → y = z) →
    ∀ a, a ∈ n → n = replicate (length n) a) as Hrep.
  { intros n Hn a Ha. symmetry. apply replicate_as_elem_of. split; [done|]. intros y Hy. by apply Hn. }
  destruct l as [|a l]; [by apply Permutation_nil_l|].
  rewrite (Hrep (a :: l) Hl a) by left.
  rewrite (Hrep k ltac:(intros ??; rewrite <-Hp; apply Hl) a), Hp; [done|].
  rewrite <-Hp. left.
Qed.

(** [for _, x := range l { if c(x) { return f(x) } }]: the first element a
    loop stops at. *)
Fixpoint find_map {A B} (f : A → option B) (l : list A) : option B :=
  match l with
  | [] => None
  | x :: l => match f x with Some y => Some y | None => find_map f l end
  end.

Lemma find_map_Some {A B} (f : A → option B) l y :
  find_map f l = Some y ↔
  ∃ l1 x l2, l = l1 ++ x :: l2 ∧ f x = Some y ∧ Forall (fun z => f z = None) l1.
Proof.
  split.
  - induction l as [|x l IH]; simpl; [done|].
    destruct (f x) as [z|] eqn:Hx.
    + intros [= ->]. by exists [], x, l.
    + intros (l1 & x' & l2 & -> & ? & ?)%IH. exists (x :: l1), x', l2.
      repeat split; [done|]. by constructor.
  - intros (l1 & x & l2 & -> & Hx & Hl). induction Hl as [|z l1 Hz _ IH]; simpl.
    + by rewrite Hx.
    + by rewrite Hz.
Qed.

Lemma find_map_None {A B} (f : A → option B) l :
  find_map f l = None ↔ Forall (fun z => f z = None) l.
Proof.
  induction l as [|x l IH]; simpl; [by split; constructor|].
  rewrite Forall_cons. destruct (f x); [|tauto]. split; [done|]. by intros [? _].
Qed.

Lemma find_map_app {A B} (f : A → option B) l k :
  find_map f (l ++ k) = match find_map f l with Some y => Some y | None => find_map f k end.
Proof. induction l as [|x l IH]; cbn; [done|]. by destruct (f x). Qed.

(** ** Automation *)
Create HintDb cupboard.
Create Rewrite HintDb cupboard.

#[export] Hint Resolve wrap64_range : cupboard.
#[export] Hint Rewrite @elem_of_filter_bool @elem_of_range : cupboard.

(** Split every [if] and [match] of the goal and of the hypotheses. *)
Ltac case_all :=
  repeat match goal with
  | |- context [match ?x with _ => _ end] => destruct x eqn:?; simplify_eq/=
  | H : context [match ?x with _ => _ end] |- _ => destruct x eqn:?; simplify_eq/=
  end.

(** Boolean connectives and tests as propositions. *)
Ltac bool_to_prop :=
  repeat match goal with
  | H : (_ && _)%bool = true |- _ => apply andb_true_iff in H as [? ?]
  | H : (_ || _)%bool = false |- _ => apply orb_false_iff in H as [? ?]
  | H : negb _ = true |- _ => apply negb_true_iff in H
  | H : negb _ = false |- _ => apply negb_false_iff in H
  | H : bool_decide _ = true |- _ => apply bool_decide_eq_true in H
  | H : bool_decide _ = false |- _ => apply bool_decide_eq_false in H
  end.
