(* ===== verification/Memory.v ===== *)
(** * Memory: Go's memory

    Pointers, slices and maps refer to memory that several of them may share.
    A heap maps locations to cells; a location holds what one allocation
    holds: a variable, the array behind slices, or a map.  Programs are state
    passing functions ([mem]); [None] is a panic.  What a value means is read
    off the heap by a [view], which also lists the locations it visits, once
    for each visit: a view that lists no location twice reads a tree.

    The cells of a heap are a parameter, and [Cell] says which types they can
    hold. *)

From S2P Require Import Prelude.

Abbreviation loc := positive.

(** A slice: the array it is a window of, and its bounds.  A nil slice is
    [None]. *)
Record slice := Slice { sl_array : loc; sl_off : nat; sl_len : nat; sl_cap : nat }.

Abbreviation heap C := (gmap loc C).
Definition mem (C A : Type) : Type := heap C → option (A * heap C).
Definition view (C A : Type) : Type := heap C → option (A * list loc).

Class Cell (C T : Type) := {
  box : T → C;
  unbox : C → option T;
  unbox_box : ∀ x, unbox (box x) = Some x
}.

#[export] Hint Mode Cell - ! : typeclass_instances.

(** Go's zero values. *)
Class Zero (T : Type) := zero : T.
#[export] Hint Mode Zero ! : typeclass_instances.

#[export] Instance zero_string : Zero string := "".
#[export] Instance zero_Z : Zero Z := 0%Z.
#[export] Instance zero_bool : Zero bool := false.
#[export] Instance zero_option {A} : Zero (option A) := None.

(** ** Programs *)
#[export] Instance mem_ret {C} : MRet (mem C) := fun _ a h => Some (a, h).
#[export] Instance mem_bind {C} : MBind (mem C) := fun _ _ k m h =>
  match m h with Some (a, h) => k a h | None => None end.

Section programs.
Context {C : Type}.
Implicit Types (h : heap C) (p : loc).

Definition panic {A} : mem C A := fun _ => None.

Definition load {T} `{Cell C T} (p : loc) : mem C T := fun h =>
  match h !! p ≫= unbox with Some x => Some (x, h) | None => None end.

Definition store {T} `{Cell C T} (p : loc) (x : T) : mem C unit := fun h =>
  match h !! p with Some _ => Some (tt, <[p := box x]> h) | None => None end.

(** [new(T)] and composite literals whose address is taken. *)
Definition new {T} `{Cell C T} (x : T) : mem C loc := fun h =>
  let p := fresh (dom h) in Some (p, <[p := box x]> h).

(** [for _, x := range l { body }]. *)
Fixpoint for_each {A} (l : list A) (body : A → mem C unit) : mem C unit :=
  match l with
  | [] => mret tt
  | x :: l => _ ← body x; for_each l body
  end.

(** [for i := range n { body }], from [i]. *)
Fixpoint for_from (i n : nat) (body : nat → mem C unit) : mem C unit :=
  match n with
  | 0 => mret tt
  | S n => _ ← body i; for_from (S i) n body
  end.

(** [make([]T, n)], [s[i]] and [s[i] = x]. *)
Definition make_slice {T} `{Cell C (list T), Zero T} (n : nat) : mem C slice :=
  p ← new (replicate n (zero : T)); mret (Slice p 0 n n).

Definition slice_at {T} `{Cell C (list T)} (s : slice) (i : nat) : mem C T :=
  xs ← load (T := list T) (sl_array s);
  match xs !! (sl_off s + i) with
  | Some x => if bool_decide (i < sl_len s) then mret x else panic
  | None => panic
  end.

Definition slice_set {T} `{Cell C (list T)} (s : slice) (i : nat) (x : T) : mem C unit :=
  xs ← load (T := list T) (sl_array s);
  if bool_decide (i < sl_len s) && bool_decide (sl_off s + i < length xs)
  then store (sl_array s) (<[sl_off s + i := x]> xs) else panic.

(** One step of a program. *)
Lemma bind_step {A B} (m : mem C A) (k : A → mem C B) h a h1 : m h = Some (a, h1) → (m ≫= k) h = k a h1.
Proof. unfold mbind, mem_bind. by intros ->. Qed.

Lemma load_step {T} `{Cell C T} (p : loc) (c : C) (x : T) h : h !! p = Some c → unbox c = Some x → load p h = Some (x, h).
Proof. unfold load. intros -> Hu. cbn. by rewrite Hu. Qed.

Lemma store_step {T} `{Cell C T} (p : loc) (x : T) h : is_Some (h !! p) → store p x h = Some (tt, <[p := box x]> h).
Proof. unfold store. by intros [c ->]. Qed.

Lemma make_slice_step {T} `{Cell C (list T), Zero T} n h :
  make_slice (T := T) n h = Some (Slice (fresh (dom h)) 0 n n, <[fresh (dom h) := box (replicate n zero)]> h).
Proof. done. Qed.

Lemma slice_at_step {T} `{Cell C (list T)} s (c : C) (xs : list T) i x h :
  h !! sl_array s = Some c → unbox c = Some xs → xs !! (sl_off s + i) = Some x → i < sl_len s →
  slice_at s i h = Some (x, h).
Proof.
  intros Hc Hu Hx Hi. unfold slice_at. rewrite (bind_step _ _ _ _ _ (load_step _ _ _ _ Hc Hu)), Hx.
  by rewrite bool_decide_true.
Qed.

Lemma slice_set_step {T} `{Cell C (list T)} s (c : C) (xs : list T) i x h :
  h !! sl_array s = Some c → unbox c = Some xs → i < sl_len s → sl_off s + i < length xs →
  slice_set s i x h = Some (tt, <[sl_array s := box (<[sl_off s + i := x]> xs)]> h).
Proof.
  intros Hc Hu Hi Hl. unfold slice_set. rewrite (bind_step _ _ _ _ _ (load_step _ _ _ _ Hc Hu)).
  rewrite !bool_decide_true by done. cbn [andb]. apply store_step. by eexists.
Qed.
End programs.

(** ** Views *)
#[export] Instance view_ret {C} : MRet (view C) := fun _ a _ => Some (a, []).
#[export] Instance view_bind {C} : MBind (view C) := fun _ _ k v h =>
  match v h with
  | Some (a, R) => match k a h with Some (b, R') => Some (b, R ++ R') | None => None end
  | None => None
  end.

Section views.
Context {C : Type}.
Implicit Types (h : heap C) (p : loc) (R : list loc).

Definition deref {T} `{Cell C T} (p : loc) : view C T := fun h =>
  match h !! p ≫= unbox with Some x => Some (x, [p]) | None => None end.

Definition view_fail {A} : view C A := fun _ => None.

(** A value without pointers is what it means. *)
Definition view_flat {T} (x : T) : view C T := mret x.

Fixpoint view_list {T A} (rd : T → view C A) (xs : list T) : view C (list A) :=
  match xs with
  | [] => mret []
  | x :: xs => a ← rd x; l ← view_list rd xs; mret (a :: l)
  end.

Definition view_pointer {T A} `{Cell C T} (rd : T → view C A) (o : option loc) : view C (option A) :=
  match o with
  | None => mret None
  | Some p => x ← deref p; a ← rd x; mret (Some a)
  end.

Definition view_map {T} `{Cell C (gmap string T)} : option loc → view C (option (gmap string T)) :=
  view_pointer (T := gmap string T) view_flat.

(** The elements a slice shows of its array. *)
Definition window {T} (s : slice) (xs : list T) : option (list T) :=
  if bool_decide (sl_off s + sl_len s ≤ length xs) then Some (take (sl_len s) (drop (sl_off s) xs)) else None.

Definition view_slice {T A} `{Cell C (list T)} (rd : T → view C A) (s : option slice) : view C (option (list A)) :=
  match s with
  | None => mret None
  | Some s =>
    xs ← deref (sl_array s);
    match window s xs with
    | Some xs => l ← view_list rd xs; mret (Some l)
    | None => view_fail
    end
  end.

(** What a view sees is decided by the locations it lists. *)
Class Local {A} (v : view C A) : Prop := {
  local_frame : ∀ h h' a R, v h = Some (a, R) → (∀ p, p ∈ R → h' !! p = h !! p) → v h' = Some (a, R);
  local_dom : ∀ h a R p, v h = Some (a, R) → p ∈ R → is_Some (h !! p)
}.

#[export] Instance local_ret {A} (a : A) : Local (mret a).
Proof. split; [by intros ???? [= <- <-]|]. intros ???? [= <- <-]. by intros ?%not_elem_of_nil. Qed.

#[export] Instance local_flat {T} (x : T) : Local (view_flat x).
Proof. apply local_ret. Qed.

#[export] Instance local_fail {A} : Local (view_fail (A := A)).
Proof. split; done. Qed.

#[export] Instance local_bind {A B} (v : view C A) (k : A → view C B) :
  Local v → (∀ a, Local (k a)) → Local (v ≫= k).
Proof.
  intros Hv Hk. split; unfold mbind, view_bind.
  - intros h h' b R Hb Hagree. destruct (v h) as [[a R1]|] eqn:Ha; [|done].
    destruct (k a h) as [[b' R2]|] eqn:Hb'; [|done]. injection Hb as <- <-.
    rewrite (local_frame _ _ _ _ Ha) by (intros p ?; apply Hagree, elem_of_app; by left).
    rewrite (local_frame _ _ _ _ Hb') by (intros p ?; apply Hagree, elem_of_app; by right). done.
  - intros h b R p Hb. destruct (v h) as [[a R1]|] eqn:Ha; [|done].
    destruct (k a h) as [[b' R2]|] eqn:Hb'; [|done]. injection Hb as <- <-.
    rewrite elem_of_app. intros [?|?]; [by eapply (local_dom (v := v))|by eapply (local_dom (v := k a))].
Qed.

#[export] Instance local_deref {T} `{Cell C T} p : Local (deref (T := T) p).
Proof.
  split; unfold deref.
  - intros h h' x R Hx Hagree. destruct (h !! p ≫= unbox) as [y|] eqn:Hy; [|done]. injection Hx as <- <-.
    by rewrite (Hagree p) by left; rewrite Hy.
  - intros h x R q Hx. destruct (h !! p) as [c|] eqn:Hc; [|done]. cbn in Hx. destruct (unbox c); [|done].
    injection Hx as <- <-. rewrite list_elem_of_singleton. intros ->. by eexists.
Qed.

#[export] Instance local_list {T A} (rd : T → view C A) xs : (∀ x, Local (rd x)) → Local (view_list rd xs).
Proof. intros Hrd. induction xs; cbn; apply _. Qed.

#[export] Instance local_pointer {T A} `{Cell C T} (rd : T → view C A) o :
  (∀ x, Local (rd x)) → Local (view_pointer rd o).
Proof. intros Hrd. destruct o; cbn; apply _. Qed.

#[export] Instance local_map {T} `{Cell C (gmap string T)} o : Local (view_map (T := T) o).
Proof. apply local_pointer. apply _. Qed.

#[export] Instance local_slice {T A} `{Cell C (list T)} (rd : T → view C A) s :
  (∀ x, Local (rd x)) → Local (view_slice rd s).
Proof. intros Hrd. destruct s as [s|]; cbn; [|apply _]. apply local_bind; [apply _|]. intros xs. destruct (window s xs); apply _. Qed.

(** Growing the heap changes no view. *)
Lemma view_mono {A} (v : view C A) `{!Local v} h h' x : h ⊆ h' → v h = Some x → v h' = Some x.
Proof.
  destruct x as [a R]. intros Hsub Hv. apply (local_frame _ _ _ _ Hv). intros p Hp.
  destruct (local_dom _ _ _ _ Hv Hp) as [c Hc]. rewrite Hc. by eapply lookup_weaken.
Qed.

Lemma view_bind_Some {A B} (v : view C A) (k : A → view C B) h x :
  (v ≫= k) h = Some x ↔ ∃ a R b R', v h = Some (a, R) ∧ k a h = Some (b, R') ∧ x = (b, R ++ R').
Proof.
  unfold mbind, view_bind. split.
  - destruct (v h) as [[a R]|]; [|done]. destruct (k a h) as [[b R']|] eqn:E; [|done]. intros [= <-]. eauto 10.
  - intros (a & R & b & R' & -> & -> & ->). done.
Qed.
End views.
