(* ===== verification/Copying.v ===== *)
(** * Copying: the shapes of generated deep copies

    controller-gen writes one [DeepCopyInto] per type, and each is made of the
    same few statements: a pointer, a slice or a map is copied when it is not
    nil, everything else is assigned.  [in.DeepCopyInto(out)] is modelled by a
    program that takes what [in] points to and returns what [out] points to
    in the end; nothing else is written through [out].

    [deep into rd] is what such a program has to do: the copy reads like the
    original, no memory that was there is written, and the memory of the copy
    is new and shared by no two parts of it, whatever the original shares. *)

From S2P Require Import Prelude Memory.

(** ** Statements *)
Section statements.
Context {C : Type} `{MapRange}.

(** [if in.F != nil { in, out := &in.F, &out.F; *out = new(T);
    ( *in).DeepCopyInto( *out) }]; [**out = **in] is the same with [mret]. *)
Definition copy_pointer {T} `{Cell C T, Zero T} (into : T → mem C T) (inp : option loc) : mem C (option loc) :=
  match inp with
  | None => mret None
  | Some p => out ← new (zero : T); x ← load (T := T) p; y ← into x; _ ← store out y; mret (Some out)
  end.

(** [*out = make([]T, len( *in)); for i := range *in {
    ( *in)[i].DeepCopyInto(&( *out)[i]) }]. *)
Definition copy_slice {T} `{Cell C (list T), Zero T} (into : T → mem C T) (inp : option slice)
    : mem C (option slice) :=
  match inp with
  | None => mret None
  | Some s =>
    out ← make_slice (T := T) (sl_len s);
    _ ← for_from 0 (sl_len s) (fun i => x ← slice_at (T := T) s i; y ← into x; slice_set out i y);
    mret (Some out)
  end.

(** The builtin [copy(dst, src)], for slices of the same length. *)
Definition copy_elements {T} `{Cell C (list T)} (dst src : slice) : mem C unit :=
  xs ← load (T := list T) (sl_array src); ys ← load (T := list T) (sl_array dst);
  match window src xs, window dst ys with
  | Some xs, Some _ =>
    let n := sl_len src `min` sl_len dst in
    store (sl_array dst) (take (sl_off dst) ys ++ take n xs ++ drop (sl_off dst + n) ys)
  | _, _ => panic
  end.

(** [*out = make([]T, len( *in)); copy( *out, *in)]. *)
Definition copy_flat_slice {T} `{Cell C (list T), Zero T} (inp : option slice) : mem C (option slice) :=
  match inp with
  | None => mret None
  | Some s => out ← make_slice (T := T) (sl_len s); _ ← copy_elements (T := T) out s; mret (Some out)
  end.

(** [*out = make(map[string]T, len( *in)); for key, val := range *in {
    ( *out)[key] = val }]. *)
Definition copy_map {T} `{Cell C (gmap string T)} (inp : option loc) : mem C (option loc) :=
  match inp with
  | None => mret None
  | Some p =>
    out ← new (∅ : gmap string T);
    m ← load (T := gmap string T) p;
    _ ← for_each (range [] m) (fun '(key, val) => m' ← load (T := gmap string T) out; store out (<[key := val]> m'));
    mret (Some out)
  end.
End statements.

(** ** What a copy does *)
Section copies.
Context {C : Type}.
Implicit Types (h : heap C) (p : loc) (R : list loc).

(** [h'] is [h] and more, and the locations [R] are among what was added. *)
Definition grown (h h' : heap C) (R : list loc) : Prop :=
  h ⊆ h' ∧ NoDup R ∧ ∀ p, p ∈ R → h !! p = None ∧ is_Some (h' !! p).

Definition copies {T A} (c : mem C T) (v : view C A) (rd : T → view C A) : Prop :=
  ∀ h a R, v h = Some (a, R) →
  ∃ y h' R', c h = Some (y, h') ∧ rd y h' = Some (a, R') ∧ grown h h' R'.

Definition deep {T A} (into : T → mem C T) (rd : T → view C A) : Prop :=
  ∀ x, copies (into x) (rd x) rd.

Lemma grown_sub h h' R : grown h h' R → h ⊆ h'.
Proof. by intros []. Qed.

Lemma grown_refl h : grown h h [].
Proof. split_and!; [done|constructor|]. by intros p ?%not_elem_of_nil. Qed.

Lemma grown_app h1 h2 h3 R1 R2 : grown h1 h2 R1 → grown h2 h3 R2 → grown h1 h3 (R1 ++ R2).
Proof.
  intros (Hs1 & Hn1 & Hf1) (Hs2 & Hn2 & Hf2). split_and!; [by etrans| |].
  - rewrite NoDup_app. split_and!; try done. intros p [_ [c Hc]]%Hf1 [Hn _]%Hf2. congruence.
  - intros p. rewrite elem_of_app. intros [Hp|Hp].
    + destruct (Hf1 p Hp) as [? [c Hc]]. split; [done|]. exists c. by eapply lookup_weaken.
    + destruct (Hf2 p Hp) as [Hn ?]. split; [|done]. by eapply lookup_weaken_None.
Qed.

(** The location a copy is built in, besides what the copy adds. *)
Lemma grown_own h h' p R : h !! p = None → is_Some (h' !! p) → grown h (delete p h') R → grown h h' (p :: R).
Proof.
  intros Hp Hp' (Hs & Hn & Hf). split_and!.
  - etrans; [exact Hs|apply delete_subseteq].
  - constructor; [|done]. intros [_ [c Hc]]%Hf. by rewrite lookup_delete_eq in Hc.
  - intros q. rewrite elem_of_cons. intros [->|Hq]; [done|]. destruct (Hf q Hq) as [? [c Hc]].
    split; [done|]. exists c. by apply lookup_delete_Some in Hc as [_ ?].
Qed.

Lemma grown_delete h h' p R : is_Some (h !! p) → grown h h' R → grown (delete p h) (delete p h') R.
Proof.
  intros [c Hp] (Hs & Hn & Hf). split_and!; [by apply delete_mono|done|].
  intros q Hq. destruct (Hf q Hq) as [Hq1 Hq2]. assert (p ≠ q) by congruence. by rewrite !lookup_delete_ne.
Qed.

Lemma grown_fresh h h' R p : grown h h' R → is_Some (h !! p) → p ∉ R.
Proof. intros (_ & _ & Hf) [c Hc] [Hn _]%Hf. congruence. Qed.

(** Views of memory that did not change. *)
Lemma view_update {A} (v : view C A) `{!Local v} h h' p c a R :
  h ⊆ h' → p ∉ R → v h = Some (a, R) → v (<[p := c]> h') = Some (a, R).
Proof.
  intros Hsub Hp Hv. apply (local_frame _ _ _ _ Hv). intros q Hq. rewrite lookup_insert_ne by congruence.
  destruct (local_dom _ _ _ _ Hv Hq) as [c' Hc]. rewrite Hc. by eapply lookup_weaken.
Qed.

Lemma view_bound {A} (v : view C A) `{!Local v} h a R p : v h = Some (a, R) → h !! p = None → p ∉ R.
Proof. intros Hv Hn Hp. destruct (local_dom _ _ _ _ Hv Hp). congruence. Qed.

Lemma deep_ret {A} : deep (fun x : A => mret x) view_flat.
Proof. intros x h a R [= <- <-]. exists x, h, []. split_and!; [done..|apply grown_refl]. Qed.

Lemma fresh_lookup h : h !! fresh (dom h) = None.
Proof. apply not_elem_of_dom, is_fresh. Qed.

(** ** The shapes are deep *)
Section shapes.
Context `{MapRange} {T A : Type} (into : T → mem C T) (rd : T → view C A) `{!∀ x, Local (rd x)}.

(** What is built in a new location is as good as what is put there. *)
Lemma deref_new `{Cell C T} h h' q (c : C) (y : T) a R :
  h !! q = None → <[q := c]> h ⊆ h' → grown (<[q := c]> h) h' R → rd y h' = Some (a, R) →
  (x ← deref q; a ← rd x; mret (Some a)) (<[q := box y]> h') = Some (Some a, q :: R ++ []) ∧
  grown h (<[q := box y]> h') (q :: R ++ []).
Proof.
  intros Hq Hsub Hg Hy.
  assert (q ∉ R) as HqR by (eapply grown_fresh; [exact Hg|rewrite lookup_insert_eq; by eexists]).
  split.
  - unfold mbind, view_bind, deref. rewrite lookup_insert_eq. cbn. rewrite unbox_box.
    by rewrite (view_update (rd y) h' h' q _ a R) by done.
  - apply grown_own; [done|rewrite lookup_insert_eq; by eexists|].
    rewrite app_nil_r, delete_insert_eq. apply (grown_delete _ _ q) in Hg; [|rewrite lookup_insert_eq; by eexists].
    by rewrite delete_insert_id in Hg.
Qed.

Lemma deep_pointer `{Cell C T, Zero T} : deep into rd → deep (copy_pointer into) (view_pointer rd).
Proof.
  intros Hd [p|] h a R Hv; [|injection Hv as <- <-; exists None, h, []; split_and!; [done..|apply grown_refl]].
  cbn in Hv. apply view_bind_Some in Hv as (x & R1 & a1 & R2 & Hp & Hv & [= -> ->]).
  apply view_bind_Some in Hv as (a2 & R3 & a3 & R4 & Hx & [= <- <-] & [= -> ->]).
  unfold deref in Hp. destruct (h !! p) as [c|] eqn:Hc; [|done]. cbn in Hp. destruct (unbox c) as [x0|] eqn:Hu; [|done].
  injection Hp as -> <-. set (q := fresh (dom h)). pose proof (fresh_lookup h : h !! q = None) as Hq.
  assert (<[q := box (zero : T)]> h !! p = Some c) as Hp1 by (rewrite lookup_insert_ne; [done|congruence]).
  assert (h ⊆ <[q := box (zero : T)]> h) as Hs by by apply insert_subseteq.
  apply (view_mono (rd x) _ _ _ Hs) in Hx.
  destruct (Hd x _ _ _ Hx) as (y & h' & R' & Hc' & Hy & Hg).
  destruct (deref_new h h' q _ y _ R' Hq (grown_sub _ _ _ Hg) Hg Hy) as [Hr Hg'].
  exists (Some q), (<[q := box y]> h'), (q :: R' ++ []). split; [|by split].
  cbn [copy_pointer]. unfold mbind, mem_bind, new, load, store. fold q. rewrite Hp1. cbn. rewrite Hu, Hc'.
  assert (is_Some (h' !! q)) as [c' ->]; [|done].
  exists (box (zero : T)). eapply lookup_weaken; [|by eapply grown_sub]. apply lookup_insert_eq.
Qed.

Lemma window_Some {B} (s : slice) (xs ys : list B) :
  window s xs = Some ys ↔ sl_off s + sl_len s ≤ length xs ∧ ys = take (sl_len s) (drop (sl_off s) xs).
Proof. unfold window. case_bool_decide; naive_solver. Qed.

(** The loop that copies the elements from [i] on: [ys] are the copies so far. *)
Lemma copy_loop `{Cell C (list T), Zero T} (s : slice) (c : C) (xs : list T) (q : loc) (cap : nat) :
  deep into rd → unbox c = Some xs → sl_off s + sl_len s ≤ length xs → q ≠ sl_array s →
  ∀ n i ys h l R,
  i + n = sl_len s → length ys = i → h !! sl_array s = Some c → h !! q = Some (box (ys ++ replicate n (zero : T))) →
  view_list rd (take n (drop (sl_off s + i) xs)) h = Some (l, R) → q ∉ R →
  ∃ zs h' R',
    for_from i n (fun i => x ← slice_at (T := T) s i; y ← into x; slice_set (Slice q 0 (sl_len s) cap) i y) h = Some (tt, h') ∧
    h' !! q = Some (box (ys ++ zs)) ∧ length zs = n ∧ view_list rd zs h' = Some (l, R') ∧
    grown (delete q h) (delete q h') R'.
Proof.
  intros Hd Hu Hlen Hqs. induction n as [|n IH]; intros i ys h l R Hi Hys Hc Hq Hv HqR.
  - cbn in Hv. injection Hv as <- <-. exists [], h, []. split_and!; [done| |done|done|apply grown_refl].
    by rewrite Hq.
  - destruct (lookup_lt_is_Some_2 xs (sl_off s + i)) as [x Hx]; [lia|].
    rewrite (drop_S _ x _ Hx) in Hv. cbn [take view_list] in Hv.
    apply view_bind_Some in Hv as (a & R1 & b & R2 & Ha & Hv & [= -> ->]).
    apply view_bind_Some in Hv as (l' & R3 & b' & R4 & Hl & [= <- <-] & [= -> ->]).
    rewrite app_nil_r in HqR. rewrite not_elem_of_app in HqR. destruct HqR as [HqR1 HqR3].
    destruct (Hd x _ _ _ Ha) as (y & h1 & R1' & Hcy & Hy & Hg).
    assert (h1 !! q = Some (box (ys ++ (zero : T) :: replicate n (zero : T)))) as Hq1 by (eapply lookup_weaken; [exact Hq|by eapply grown_sub]).
    set (h2 := <[q := box (ys ++ y :: replicate n (zero : T))]> h1).
    destruct (IH (S i) (ys ++ [y]) h2 l' R3) as (zs & h' & R' & Hloop & Hq' & Hlz & Hzs & Hg'); [lia|rewrite length_app; cbn; lia| | | |done|].
    { unfold h2. rewrite lookup_insert_ne by done. eapply lookup_weaken; [exact Hc|by eapply grown_sub]. }
    { unfold h2. rewrite lookup_insert_eq, <-app_assoc. done. }
    { unfold h2. apply view_update with (h := h); [apply _|by eapply grown_sub|done|].
      by replace (sl_off s + S i) with (S (sl_off s + i)) by lia. }
    assert (q ∉ R1') as HqR1' by (eapply grown_fresh; [exact Hg|by eexists]).
    unfold h2 in Hg'. rewrite delete_insert_eq in Hg'.
    apply (grown_delete _ _ q) in Hg; [|by eexists].
    exists (y :: zs), h', (R1' ++ R' ++ []). split_and!.
    + cbn [for_from]. rewrite (bind_step _ _ h tt h2); [exact Hloop|].
      rewrite (bind_step _ _ _ _ _ (slice_at_step s c xs i x h Hc Hu Hx ltac:(lia))), (bind_step _ _ _ _ _ Hcy).
      rewrite (slice_set_step (Slice q 0 (sl_len s) cap) _ _ i y h1 Hq1 (unbox_box _)); cbn [sl_array sl_off sl_len];
        [|lia|rewrite length_app; cbn; lia].
      unfold h2. rewrite insert_app_r_alt by lia. replace (0 + i - length ys) with 0 by lia. done.
    + rewrite Hq', <-app_assoc. done.
    + cbn. lia.
    + cbn [view_list]. unfold mbind, view_bind.
      assert (rd y h' = Some (a, R1')) as ->.
      { apply (local_frame _ _ _ _ Hy). intros p Hp. assert (p ≠ q) by congruence.
        destruct (local_dom _ _ _ _ Hy Hp) as [cp Hcp]. rewrite Hcp.
        apply (lookup_weaken (delete q h1) h'); [by rewrite lookup_delete_ne by congruence|].
        etrans; [by eapply grown_sub|apply delete_subseteq]. }
      by rewrite Hzs.
    + eapply grown_app; [exact Hg|]. by rewrite app_nil_r.
Qed.

(** The array a slice is a window of, and what the elements read as. *)
Lemma view_slice_Some `{Cell C (list T)} s h a R :
  view_slice rd (Some s) h = Some (a, R) → ∃ c xs l R1,
  h !! sl_array s = Some c ∧ unbox c = Some xs ∧ sl_off s + sl_len s ≤ length xs ∧
  view_list rd (take (sl_len s) (drop (sl_off s) xs)) h = Some (l, R1) ∧ a = Some l ∧ R = sl_array s :: R1 ++ [].
Proof.
  cbn. intros (xs & R0 & a0 & R1 & Hxs & Hv & [= -> ->])%view_bind_Some.
  unfold deref in Hxs. destruct (h !! sl_array s) as [c|]; [|done]. cbn in Hxs.
  destruct (unbox c) as [xs0|] eqn:Hu; [|done]. injection Hxs as -> <-.
  destruct (window s xs) as [ys|] eqn:Hw; [|done]. apply window_Some in Hw as [Hl ->].
  apply view_bind_Some in Hv as (l & R2 & a1 & R3 & Hl' & [= <- <-] & [= -> ->]). by exists c, xs, l, R2.
Qed.

Lemma deref_new_slice `{Cell C (list T)} h h' q cap (zs : list T) l R :
  h !! q = None → h' !! q = Some (box zs) → view_list rd zs h' = Some (l, R) → grown h (delete q h') R →
  view_slice rd (Some (Slice q 0 (length zs) cap)) h' = Some (Some l, q :: R ++ []) ∧ grown h h' (q :: R ++ []).
Proof.
  intros Hq Hq' Hzs Hg. split.
  - cbn. unfold mbind, view_bind, deref. rewrite Hq'. cbn. rewrite unbox_box.
    unfold window. cbn. rewrite bool_decide_true by lia. rewrite drop_0, firstn_all, Hzs. done.
  - rewrite app_nil_r. apply grown_own; [done|by eexists|done].
Qed.

Lemma deep_slice `{Cell C (list T), Zero T} : deep into rd → deep (copy_slice into) (view_slice rd).
Proof.
  intros Hd [s|] h a R Hv; [|injection Hv as <- <-; exists None, h, []; split_and!; [done..|apply grown_refl]].
  apply view_slice_Some in Hv as (c & xs & l & R1 & Hc & Hu & Hlen & Hl & -> & ->).
  set (q := fresh (dom h)). pose proof (fresh_lookup h : h !! q = None) as Hq.
  set (h1 := <[q := box (replicate (sl_len s) (zero : T))]> h).
  assert (h ⊆ h1) as Hs by by apply insert_subseteq.
  assert (q ∉ R1) as HqR by (exact (view_bound _ _ _ _ _ Hl Hq)).
  destruct (copy_loop s c xs q (sl_len s) Hd Hu Hlen ltac:(congruence) (sl_len s) 0 [] h1 l R1)
    as (zs & h' & R' & Hloop & Hq' & Hlz & Hzs & Hg); [lia|done| | | |done|].
  { unfold h1. rewrite lookup_insert_ne by congruence. done. }
  { unfold h1. by rewrite lookup_insert_eq. }
  { rewrite Nat.add_0_r. exact (view_mono _ _ _ _ Hs Hl). }
  unfold h1 in Hg. rewrite delete_insert_id in Hg by done.
  destruct (deref_new_slice h h' q (sl_len s) zs l R' Hq Hq' Hzs Hg) as [Hr Hg'].
  rewrite Hlz in Hr. exists (Some (Slice q 0 (sl_len s) (sl_len s))), h', (q :: R' ++ []). split; [|by split].
  cbn [copy_slice]. rewrite (bind_step _ _ _ _ _ (make_slice_step _ _)). fold q h1.
  by rewrite (bind_step _ _ _ _ _ Hloop).
Qed.

End shapes.

Section flat.
Context `{MapRange} {T : Type}.

Lemma view_list_flat (xs : list T) h : view_list view_flat xs h = Some (xs, []).
Proof. induction xs as [|x xs IH]; [done|]. cbn. unfold mbind, view_bind. cbn. by rewrite IH. Qed.

Lemma deep_flat_slice `{Cell C (list T), Zero T} : deep (copy_flat_slice (T := T)) (view_slice view_flat).
Proof.
  intros [s|] h a R Hv; [|injection Hv as <- <-; exists None, h, []; split_and!; [done..|apply grown_refl]].
  apply view_slice_Some in Hv as (c & xs & l & R1 & Hc & Hu & Hlen & Hl & -> & ->).
  rewrite view_list_flat in Hl. injection Hl as <- <-.
  set (q := fresh (dom h)). pose proof (fresh_lookup h : h !! q = None) as Hq.
  set (h1 := <[q := box (replicate (sl_len s) (zero : T))]> h). set (zs := take (sl_len s) (drop (sl_off s) xs)).
  assert (length zs = sl_len s) as Hlz by (unfold zs; rewrite length_take, length_drop; lia).
  assert (h1 !! q = Some (box (replicate (sl_len s) (zero : T)))) as Hq1 by apply lookup_insert_eq.
  destruct (deref_new_slice view_flat h (<[q := box zs]> h1) q (sl_len s) zs zs [] Hq) as [Hr Hg'];
    [by rewrite lookup_insert_eq|apply view_list_flat| |].
  { unfold h1. rewrite delete_insert_eq, delete_insert_id by done. apply grown_refl. }
  rewrite Hlz in Hr. exists (Some (Slice q 0 (sl_len s) (sl_len s))), (<[q := box zs]> h1), [q]. split; [|by split].
  cbn [copy_flat_slice]. rewrite (bind_step _ _ _ _ _ (make_slice_step _ _)). fold q h1.
  rewrite (bind_step _ _ h1 tt (<[q := box zs]> h1)); [done|]. unfold copy_elements.
  rewrite (bind_step _ _ h1 xs h1); [|apply (load_step _ c); [by unfold h1; rewrite lookup_insert_ne by congruence|done]].
  rewrite (bind_step _ _ _ _ _ (load_step q _ _ h1 Hq1 (unbox_box _))).
  assert (window s xs = Some zs) as -> by by apply window_Some.
  unfold window. cbn [sl_off sl_len sl_array]. rewrite bool_decide_true by (rewrite length_replicate; lia).
  rewrite store_step by by eexists.
  cbn. rewrite Nat.min_id, (take_ge zs) by lia. rewrite drop_ge by (rewrite length_replicate; lia). by rewrite app_nil_r.
Qed.

(** The loop that fills a map: [m] is what was put there before. *)
Lemma fill_map `{Cell C (gmap string T)} q (l : list (string * T)) : ∀ (m : gmap string T) h, h !! q = Some (box m) →
  for_each l (fun '(key, val) => m' ← load (T := gmap string T) q; store q (<[key := val]> m')) h =
  Some (tt, <[q := box (foldl (fun m kv => <[kv.1 := kv.2]> m) m l)]> h).
Proof.
  induction l as [|[key val] l IH]; intros m h Hq; cbn [for_each foldl]; [by rewrite insert_id|].
  rewrite (bind_step _ _ h tt (<[q := box (<[key := val]> m)]> h)).
  - rewrite (IH (<[key := val]> m)) by apply lookup_insert_eq. by rewrite insert_insert_eq.
  - rewrite (bind_step _ _ _ _ _ (load_step _ _ _ _ Hq (unbox_box _))). apply store_step. by eexists.
Qed.

(** Ranging over a map and inserting every entry gives the map, in any order. *)
Lemma insert_range (m : gmap string T) loop : foldl (fun m kv => <[kv.1 := kv.2]> m) ∅ (range loop m) = m.
Proof.
  transitivity (list_to_map (reverse (range loop m)) : gmap string T).
  { rewrite <-(reverse_involutive (range loop m)) at 1. induction (reverse (range loop m)) as [|[k v] l IH]; [done|].
    rewrite reverse_cons, foldl_app, IH. done. }
  rewrite <-(list_to_map_to_list m) at 2. apply list_to_map_proper.
  - rewrite (fmap_Permutation fst _ _ (reverse_Permutation _)). apply NoDup_fst_range.
  - by rewrite reverse_Permutation, range_perm.
Qed.

Lemma deep_map `{Cell C (gmap string T)} : deep (copy_map (T := T)) view_map.
Proof.
  intros [p|] h a R Hv; [|injection Hv as <- <-; exists None, h, []; split_and!; [done..|apply grown_refl]].
  apply view_bind_Some in Hv as (m & R1 & a1 & R2 & Hp & Hv & [= -> ->]).
  unfold deref in Hp. destruct (h !! p) as [c|] eqn:Hc; [|done]. cbn in Hp.
  destruct (unbox c) as [m0|] eqn:Hu; [|done]. injection Hp as -> <-. injection Hv as <- <-.
  set (q := fresh (dom h)). pose proof (fresh_lookup h : h !! q = None) as Hq.
  set (h1 := <[q := box (∅ : gmap string T)]> h). assert (h1 !! q = Some (box (∅ : gmap string T))) as Hq1 by apply lookup_insert_eq.
  destruct (deref_new view_flat h h1 q (box (∅ : gmap string T)) m m [] Hq) as [Hr Hg]; [done|apply grown_refl|done|].
  exists (Some q), (<[q := box m]> h1), [q]. split; [|by split].
  cbn [copy_map]. rewrite (bind_step _ _ h q h1) by done.
  rewrite (bind_step _ _ h1 m h1); [|apply (load_step _ c); [by unfold h1; rewrite lookup_insert_ne by congruence|done]].
  by rewrite (bind_step _ _ _ _ _ (fill_map q _ _ _ Hq1)), insert_range.
Qed.
End flat.
End copies.

(** Which view a copy is deep for is found by instance search. *)
Existing Class deep.
#[export] Hint Mode deep - - - ! - : typeclass_instances.
#[export] Existing Instances deep_ret deep_flat_slice deep_map.

#[export] Instance deep_pointer_of {C T A} (into : T → mem C T) (rd : T → view C A) `{Cell C T, Zero T} :
  deep into rd → (∀ x, Local (rd x)) → deep (copy_pointer into) (view_pointer rd).
Proof. intros Hd ?. by apply deep_pointer. Qed.

#[export] Instance deep_slice_of {C T A} (into : T → mem C T) (rd : T → view C A) `{Cell C (list T), Zero T} :
  deep into rd → (∀ x, Local (rd x)) → deep (copy_slice into) (view_slice rd).
Proof. intros Hd ?. by apply deep_slice. Qed.

(** ** Structs: one field after the other *)
Section fields.
Context {C : Type}.

Definition copied_from {T A} (h0 : heap C) (c : mem C T) (h : heap C) (rd : T → view C A) (a : A) : Prop :=
  ∃ y h' R', c h = Some (y, h') ∧ rd y h' = Some (a, R') ∧ grown h0 h' R'.

Lemma copy_field {T A U B} (into : T → mem C T) (rd : T → view C A) `{Hd : !deep into rd} (k : T → mem C U)
    (rd' : U → view C B) x h0 h a R b :
  rd x h = Some (a, R) →
  (∀ y h1 R1, rd y h1 = Some (a, R1) → grown h h1 R1 → copied_from h0 (k y) h1 rd' b) →
  copied_from h0 (into x ≫= k) h rd' b.
Proof.
  intros Hv Hk. destruct (Hd _ _ _ _ Hv) as (y & h1 & R1 & Hy & Hr & Hg).
  destruct (Hk y h1 R1 Hr Hg) as (z & h2 & R2 & Hz & ?). exists z, h2, R2. by rewrite (bind_step _ _ _ _ _ Hy).
Qed.

Lemma copied_deep {T A} (into : T → mem C T) (rd : T → view C A) :
  (∀ x h a R, rd x h = Some (a, R) → copied_from h (into x) h rd a) → deep into rd.
Proof. intros Hc x h a R Hv. exact (Hc x h a R Hv). Qed.
End fields.

(** Split what is known of a view of a struct into its fields. *)
Ltac split_view :=
  repeat match goal with
  | H : (_ ≫= _) _ = Some _ |- _ => apply view_bind_Some in H as (? & ? & ? & ? & ? & ? & [= -> ->])
  | H : mret _ _ = Some _ |- _ => injection H as <- <-
  end.

(** Views of a heap hold of a larger one. *)
Ltac move_views Hg :=
  repeat match type of Hg with
  | grown ?h ?h1 _ =>
    match goal with H : ?v h = Some _ |- _ => apply (view_mono v h h1 _ (grown_sub _ _ _ Hg)) in H end
  end.

(** Copy the fields whose copies are deep, and collect what was added. *)
Ltac copy_fields :=
  repeat (eapply copy_field; [typeclasses eauto|eassumption|];
    let Hg := fresh "Hg" in intros ? ? ? ? Hg; move_views Hg).

Ltac finish_copy :=
  eexists _, _, _; split; [reflexivity|]; split;
  [unfold mbind, view_bind; cbn; repeat match goal with H : _ = Some _ |- _ => rewrite H; clear H end; reflexivity|
   repeat (eapply grown_app; [eassumption|]); apply grown_refl].
