(* ===== verification/Layout.v ===== *)
(** * Layout: the custom resources in memory

    The structs of [api/] with their pointers, slices and maps.  Each record
    is defined once for two representations: in memory ([in_memory]), where a
    pointer is a location and a slice a window of an array, and as a tree
    ([as_tree]), where everything is in place and only nil is told apart.
    [view_T] reads the tree of a struct off the heap.

    Of [ObjectMeta] and [ListMeta] the model has the fields the program looks
    at. *)

From S2P Require Import Prelude Memory Copying.

#[local] Set Implicit Arguments.

Record rep := { ptr : Type → Type; slc : Type → Type; dict : Type → Type }.

Definition in_memory : rep :=
  {| ptr _ := option loc; slc _ := option slice; dict _ := option loc |}.
Definition as_tree : rep :=
  {| ptr T := option T; slc T := option (list T); dict T := option (gmap string T) |}.

(** ** k8s.io/apimachinery/pkg/apis/meta/v1 *)
Record TypeMeta := { tm_Kind : string; tm_APIVersion : string }.

Record ObjectMeta (r : rep) := {
  om_Name : string;
  om_Namespace : string;
  om_Annotations : dict r string
}.

Record ListMeta (r : rep) := {
  lm_ResourceVersion : string;
  lm_Continue : string;
  lm_RemainingItemCount : ptr r Z
}.

Record Condition := {
  cd_Type : string;
  cd_Status : string;
  cd_ObservedGeneration : Z;
  cd_LastTransitionTime : Z;
  cd_Reason : string;
  cd_Message : string
}.

(** ** api/dashboard/v1alpha1 *)
Record LocalObjectReference := { lor_Name : string }.

Record URLSource (r : rep) := {
  us_IngressRef : ptr r LocalObjectReference;
  us_RouteRef : ptr r LocalObjectReference;
  us_IngressRouteRef : ptr r LocalObjectReference;
  us_HTTPRouteRef : ptr r LocalObjectReference;
  us_GRPCRouteRef : ptr r LocalObjectReference;
  us_ServiceRef : ptr r LocalObjectReference
}.

Record BookmarkSpec (r : rep) := {
  bs_Group : string;
  bs_Name : string;
  bs_URL : string;
  bs_URLFrom : ptr r (URLSource r);
  bs_Target : string;
  bs_Icon : string;
  bs_NetworkRestricted : bool;
  bs_Replicate : bool;
  bs_Groups : slc r string;
  bs_Properties : dict r string
}.

Record BookmarkStatus (r : rep) := {
  bst_URLReachable : ptr r bool;
  bst_LastURLCheckAt : ptr r Z;
  bst_URLCheckError : string;
  bst_LastSyncedAt : ptr r Z;
  bst_Conditions : slc r Condition
}.

Record Bookmark (r : rep) := {
  b_TypeMeta : TypeMeta;
  b_ObjectMeta : ObjectMeta r;
  b_Spec : BookmarkSpec r;
  b_Status : BookmarkStatus r
}.

Record BookmarkList (r : rep) := {
  bl_TypeMeta : TypeMeta;
  bl_ListMeta : ListMeta r;
  bl_Items : slc r (Bookmark r)
}.

Record BookmarkGroupSpec (r : rep) := {
  bgs_Name : string;
  bgs_Properties : dict r string;
  bgs_Replicate : bool
}.

Record BookmarkGroupStatus (r : rep) := {
  bgst_BookmarkCount : Z;
  bgst_LastSyncedAt : ptr r Z;
  bgst_Conditions : slc r Condition
}.

Record BookmarkGroup (r : rep) := {
  bg_TypeMeta : TypeMeta;
  bg_ObjectMeta : ObjectMeta r;
  bg_Spec : BookmarkGroupSpec r;
  bg_Status : BookmarkGroupStatus r
}.

Record BookmarkGroupList (r : rep) := {
  bgl_TypeMeta : TypeMeta;
  bgl_ListMeta : ListMeta r;
  bgl_Items : slc r (BookmarkGroup r)
}.

Record InfoTileQueryParam := { qp_Name : string; qp_Value : string }.
Record InfoTileHeader := { hd_Name : string; hd_Value : string }.

Record InfoTileHTTPRequest (r : rep) := {
  hr_Method : string;
  hr_URL : string;
  hr_QueryParams : slc r InfoTileQueryParam;
  hr_Headers : slc r InfoTileHeader;
  hr_Body : string
}.

Record InfoTileSpec (r : rep) := {
  its_Name : string;
  its_Group : string;
  its_Icon : string;
  its_URL : string;
  its_Target : string;
  its_Source : string;
  its_Interval : ptr r Z;
  its_Replicate : bool;
  its_HTTPRequest : ptr r (InfoTileHTTPRequest r);
  its_Processor : string
}.

Record InfoTileStatus (r : rep) := {
  itst_Content : string;
  itst_LastFetchedAt : ptr r Z;
  itst_LastError : string
}.

Record InfoTile (r : rep) := {
  it_TypeMeta : TypeMeta;
  it_ObjectMeta : ObjectMeta r;
  it_Spec : InfoTileSpec r;
  it_Status : InfoTileStatus r
}.

Record InfoTileList (r : rep) := {
  itl_TypeMeta : TypeMeta;
  itl_ListMeta : ListMeta r;
  itl_Items : slc r (InfoTile r)
}.

(** ** api/forecastle/v1alpha1 *)
Record ForecastleReference := { fr_Name : string }.

Record ForecastleURLSource (r : rep) := {
  fus_IngressRef : ptr r ForecastleReference;
  fus_RouteRef : ptr r ForecastleReference;
  fus_IngressRouteRef : ptr r ForecastleReference;
  fus_HTTPRouteRef : ptr r ForecastleReference
}.

Record ForecastleAppSpec (r : rep) := {
  fas_Name : string;
  fas_Instance : string;
  fas_Group : string;
  fas_Icon : string;
  fas_URL : string;
  fas_URLFrom : ptr r (ForecastleURLSource r);
  fas_NetworkRestricted : bool;
  fas_Groups : slc r string;
  fas_Properties : dict r string
}.

Record ForecastleAppStatus := {}.

Record ForecastleApp (r : rep) := {
  fa_TypeMeta : TypeMeta;
  fa_ObjectMeta : ObjectMeta r;
  fa_Spec : ForecastleAppSpec r;
  fa_Status : ForecastleAppStatus
}.

Record ForecastleAppList (r : rep) := {
  fal_TypeMeta : TypeMeta;
  fal_ListMeta : ListMeta r;
  fal_Items : slc r (ForecastleApp r)
}.

(** ** Cells

    What one location holds: a variable of one of these types, the array
    behind a slice, or a map. *)
Inductive cell :=
| CBool (x : bool)
| CInt (x : Z)
| CMap (x : gmap string string)
| CStrings (x : list string)
| CConditions (x : list Condition)
| CLocalObjectReference (x : LocalObjectReference)
| CURLSource (x : URLSource in_memory)
| CBookmarkSpec (x : BookmarkSpec in_memory)
| CBookmarkStatus (x : BookmarkStatus in_memory)
| CBookmark (x : Bookmark in_memory)
| CBookmarks (x : list (Bookmark in_memory))
| CBookmarkList (x : BookmarkList in_memory)
| CBookmarkGroupSpec (x : BookmarkGroupSpec in_memory)
| CBookmarkGroupStatus (x : BookmarkGroupStatus in_memory)
| CBookmarkGroup (x : BookmarkGroup in_memory)
| CBookmarkGroups (x : list (BookmarkGroup in_memory))
| CBookmarkGroupList (x : BookmarkGroupList in_memory)
| CQueryParam (x : InfoTileQueryParam)
| CQueryParams (x : list InfoTileQueryParam)
| CHeader (x : InfoTileHeader)
| CHeaders (x : list InfoTileHeader)
| CHTTPRequest (x : InfoTileHTTPRequest in_memory)
| CInfoTileSpec (x : InfoTileSpec in_memory)
| CInfoTileStatus (x : InfoTileStatus in_memory)
| CInfoTile (x : InfoTile in_memory)
| CInfoTiles (x : list (InfoTile in_memory))
| CInfoTileList (x : InfoTileList in_memory)
| CForecastleReference (x : ForecastleReference)
| CForecastleURLSource (x : ForecastleURLSource in_memory)
| CForecastleAppSpec (x : ForecastleAppSpec in_memory)
| CForecastleAppStatus (x : ForecastleAppStatus)
| CForecastleApp (x : ForecastleApp in_memory)
| CForecastleApps (x : list (ForecastleApp in_memory))
| CForecastleAppList (x : ForecastleAppList in_memory).

#[export] Instance cell_Bool : Cell cell bool :=
  {| box := CBool; unbox c := match c with CBool x => Some x | _ => None end; unbox_box _ := eq_refl |}.
#[export] Instance cell_Int : Cell cell Z :=
  {| box := CInt; unbox c := match c with CInt x => Some x | _ => None end; unbox_box _ := eq_refl |}.
#[export] Instance cell_Map : Cell cell (gmap string string) :=
  {| box := CMap; unbox c := match c with CMap x => Some x | _ => None end; unbox_box _ := eq_refl |}.
#[export] Instance cell_Strings : Cell cell (list string) :=
  {| box := CStrings; unbox c := match c with CStrings x => Some x | _ => None end; unbox_box _ := eq_refl |}.
#[export] Instance cell_Conditions : Cell cell (list Condition) :=
  {| box := CConditions; unbox c := match c with CConditions x => Some x | _ => None end; unbox_box _ := eq_refl |}.
#[export] Instance cell_LocalObjectReference : Cell cell LocalObjectReference :=
  {| box := CLocalObjectReference; unbox c := match c with CLocalObjectReference x => Some x | _ => None end; unbox_box _ := eq_refl |}.
#[export] Instance cell_URLSource : Cell cell (URLSource in_memory) :=
  {| box := CURLSource; unbox c := match c with CURLSource x => Some x | _ => None end; unbox_box _ := eq_refl |}.
#[export] Instance cell_BookmarkSpec : Cell cell (BookmarkSpec in_memory) :=
  {| box := CBookmarkSpec; unbox c := match c with CBookmarkSpec x => Some x | _ => None end; unbox_box _ := eq_refl |}.
#[export] Instance cell_BookmarkStatus : Cell cell (BookmarkStatus in_memory) :=
  {| box := CBookmarkStatus; unbox c := match c with CBookmarkStatus x => Some x | _ => None end; unbox_box _ := eq_refl |}.
#[export] Instance cell_Bookmark : Cell cell (Bookmark in_memory) :=
  {| box := CBookmark; unbox c := match c with CBookmark x => Some x | _ => None end; unbox_box _ := eq_refl |}.
#[export] Instance cell_Bookmarks : Cell cell (list (Bookmark in_memory)) :=
  {| box := CBookmarks; unbox c := match c with CBookmarks x => Some x | _ => None end; unbox_box _ := eq_refl |}.
#[export] Instance cell_BookmarkList : Cell cell (BookmarkList in_memory) :=
  {| box := CBookmarkList; unbox c := match c with CBookmarkList x => Some x | _ => None end; unbox_box _ := eq_refl |}.
#[export] Instance cell_BookmarkGroupSpec : Cell cell (BookmarkGroupSpec in_memory) :=
  {| box := CBookmarkGroupSpec; unbox c := match c with CBookmarkGroupSpec x => Some x | _ => None end; unbox_box _ := eq_refl |}.
#[export] Instance cell_BookmarkGroupStatus : Cell cell (BookmarkGroupStatus in_memory) :=
  {| box := CBookmarkGroupStatus; unbox c := match c with CBookmarkGroupStatus x => Some x | _ => None end; unbox_box _ := eq_refl |}.
#[export] Instance cell_BookmarkGroup : Cell cell (BookmarkGroup in_memory) :=
  {| box := CBookmarkGroup; unbox c := match c with CBookmarkGroup x => Some x | _ => None end; unbox_box _ := eq_refl |}.
#[export] Instance cell_BookmarkGroups : Cell cell (list (BookmarkGroup in_memory)) :=
  {| box := CBookmarkGroups; unbox c := match c with CBookmarkGroups x => Some x | _ => None end; unbox_box _ := eq_refl |}.
#[export] Instance cell_BookmarkGroupList : Cell cell (BookmarkGroupList in_memory) :=
  {| box := CBookmarkGroupList; unbox c := match c with CBookmarkGroupList x => Some x | _ => None end; unbox_box _ := eq_refl |}.
#[export] Instance cell_QueryParam : Cell cell InfoTileQueryParam :=
  {| box := CQueryParam; unbox c := match c with CQueryParam x => Some x | _ => None end; unbox_box _ := eq_refl |}.
#[export] Instance cell_QueryParams : Cell cell (list InfoTileQueryParam) :=
  {| box := CQueryParams; unbox c := match c with CQueryParams x => Some x | _ => None end; unbox_box _ := eq_refl |}.
#[export] Instance cell_Header : Cell cell InfoTileHeader :=
  {| box := CHeader; unbox c := match c with CHeader x => Some x | _ => None end; unbox_box _ := eq_refl |}.
#[export] Instance cell_Headers : Cell cell (list InfoTileHeader) :=
  {| box := CHeaders; unbox c := match c with CHeaders x => Some x | _ => None end; unbox_box _ := eq_refl |}.
#[export] Instance cell_HTTPRequest : Cell cell (InfoTileHTTPRequest in_memory) :=
  {| box := CHTTPRequest; unbox c := match c with CHTTPRequest x => Some x | _ => None end; unbox_box _ := eq_refl |}.
#[export] Instance cell_InfoTileSpec : Cell cell (InfoTileSpec in_memory) :=
  {| box := CInfoTileSpec; unbox c := match c with CInfoTileSpec x => Some x | _ => None end; unbox_box _ := eq_refl |}.
#[export] Instance cell_InfoTileStatus : Cell cell (InfoTileStatus in_memory) :=
  {| box := CInfoTileStatus; unbox c := match c with CInfoTileStatus x => Some x | _ => None end; unbox_box _ := eq_refl |}.
#[export] Instance cell_InfoTile : Cell cell (InfoTile in_memory) :=
  {| box := CInfoTile; unbox c := match c with CInfoTile x => Some x | _ => None end; unbox_box _ := eq_refl |}.
#[export] Instance cell_InfoTiles : Cell cell (list (InfoTile in_memory)) :=
  {| box := CInfoTiles; unbox c := match c with CInfoTiles x => Some x | _ => None end; unbox_box _ := eq_refl |}.
#[export] Instance cell_InfoTileList : Cell cell (InfoTileList in_memory) :=
  {| box := CInfoTileList; unbox c := match c with CInfoTileList x => Some x | _ => None end; unbox_box _ := eq_refl |}.
#[export] Instance cell_ForecastleReference : Cell cell ForecastleReference :=
  {| box := CForecastleReference; unbox c := match c with CForecastleReference x => Some x | _ => None end; unbox_box _ := eq_refl |}.
#[export] Instance cell_ForecastleURLSource : Cell cell (ForecastleURLSource in_memory) :=
  {| box := CForecastleURLSource; unbox c := match c with CForecastleURLSource x => Some x | _ => None end; unbox_box _ := eq_refl |}.
#[export] Instance cell_ForecastleAppSpec : Cell cell (ForecastleAppSpec in_memory) :=
  {| box := CForecastleAppSpec; unbox c := match c with CForecastleAppSpec x => Some x | _ => None end; unbox_box _ := eq_refl |}.
#[export] Instance cell_ForecastleAppStatus : Cell cell ForecastleAppStatus :=
  {| box := CForecastleAppStatus; unbox c := match c with CForecastleAppStatus x => Some x | _ => None end; unbox_box _ := eq_refl |}.
#[export] Instance cell_ForecastleApp : Cell cell (ForecastleApp in_memory) :=
  {| box := CForecastleApp; unbox c := match c with CForecastleApp x => Some x | _ => None end; unbox_box _ := eq_refl |}.
#[export] Instance cell_ForecastleApps : Cell cell (list (ForecastleApp in_memory)) :=
  {| box := CForecastleApps; unbox c := match c with CForecastleApps x => Some x | _ => None end; unbox_box _ := eq_refl |}.
#[export] Instance cell_ForecastleAppList : Cell cell (ForecastleAppList in_memory) :=
  {| box := CForecastleAppList; unbox c := match c with CForecastleAppList x => Some x | _ => None end; unbox_box _ := eq_refl |}.

(** ** Zero values *)
#[export] Instance zero_TypeMeta : Zero TypeMeta :=
  {| tm_Kind := zero; tm_APIVersion := zero |}.
#[export] Instance zero_ObjectMeta : Zero (ObjectMeta in_memory) :=
  {| om_Name := zero; om_Namespace := zero; om_Annotations := zero |}.
#[export] Instance zero_ListMeta : Zero (ListMeta in_memory) :=
  {| lm_ResourceVersion := zero; lm_Continue := zero; lm_RemainingItemCount := zero |}.
#[export] Instance zero_Condition : Zero Condition :=
  {| cd_Type := zero; cd_Status := zero; cd_ObservedGeneration := zero; cd_LastTransitionTime := zero; cd_Reason := zero; cd_Message := zero |}.
#[export] Instance zero_LocalObjectReference : Zero LocalObjectReference :=
  {| lor_Name := zero |}.
#[export] Instance zero_URLSource : Zero (URLSource in_memory) :=
  {| us_IngressRef := zero; us_RouteRef := zero; us_IngressRouteRef := zero; us_HTTPRouteRef := zero; us_GRPCRouteRef := zero; us_ServiceRef := zero |}.
#[export] Instance zero_BookmarkSpec : Zero (BookmarkSpec in_memory) :=
  {| bs_Group := zero; bs_Name := zero; bs_URL := zero; bs_URLFrom := zero; bs_Target := zero; bs_Icon := zero; bs_NetworkRestricted := zero; bs_Replicate := zero; bs_Groups := zero; bs_Properties := zero |}.
#[export] Instance zero_BookmarkStatus : Zero (BookmarkStatus in_memory) :=
  {| bst_URLReachable := zero; bst_LastURLCheckAt := zero; bst_URLCheckError := zero; bst_LastSyncedAt := zero; bst_Conditions := zero |}.
#[export] Instance zero_Bookmark : Zero (Bookmark in_memory) :=
  {| b_TypeMeta := zero; b_ObjectMeta := zero; b_Spec := zero; b_Status := zero |}.
#[export] Instance zero_BookmarkList : Zero (BookmarkList in_memory) :=
  {| bl_TypeMeta := zero; bl_ListMeta := zero; bl_Items := zero |}.
#[export] Instance zero_BookmarkGroupSpec : Zero (BookmarkGroupSpec in_memory) :=
  {| bgs_Name := zero; bgs_Properties := zero; bgs_Replicate := zero |}.
#[export] Instance zero_BookmarkGroupStatus : Zero (BookmarkGroupStatus in_memory) :=
  {| bgst_BookmarkCount := zero; bgst_LastSyncedAt := zero; bgst_Conditions := zero |}.
#[export] Instance zero_BookmarkGroup : Zero (BookmarkGroup in_memory) :=
  {| bg_TypeMeta := zero; bg_ObjectMeta := zero; bg_Spec := zero; bg_Status := zero |}.
#[export] Instance zero_BookmarkGroupList : Zero (BookmarkGroupList in_memory) :=
  {| bgl_TypeMeta := zero; bgl_ListMeta := zero; bgl_Items := zero |}.
#[export] Instance zero_InfoTileQueryParam : Zero InfoTileQueryParam :=
  {| qp_Name := zero; qp_Value := zero |}.
#[export] Instance zero_InfoTileHeader : Zero InfoTileHeader :=
  {| hd_Name := zero; hd_Value := zero |}.
#[export] Instance zero_InfoTileHTTPRequest : Zero (InfoTileHTTPRequest in_memory) :=
  {| hr_Method := zero; hr_URL := zero; hr_QueryParams := zero; hr_Headers := zero; hr_Body := zero |}.
#[export] Instance zero_InfoTileSpec : Zero (InfoTileSpec in_memory) :=
  {| its_Name := zero; its_Group := zero; its_Icon := zero; its_URL := zero; its_Target := zero; its_Source := zero; its_Interval := zero; its_Replicate := zero; its_HTTPRequest := zero; its_Processor := zero |}.
#[export] Instance zero_InfoTileStatus : Zero (InfoTileStatus in_memory) :=
  {| itst_Content := zero; itst_LastFetchedAt := zero; itst_LastError := zero |}.
#[export] Instance zero_InfoTile : Zero (InfoTile in_memory) :=
  {| it_TypeMeta := zero; it_ObjectMeta := zero; it_Spec := zero; it_Status := zero |}.
#[export] Instance zero_InfoTileList : Zero (InfoTileList in_memory) :=
  {| itl_TypeMeta := zero; itl_ListMeta := zero; itl_Items := zero |}.
#[export] Instance zero_ForecastleReference : Zero ForecastleReference :=
  {| fr_Name := zero |}.
#[export] Instance zero_ForecastleURLSource : Zero (ForecastleURLSource in_memory) :=
  {| fus_IngressRef := zero; fus_RouteRef := zero; fus_IngressRouteRef := zero; fus_HTTPRouteRef := zero |}.
#[export] Instance zero_ForecastleAppSpec : Zero (ForecastleAppSpec in_memory) :=
  {| fas_Name := zero; fas_Instance := zero; fas_Group := zero; fas_Icon := zero; fas_URL := zero; fas_URLFrom := zero; fas_NetworkRestricted := zero; fas_Groups := zero; fas_Properties := zero |}.
#[export] Instance zero_ForecastleAppStatus : Zero ForecastleAppStatus := Build_ForecastleAppStatus.
#[export] Instance zero_ForecastleApp : Zero (ForecastleApp in_memory) :=
  {| fa_TypeMeta := zero; fa_ObjectMeta := zero; fa_Spec := zero; fa_Status := zero |}.
#[export] Instance zero_ForecastleAppList : Zero (ForecastleAppList in_memory) :=
  {| fal_TypeMeta := zero; fal_ListMeta := zero; fal_Items := zero |}.

(** ** Reading trees off the heap *)
Definition view_ObjectMeta (x : ObjectMeta in_memory) : view cell (ObjectMeta as_tree) :=
  Annotations ← view_map (om_Annotations x);
  mret {| om_Name := om_Name x; om_Namespace := om_Namespace x; om_Annotations := Annotations |}.

Definition view_ListMeta (x : ListMeta in_memory) : view cell (ListMeta as_tree) :=
  RemainingItemCount ← view_pointer view_flat (lm_RemainingItemCount x);
  mret {| lm_ResourceVersion := lm_ResourceVersion x; lm_Continue := lm_Continue x;
          lm_RemainingItemCount := RemainingItemCount |}.

Definition view_URLSource (x : URLSource in_memory) : view cell (URLSource as_tree) :=
  IngressRef ← view_pointer view_flat (us_IngressRef x);
  RouteRef ← view_pointer view_flat (us_RouteRef x);
  IngressRouteRef ← view_pointer view_flat (us_IngressRouteRef x);
  HTTPRouteRef ← view_pointer view_flat (us_HTTPRouteRef x);
  GRPCRouteRef ← view_pointer view_flat (us_GRPCRouteRef x);
  ServiceRef ← view_pointer view_flat (us_ServiceRef x);
  mret {| us_IngressRef := IngressRef; us_RouteRef := RouteRef; us_IngressRouteRef := IngressRouteRef;
          us_HTTPRouteRef := HTTPRouteRef; us_GRPCRouteRef := GRPCRouteRef; us_ServiceRef := ServiceRef |}.

Definition view_BookmarkSpec (x : BookmarkSpec in_memory) : view cell (BookmarkSpec as_tree) :=
  URLFrom ← view_pointer view_URLSource (bs_URLFrom x);
  Groups ← view_slice view_flat (bs_Groups x);
  Properties ← view_map (bs_Properties x);
  mret {| bs_Group := bs_Group x; bs_Name := bs_Name x; bs_URL := bs_URL x; bs_URLFrom := URLFrom;
          bs_Target := bs_Target x; bs_Icon := bs_Icon x; bs_NetworkRestricted := bs_NetworkRestricted x;
          bs_Replicate := bs_Replicate x; bs_Groups := Groups; bs_Properties := Properties |}.

Definition view_BookmarkStatus (x : BookmarkStatus in_memory) : view cell (BookmarkStatus as_tree) :=
  URLReachable ← view_pointer view_flat (bst_URLReachable x);
  LastURLCheckAt ← view_pointer view_flat (bst_LastURLCheckAt x);
  LastSyncedAt ← view_pointer view_flat (bst_LastSyncedAt x);
  Conditions ← view_slice view_flat (bst_Conditions x);
  mret {| bst_URLReachable := URLReachable; bst_LastURLCheckAt := LastURLCheckAt;
          bst_URLCheckError := bst_URLCheckError x; bst_LastSyncedAt := LastSyncedAt;
          bst_Conditions := Conditions |}.

Definition view_Bookmark (x : Bookmark in_memory) : view cell (Bookmark as_tree) :=
  ObjectMeta ← view_ObjectMeta (b_ObjectMeta x);
  Spec ← view_BookmarkSpec (b_Spec x);
  Status ← view_BookmarkStatus (b_Status x);
  mret {| b_TypeMeta := b_TypeMeta x; b_ObjectMeta := ObjectMeta; b_Spec := Spec; b_Status := Status |}.

Definition view_BookmarkList (x : BookmarkList in_memory) : view cell (BookmarkList as_tree) :=
  ListMeta ← view_ListMeta (bl_ListMeta x);
  Items ← view_slice view_Bookmark (bl_Items x);
  mret {| bl_TypeMeta := bl_TypeMeta x; bl_ListMeta := ListMeta; bl_Items := Items |}.

Definition view_BookmarkGroupSpec (x : BookmarkGroupSpec in_memory) : view cell (BookmarkGroupSpec as_tree) :=
  Properties ← view_map (bgs_Properties x);
  mret {| bgs_Name := bgs_Name x; bgs_Properties := Properties; bgs_Replicate := bgs_Replicate x |}.

Definition view_BookmarkGroupStatus (x : BookmarkGroupStatus in_memory) : view cell (BookmarkGroupStatus as_tree) :=
  LastSyncedAt ← view_pointer view_flat (bgst_LastSyncedAt x);
  Conditions ← view_slice view_flat (bgst_Conditions x);
  mret {| bgst_BookmarkCount := bgst_BookmarkCount x; bgst_LastSyncedAt := LastSyncedAt;
          bgst_Conditions := Conditions |}.

Definition view_BookmarkGroup (x : BookmarkGroup in_memory) : view cell (BookmarkGroup as_tree) :=
  ObjectMeta ← view_ObjectMeta (bg_ObjectMeta x);
  Spec ← view_BookmarkGroupSpec (bg_Spec x);
  Status ← view_BookmarkGroupStatus (bg_Status x);
  mret {| bg_TypeMeta := bg_TypeMeta x; bg_ObjectMeta := ObjectMeta; bg_Spec := Spec; bg_Status := Status |}.

Definition view_BookmarkGroupList (x : BookmarkGroupList in_memory) : view cell (BookmarkGroupList as_tree) :=
  ListMeta ← view_ListMeta (bgl_ListMeta x);
  Items ← view_slice view_BookmarkGroup (bgl_Items x);
  mret {| bgl_TypeMeta := bgl_TypeMeta x; bgl_ListMeta := ListMeta; bgl_Items := Items |}.

Definition view_InfoTileHTTPRequest (x : InfoTileHTTPRequest in_memory) : view cell (InfoTileHTTPRequest as_tree) :=
  QueryParams ← view_slice view_flat (hr_QueryParams x);
  Headers ← view_slice view_flat (hr_Headers x);
  mret {| hr_Method := hr_Method x; hr_URL := hr_URL x; hr_QueryParams := QueryParams; hr_Headers := Headers;
          hr_Body := hr_Body x |}.

Definition view_InfoTileSpec (x : InfoTileSpec in_memory) : view cell (InfoTileSpec as_tree) :=
  Interval ← view_pointer view_flat (its_Interval x);
  HTTPRequest ← view_pointer view_InfoTileHTTPRequest (its_HTTPRequest x);
  mret {| its_Name := its_Name x; its_Group := its_Group x; its_Icon := its_Icon x; its_URL := its_URL x;
          its_Target := its_Target x; its_Source := its_Source x; its_Interval := Interval;
          its_Replicate := its_Replicate x; its_HTTPRequest := HTTPRequest; its_Processor := its_Processor x |}.

Definition view_InfoTileStatus (x : InfoTileStatus in_memory) : view cell (InfoTileStatus as_tree) :=
  LastFetchedAt ← view_pointer view_flat (itst_LastFetchedAt x);
  mret {| itst_Content := itst_Content x; itst_LastFetchedAt := LastFetchedAt;
          itst_LastError := itst_LastError x |}.

Definition view_InfoTile (x : InfoTile in_memory) : view cell (InfoTile as_tree) :=
  ObjectMeta ← view_ObjectMeta (it_ObjectMeta x);
  Spec ← view_InfoTileSpec (it_Spec x);
  Status ← view_InfoTileStatus (it_Status x);
  mret {| it_TypeMeta := it_TypeMeta x; it_ObjectMeta := ObjectMeta; it_Spec := Spec; it_Status := Status |}.

Definition view_InfoTileList (x : InfoTileList in_memory) : view cell (InfoTileList as_tree) :=
  ListMeta ← view_ListMeta (itl_ListMeta x);
  Items ← view_slice view_InfoTile (itl_Items x);
  mret {| itl_TypeMeta := itl_TypeMeta x; itl_ListMeta := ListMeta; itl_Items := Items |}.

Definition view_ForecastleURLSource (x : ForecastleURLSource in_memory) : view cell (ForecastleURLSource as_tree) :=
  IngressRef ← view_pointer view_flat (fus_IngressRef x);
  RouteRef ← view_pointer view_flat (fus_RouteRef x);
  IngressRouteRef ← view_pointer view_flat (fus_IngressRouteRef x);
  HTTPRouteRef ← view_pointer view_flat (fus_HTTPRouteRef x);
  mret {| fus_IngressRef := IngressRef; fus_RouteRef := RouteRef; fus_IngressRouteRef := IngressRouteRef;
          fus_HTTPRouteRef := HTTPRouteRef |}.

Definition view_ForecastleAppSpec (x : ForecastleAppSpec in_memory) : view cell (ForecastleAppSpec as_tree) :=
  URLFrom ← view_pointer view_ForecastleURLSource (fas_URLFrom x);
  Groups ← view_slice view_flat (fas_Groups x);
  Properties ← view_map (fas_Properties x);
  mret {| fas_Name := fas_Name x; fas_Instance := fas_Instance x; fas_Group := fas_Group x;
          fas_Icon := fas_Icon x; fas_URL := fas_URL x; fas_URLFrom := URLFrom;
          fas_NetworkRestricted := fas_NetworkRestricted x; fas_Groups := Groups; fas_Properties := Properties |}.

Definition view_ForecastleApp (x : ForecastleApp in_memory) : view cell (ForecastleApp as_tree) :=
  ObjectMeta ← view_ObjectMeta (fa_ObjectMeta x);
  Spec ← view_ForecastleAppSpec (fa_Spec x);
  mret {| fa_TypeMeta := fa_TypeMeta x; fa_ObjectMeta := ObjectMeta; fa_Spec := Spec; fa_Status := fa_Status x |}.

Definition view_ForecastleAppList (x : ForecastleAppList in_memory) : view cell (ForecastleAppList as_tree) :=
  ListMeta ← view_ListMeta (fal_ListMeta x);
  Items ← view_slice view_ForecastleApp (fal_Items x);
  mret {| fal_TypeMeta := fal_TypeMeta x; fal_ListMeta := ListMeta; fal_Items := Items |}.

(** Every view of this file is decided by the locations it lists. *)
#[export] Instance local_ObjectMeta x : Local (view_ObjectMeta x).
Proof. unfold view_ObjectMeta, view_map. apply _. Qed.
#[export] Instance local_ListMeta x : Local (view_ListMeta x).
Proof. unfold view_ListMeta, view_map. apply _. Qed.
#[export] Instance local_URLSource x : Local (view_URLSource x).
Proof. unfold view_URLSource, view_map. apply _. Qed.
#[export] Instance local_BookmarkSpec x : Local (view_BookmarkSpec x).
Proof. unfold view_BookmarkSpec, view_map. apply _. Qed.
#[export] Instance local_BookmarkStatus x : Local (view_BookmarkStatus x).
Proof. unfold view_BookmarkStatus, view_map. apply _. Qed.
#[export] Instance local_Bookmark x : Local (view_Bookmark x).
Proof. unfold view_Bookmark, view_map. apply _. Qed.
#[export] Instance local_BookmarkList x : Local (view_BookmarkList x).
Proof. unfold view_BookmarkList, view_map. apply _. Qed.
#[export] Instance local_BookmarkGroupSpec x : Local (view_BookmarkGroupSpec x).
Proof. unfold view_BookmarkGroupSpec, view_map. apply _. Qed.
#[export] Instance local_BookmarkGroupStatus x : Local (view_BookmarkGroupStatus x).
Proof. unfold view_BookmarkGroupStatus, view_map. apply _. Qed.
#[export] Instance local_BookmarkGroup x : Local (view_BookmarkGroup x).
Proof. unfold view_BookmarkGroup, view_map. apply _. Qed.
#[export] Instance local_BookmarkGroupList x : Local (view_BookmarkGroupList x).
Proof. unfold view_BookmarkGroupList, view_map. apply _. Qed.
#[export] Instance local_InfoTileHTTPRequest x : Local (view_InfoTileHTTPRequest x).
Proof. unfold view_InfoTileHTTPRequest, view_map. apply _. Qed.
#[export] Instance local_InfoTileSpec x : Local (view_InfoTileSpec x).
Proof. unfold view_InfoTileSpec, view_map. apply _. Qed.
#[export] Instance local_InfoTileStatus x : Local (view_InfoTileStatus x).
Proof. unfold view_InfoTileStatus, view_map. apply _. Qed.
#[export] Instance local_InfoTile x : Local (view_InfoTile x).
Proof. unfold view_InfoTile, view_map. apply _. Qed.
#[export] Instance local_InfoTileList x : Local (view_InfoTileList x).
Proof. unfold view_InfoTileList, view_map. apply _. Qed.
#[export] Instance local_ForecastleURLSource x : Local (view_ForecastleURLSource x).
Proof. unfold view_ForecastleURLSource, view_map. apply _. Qed.
#[export] Instance local_ForecastleAppSpec x : Local (view_ForecastleAppSpec x).
Proof. unfold view_ForecastleAppSpec, view_map. apply _. Qed.
#[export] Instance local_ForecastleApp x : Local (view_ForecastleApp x).
Proof. unfold view_ForecastleApp, view_map. apply _. Qed.
#[export] Instance local_ForecastleAppList x : Local (view_ForecastleAppList x).
Proof. unfold view_ForecastleAppList, view_map. apply _. Qed.
