(* ===== verification/DeepCopy.v ===== *)
(** * DeepCopy: the generated deep copies

    [api/dashboard/v1alpha1/zz_generated.deepcopy.go] and
    [api/forecastle/v1alpha1/zz_generated.deepcopy.go], function by function,
    on the memory of Layout.  [T_DeepCopyInto] takes what [in] points to and
    gives what [out] points to in the end: [*out = *in] is the fields that are
    not mentioned. *)

From S2P Require Import Prelude Memory Copying Layout.

(** The methods of [k8s.io/apimachinery/pkg/apis/meta/v1] that the generated
    code calls. *)
Class MetaV1 := {
  ObjectMeta_DeepCopyInto : ObjectMeta in_memory → mem cell (ObjectMeta in_memory);
  ListMeta_DeepCopyInto : ListMeta in_memory → mem cell (ListMeta in_memory);
  Time_DeepCopy : option loc → mem cell (option loc);
  Condition_DeepCopyInto : Condition → mem cell Condition
}.

(** What its documentation says of them: they are deep copies. *)
Class MetaV1Laws `{MetaV1} : Prop := {
  ObjectMeta_deep : deep ObjectMeta_DeepCopyInto view_ObjectMeta;
  ListMeta_deep : deep ListMeta_DeepCopyInto view_ListMeta;
  Time_deep : deep Time_DeepCopy (view_pointer (T := Z) view_flat);
  Condition_deep : deep Condition_DeepCopyInto view_flat
}.

(** A [runtime.Object] that is not nil: a pointer, perhaps nil, and its type.
    A nil interface is [None]. *)
Inductive object :=
| OBookmark (p : option loc)
| OBookmarkList (p : option loc)
| OBookmarkGroup (p : option loc)
| OBookmarkGroupList (p : option loc)
| OInfoTile (p : option loc)
| OInfoTileList (p : option loc)
| OForecastleApp (p : option loc)
| OForecastleAppList (p : option loc).

Section deepcopy.
Context `{MapRange, MetaV1}.

(** [**out = **in]. *)
Definition assign {T} (x : T) : mem cell T := mret x.

(** [if in.F != nil { *out = f( *in) }]. *)
Definition if_set (f : option loc → mem cell (option loc)) (inp : option loc) : mem cell (option loc) :=
  match inp with None => mret None | Some _ => f inp end.

(** [if in == nil { return nil }; out := new(T); in.DeepCopyInto(out); return
    out]. *)
Definition DeepCopy {T} `{Cell cell T, Zero T} (into : T → mem cell T) (inp : option loc) : mem cell (option loc) :=
  copy_pointer into inp.

(** ** api/dashboard/v1alpha1 *)
Definition LocalObjectReference_DeepCopyInto (inp : LocalObjectReference) : mem cell LocalObjectReference := mret inp.
Definition LocalObjectReference_DeepCopy : option loc → mem cell (option loc) := DeepCopy LocalObjectReference_DeepCopyInto.

Definition URLSource_DeepCopyInto (inp : URLSource in_memory) : mem cell (URLSource in_memory) :=
  IngressRef ← copy_pointer (assign (T := LocalObjectReference)) (us_IngressRef inp);
  RouteRef ← copy_pointer (assign (T := LocalObjectReference)) (us_RouteRef inp);
  IngressRouteRef ← copy_pointer (assign (T := LocalObjectReference)) (us_IngressRouteRef inp);
  HTTPRouteRef ← copy_pointer (assign (T := LocalObjectReference)) (us_HTTPRouteRef inp);
  GRPCRouteRef ← copy_pointer (assign (T := LocalObjectReference)) (us_GRPCRouteRef inp);
  ServiceRef ← copy_pointer (assign (T := LocalObjectReference)) (us_ServiceRef inp);
  mret {| us_IngressRef := IngressRef; us_RouteRef := RouteRef; us_IngressRouteRef := IngressRouteRef;
          us_HTTPRouteRef := HTTPRouteRef; us_GRPCRouteRef := GRPCRouteRef; us_ServiceRef := ServiceRef |}.
Definition URLSource_DeepCopy : option loc → mem cell (option loc) := DeepCopy URLSource_DeepCopyInto.

Definition BookmarkSpec_DeepCopyInto (inp : BookmarkSpec in_memory) : mem cell (BookmarkSpec in_memory) :=
  URLFrom ← copy_pointer URLSource_DeepCopyInto (bs_URLFrom inp);
  Groups ← copy_flat_slice (T := string) (bs_Groups inp);
  Properties ← copy_map (T := string) (bs_Properties inp);
  mret {| bs_Group := bs_Group inp; bs_Name := bs_Name inp; bs_URL := bs_URL inp; bs_URLFrom := URLFrom;
          bs_Target := bs_Target inp; bs_Icon := bs_Icon inp;
          bs_NetworkRestricted := bs_NetworkRestricted inp; bs_Replicate := bs_Replicate inp;
          bs_Groups := Groups; bs_Properties := Properties |}.
Definition BookmarkSpec_DeepCopy : option loc → mem cell (option loc) := DeepCopy BookmarkSpec_DeepCopyInto.

Definition BookmarkStatus_DeepCopyInto (inp : BookmarkStatus in_memory) : mem cell (BookmarkStatus in_memory) :=
  URLReachable ← copy_pointer (assign (T := bool)) (bst_URLReachable inp);
  LastURLCheckAt ← if_set Time_DeepCopy (bst_LastURLCheckAt inp);
  LastSyncedAt ← if_set Time_DeepCopy (bst_LastSyncedAt inp);
  Conditions ← copy_slice Condition_DeepCopyInto (bst_Conditions inp);
  mret {| bst_URLReachable := URLReachable; bst_LastURLCheckAt := LastURLCheckAt;
          bst_URLCheckError := bst_URLCheckError inp; bst_LastSyncedAt := LastSyncedAt;
          bst_Conditions := Conditions |}.
Definition BookmarkStatus_DeepCopy : option loc → mem cell (option loc) := DeepCopy BookmarkStatus_DeepCopyInto.

Definition Bookmark_DeepCopyInto (inp : Bookmark in_memory) : mem cell (Bookmark in_memory) :=
  ObjectMeta ← ObjectMeta_DeepCopyInto (b_ObjectMeta inp);
  Spec ← BookmarkSpec_DeepCopyInto (b_Spec inp);
  Status ← BookmarkStatus_DeepCopyInto (b_Status inp);
  mret {| b_TypeMeta := b_TypeMeta inp; b_ObjectMeta := ObjectMeta; b_Spec := Spec; b_Status := Status |}.
Definition Bookmark_DeepCopy : option loc → mem cell (option loc) := DeepCopy Bookmark_DeepCopyInto.
Definition Bookmark_DeepCopyObject (inp : option loc) : mem cell (option object) :=
  c ← Bookmark_DeepCopy inp; match c with Some _ => mret (Some (OBookmark c)) | None => mret None end.

Definition BookmarkList_DeepCopyInto (inp : BookmarkList in_memory) : mem cell (BookmarkList in_memory) :=
  ListMeta ← ListMeta_DeepCopyInto (bl_ListMeta inp);
  Items ← copy_slice Bookmark_DeepCopyInto (bl_Items inp);
  mret {| bl_TypeMeta := bl_TypeMeta inp; bl_ListMeta := ListMeta; bl_Items := Items |}.
Definition BookmarkList_DeepCopy : option loc → mem cell (option loc) := DeepCopy BookmarkList_DeepCopyInto.
Definition BookmarkList_DeepCopyObject (inp : option loc) : mem cell (option object) :=
  c ← BookmarkList_DeepCopy inp; match c with Some _ => mret (Some (OBookmarkList c)) | None => mret None end.

Definition BookmarkGroupSpec_DeepCopyInto (inp : BookmarkGroupSpec in_memory) : mem cell (BookmarkGroupSpec in_memory) :=
  Properties ← copy_map (T := string) (bgs_Properties inp);
  mret {| bgs_Name := bgs_Name inp; bgs_Properties := Properties; bgs_Replicate := bgs_Replicate inp |}.
Definition BookmarkGroupSpec_DeepCopy : option loc → mem cell (option loc) := DeepCopy BookmarkGroupSpec_DeepCopyInto.

Definition BookmarkGroupStatus_DeepCopyInto (inp : BookmarkGroupStatus in_memory) : mem cell (BookmarkGroupStatus in_memory) :=
  LastSyncedAt ← if_set Time_DeepCopy (bgst_LastSyncedAt inp);
  Conditions ← copy_slice Condition_DeepCopyInto (bgst_Conditions inp);
  mret {| bgst_BookmarkCount := bgst_BookmarkCount inp; bgst_LastSyncedAt := LastSyncedAt;
          bgst_Conditions := Conditions |}.
Definition BookmarkGroupStatus_DeepCopy : option loc → mem cell (option loc) := DeepCopy BookmarkGroupStatus_DeepCopyInto.

Definition BookmarkGroup_DeepCopyInto (inp : BookmarkGroup in_memory) : mem cell (BookmarkGroup in_memory) :=
  ObjectMeta ← ObjectMeta_DeepCopyInto (bg_ObjectMeta inp);
  Spec ← BookmarkGroupSpec_DeepCopyInto (bg_Spec inp);
  Status ← BookmarkGroupStatus_DeepCopyInto (bg_Status inp);
  mret {| bg_TypeMeta := bg_TypeMeta inp; bg_ObjectMeta := ObjectMeta; bg_Spec := Spec; bg_Status := Status |}.
Definition BookmarkGroup_DeepCopy : option loc → mem cell (option loc) := DeepCopy BookmarkGroup_DeepCopyInto.
Definition BookmarkGroup_DeepCopyObject (inp : option loc) : mem cell (option object) :=
  c ← BookmarkGroup_DeepCopy inp; match c with Some _ => mret (Some (OBookmarkGroup c)) | None => mret None end.

Definition BookmarkGroupList_DeepCopyInto (inp : BookmarkGroupList in_memory) : mem cell (BookmarkGroupList in_memory) :=
  ListMeta ← ListMeta_DeepCopyInto (bgl_ListMeta inp);
  Items ← copy_slice BookmarkGroup_DeepCopyInto (bgl_Items inp);
  mret {| bgl_TypeMeta := bgl_TypeMeta inp; bgl_ListMeta := ListMeta; bgl_Items := Items |}.
Definition BookmarkGroupList_DeepCopy : option loc → mem cell (option loc) := DeepCopy BookmarkGroupList_DeepCopyInto.
Definition BookmarkGroupList_DeepCopyObject (inp : option loc) : mem cell (option object) :=
  c ← BookmarkGroupList_DeepCopy inp; match c with Some _ => mret (Some (OBookmarkGroupList c)) | None => mret None end.

Definition InfoTileQueryParam_DeepCopyInto (inp : InfoTileQueryParam) : mem cell InfoTileQueryParam := mret inp.
Definition InfoTileQueryParam_DeepCopy : option loc → mem cell (option loc) := DeepCopy InfoTileQueryParam_DeepCopyInto.

Definition InfoTileHeader_DeepCopyInto (inp : InfoTileHeader) : mem cell InfoTileHeader := mret inp.
Definition InfoTileHeader_DeepCopy : option loc → mem cell (option loc) := DeepCopy InfoTileHeader_DeepCopyInto.

Definition InfoTileHTTPRequest_DeepCopyInto (inp : InfoTileHTTPRequest in_memory) : mem cell (InfoTileHTTPRequest in_memory) :=
  QueryParams ← copy_flat_slice (T := InfoTileQueryParam) (hr_QueryParams inp);
  Headers ← copy_flat_slice (T := InfoTileHeader) (hr_Headers inp);
  mret {| hr_Method := hr_Method inp; hr_URL := hr_URL inp; hr_QueryParams := QueryParams;
          hr_Headers := Headers; hr_Body := hr_Body inp |}.
Definition InfoTileHTTPRequest_DeepCopy : option loc → mem cell (option loc) := DeepCopy InfoTileHTTPRequest_DeepCopyInto.

Definition InfoTileSpec_DeepCopyInto (inp : InfoTileSpec in_memory) : mem cell (InfoTileSpec in_memory) :=
  Interval ← copy_pointer (assign (T := Z)) (its_Interval inp);
  HTTPRequest ← copy_pointer InfoTileHTTPRequest_DeepCopyInto (its_HTTPRequest inp);
  mret {| its_Name := its_Name inp; its_Group := its_Group inp; its_Icon := its_Icon inp;
          its_URL := its_URL inp; its_Target := its_Target inp; its_Source := its_Source inp;
          its_Interval := Interval; its_Replicate := its_Replicate inp; its_HTTPRequest := HTTPRequest;
          its_Processor := its_Processor inp |}.
Definition InfoTileSpec_DeepCopy : option loc → mem cell (option loc) := DeepCopy InfoTileSpec_DeepCopyInto.

Definition InfoTileStatus_DeepCopyInto (inp : InfoTileStatus in_memory) : mem cell (InfoTileStatus in_memory) :=
  LastFetchedAt ← if_set Time_DeepCopy (itst_LastFetchedAt inp);
  mret {| itst_Content := itst_Content inp; itst_LastFetchedAt := LastFetchedAt;
          itst_LastError := itst_LastError inp |}.
Definition InfoTileStatus_DeepCopy : option loc → mem cell (option loc) := DeepCopy InfoTileStatus_DeepCopyInto.

Definition InfoTile_DeepCopyInto (inp : InfoTile in_memory) : mem cell (InfoTile in_memory) :=
  ObjectMeta ← ObjectMeta_DeepCopyInto (it_ObjectMeta inp);
  Spec ← InfoTileSpec_DeepCopyInto (it_Spec inp);
  Status ← InfoTileStatus_DeepCopyInto (it_Status inp);
  mret {| it_TypeMeta := it_TypeMeta inp; it_ObjectMeta := ObjectMeta; it_Spec := Spec; it_Status := Status |}.
Definition InfoTile_DeepCopy : option loc → mem cell (option loc) := DeepCopy InfoTile_DeepCopyInto.
Definition InfoTile_DeepCopyObject (inp : option loc) : mem cell (option object) :=
  c ← InfoTile_DeepCopy inp; match c with Some _ => mret (Some (OInfoTile c)) | None => mret None end.

Definition InfoTileList_DeepCopyInto (inp : InfoTileList in_memory) : mem cell (InfoTileList in_memory) :=
  ListMeta ← ListMeta_DeepCopyInto (itl_ListMeta inp);
  Items ← copy_slice InfoTile_DeepCopyInto (itl_Items inp);
  mret {| itl_TypeMeta := itl_TypeMeta inp; itl_ListMeta := ListMeta; itl_Items := Items |}.
Definition InfoTileList_DeepCopy : option loc → mem cell (option loc) := DeepCopy InfoTileList_DeepCopyInto.
Definition InfoTileList_DeepCopyObject (inp : option loc) : mem cell (option object) :=
  c ← InfoTileList_DeepCopy inp; match c with Some _ => mret (Some (OInfoTileList c)) | None => mret None end.

(** ** api/forecastle/v1alpha1 *)
Definition ForecastleReference_DeepCopyInto (inp : ForecastleReference) : mem cell ForecastleReference := mret inp.
Definition ForecastleReference_DeepCopy : option loc → mem cell (option loc) := DeepCopy ForecastleReference_DeepCopyInto.

Definition ForecastleURLSource_DeepCopyInto (inp : ForecastleURLSource in_memory) : mem cell (ForecastleURLSource in_memory) :=
  IngressRef ← copy_pointer (assign (T := ForecastleReference)) (fus_IngressRef inp);
  RouteRef ← copy_pointer (assign (T := ForecastleReference)) (fus_RouteRef inp);
  IngressRouteRef ← copy_pointer (assign (T := ForecastleReference)) (fus_IngressRouteRef inp);
  HTTPRouteRef ← copy_pointer (assign (T := ForecastleReference)) (fus_HTTPRouteRef inp);
  mret {| fus_IngressRef := IngressRef; fus_RouteRef := RouteRef; fus_IngressRouteRef := IngressRouteRef;
          fus_HTTPRouteRef := HTTPRouteRef |}.
Definition ForecastleURLSource_DeepCopy : option loc → mem cell (option loc) := DeepCopy ForecastleURLSource_DeepCopyInto.

Definition ForecastleAppSpec_DeepCopyInto (inp : ForecastleAppSpec in_memory) : mem cell (ForecastleAppSpec in_memory) :=
  URLFrom ← copy_pointer ForecastleURLSource_DeepCopyInto (fas_URLFrom inp);
  Groups ← copy_flat_slice (T := string) (fas_Groups inp);
  Properties ← copy_map (T := string) (fas_Properties inp);
  mret {| fas_Name := fas_Name inp; fas_Instance := fas_Instance inp; fas_Group := fas_Group inp;
          fas_Icon := fas_Icon inp; fas_URL := fas_URL inp; fas_URLFrom := URLFrom;
          fas_NetworkRestricted := fas_NetworkRestricted inp; fas_Groups := Groups;
          fas_Properties := Properties |}.
Definition ForecastleAppSpec_DeepCopy : option loc → mem cell (option loc) := DeepCopy ForecastleAppSpec_DeepCopyInto.

Definition ForecastleAppStatus_DeepCopyInto (inp : ForecastleAppStatus) : mem cell ForecastleAppStatus := mret inp.
Definition ForecastleAppStatus_DeepCopy : option loc → mem cell (option loc) := DeepCopy ForecastleAppStatus_DeepCopyInto.

Definition ForecastleApp_DeepCopyInto (inp : ForecastleApp in_memory) : mem cell (ForecastleApp in_memory) :=
  ObjectMeta ← ObjectMeta_DeepCopyInto (fa_ObjectMeta inp);
  Spec ← ForecastleAppSpec_DeepCopyInto (fa_Spec inp);
  mret {| fa_TypeMeta := fa_TypeMeta inp; fa_ObjectMeta := ObjectMeta; fa_Spec := Spec;
          fa_Status := fa_Status inp |}.
Definition ForecastleApp_DeepCopy : option loc → mem cell (option loc) := DeepCopy ForecastleApp_DeepCopyInto.
Definition ForecastleApp_DeepCopyObject (inp : option loc) : mem cell (option object) :=
  c ← ForecastleApp_DeepCopy inp; match c with Some _ => mret (Some (OForecastleApp c)) | None => mret None end.

Definition ForecastleAppList_DeepCopyInto (inp : ForecastleAppList in_memory) : mem cell (ForecastleAppList in_memory) :=
  ListMeta ← ListMeta_DeepCopyInto (fal_ListMeta inp);
  Items ← copy_slice ForecastleApp_DeepCopyInto (fal_Items inp);
  mret {| fal_TypeMeta := fal_TypeMeta inp; fal_ListMeta := ListMeta; fal_Items := Items |}.
Definition ForecastleAppList_DeepCopy : option loc → mem cell (option loc) := DeepCopy ForecastleAppList_DeepCopyInto.
Definition ForecastleAppList_DeepCopyObject (inp : option loc) : mem cell (option object) :=
  c ← ForecastleAppList_DeepCopy inp; match c with Some _ => mret (Some (OForecastleAppList c)) | None => mret None end.

(** The method call [o.DeepCopyObject()]. *)
Definition DeepCopyObject (o : object) : mem cell (option object) :=
  match o with
  | OBookmark p => Bookmark_DeepCopyObject p
  | OBookmarkList p => BookmarkList_DeepCopyObject p
  | OBookmarkGroup p => BookmarkGroup_DeepCopyObject p
  | OBookmarkGroupList p => BookmarkGroupList_DeepCopyObject p
  | OInfoTile p => InfoTile_DeepCopyObject p
  | OInfoTileList p => InfoTileList_DeepCopyObject p
  | OForecastleApp p => ForecastleApp_DeepCopyObject p
  | OForecastleAppList p => ForecastleAppList_DeepCopyObject p
  end.
End deepcopy.
