(* ===== verification/DeepCopyProps.v ===== *)
(** * DeepCopyProps: copies share nothing

    Objects the API machinery hands out may live in an informer's cache, where
    every reader shares them; what keeps readers apart is [DeepCopyObject]. *)

From S2P Require Import Prelude Memory Copying Layout DeepCopy.

(** ** Objects *)
Inductive tree :=
| TBookmark (x : Bookmark as_tree)
| TBookmarkList (x : BookmarkList as_tree)
| TBookmarkGroup (x : BookmarkGroup as_tree)
| TBookmarkGroupList (x : BookmarkGroupList as_tree)
| TInfoTile (x : InfoTile as_tree)
| TInfoTileList (x : InfoTileList as_tree)
| TForecastleApp (x : ForecastleApp as_tree)
| TForecastleAppList (x : ForecastleAppList as_tree).

Definition pointer_of (o : object) : option loc :=
  match o with
  OBookmark p | OBookmarkList p | OBookmarkGroup p | OBookmarkGroupList p
  | OInfoTile p | OInfoTileList p | OForecastleApp p | OForecastleAppList p => p
  end.

(** What a pointer that is not nil points to. *)
Definition view_pointee {T A} `{Cell cell T} (rd : T → view cell A) (tag : A → tree) (p : option loc) : view cell tree :=
  match p with
  | None => view_fail
  | Some p => x ← deref (T := T) p; a ← rd x; mret (tag a)
  end.

Definition view_object (o : object) : view cell tree :=
  match o with
  | OBookmark p => view_pointee view_Bookmark TBookmark p
  | OBookmarkList p => view_pointee view_BookmarkList TBookmarkList p
  | OBookmarkGroup p => view_pointee view_BookmarkGroup TBookmarkGroup p
  | OBookmarkGroupList p => view_pointee view_BookmarkGroupList TBookmarkGroupList p
  | OInfoTile p => view_pointee view_InfoTile TInfoTile p
  | OInfoTileList p => view_pointee view_InfoTileList TInfoTileList p
  | OForecastleApp p => view_pointee view_ForecastleApp TForecastleApp p
  | OForecastleAppList p => view_pointee view_ForecastleAppList TForecastleAppList p
  end.

#[export] Instance local_pointee {T A} `{Cell cell T} (rd : T → view cell A) tag p :
  (∀ x, Local (rd x)) → Local (view_pointee rd tag p).
Proof. intros Hrd. destruct p; cbn; apply _. Qed.

#[export] Instance local_object o : Local (view_object o).
Proof. destruct o; cbn; apply _. Qed.

Section deepcopy.
Context `{MapRange, MetaV1, !MetaV1Laws}.

#[export] Instance deep_assign {T} : deep (assign (T := T)) view_flat.
Proof. exact deep_ret. Qed.

Lemma deep_if_set {A} f (rd : option loc → view cell (option A)) :
  deep f rd → rd None = mret None → deep (if_set f) rd.
Proof.
  intros Hf Hn [p|]; [exact (Hf (Some p))|]. rewrite Hn.
  intros h a R [= <- <-]. exists None, h, []. rewrite Hn. split_and!; [done..|apply grown_refl].
Qed.

#[export] Instance deep_time : deep (if_set Time_DeepCopy) (view_pointer (T := Z) view_flat).
Proof. apply deep_if_set; [apply Time_deep|done]. Qed.

#[export] Existing Instances ObjectMeta_deep ListMeta_deep Condition_deep.

(** A [DeepCopyInto] is deep when the copies of its fields are. *)
Tactic Notation "deep_struct" reference(into) reference(rd) :=
  apply copied_deep; intros ? ? ? ? Hv; unfold into; unfold rd in Hv |- *; split_view;
  cbn [ptr slc dict in_memory as_tree] in *; copy_fields; finish_copy.

(** ** Every generated [DeepCopyInto] is deep *)
#[export] Instance URLSource_deep : deep URLSource_DeepCopyInto view_URLSource.
Proof. deep_struct URLSource_DeepCopyInto view_URLSource. Qed.
#[export] Instance BookmarkSpec_deep : deep BookmarkSpec_DeepCopyInto view_BookmarkSpec.
Proof. deep_struct BookmarkSpec_DeepCopyInto view_BookmarkSpec. Qed.
#[export] Instance BookmarkStatus_deep : deep BookmarkStatus_DeepCopyInto view_BookmarkStatus.
Proof. deep_struct BookmarkStatus_DeepCopyInto view_BookmarkStatus. Qed.
#[export] Instance Bookmark_deep : deep Bookmark_DeepCopyInto view_Bookmark.
Proof. deep_struct Bookmark_DeepCopyInto view_Bookmark. Qed.
#[export] Instance BookmarkList_deep : deep BookmarkList_DeepCopyInto view_BookmarkList.
Proof. deep_struct BookmarkList_DeepCopyInto view_BookmarkList. Qed.
#[export] Instance BookmarkGroupSpec_deep : deep BookmarkGroupSpec_DeepCopyInto view_BookmarkGroupSpec.
Proof. deep_struct BookmarkGroupSpec_DeepCopyInto view_BookmarkGroupSpec. Qed.
#[export] Instance BookmarkGroupStatus_deep : deep BookmarkGroupStatus_DeepCopyInto view_BookmarkGroupStatus.
Proof. deep_struct BookmarkGroupStatus_DeepCopyInto view_BookmarkGroupStatus. Qed.
#[export] Instance BookmarkGroup_deep : deep BookmarkGroup_DeepCopyInto view_BookmarkGroup.
Proof. deep_struct BookmarkGroup_DeepCopyInto view_BookmarkGroup. Qed.
#[export] Instance BookmarkGroupList_deep : deep BookmarkGroupList_DeepCopyInto view_BookmarkGroupList.
Proof. deep_struct BookmarkGroupList_DeepCopyInto view_BookmarkGroupList. Qed.
#[export] Instance InfoTileHTTPRequest_deep : deep InfoTileHTTPRequest_DeepCopyInto view_InfoTileHTTPRequest.
Proof. deep_struct InfoTileHTTPRequest_DeepCopyInto view_InfoTileHTTPRequest. Qed.
#[export] Instance InfoTileSpec_deep : deep InfoTileSpec_DeepCopyInto view_InfoTileSpec.
Proof. deep_struct InfoTileSpec_DeepCopyInto view_InfoTileSpec. Qed.
#[export] Instance InfoTileStatus_deep : deep InfoTileStatus_DeepCopyInto view_InfoTileStatus.
Proof. deep_struct InfoTileStatus_DeepCopyInto view_InfoTileStatus. Qed.
#[export] Instance InfoTile_deep : deep InfoTile_DeepCopyInto view_InfoTile.
Proof. deep_struct InfoTile_DeepCopyInto view_InfoTile. Qed.
#[export] Instance InfoTileList_deep : deep InfoTileList_DeepCopyInto view_InfoTileList.
Proof. deep_struct InfoTileList_DeepCopyInto view_InfoTileList. Qed.
#[export] Instance ForecastleURLSource_deep : deep ForecastleURLSource_DeepCopyInto view_ForecastleURLSource.
Proof. deep_struct ForecastleURLSource_DeepCopyInto view_ForecastleURLSource. Qed.
#[export] Instance ForecastleAppSpec_deep : deep ForecastleAppSpec_DeepCopyInto view_ForecastleAppSpec.
Proof. deep_struct ForecastleAppSpec_DeepCopyInto view_ForecastleAppSpec. Qed.
#[export] Instance ForecastleApp_deep : deep ForecastleApp_DeepCopyInto view_ForecastleApp.
Proof. deep_struct ForecastleApp_DeepCopyInto view_ForecastleApp. Qed.
#[export] Instance ForecastleAppList_deep : deep ForecastleAppList_DeepCopyInto view_ForecastleAppList.
Proof. deep_struct ForecastleAppList_DeepCopyInto view_ForecastleAppList. Qed.

(** ** [DeepCopyObject] *)
Lemma DeepCopy_deep {T A} `{Cell cell T, Zero T} (into : T → mem cell T) (rd : T → view cell A) tag obj p h t R :
  deep into rd → (∀ x, Local (rd x)) → (∀ q, view_object (obj q) = view_pointee rd tag q) →
  view_pointee rd tag p h = Some (t, R) →
  ∃ o' h' R',
    (c ← DeepCopy into p; match c with Some _ => mret (Some (obj c)) | None => mret None end) h = Some (Some o', h') ∧
    view_object o' h' = Some (t, R') ∧ grown h h' R'.
Proof.
  intros Hd Hl Ho Hv. destruct p as [p|]; [|done].
  apply view_bind_Some in Hv as (x & R1 & t0 & R2 & Hp & Hv & [= -> ->]).
  apply view_bind_Some in Hv as (a & R3 & t1 & R4 & Ha & [= <- <-] & [= -> ->]).
  destruct (deep_pointer into rd Hd (Some p) h (Some a) (R1 ++ R3 ++ [])) as (o & h' & R' & Hc & Hr & Hg).
  { cbn. unfold mbind, view_bind. by rewrite Hp, Ha. }
  destruct o as [q|]; [|done]. exists (obj (Some q)), h', R'. split; [by rewrite (bind_step _ _ _ _ _ Hc)|]. split; [rewrite Ho|done].
  apply view_bind_Some in Hr as (y & R5 & b & R6 & Hq & Hr & [= <- ->]).
  apply view_bind_Some in Hr as (a' & R7 & b' & R8 & Ha' & [= <- <-] & [= -> ->]).
  cbn. unfold mbind, view_bind. by rewrite Hq, Ha'.
Qed.

Lemma DeepCopyObject_deep o h t R : view_object o h = Some (t, R) →
  ∃ o' h' R', DeepCopyObject o h = Some (Some o', h') ∧ view_object o' h' = Some (t, R') ∧ grown h h' R'.
Proof.
  destruct o; cbn [view_object]; intros Hv.
  - exact (DeepCopy_deep Bookmark_DeepCopyInto _ _ OBookmark _ _ _ _ _ _ ltac:(done) Hv).
  - exact (DeepCopy_deep BookmarkList_DeepCopyInto _ _ OBookmarkList _ _ _ _ _ _ ltac:(done) Hv).
  - exact (DeepCopy_deep BookmarkGroup_DeepCopyInto _ _ OBookmarkGroup _ _ _ _ _ _ ltac:(done) Hv).
  - exact (DeepCopy_deep BookmarkGroupList_DeepCopyInto _ _ OBookmarkGroupList _ _ _ _ _ _ ltac:(done) Hv).
  - exact (DeepCopy_deep InfoTile_DeepCopyInto _ _ OInfoTile _ _ _ _ _ _ ltac:(done) Hv).
  - exact (DeepCopy_deep InfoTileList_DeepCopyInto _ _ OInfoTileList _ _ _ _ _ _ ltac:(done) Hv).
  - exact (DeepCopy_deep ForecastleApp_DeepCopyInto _ _ OForecastleApp _ _ _ _ _ _ ltac:(done) Hv).
  - exact (DeepCopy_deep ForecastleAppList_DeepCopyInto _ _ OForecastleAppList _ _ _ _ _ _ ltac:(done) Hv).
Qed.

(** A pointer that is nil gives a nil interface, not an interface that holds a
    nil pointer. *)
Lemma DeepCopyObject_nil o h : pointer_of o = None → DeepCopyObject o h = Some (None, h).
Proof. by destruct o; cbn; intros ->. Qed.

(** C21: copies share nothing.  [DeepCopyObject] gives an object that reads like
    the original, whatever the original shares.  It writes no memory that was
    there, the memory of the copy is new, and no two parts of the copy share
    any.  So nothing that is done to the memory of the copy shows in the
    original, and nothing that is done to the memory that was there shows in
    the copy. *)
Theorem deepcopy_shares_nothing o h t R : view_object o h = Some (t, R) →
  ∃ o' h' R',
    DeepCopyObject o h = Some (Some o', h') ∧ h ⊆ h' ∧
    view_object o' h' = Some (t, R') ∧ NoDup R' ∧ (∀ p, p ∈ R' → h !! p = None) ∧
    (∀ h2, (∀ p, p ∉ R' → h2 !! p = h' !! p) → view_object o h2 = Some (t, R)) ∧
    (∀ h2, (∀ p, h !! p = None → h2 !! p = h' !! p) → view_object o' h2 = Some (t, R')).
Proof.
  intros Hv. destruct (DeepCopyObject_deep o h t R Hv) as (o' & h' & R' & Hc & Hr & Hs & Hn & Hf).
  exists o', h', R'. split_and!; try done.
  - intros p Hp. by apply Hf.
  - intros h2 Hh2. apply (local_frame _ _ _ _ Hv). intros p Hp.
    destruct (local_dom _ _ _ _ Hv Hp) as [c Hpc]. rewrite Hpc, Hh2; [by eapply lookup_weaken|].
    intros [Hnone _]%Hf. congruence.
  - intros h2 Hh2. apply (local_frame _ _ _ _ Hr). intros p Hp. apply Hh2. by apply Hf.
Qed.
End deepcopy.

(** ** A concrete machine *)
Definition metav1 `{MapRange} : MetaV1 :=
  {| ObjectMeta_DeepCopyInto m :=
       Annotations ← copy_map (T := string) (om_Annotations m);
       mret {| om_Name := om_Name m; om_Namespace := om_Namespace m; om_Annotations := Annotations |};
     ListMeta_DeepCopyInto m :=
       RemainingItemCount ← copy_pointer (T := Z) assign (lm_RemainingItemCount m);
       mret {| lm_ResourceVersion := lm_ResourceVersion m; lm_Continue := lm_Continue m;
               lm_RemainingItemCount := RemainingItemCount |};
     Time_DeepCopy := copy_pointer (T := Z) assign;
     Condition_DeepCopyInto := assign |}.

Lemma metav1_laws `{MapRange} : @MetaV1Laws metav1.
Proof.
  split; cbn.
  - apply copied_deep. intros x h a R Hv. unfold view_ObjectMeta in Hv |- *. split_view.
    cbn [ptr slc dict in_memory as_tree] in *. copy_fields. finish_copy.
  - apply copied_deep. intros x h a R Hv. unfold view_ListMeta in Hv |- *. split_view.
    cbn [ptr slc dict in_memory as_tree] in *. copy_fields. finish_copy.
  - apply _.
  - apply deep_assign.
Qed.

(** A bookmark whose groups are a window of a longer array, and whose
    annotations and properties are one map. *)
Definition at_loc (p : loc) {T} : ptr in_memory T := Some p.
Definition map_at (p : loc) : dict in_memory string := Some p.
Definition groups_window : slc in_memory string := Some (Slice 5 1 2 3).

Definition shared_bookmark : Bookmark in_memory :=
  {| b_TypeMeta := {| tm_Kind := "Bookmark"; tm_APIVersion := "dashboard.netztronaut.de/v1alpha1" |};
     b_ObjectMeta := {| om_Name := "wiki"; om_Namespace := "docs"; om_Annotations := map_at 2 |};
     b_Spec := {| bs_Group := "docs"; bs_Name := "Wiki"; bs_URL := ""; bs_URLFrom := at_loc 3; bs_Target := "";
                  bs_Icon := ""; bs_NetworkRestricted := false; bs_Replicate := true;
                  bs_Groups := groups_window; bs_Properties := map_at 2 |};
     b_Status := {| bst_URLReachable := at_loc 6; bst_LastURLCheckAt := at_loc 7; bst_URLCheckError := "";
                    bst_LastSyncedAt := at_loc 7; bst_Conditions := zero |} |}.

Definition shared_source : URLSource in_memory :=
  {| us_IngressRef := zero; us_RouteRef := zero; us_IngressRouteRef := zero;
     us_HTTPRouteRef := zero; us_GRPCRouteRef := zero; us_ServiceRef := at_loc 4 |}.

Definition shared_heap : heap cell :=
  <[1%positive := CBookmark shared_bookmark]> (<[2%positive := CMap {["team" := "ops"]}]>
  (<[3%positive := CURLSource shared_source]>
  (<[4%positive := CLocalObjectReference {| lor_Name := "wiki" |}]>
  (<[5%positive := CStrings ["root"; "dev"; "ops"; "guest"]]>
  (<[6%positive := CBool true]> (<[7%positive := CInt 86400]> ∅)))))).

(** The copy of the bookmark reads alike and shares neither the map nor the
    times; the original is read again after every location of the copy was
    overwritten. *)
Lemma deepcopy_shares_nothing_witness :
  ∃ t R, view_object (OBookmark (Some 1%positive)) shared_heap = Some (t, R) ∧ ¬ NoDup R ∧
  ∃ o' h' R', @DeepCopyObject range_desc (@metav1 range_desc) (OBookmark (Some 1%positive)) shared_heap = Some (Some o', h') ∧
    view_object o' h' = Some (t, R') ∧ NoDup R' ∧
    view_object (OBookmark (Some 1%positive)) (foldr (fun p h => <[p := CInt 0]> h) h' R') = Some (t, R).
Proof.
  destruct (view_object (OBookmark (Some 1%positive)) shared_heap) as [[t R]|] eqn:Hv; [|vm_compute in Hv; discriminate].
  exists t, R. split; [done|]. split.
  { apply (bool_decide_unpack (¬ NoDup R)). vm_compute in Hv. injection Hv as _ <-. by vm_compute. }
  destruct (@deepcopy_shares_nothing range_desc (@metav1 range_desc) (@metav1_laws range_desc) _ _ _ _ Hv)
    as (o' & h' & R' & Hc & _ & Hr & Hn & _ & Hcopy & _).
  exists o', h', R'. split_and!; [done..|]. apply Hcopy. intros p Hp. clear -Hp.
  induction R' as [|q R' IH]; [done|]. cbn. rewrite not_elem_of_cons in Hp. destruct Hp as [??].
  rewrite lookup_insert_ne by done. by apply IH.
Defined.
