(* ===== verification/GoStrings.v ===== *)
(** * GoStrings: the parts of Go's [strings], [unicode/utf8] and [strconv]
    that the program calls

    A Go string is a sequence of bytes, here Stdlib's [string] of 8-bit
    [ascii] characters.  Functions that look at runes decode UTF-8 the way
    [utf8.DecodeRune] does (an invalid byte is the replacement rune, of width
    one).  The case tables of package [unicode] beyond ASCII are data of the
    Go distribution; they are the members of the class [Unicode], and every
    theorem holds for all of them. *)

From S2P Require Import Prelude.
From Stdlib Require Export Ascii.

Open Scope string_scope.
Open Scope nat_scope.
Open Scope list_scope.

(** ** Bytes *)

Definition bytes (s : string) : list ascii := String.list_ascii_of_string s.
Definition str (l : list ascii) : string := String.string_of_list_ascii l.

Lemma str_bytes s : str (bytes s) = s.
Proof. apply String.string_of_list_ascii_of_string. Qed.

Lemma bytes_str l : bytes (str l) = l.
Proof. apply String.list_ascii_of_string_of_list_ascii. Qed.

Lemma bytes_app s t : bytes (s +:+ t) = bytes s ++ bytes t.
Proof. induction s as [|c s IH]; simpl; [done|]. by rewrite IH. Qed.

Lemma str_app l k : str (l ++ k) = str l +:+ str k.
Proof. induction l as [|c l IH]; simpl; [done|]. by rewrite IH. Qed.

Lemma bytes_inj s t : bytes s = bytes t → s = t.
Proof. intros H. by rewrite <-(str_bytes s), <-(str_bytes t), H. Qed.

#[export] Hint Rewrite str_bytes bytes_str bytes_app : cupboard.

Definition byte (c : ascii) : N := N_of_ascii c.
Definition of_byte (n : N) : ascii := ascii_of_N n.

(** ** [strings.TrimSpace]

    [unicode.IsSpace] holds of six ASCII characters and of nineteen runes
    whose UTF-8 encodings have two or three bytes.  A rune at the front of a
    string is recognised by its bytes, and so is a rune at the back, because
    the first byte of an encoding is never a continuation byte. *)
Definition space1 (a : ascii) : bool :=
  let a := byte a in ((9 <=? a) && (a <=? 13) || (a =? 32))%N.
(** U+0085 and U+00A0. *)
Definition space2 (a b : ascii) : bool :=
  let a := byte a in let b := byte b in
  ((a =? 194) && ((b =? 133) || (b =? 160)))%N.
(** U+1680, U+2000 to U+200A, U+2028, U+2029, U+202F, U+205F, U+3000. *)
Definition space3 (a b c : ascii) : bool :=
  let a := byte a in let b := byte b in let c := byte c in
  ((a =? 225) && (b =? 154) && (c =? 128)
   || (a =? 226) && (b =? 128) &&
      ((128 <=? c) && (c <=? 138) || (c =? 168) || (c =? 169) || (c =? 175))
   || (a =? 226) && (b =? 129) && (c =? 159)
   || (a =? 227) && (b =? 128) && (c =? 128))%N.

(** Drop the runes for which the three tests hold from the front. *)
Fixpoint strip (s2 : ascii → ascii → bool) (s3 : ascii → ascii → ascii → bool)
    (l : list ascii) : list ascii :=
  match l with
  | [] => []
  | a :: l1 =>
    if space1 a then strip s2 s3 l1 else
    match l1 with
    | [] => l
    | b :: l2 =>
      if s2 a b then strip s2 s3 l2 else
      match l2 with
      | [] => l
      | c :: l3 => if s3 a b c then strip s2 s3 l3 else l
      end
    end
  end.

Definition trim_left (l : list ascii) : list ascii := strip space2 space3 l.
Definition trim_right (l : list ascii) : list ascii :=
  reverse (strip (fun b a => space2 a b) (fun c b a => space3 a b c) (reverse l)).

Definition TrimSpace (s : string) : string := str (trim_right (trim_left (bytes s))).

(** Does a stripped rune stand at the front? *)
Definition space_front (s2 : ascii → ascii → bool) (s3 : ascii → ascii → ascii → bool)
    (l : list ascii) : bool :=
  match l with
  | [] => false
  | a :: l1 =>
    space1 a ||
    match l1 with
    | [] => false
    | b :: l2 => s2 a b || match l2 with [] => false | c :: _ => s3 a b c end
    end
  end.

Section strip.
Context (s2 : ascii → ascii → bool) (s3 : ascii → ascii → ascii → bool).

Lemma strip_id l : space_front s2 s3 l = false → strip s2 s3 l = l.
Proof.
  destruct l as [|a [|b [|c l]]]; simpl; [done|..]; destruct (space1 a); simpl; try done;
    destruct (s2 a b); simpl; try done; by destruct (s3 a b c).
Qed.

Lemma strip_spec l :
  space_front s2 s3 (strip s2 s3 l) = false ∧ strip s2 s3 l `suffix_of` l.
Proof.
  remember (length l) as n eqn:Hn. revert l Hn.
  induction (lt_wf n) as [n _ IH]; intros l ->.
  assert (Hrec : ∀ k p, l = p ++ k → p ≠ [] →
    space_front s2 s3 (strip s2 s3 k) = false ∧ strip s2 s3 k `suffix_of` l).
  { intros k p -> Hp. edestruct (IH (length k)) as [H1 [q Hq]]; [|done|].
    - rewrite length_app. destruct p; simpl; [done|lia].
    - split; [done|]. exists (p ++ q). rewrite <-app_assoc. by f_equal. }
  destruct l as [|a l1]; simpl; [done|].
  destruct (space1 a) eqn:H1; [by apply (Hrec l1 [a])|].
  destruct l1 as [|b l2]; [simpl; by rewrite H1|].
  destruct (s2 a b) eqn:H2; [by apply (Hrec l2 [a; b])|].
  destruct l2 as [|c l3]; [simpl; by rewrite H1, H2|].
  destruct (s3 a b c) eqn:H3; [by apply (Hrec l3 [a; b; c])|].
  simpl. by rewrite H1, H2, H3.
Qed.

Lemma space_front_prefix l k :
  l `prefix_of` k → space_front s2 s3 k = false → space_front s2 s3 l = false.
Proof.
  intros [t ->].
  destruct l as [|a [|b [|c l]]]; simpl; [done|..]; rewrite ?orb_false_iff; tauto.
Qed.

(** A byte that is part of no space stops the stripping. *)
Lemma strip_stop c p k :
  space1 c = false → (∀ a, s2 a c = false ∧ s2 c a = false) →
  (∀ a b, s3 a b c = false ∧ s3 a c b = false ∧ s3 c a b = false) →
  c :: k `suffix_of` strip s2 s3 (p ++ c :: k).
Proof.
  intros H1 H2 H3. remember (length p) as n eqn:Hn. revert p Hn.
  induction (lt_wf n) as [n _ IH]; intros p ->.
  assert (∀ q r, p = q ++ r → q ≠ [] → c :: k `suffix_of` strip s2 s3 (r ++ c :: k)) as Hrec.
  { intros q r -> Hq. eapply IH; [|done]. rewrite length_app. destruct q; simpl; [done|lia]. }
  destruct p as [|a p]; cbn [app].
  { rewrite strip_id; [done|]. cbn. rewrite H1. destruct k as [|b k]; [done|].
    destruct (H2 b) as [_ ->]. destruct k as [|d k]; [done|]. by destruct (H3 b d) as (_ & _ & ->). }
  cbn [strip]. destruct (space1 a) eqn:Ha; [by apply (Hrec [a] p)|]. destruct p as [|b p]; cbn [app].
  { destruct (H2 a) as [-> _]. destruct k as [|d k]; [by exists [a]|].
    destruct (H3 a d) as (_ & -> & _). by exists [a]. }
  destruct (s2 a b) eqn:Hab; [by apply (Hrec [a; b] p)|]. destruct p as [|d p]; cbn [app].
  { destruct (H3 a b) as (-> & _ & _). by exists [a; b]. }
  destruct (s3 a b d) eqn:Habd; [by apply (Hrec [a; b; d] p)|]. by exists (a :: b :: d :: p).
Qed.
End strip.

(** No white space at either end. *)
Definition trimmed (s : string) : bool := bool_decide (TrimSpace s = s).

(** [strings.TrimSpace(s) == ""]. *)
Definition is_blank (s : string) : bool := bool_decide (TrimSpace s = "").

Lemma trim_left_front l : space_front space2 space3 (trim_left l) = false.
Proof. apply strip_spec. Qed.

Lemma trim_right_prefix l : trim_right l `prefix_of` l.
Proof.
  unfold trim_right. destruct (strip_spec (fun b a => space2 a b) (fun c b a => space3 a b c)
    (reverse l)) as [_ [p Hp]].
  exists (reverse p). rewrite <-reverse_app, <-Hp. by rewrite reverse_involutive.
Qed.

(** An ASCII byte is no part of a longer white space. *)
Lemma ascii_no_space a b c : (byte c < 128)%N →
  (space2 a c = false ∧ space2 c a = false) ∧
  space3 a b c = false ∧ space3 a c b = false ∧ space3 c a b = false.
Proof.
  intros Hc. unfold space2, space3.
  repeat match goal with
  | |- context [(byte c =? ?n)%N] => rewrite (proj2 (N.eqb_neq (byte c) n)) by lia
  | |- context [(?n <=? byte c)%N] => rewrite (proj2 (N.leb_gt n (byte c))) by lia
  end.
  rewrite ?andb_false_r, ?orb_false_r. cbn. rewrite ?andb_false_r. cbn. auto.
Qed.

(** Trimming a text that starts with a byte that is no white space keeps
    everything up to a later ASCII byte that is not white space either. *)
Lemma TrimSpace_keeps s p c k :
  bytes s = p ++ c :: k → space_front space2 space3 (bytes s) = false →
  space1 c = false → (byte c < 128)%N →
  ∃ k', bytes (TrimSpace s) = p ++ c :: k'.
Proof.
  intros Hs Hf Hc Hlt. unfold TrimSpace, trim_left. rewrite bytes_str, (strip_id _ _ _ Hf), Hs.
  unfold trim_right. rewrite reverse_app, reverse_cons, <-app_assoc. cbn [app].
  destruct (strip_stop (fun b a => space2 a b) (fun c b a => space3 a b c) c (reverse k) (reverse p))
    as [q Hq]; [done| | |].
  - intros a. cbn. pose proof (ascii_no_space a a c Hlt). tauto.
  - intros a b. cbn. pose proof (ascii_no_space a b c Hlt). pose proof (ascii_no_space b a c Hlt). tauto.
  - rewrite Hq. exists (reverse q). by rewrite reverse_app, reverse_cons, reverse_involutive, <-app_assoc.
Qed.

Lemma trim_right_idemp l : trim_right (trim_right l) = trim_right l.
Proof.
  unfold trim_right. rewrite reverse_involutive. f_equal. apply strip_id, strip_spec.
Qed.

Lemma TrimSpace_idemp s : TrimSpace (TrimSpace s) = TrimSpace s.
Proof.
  unfold TrimSpace. rewrite bytes_str. f_equal.
  assert (trim_left (trim_right (trim_left (bytes s))) = trim_right (trim_left (bytes s))) as ->.
  { apply strip_id. eapply space_front_prefix; [apply trim_right_prefix|apply trim_left_front]. }
  apply trim_right_idemp.
Qed.

Lemma trimmed_TrimSpace s : trimmed (TrimSpace s) = true.
Proof. apply bool_decide_eq_true, TrimSpace_idemp. Qed.

Lemma is_blank_empty : is_blank "" = true.
Proof. done. Qed.

Lemma not_blank_ne s : is_blank s = false → s ≠ "".
Proof. by intros H ->. Qed.

Lemma is_blank_TrimSpace s : is_blank (TrimSpace s) = is_blank s.
Proof. unfold is_blank. by rewrite TrimSpace_idemp. Qed.

#[export] Hint Rewrite TrimSpace_idemp trimmed_TrimSpace is_blank_TrimSpace : cupboard.

(** ** [strings.Index], slicing, [Cut], [SplitN], [Split] *)

(** Offset of the first occurrence of [sub]. *)
Fixpoint index_of (sub l : list ascii) : option nat :=
  if bool_decide (sub `prefix_of` l) then Some 0 else
  match l with
  | [] => None
  | _ :: l => S <$> index_of sub l
  end.

Definition Index (s sub : string) : Z :=
  match index_of (bytes sub) (bytes s) with Some n => Z.of_nat n | None => (-1)%Z end.

(** [s[from:]] and [s[from:to]], for offsets within the string. *)
Definition slice_from (s : string) (from : Z) : string :=
  str (drop (Z.to_nat from) (bytes s)).
Definition slice (s : string) (from to : Z) : string :=
  str (take (Z.to_nat (to - from)) (drop (Z.to_nat from) (bytes s))).

(** [before, after, found := strings.Cut(s, sep)]. *)
Definition Cut (s sep : string) : string * string * bool :=
  match index_of (bytes sep) (bytes s) with
  | Some n => (str (take n (bytes s)), str (drop (n + String.length sep) (bytes s)), true)
  | None => (s, "", false)
  end.

(** [strings.SplitN(s, sep, 2)], for a non-empty separator. *)
Definition SplitN2 (s sep : string) : list string :=
  match Cut s sep with
  | (before, after, true) => [before; after]
  | (_, _, false) => [s]
  end.

(** [strings.Split] and [strings.SplitSeq] for a separator of one byte. *)
Fixpoint split_bytes (c : ascii) (l : list ascii) : list (list ascii) :=
  match l with
  | [] => [[]]
  | a :: l =>
    match split_bytes c l with
    | w :: ws => if bool_decide (a = c) then [] :: w :: ws else (a :: w) :: ws
    | [] => [[a]]
    end
  end.

Definition Split (s : string) (c : ascii) : list string := str <$> split_bytes c (bytes s).

Definition HasPrefix (s p : string) : bool := bool_decide (bytes p `prefix_of` bytes s).
Definition Contains (s sub : string) : bool :=
  match index_of (bytes sub) (bytes s) with Some _ => true | None => false end.
Definition TrimPrefix (s p : string) : string :=
  if HasPrefix s p then str (drop (String.length p) (bytes s)) else s.
Definition TrimSuffix (s p : string) : string :=
  if bool_decide (bytes p `suffix_of` bytes s)
  then str (take (String.length s - String.length p) (bytes s)) else s.

Fixpoint drop_while (P : ascii → bool) (l : list ascii) : list ascii :=
  match l with a :: l' => if P a then drop_while P l' else l | [] => [] end.

(** [strings.TrimRight(s, cutset)] for a cutset of one byte. *)
Definition TrimRight (s : string) (c : ascii) : string :=
  str (reverse (drop_while (fun a => bool_decide (a = c)) (reverse (bytes s)))).

(** [p] is what precedes the first occurrence of [sub] in [p ++ sub ++ t]. *)
Definition first_at (sub p t : list ascii) : Prop :=
  ∀ p' t', p ++ sub ++ t = p' ++ sub ++ t' → length p ≤ length p'.

Lemma length_bytes s : length (bytes s) = String.length s.
Proof. induction s as [|c s IH]; simpl; [done|]. by rewrite IH. Qed.

Lemma index_of_Some sub l n :
  index_of sub l = Some n ↔
  ∃ p t, l = p ++ sub ++ t ∧ length p = n ∧ first_at sub p t.
Proof.
  revert n. induction l as [|a l IH]; intros n; cbn [index_of];
    (case_bool_decide as Hp; [destruct Hp as [t Ht]|]).
  - split.
    + intros [= <-]. exists [], t. repeat split; [done|]. intros ???; simpl; lia.
    + intros (p & t' & Hl & <- & Hf). by destruct p.
  - split; [done|]. intros (p & t & Hl & _ & _). exfalso. apply Hp.
    destruct p; [|done]. destruct sub; [by exists []|done].
  - split.
    + intros [= <-]. exists [], t. repeat split; [done|]. intros ???; simpl; lia.
    + intros (p & t' & Hl & <- & Hf). f_equal.
      specialize (Hf [] t). rewrite <-Hl, Ht in Hf. simpl in Hf. f_equal. specialize (Hf eq_refl). lia.
  - rewrite fmap_Some. split.
    + intros (m & Hm & ->). apply IH in Hm as (p & t & -> & <- & Hf).
      exists (a :: p), t. repeat split. intros [|b p'] t' Heq; simpl in *.
      * exfalso. apply Hp. exists t'. done.
      * simplify_eq. apply le_n_S. by eapply Hf.
    + intros ([|b p] & t & Hl & <- & Hf); simpl in Hl.
      * exfalso. apply Hp. by exists t.
      * simplify_eq. exists (length p). split; [|done]. apply IH. exists p, t.
        repeat split. intros p' t' Heq. specialize (Hf (b :: p') t').
        simpl in Hf. rewrite Heq in Hf. specialize (Hf eq_refl). lia.
Qed.

Lemma index_of_None sub l :
  index_of sub l = None ↔ ∀ p t, l ≠ p ++ sub ++ t.
Proof.
  induction l as [|a l IH]; cbn [index_of];
    (case_bool_decide as Hp; [destruct Hp as [t Ht]|]).
  - split; [done|]. intros H. destruct (H [] t). done.
  - split; [|done]. intros _ [|? p] t; simpl; [|done]. intros Hl. apply Hp. by exists t.
  - split; [done|]. intros H. destruct (H [] t). done.
  - rewrite fmap_None, IH. split.
    + intros H [|b p] t; simpl; intros Hl; [apply Hp; by exists t|].
      simplify_eq. by eapply H.
    + intros H p t ->. by apply (H (a :: p) t).
Qed.

Lemma Cut_found s sep a b :
  Cut s sep = (a, b, true) →
  s = a +:+ sep +:+ b ∧ first_at (bytes sep) (bytes a) (bytes b).
Proof.
  unfold Cut. destruct (index_of _ _) as [n|] eqn:Hn; [|done].
  apply index_of_Some in Hn as (p & t & Hs & <- & Hf). intros [= <- <-].
  rewrite !bytes_str, Hs, take_app_length, <-length_bytes.
  rewrite app_assoc, <-length_app, drop_app_length. split; [|done].
  apply bytes_inj. by rewrite !bytes_app, !bytes_str, Hs.
Qed.

Lemma Cut_not_found s sep a b :
  Cut s sep = (a, b, false) →
  a = s ∧ b = "" ∧ ∀ p t, s ≠ p +:+ sep +:+ t.
Proof.
  unfold Cut. destruct (index_of _ _) as [n|] eqn:Hn; [done|]. intros [= <- <-].
  rewrite index_of_None in Hn. repeat split. intros p t ->.
  eapply (Hn (bytes p) (bytes t)). by rewrite !bytes_app.
Qed.

(** A separator of one byte that does not occur before the cut. *)
Lemma Cut_first a b c :
  c ∉ bytes a → Cut (a +:+ String c "" +:+ b) (String c "") = (a, b, true).
Proof.
  intros Hc. unfold Cut.
  assert (index_of [c] (bytes (a +:+ String c "" +:+ b)) = Some (length (bytes a))) as Hi.
  { apply index_of_Some. exists (bytes a), (bytes b). rewrite !bytes_app. repeat split.
    intros p' t' Heq. destruct (decide (length (bytes a) ≤ length p')) as [|Hlt]; [done|].
    exfalso. apply Hc. change ([c] ++ t') with (c :: t') in Heq.
    apply (f_equal (fun l => l !! length p')) in Heq.
    rewrite lookup_app_l in Heq by lia. rewrite list_lookup_middle in Heq by done.
    by eapply list_elem_of_lookup_2. }
  cbn [bytes String.list_ascii_of_string]. fold (bytes (a +:+ String c "" +:+ b)).
  rewrite Hi. rewrite !bytes_app. cbn [String.length].
  rewrite take_app_length, app_assoc.
  replace (length (bytes a) + 1) with (length (bytes a ++ bytes (String c "")))
    by (rewrite length_app; simpl; lia).
  by rewrite drop_app_length, !str_bytes.
Qed.

(** With a separator of one byte, the cut is at its first occurrence. *)
Lemma Cut_char s c a b :
  Cut s (String c "") = (a, b, true) ↔ s = a +:+ String c "" +:+ b ∧ c ∉ bytes a.
Proof.
  split; [|intros [-> Hc]; by apply Cut_first].
  intros [-> Hf]%Cut_found. split; [done|]. intros (p & q & Hpq)%list_elem_of_split.
  specialize (Hf p (q ++ [c] ++ bytes b)). rewrite Hpq in Hf.
  rewrite <-!app_assoc, length_app in Hf. specialize (Hf eq_refl). simpl in Hf. lia.
Qed.

Lemma Cut_char_none s c a b : Cut s (String c "") = (a, b, false) ↔ a = s ∧ b = "" ∧ c ∉ bytes s.
Proof.
  split.
  - intros (-> & -> & Hn)%Cut_not_found. split_and!; [done..|].
    intros (p & q & Hpq)%list_elem_of_split. apply (Hn (str p) (str q)), bytes_inj.
    by rewrite !bytes_app, !bytes_str.
  - intros (-> & -> & Hc). unfold Cut. assert (index_of (bytes (String c "")) (bytes s) = None) as ->; [|done].
    apply index_of_None. intros p t Hs. apply Hc. rewrite Hs. set_solver.
Qed.

Lemma split_bytes_nonempty c l : split_bytes c l ≠ [].
Proof. induction l as [|a l IH]; simpl; [done|]. by case_match; [|case_bool_decide]. Qed.

(** [strings.Join] with a separator of one byte. *)
Fixpoint Join (l : list string) (c : ascii) : string :=
  match l with
  | [] => ""
  | [s] => s
  | s :: l => s +:+ String c "" +:+ Join l c
  end.

Lemma split_bytes_single c l : c ∉ l → split_bytes c l = [l].
Proof.
  induction l as [|a l IH]; [done|]. intros [Ha Hl]%not_elem_of_cons. cbn [split_bytes].
  rewrite (IH Hl). by rewrite bool_decide_false by done.
Qed.

Lemma split_bytes_cons c l k : c ∉ l → split_bytes c (l ++ c :: k) = l :: split_bytes c k.
Proof.
  induction l as [|a l IH]; [intros _|intros [Ha Hl]%not_elem_of_cons]; cbn [split_bytes app].
  - destruct (split_bytes c k) eqn:E; [by destruct (split_bytes_nonempty c k)|]. by rewrite bool_decide_true.
  - rewrite (IH Hl). by rewrite bool_decide_false by done.
Qed.

Lemma Join_cons s t l c : Join (s :: t :: l) c = s +:+ String c "" +:+ Join (t :: l) c.
Proof. done. Qed.

Lemma Split_Join l c : Forall (fun s => c ∉ bytes s) l → l ≠ [] → Split (Join l c) c = l.
Proof.
  unfold Split. induction 1 as [|s l Hs Hl IH]; [done|]. intros _. destruct l as [|t l].
  - cbn [Join]. rewrite split_bytes_single by done. cbn. by rewrite str_bytes.
  - rewrite Join_cons, !bytes_app. change (bytes (String c "")) with [c]. cbn [app].
    rewrite split_bytes_cons by done. rewrite fmap_cons, str_bytes. by rewrite IH.
Qed.

Lemma Join_Split s c : Join (Split s c) c = s ∧ Forall (fun t => c ∉ bytes t) (Split s c).
Proof.
  unfold Split. rewrite <-(str_bytes s) at 2. generalize (bytes s) as l. clear s. intros l.
  induction l as [|a l [IHj IHf]]; [split; [done|repeat constructor; set_solver]|]. cbn [split_bytes].
  destruct (split_bytes c l) as [|w ws] eqn:E; [by destruct (split_bytes_nonempty c l)|].
  rewrite fmap_cons in IHj, IHf. case_bool_decide as Ha; rewrite !fmap_cons.
  - rewrite Join_cons. split; [by rewrite IHj, Ha|]. constructor; [|done]. cbn. set_solver.
  - apply Forall_cons in IHf as [Hw Hws]. split.
    + change (str (a :: l)) with (String a (str l)). rewrite <-IHj. by destruct (str <$> ws).
    + constructor; [|done]. rewrite bytes_str in Hw |- *. set_solver.
Qed.

(** A test that holds of the 256 bytes holds of every byte. *)
Lemma forall_byte (P : ascii → bool) :
  forallb (fun n => P (ascii_of_nat n)) (seq 0 256) = true → ∀ c, P c = true.
Proof.
  rewrite forallb_forall. intros HP c. rewrite <-(ascii_nat_embedding c). apply HP, in_seq.
  pose proof (nat_ascii_bounded c). lia.
Qed.

(** ** UTF-8 *)

Definition rune_error : N := 65533.

Definition in_range (lo hi : N) (a : ascii) : bool := ((lo <=? byte a) && (byte a <=? hi))%N.

(** Second bytes that may follow the leading byte [a] of an encoding of two,
    three and four bytes. *)
Definition lead2 (a b : ascii) : bool := in_range 194 223 a && in_range 128 191 b.
Definition lead3 (a b : ascii) : bool :=
  bool_decide (byte a = 224%N) && in_range 160 191 b
  || (in_range 225 236 a || in_range 238 239 a) && in_range 128 191 b
  || bool_decide (byte a = 237%N) && in_range 128 159 b.
Definition lead4 (a b : ascii) : bool :=
  bool_decide (byte a = 240%N) && in_range 144 191 b
  || in_range 241 243 a && in_range 128 191 b
  || bool_decide (byte a = 244%N) && in_range 128 143 b.

Definition low6 (a : ascii) : N := N.land (byte a) 63.

(** The runes a [for _, r := range s] loop visits, each with its width:
    [utf8.DecodeRune] at every position. *)
Fixpoint decode_runes (l : list ascii) : list (N * nat) :=
  match l with
  | [] => []
  | a :: l1 =>
    if (byte a <? 128)%N then (byte a, 1) :: decode_runes l1 else
    match l1 with
    | [] => [(rune_error, 1)]
    | b :: l2 =>
      if lead2 a b then
        ((N.land (byte a) 31 * 64 + low6 b)%N, 2) :: decode_runes l2 else
      match l2 with
      | [] => (rune_error, 1) :: decode_runes l1
      | c :: l3 =>
        if lead3 a b && in_range 128 191 c then
          ((N.land (byte a) 15 * 4096 + low6 b * 64 + low6 c)%N, 3) :: decode_runes l3 else
        match l3 with
        | [] => (rune_error, 1) :: decode_runes l1
        | d :: l4 =>
          if lead4 a b && in_range 128 191 c && in_range 128 191 d then
            ((N.land (byte a) 7 * 262144 + low6 b * 4096 + low6 c * 64 + low6 d)%N, 4)
              :: decode_runes l4
          else (rune_error, 1) :: decode_runes l1
        end
      end
    end
  end.

Definition runes (s : string) : list N := (decode_runes (bytes s)).*1.

(** [utf8.AppendRune]: surrogates and values beyond U+10FFFF are encoded as
    the replacement rune. *)
Definition encode_rune (r : N) : list ascii :=
  let r := if ((55296 <=? r) && (r <=? 57343) || (1114111 <? r))%N then rune_error else r in
  let tail n := of_byte (128 + N.land (N.shiftr r n) 63) in
  (if r <? 128 then [of_byte r]
   else if r <? 2048 then [of_byte (192 + N.shiftr r 6); tail 0]
   else if r <? 65536 then [of_byte (224 + N.shiftr r 12); tail 6; tail 0]
   else [of_byte (240 + N.shiftr r 18); tail 12; tail 6; tail 0])%N.

(** ** Case mapping *)

(** The tables of package [unicode] for runes beyond ASCII: [unicode.ToLower],
    [unicode.ToUpper], membership of two runes in one [unicode.SimpleFold]
    orbit, and [strconv.IsPrint]. *)
Class Unicode := {
  lower_rune : N → N;
  upper_rune : N → N;
  same_fold : N → N → bool;
  print_rune : N → bool
}.

(** Tables without any letter beyond ASCII, for evaluation. *)
Definition unicode_ascii : Unicode :=
  {| lower_rune := id; upper_rune := id;
     same_fold := N.eqb; print_rune := fun _ => false |}.

Definition ascii_lower (r : N) : N := if ((65 <=? r) && (r <=? 90))%N then (r + 32)%N else r.
Definition ascii_upper (r : N) : N := if ((97 <=? r) && (r <=? 122))%N then (r - 32)%N else r.

Section unicode.
Context `{Unicode}.

Definition unicode_ToLower (r : N) : N := if (r <? 128)%N then ascii_lower r else lower_rune r.
Definition unicode_ToUpper (r : N) : N := if (r <? 128)%N then ascii_upper r else upper_rune r.

(** [strings.Map(mapping, s)] *)
Definition map_runes (f : N → N) (s : string) : string :=
  str (concat (encode_rune <$> (f <$> runes s))).

Definition ToLower (s : string) : string := map_runes unicode_ToLower s.
Definition ToUpper (s : string) : string := map_runes unicode_ToUpper s.

(** [strings.EqualFold] compares rune by rune; two ASCII runes fold like
    letters of the alphabet, any other pair by its orbit. *)
Definition fold_eq (a b : N) : bool :=
  (a =? b)%N ||
  if ((a <? 128) && (b <? 128))%N then (ascii_lower a =? ascii_lower b)%N else same_fold a b.

Fixpoint forall2b {A} (f : A → A → bool) (l k : list A) : bool :=
  match l, k with
  | [], [] => true
  | x :: l, y :: k => f x y && forall2b f l k
  | _, _ => false
  end.

Definition EqualFold (s t : string) : bool := forall2b fold_eq (runes s) (runes t).

Lemma EqualFold_refl s : EqualFold s s = true.
Proof.
  unfold EqualFold. induction (runes s) as [|r l IH]; simpl; [done|].
  unfold fold_eq at 1. by rewrite N.eqb_refl.
Qed.

(** ** [strconv.Quote], the [%q] verb *)

Definition hex_digit (n : N) : ascii := of_byte (if n <? 10 then 48 + n else 87 + n)%N.
(** [n] hexadecimal digits of [r]. *)
Fixpoint hex_digits (n : nat) (r : N) : list ascii :=
  match n with
  | 0 => []
  | S n => hex_digit (N.land (N.shiftr r (4 * N.of_nat n)) 15) :: hex_digits n r
  end.

Definition backslash : ascii := of_byte 92.
Definition double_quote : ascii := of_byte 34.

(** [appendEscapedRune] for a rune decoded from valid UTF-8. *)
Definition quote_rune (r : N) : list ascii :=
  (if (r =? 34) || (r =? 92) then [backslash; of_byte r]
   else if (r <? 128) && (32 <=? r) && negb (r =? 127) then [of_byte r]
   else if (128 <=? r) && print_rune r then encode_rune r
   else if r =? 7 then [backslash; "a"%char]
   else if r =? 8 then [backslash; "b"%char]
   else if r =? 12 then [backslash; "f"%char]
   else if r =? 10 then [backslash; "n"%char]
   else if r =? 13 then [backslash; "r"%char]
   else if r =? 9 then [backslash; "t"%char]
   else if r =? 11 then [backslash; "v"%char]
   else if (r <? 32) || (r =? 127) then [backslash; "x"%char] ++ hex_digits 2 r
   else if r <? 65536 then [backslash; "u"%char] ++ hex_digits 4 r
   else [backslash; "U"%char] ++ hex_digits 8 r)%N%list.

(** Runes of the string, an invalid byte being escaped as [\x..]. *)
Fixpoint quote_body (l : list ascii) (rs : list (N * nat)) : list ascii :=
  match rs with
  | [] => []
  | (r, w) :: rs =>
    match l with
    | a :: _ =>
      if bool_decide (r = rune_error ∧ w = 1)
      then [backslash; "x"%char] ++ hex_digits 2 (byte a)
      else quote_rune r
    | [] => []
    end ++ quote_body (drop w l) rs
  end.

Definition quote (s : string) : string :=
  str ([double_quote] ++ quote_body (bytes s) (decode_runes (bytes s)) ++ [double_quote]).
End unicode.

(** ** ASCII strings *)
Definition is_ascii (s : string) : Prop := Forall (fun a => byte a < 128)%N (bytes s).

Lemma runes_ascii s : is_ascii s → runes s = byte <$> bytes s.
Proof.
  unfold is_ascii, runes. induction 1 as [|a l Ha _ IH]; [done|].
  cbn [decode_runes fmap list_fmap]. apply N.ltb_lt in Ha as ->. cbn. by f_equal.
Qed.

Lemma encode_rune_ascii a : (byte a < 128)%N → encode_rune (byte a) = [a].
Proof.
  intros Ha. unfold encode_rune.
  replace (_ || _)%bool with false.
  2: { symmetry. rewrite orb_false_iff, andb_false_iff, !N.leb_gt, N.ltb_ge. lia. }
  apply N.ltb_lt in Ha as ->. unfold of_byte, byte. by rewrite ascii_N_embedding.
Qed.

Lemma byte_of_byte n : (n < 256)%N → byte (of_byte n) = n.
Proof. apply N_ascii_embedding. Qed.

Lemma ToLower_ascii `{Unicode} s : is_ascii s →
  ToLower s = str ((fun a => of_byte (ascii_lower (byte a))) <$> bytes s).
Proof.
  intros Hs. unfold ToLower, map_runes. rewrite runes_ascii by done. f_equal.
  unfold is_ascii in Hs. induction Hs as [|a l Ha _ IH]; cbn; [done|].
  rewrite IH. unfold unicode_ToLower. rewrite (proj2 (N.ltb_lt _ _) Ha).
  assert (ascii_lower (byte a) < 128)%N as Hl.
  { unfold ascii_lower. case_match eqn:E; [|done].
    apply andb_true_iff in E as [_ E]. apply N.leb_le in E. lia. }
  rewrite <-(byte_of_byte (ascii_lower (byte a))) at 1 by lia.
  rewrite encode_rune_ascii; [done|]. rewrite byte_of_byte; lia.
Qed.

(** ** Order and decimal printing *)

(** Go's [<] on strings: bytewise lexicographic. *)
Definition str_lt (s t : string) : bool := String.ltb s t.

(** The [%d] verb. *)
Definition itoa (z : Z) : string := pretty z.

Example TrimSpace_ex :
  TrimSpace (" " +:+ str (of_byte <$> [194;160]%N) +:+ "a b" +:+ str (of_byte <$> [226;128;168;9]%N)) = "a b".
Proof. vm_compute. reflexivity. Qed.
Example quote_ex : let U := unicode_ascii in quote "a\b" = str (of_byte <$> [34;97;92;92;98;34]%N).
Proof. vm_compute. reflexivity. Qed.
Example ToLower_ex : let U := unicode_ascii in ToLower "HeLLo-1" = "hello-1".
Proof. vm_compute. reflexivity. Qed.
Example EqualFold_ex : let U := unicode_ascii in EqualFold "bEaReR" "Bearer" = true.
Proof. vm_compute. reflexivity. Qed.

Lemma str_lt_iff s t : str_lt s t = true ↔ String.le s t ∧ s ≠ t.
Proof.
  unfold str_lt, String.ltb, String.le, String.leb. split.
  - destruct (String.compare s t) eqn:E; [done| |done]. intros _. split; [done|].
    intros ->. pose proof (String.compare_antisym t t) as H. by rewrite E in H.
  - intros [Hle Hne]. destruct (String.compare s t) eqn:E; [|done..].
    by apply String.compare_eq_iff in E.
Qed.

Lemma str_lt_false s t : str_lt s t = false ↔ String.le t s.
Proof.
  pose proof (str_lt_iff s t) as Hiff. destruct (total String.le s t) as [Hle|Hle].
  - destruct (decide (s = t)) as [->|Hne].
    + split; [by intros _|]. intros _. destruct (str_lt t t); [naive_solver|done].
    + split; [|intros Hle'; by destruct Hne; apply (anti_symm String.le)].
      intros Hf. rewrite Hf in Hiff. naive_solver.
  - split; [done|]. intros _. destruct (str_lt s t) eqn:E; [|done].
    apply str_lt_iff in E as [??]. by destruct (anti_symm String.le s t).
Qed.
