(* ===== verification/StableSort.v ===== *)
(** * StableSort: the contract of [sort.SliceStable] and
    [slices.SortStableFunc], and Go's insertion sort as an implementation

    The class [StableSort] states what the two library functions document: the
    result is a permutation, it is ordered when the comparison is a strict
    weak order, and elements the comparison does not tell apart keep their
    relative order.  [insertion] is the algorithm the library runs on slices
    of at most twenty elements (longer slices are cut into such blocks and
    merged); it implements the class, and any two implementations agree on
    strict weak orders ([sorters_agree]). *)

From S2P Require Import Prelude GoStrings.

(** A strict weak order on the elements of [P]. *)
Class WeakOrder {A} (P : A → Prop) (less : A → A → bool) : Prop := {
  weak_asym x y : P x → P y → less x y = true → less y x = false;
  weak_negtrans x y z : P x → P y → P z →
    less y x = false → less z y = false → less z x = false
}.

(** [x] and [y] are not told apart. *)
Definition tied {A} (less : A → A → bool) (x y : A) : bool :=
  negb (less x y) && negb (less y x).

Class StableSort := {
  SliceStable : ∀ {A : Type}, (A → A → bool) → list A → list A;
  SliceStable_perm : ∀ A (less : A → A → bool) l, SliceStable less l ≡ₚ l;
  SliceStable_sorted : ∀ A (P : A → Prop) less `{!WeakOrder P less} l, Forall P l →
    StronglySorted (fun x y => less y x = false) (SliceStable less l);
  SliceStable_stable : ∀ A (P : A → Prop) less `{!WeakOrder P less} l x, Forall P l → P x →
    List.filter (tied less x) (SliceStable less l) = List.filter (tied less x) l
}.

Section weak_order.
Context {A : Type} (P : A → Prop) (less : A → A → bool) `{!WeakOrder P less}.

Lemma weak_irrefl x : P x → less x x = false.
Proof. intros Hx. destruct (less x x) eqn:E; [|done]. by rewrite <-E, weak_asym. Qed.

Lemma tied_refl x : P x → tied less x x = true.
Proof. intros Hx. unfold tied. by rewrite weak_irrefl. Qed.

Lemma tied_sym x y : tied less x y = tied less y x.
Proof. unfold tied. apply andb_comm. Qed.

Lemma tied_true x y : tied less x y = true ↔ less x y = false ∧ less y x = false.
Proof. unfold tied. by rewrite andb_true_iff, !negb_true_iff. Qed.

(** Two ordered lists whose classes of tied elements coincide are equal. *)
Lemma sorted_unique l k :
  Forall P l → Forall P k →
  StronglySorted (fun x y => less y x = false) l →
  StronglySorted (fun x y => less y x = false) k →
  (∀ x, P x → List.filter (tied less x) l = List.filter (tied less x) k) → l = k.
Proof.
  intros Hl. revert k. induction Hl as [|x l Hx Hl IH]; intros k Hk Sl Sk Hf.
  - destruct k as [|y k]; [done|]. apply Forall_cons in Hk as [Hy _].
    specialize (Hf y Hy). simpl in Hf. by rewrite tied_refl in Hf.
  - destruct k as [|y k].
    { specialize (Hf x Hx). simpl in Hf. by rewrite tied_refl in Hf. }
    apply Forall_cons in Hk as [Hy Hk].
    apply StronglySorted_inv in Sl as [Sl Fl]. apply StronglySorted_inv in Sk as [Sk Fk].
    assert (less y x = false) as Hyx.
    { assert (y ∈ x :: l) as Hin; [|apply elem_of_cons in Hin as [->|Hin]; [by apply weak_irrefl|]].
      - assert (y ∈ List.filter (tied less y) (x :: l)) as Hin.
        { rewrite (Hf y Hy), elem_of_filter_bool, tied_refl by done. split; [done|left]. }
        by apply elem_of_filter_bool in Hin as [_ ?].
      - rewrite Forall_forall in Fl. by apply Fl. }
    assert (less x y = false) as Hxy.
    { assert (x ∈ y :: k) as Hin; [|apply elem_of_cons in Hin as [->|Hin]; [by apply weak_irrefl|]].
      - assert (x ∈ List.filter (tied less x) (y :: k)) as Hin.
        { rewrite <-(Hf x Hx), elem_of_filter_bool, tied_refl by done. split; [done|left]. }
        by apply elem_of_filter_bool in Hin as [_ ?].
      - rewrite Forall_forall in Fk. by apply Fk. }
    assert (x = y) as ->.
    { specialize (Hf x Hx). simpl in Hf. rewrite tied_refl in Hf by done.
      assert (tied less x y = true) as Ht by by apply tied_true.
      rewrite Ht in Hf. by simplify_eq. }
    f_equal. apply IH; [done..|]. intros z Hz. specialize (Hf z Hz). simpl in Hf.
    destruct (tied less z y); by simplify_eq.
Qed.
End weak_order.

(** Every stable sort gives the same answer on a strict weak order. *)
Lemma sorters_agree (S1 S2 : StableSort) {A} (P : A → Prop) less `{!WeakOrder P less} l :
  Forall P l → @SliceStable S1 A less l = @SliceStable S2 A less l.
Proof.
  intros Hl. apply (sorted_unique P less).
  - by rewrite SliceStable_perm.
  - by rewrite SliceStable_perm.
  - by eapply SliceStable_sorted.
  - by eapply SliceStable_sorted.
  - intros x Hx. by rewrite !(SliceStable_stable _ P).
Qed.

(** When ties occur only between equal elements the answer does not depend on
    the order of the input. *)
Lemma SliceStable_deterministic `{StableSort} {A} (P : A → Prop) less `{!WeakOrder P less} l k :
  l ≡ₚ k → Forall P l →
  (∀ x y, x ∈ l → y ∈ l → tied less x y = true → x = y) →
  SliceStable less l = SliceStable less k.
Proof.
  intros Hp Hl Ht. assert (Forall P k) as Hk by by rewrite <-Hp.
  apply (sorted_unique P less).
  - by rewrite SliceStable_perm.
  - by rewrite SliceStable_perm.
  - by eapply SliceStable_sorted.
  - by eapply SliceStable_sorted.
  - intros x Hx. rewrite !(SliceStable_stable _ P) by done.
    apply Permutation_all_equal; [|by apply filter_Permutation_bool].
    intros y z [Ty Hy]%elem_of_filter_bool [Tz Hz]%elem_of_filter_bool.
    apply Ht; [done..|]. rewrite Forall_forall in Hl.
    apply tied_true in Ty as [Ty1 Ty2]. apply tied_true in Tz as [Tz1 Tz2].
    apply tied_true. split.
    + by apply (weak_negtrans z x y); auto.
    + by apply (weak_negtrans y x z); auto.
Qed.

(** ** Go's insertion sort *)

(** [for j := i; j > a && less(j, j-1); j-- { swap(j, j-1) }]: the sorted
    prefix is held in reverse. *)
Fixpoint sift {A} (less : A → A → bool) (x : A) (prefix : list A) : list A :=
  match prefix with
  | y :: ys => if less x y then y :: sift less x ys else x :: prefix
  | [] => [x]
  end.

Definition insertion_sort {A} (less : A → A → bool) (l : list A) : list A :=
  reverse (foldl (fun prefix x => sift less x prefix) [] l).

Section insertion.
Context {A : Type} (less : A → A → bool).

Lemma sift_perm x l : sift less x l ≡ₚ x :: l.
Proof.
  induction l as [|y l IH]; simpl; [done|]. case_match; [|done].
  rewrite IH. by constructor.
Qed.

Lemma foldl_sift_perm l acc : foldl (fun p x => sift less x p) acc l ≡ₚ l ++ acc.
Proof.
  revert acc. induction l as [|x l IH]; intros acc; simpl; [done|].
  rewrite IH, sift_perm. by rewrite Permutation_middle.
Qed.

Lemma insertion_sort_perm l : insertion_sort less l ≡ₚ l.
Proof.
  unfold insertion_sort. rewrite reverse_Permutation, foldl_sift_perm. by rewrite app_nil_r.
Qed.

Context (P : A → Prop) `{!WeakOrder P less}.

(** The reversed prefix is in descending order. *)
Lemma sift_sorted x l : P x → Forall P l →
  StronglySorted (fun x y => less x y = false) l →
  StronglySorted (fun x y => less x y = false) (sift less x l).
Proof.
  intros Hx Hl Sl. induction Sl as [|y l Sl IH Fl]; simpl.
  { repeat constructor. }
  apply Forall_cons in Hl as [Hy Hl]. destruct (less x y) eqn:Hxy.
  - constructor; [by apply IH|]. rewrite sift_perm. constructor; [|done].
    by apply (weak_asym (P:=P)).
  - constructor; [by constructor|]. constructor; [done|].
    rewrite Forall_forall in Fl, Hl |- *. intros z Hz.
    apply (weak_negtrans (P:=P) z y x); auto.
Qed.

Lemma foldl_sift_sorted l acc : Forall P l → Forall P acc →
  StronglySorted (fun x y => less x y = false) acc →
  StronglySorted (fun x y => less x y = false) (foldl (fun p x => sift less x p) acc l).
Proof.
  intros Hl. revert acc. induction Hl as [|x l Hx _ IH]; intros acc Ha Sa; simpl; [done|].
  apply IH; [|by apply sift_sorted]. rewrite sift_perm. by constructor.
Qed.

Lemma StronglySorted_snoc {B} (R : relation B) l x :
  StronglySorted R l → Forall (fun y => R y x) l → StronglySorted R (l ++ [x]).
Proof.
  induction 1 as [|y l Sl IH Fl]; intros Fx; simpl; [repeat constructor|].
  apply Forall_cons in Fx as [? Fx]. constructor; [by apply IH|].
  apply Forall_app. split; [done|]. by constructor.
Qed.

Lemma StronglySorted_reverse {B} (R : relation B) l :
  StronglySorted (flip R) l → StronglySorted R (reverse l).
Proof.
  induction 1 as [|x l _ IH Fl]; [constructor|].
  rewrite reverse_cons. apply StronglySorted_snoc; [done|]. by rewrite reverse_Permutation.
Qed.

Lemma insertion_sort_sorted l : Forall P l →
  StronglySorted (fun x y => less y x = false) (insertion_sort less l).
Proof.
  intros Hl. apply StronglySorted_reverse, foldl_sift_sorted; [done|..]; constructor.
Qed.

(** An element is moved only past elements it is told apart from. *)
Lemma sift_stable z x l : P z → P x → Forall P l →
  List.filter (tied less z) (sift less x l) = List.filter (tied less z) (x :: l).
Proof.
  intros Hz Hx. induction 1 as [|y l Hy Hl IH]; cbn [sift]; [done|].
  destruct (less x y) eqn:Hxy; [|done]. cbn [List.filter] in *. rewrite IH.
  destruct (tied less z x) eqn:Tx, (tied less z y) eqn:Ty; try done.
  exfalso. apply tied_true in Tx as [_ Tx]. apply tied_true in Ty as [Ty _].
  by rewrite (weak_negtrans (P:=P) y z x) in Hxy.
Qed.

Lemma foldl_sift_stable z l acc : P z → Forall P l → Forall P acc →
  List.filter (tied less z) (foldl (fun p x => sift less x p) acc l)
  = reverse (List.filter (tied less z) l) ++ List.filter (tied less z) acc.
Proof.
  intros Hz Hl. revert acc. induction Hl as [|x l Hx _ IH]; intros acc Ha; simpl; [done|].
  rewrite IH, sift_stable by (rewrite ?sift_perm; by constructor || done).
  cbn [List.filter]. case_match; [|done].
  by rewrite reverse_cons, <-app_assoc.
Qed.

Lemma filter_reverse {B} (f : B → bool) l :
  List.filter f (reverse l) = reverse (List.filter f l).
Proof.
  induction l as [|x l IH]; [done|]. rewrite reverse_cons, List.filter_app, IH.
  simpl. destruct (f x); [by rewrite reverse_cons|]. by rewrite app_nil_r.
Qed.

Lemma insertion_sort_stable z l : P z → Forall P l →
  List.filter (tied less z) (insertion_sort less l) = List.filter (tied less z) l.
Proof.
  intros Hz Hl. unfold insertion_sort. rewrite filter_reverse, foldl_sift_stable by done.
  simpl. by rewrite app_nil_r, reverse_involutive.
Qed.
End insertion.

Definition insertion : StableSort.
Proof.
  refine {| SliceStable := @insertion_sort |}.
  - intros. apply insertion_sort_perm.
  - intros. by eapply insertion_sort_sorted.
  - intros. by eapply insertion_sort_stable.
Defined.

(** ** Building weak orders *)

(** Compare by [f], and by [g] where [f] does not tell apart. *)
Definition less_then {A} (f g : A → A → bool) (x y : A) : bool :=
  f x y || negb (f y x) && g x y.

Lemma weak_order_then {A} (P : A → Prop) (f g : A → A → bool) :
  WeakOrder P f → WeakOrder P g → WeakOrder P (less_then f g).
Proof.
  intros Wf Wg. unfold less_then. split.
  - intros x y Hx Hy. pose proof (weak_asym (less:=f) x y Hx Hy) as H1.
    pose proof (weak_asym (less:=g) x y Hx Hy) as H2.
    destruct (f x y), (f y x), (g x y), (g y x); simpl in *; naive_solver.
  - intros x y z Hx Hy Hz.
    pose proof (weak_negtrans (less:=f) x y z Hx Hy Hz) as H1.
    pose proof (weak_negtrans (less:=f) z x y Hz Hx Hy) as H2.
    pose proof (weak_negtrans (less:=f) y z x Hy Hz Hx) as H3.
    pose proof (weak_negtrans (less:=g) x y z Hx Hy Hz) as H4.
    destruct (f x y) eqn:?, (f y x) eqn:?, (f x z) eqn:?, (f z x) eqn:?, (f y z) eqn:?, (f z y) eqn:?;
      simpl in *; try done; try naive_solver.
Qed.

(** Compare by a key. *)
Lemma weak_order_key {A B} (Q : B → Prop) (key : A → B) (less : B → B → bool) :
  WeakOrder Q less → WeakOrder (fun x => Q (key x)) (fun x y => less (key x) (key y)).
Proof.
  intros W. split.
  - intros x y Hx Hy. by apply (weak_asym (P:=Q)).
  - intros x y z Hx Hy Hz. by apply (weak_negtrans (P:=Q)).
Qed.

Lemma weak_order_ext {A} (P : A → Prop) (f g : A → A → bool) :
  (∀ x y, P x → P y → g x y = f x y) → WeakOrder P f → WeakOrder P g.
Proof.
  intros Hfg W. split.
  - intros x y Hx Hy. rewrite !Hfg by done. by apply (weak_asym (P:=P)).
  - intros x y z Hx Hy Hz. rewrite !Hfg by done. by apply (weak_negtrans (P:=P)).
Qed.

Lemma weak_order_mono {A} (P Q : A → Prop) (f : A → A → bool) :
  (∀ x, Q x → P x) → WeakOrder P f → WeakOrder Q f.
Proof.
  intros HQ W. split.
  - intros x y Hx Hy. apply (weak_asym (P:=P)); auto.
  - intros x y z Hx Hy Hz. apply (weak_negtrans (P:=P)); auto.
Qed.

Lemma weak_order_Z : WeakOrder (fun _ => True) Z.ltb.
Proof. split; intros; rewrite ?Z.ltb_lt, ?Z.ltb_ge in *; lia. Qed.

Lemma weak_order_str : WeakOrder (fun _ => True) str_lt.
Proof.
  split.
  - intros x y _ _ [Hle Hne]%str_lt_iff. by apply str_lt_false.
  - intros x y z _ _ _. rewrite !str_lt_false. by etrans.
Qed.

#[export] Hint Resolve weak_order_Z weak_order_str weak_order_then : cupboard.

(** ** Sorts of related lists *)

(** What is tied to [x] is tied to whatever is tied to [x]. *)
Lemma tied_trans {A} (P : A → Prop) (less : A → A → bool) `{!WeakOrder P less} x y z :
  P x → P y → P z → tied less x y = true → tied less x z = tied less y z.
Proof.
  intros Hx Hy Hz [H1 H2]%tied_true. apply eq_true_iff_eq. rewrite !tied_true.
  split; intros [H3 H4]; split.
  - by apply (weak_negtrans z x y).
  - by apply (weak_negtrans y x z).
  - by apply (weak_negtrans z y x).
  - by apply (weak_negtrans x y z).
Qed.

Lemma SliceStable_fmap `{StableSort} {A B} (P : B → Prop) (less : B → B → bool) `{!WeakOrder P less} (f : A → B) l :
  Forall P (f <$> l) → SliceStable less (f <$> l) = f <$> SliceStable (fun x y => less (f x) (f y)) l.
Proof.
  intros Hl. pose proof (weak_order_key P f less _) as W. set (lessf := fun x y => less (f x) (f y)) in *.
  assert (Forall (fun x => P (f x)) l) as Hl' by exact (proj1 (Forall_fmap f P l) Hl).
  apply (sorted_unique P less).
  - by rewrite SliceStable_perm.
  - apply Forall_fmap. by rewrite SliceStable_perm.
  - by eapply SliceStable_sorted.
  - pose proof (SliceStable_sorted _ (fun x => P (f x)) lessf l Hl') as Hs.
    clear Hl Hl'. induction Hs as [|x k _ IH Hx]; cbn; constructor; [done|]. by rewrite Forall_fmap.
  - intros x Hx. rewrite (SliceStable_stable _ P) by done.
    assert (∀ k : list A, List.filter (tied less x) (f <$> k) = f <$> List.filter (fun y => tied less x (f y)) k) as Hff.
    { induction k as [|y k IH]; cbn; [done|]. destruct (tied less x (f y)); cbn; by rewrite IH. }
    rewrite !Hff. f_equal.
    destruct (List.filter (fun y => tied less x (f y)) l) as [|y k] eqn:E.
    { symmetry. apply Permutation_nil_r. rewrite <-E. apply filter_Permutation_bool, SliceStable_perm. }
    assert (y ∈ List.filter (fun y => tied less x (f y)) l) as [Ht Hy]%elem_of_filter_bool by (rewrite E; left).
    rewrite <-E. rewrite Forall_forall in Hl'.
    assert (∀ k : list A, (∀ z, z ∈ k → P (f z)) →
      List.filter (fun y => tied less x (f y)) k = List.filter (tied lessf y) k) as Hsame.
    { induction k0 as [|z k0 IH]; intros Hk; cbn; [done|]. rewrite IH by (intros; apply Hk; by right).
      rewrite (tied_trans P less x (f y) (f z)); [done|done|by apply Hl'|apply Hk; left|done]. }
    rewrite (Hsame l) by done. rewrite (Hsame (SliceStable lessf l)) by (intros z Hz; apply Hl'; by rewrite SliceStable_perm in Hz).
    symmetry. apply (SliceStable_stable _ (fun x => P (f x)) lessf l y); [by apply Forall_forall|by apply Hl'].
Qed.

Lemma SliceStable_ext `{StableSort} {A} (P : A → Prop) (f g : A → A → bool) `{!WeakOrder P f} l :
  (∀ x y, f x y = g x y) → Forall P l → SliceStable f l = SliceStable g l.
Proof.
  intros Hfg Hl. assert (WeakOrder P g) as Wg by (eapply weak_order_ext; [|done]; done).
  apply (sorted_unique P f).
  - by rewrite SliceStable_perm.
  - by rewrite SliceStable_perm.
  - by eapply SliceStable_sorted.
  - pose proof (SliceStable_sorted _ P g l Hl) as Hs.
    induction Hs as [|x k _ IH Hx]; constructor; [done|]. eapply Forall_impl; [exact Hx|]. intros y. by rewrite Hfg.
  - intros x Hx. rewrite (SliceStable_stable _ P) by done.
    assert (∀ k, List.filter (tied f x) k = List.filter (tied g x) k) as Ht.
    { intros k. apply filter_ext. intros y. unfold tied. by rewrite !Hfg. }
    by rewrite !Ht, (SliceStable_stable _ P).
Qed.

(** Stable sorts of related lists are related, when the comparisons agree. *)
Lemma SliceStable_Forall2 `{StableSort} {A B} (R : A → B → Prop) (P : A → Prop) (Q : B → Prop) lessA lessB
    `{!WeakOrder P lessA, !WeakOrder Q lessB} xs ys :
  Forall2 R xs ys → Forall P xs → Forall Q ys →
  (∀ x y x' y', R x y → R x' y' → lessA x x' = lessB y y') →
  Forall2 R (SliceStable lessA xs) (SliceStable lessB ys).
Proof.
  intros HR HP HQ Hless. set (Pair := {xy : A * B | R xy.1 xy.2}).
  assert (∃ zs : list Pair, xs = (fun z => (proj1_sig z).1) <$> zs ∧ ys = (fun z => (proj1_sig z).2) <$> zs) as (zs & -> & ->).
  { clear -HR. induction HR as [|x y xs ys Hxy _ (zs & -> & ->)]; [by exists []|]. by exists (exist _ (x, y) Hxy :: zs). }
  rewrite (SliceStable_fmap P lessA), (SliceStable_fmap Q lessB) by done.
  set (lessA' := fun z w : Pair => lessA (proj1_sig z).1 (proj1_sig w).1).
  set (lessB' := fun z w : Pair => lessB (proj1_sig z).2 (proj1_sig w).2).
  pose proof (weak_order_key P (fun z : Pair => (proj1_sig z).1) lessA _) as W.
  rewrite (SliceStable_ext _ lessA' lessB'); [|by intros [[??]?] [[??]?]; apply Hless|exact (proj1 (Forall_fmap _ _ _) HP)].
  rewrite Forall2_fmap_l, Forall2_fmap_r. apply Forall_Forall2_diag, Forall_forall. intros [[x y] Hxy] _. exact Hxy.
Qed.
