(* ===== verification/Ownership.v ===== *)
(** * Ownership: who may write what

    A proof technique for Memory.  The locations a computation may write are
    labelled with slots: [own] says that a slice and its spare capacity belong
    to a slot, [holds] that a location does.  A world is a heap with its
    labels, and [evolve S] relates worlds when only locations of the slots in
    [S], and new ones, were written.  What belongs to other slots, and all
    memory without a label, is as it was. *)

From S2P Require Import Prelude StableSort Memory.

(** ** Slices that grow *)

(** How [append] chooses the capacity of a new array. *)
Class Growth := {
  grow : nat → nat;
  grow_room : ∀ n, n < grow n
}.

Section slices.
Context {C : Type} `{Growth}.

Definition slice_len (s : option slice) : nat := match s with Some s => sl_len s | None => 0 end.

(** The elements of a slice. *)
Definition slice_elements {T} `{Cell C (list T)} (s : option slice) : mem C (list T) :=
  match s with
  | None => mret []
  | Some s =>
    xs ← load (T := list T) (sl_array s);
    match window s xs with Some xs => mret xs | None => panic end
  end.

(** [append(s, x)]: in place when there is room, else into a new array. *)
Definition append {T} `{Cell C (list T), Zero T} (s : option slice) (x : T) : mem C (option slice) :=
  let reallocate xs :=
    let n := length xs in
    p ← new (xs ++ x :: replicate (grow n - S n) (zero : T)); mret (Some (Slice p 0 (S n) (grow n))) in
  match s with
  | None => reallocate []
  | Some v =>
    if bool_decide (sl_len v < sl_cap v) then
      xs ← load (T := list T) (sl_array v);
      if bool_decide (sl_off v + sl_len v < length xs) then
        _ ← store (sl_array v) (<[sl_off v + sl_len v := x]> xs);
        mret (Some (Slice (sl_array v) (sl_off v) (S (sl_len v)) (sl_cap v)))
      else panic
    else xs ← slice_elements (T := T) s; reallocate xs
  end.

(** [make([]T, 0, n)]. *)
Definition make_room {T} `{Cell C (list T), Zero T} (n : nat) : mem C (option slice) :=
  p ← new (replicate n (zero : T)); mret (Some (Slice p 0 0 n)).

(** [sort.SliceStable(s, less)]: in place. *)
Definition sort_slice {T} `{Cell C (list T), StableSort} (less : T → T → bool) (s : option slice) : mem C unit :=
  match s with
  | None => mret tt
  | Some v =>
    xs ← load (T := list T) (sl_array v);
    match window v xs with
    | Some ys => store (sl_array v) (take (sl_off v) xs ++ SliceStable less ys ++ drop (sl_off v + sl_len v) xs)
    | None => panic
    end
  end.

(** Loops that carry a variable: over a list, and over a slice, whose elements
    are read one by one. *)
Fixpoint fold_each {A B} (l : list A) (body : B → A → mem C B) (b : B) : mem C B :=
  match l with
  | [] => mret b
  | x :: l => b ← body b x; fold_each l body b
  end.

Definition fold_slice {T B} `{Cell C (list T)} (s : option slice) (body : B → T → mem C B) (b : B) : mem C B :=
  match s with
  | None => mret b
  | Some v => fold_each (seq 0 (sl_len v)) (fun b i => x ← slice_at (T := T) v i; body b x) b
  end.
End slices.

(** ** Worlds *)
Section worlds.
Context {C K : Type}.

Record world := World { owner : gmap loc K; memory : gmap loc C }.

Definition labelled (w : world) : Prop := ∀ p k, owner w !! p = Some k → is_Some (memory w !! p).

Record evolve (S : K → Prop) (w w' : world) : Prop := {
  evolve_labelled : labelled w → labelled w';
  evolve_label : ∀ p k, owner w !! p = Some k → owner w' !! p = Some k;
  evolve_keeps : ∀ p c, memory w !! p = Some c → (∀ k, owner w !! p = Some k → ¬ S k) → memory w' !! p = Some c;
  evolve_dom : ∀ p, is_Some (memory w !! p) → is_Some (memory w' !! p);
  evolve_new : ∀ p, is_Some (memory w !! p) → owner w !! p = None → owner w' !! p = None
}.

#[export] Instance evolve_refl S : Reflexive (evolve S).
Proof. by split. Qed.

#[export] Instance evolve_trans S : Transitive (evolve S).
Proof.
  intros w1 w2 w3 [L1 O1 K1 D1 N1] [L2 O2 K2 D2 N2]. split; [by auto..| |by auto|by auto].
  intros p c Hp Hk. apply K2; [by apply K1|]. intros k Hk2 HS.
  destruct (owner w1 !! p) as [k1|] eqn:E; [|by rewrite N1 in Hk2 by (done || by eexists)].
  rewrite (O1 _ _ E) in Hk2. injection Hk2 as ->. by eapply Hk.
Qed.

Lemma evolve_mono (S S' : K → Prop) w w' : (∀ k, S k → S' k) → evolve S w w' → evolve S' w w'.
Proof. intros HS [L O Kp D N]. split; try done. intros p c Hp Hk. apply Kp; [done|]. intros k Hk' Hs. by apply (Hk k Hk'), HS. Qed.

(** Writing one location of a slot, or a new one. *)
Lemma evolve_write S (w : world) p k c :
  S k → owner w !! p = Some k ∨ memory w !! p = None ∧ owner w !! p = None →
  evolve S w (World (<[p := k]> (owner w)) (<[p := c]> (memory w))).
Proof.
  intros HS Hp. split; cbn.
  - intros Hw q k'. cbn. rewrite !lookup_insert. case_decide; [by eexists|]. apply Hw.
  - intros q k' Hq. rewrite lookup_insert. case_decide; [|done]. subst. destruct Hp as [Hp|[_ Hp]]; congruence.
  - intros q c' Hq Hk. rewrite lookup_insert_ne; [done|]. intros ->. destruct Hp as [Hp|[Hp _]]; [by apply (Hk k)|congruence].
  - intros q Hq. rewrite lookup_insert. case_decide; [by eexists|done].
  - intros q [c' Hq] Hn. rewrite lookup_insert_ne; [done|]. intros ->. destruct Hp as [Hp|[Hp _]]; congruence.
Qed.

(** Program [m] returns from [w], writes slots of [S] only, and leaves [Q]. *)
Definition runs {A} (S : K → Prop) (m : mem C A) (w : world) (Q : A → world → Prop) : Prop :=
  ∃ a w', m (memory w) = Some (a, memory w') ∧ evolve S w w' ∧ Q a w'.

Lemma runs_ret {A} S (a : A) w (Q : A → world → Prop) : Q a w → runs S (mret a) w Q.
Proof. intros HQ. by exists a, w. Qed.

(** A step that writes fewer slots. *)
Lemma runs_call {A B} S (S' : K → Prop) (m : mem C A) (k : A → mem C B) w Q Q' :
  runs S m w Q → (∀ k, S k → S' k) →
  (∀ a w', evolve S w w' → Q a w' → runs S' (k a) w' Q') → runs S' (m ≫= k) w Q'.
Proof.
  intros (a & w1 & Hm & Hev & HQ) HS Hk. destruct (Hk a w1 Hev HQ) as (b & w2 & Hk2 & Hev2 & HQ2).
  exists b, w2. rewrite (bind_step _ _ _ _ _ Hm). split_and!; [done| |done].
  etrans; [by eapply evolve_mono|done].
Qed.

Lemma runs_bind {A B} S (m : mem C A) (k : A → mem C B) w Q Q' :
  runs S m w Q → (∀ a w', evolve S w w' → Q a w' → runs S (k a) w' Q') → runs S (m ≫= k) w Q'.
Proof. intros Hm Hk. by eapply runs_call. Qed.

(** A step that only reads. *)
Lemma runs_read {A B} S (m : mem C A) (k : A → mem C B) w a Q :
  m (memory w) = Some (a, memory w) → runs S (k a) w Q → runs S (m ≫= k) w Q.
Proof. intros Hm (b & w' & Hk & ?). exists b, w'. by rewrite (bind_step _ _ _ _ _ Hm). Qed.

Lemma runs_mono {A} (S S' : K → Prop) (m : mem C A) w (Q Q' : A → world → Prop) :
  runs S m w Q → (∀ k, S k → S' k) → (∀ a w', evolve S w w' → Q a w' → Q' a w') → runs S' m w Q'.
Proof. intros (a & w' & ? & ? & ?) HS HQ. exists a, w'. split_and!; [done|by eapply evolve_mono|by apply HQ]. Qed.

(** Location [p] belongs to slot [k] and holds [x]. *)
Definition holds {T} `{Cell C T} (w : world) (k : K) (p : loc) (x : T) : Prop :=
  owner w !! p = Some k ∧ memory w !! p = Some (box x).

(** The array of slice [s], spare capacity included, belongs to slot [k], and
    the elements are [xs]. *)
Definition own {T} `{Cell C (list T)} (w : world) (k : K) (s : option slice) (xs : list T) : Prop :=
  match s with
  | None => xs = []
  | Some v => ∃ arr, holds w k (sl_array v) arr ∧ sl_off v = 0 ∧ sl_len v ≤ sl_cap v ∧ length arr = sl_cap v ∧
                     xs = take (sl_len v) arr
  end.

Section holds.
Context {T : Type}.

Lemma holds_evolve `{Cell C T} S w w' k p (x : T) : evolve S w w' → ¬ S k → holds w k p x → holds w' k p x.
Proof.
  intros Hev Hk [Ho Hm]. split; [by eapply evolve_label|]. eapply evolve_keeps; [done..|].
  intros k' Hk'. by rewrite Ho in Hk'; simplify_eq.
Qed.

Lemma load_holds `{Cell C T} w k p (x : T) : holds w k p x → load p (memory w) = Some (x, memory w).
Proof. intros [_ Hm]. eapply load_step; [done|apply unbox_box]. Qed.

Lemma holds_write `{Cell C T} w k p (x : T) c :
  holds (World (<[p := k]> (owner w)) (<[p := box x]> c)) k p x.
Proof. split; cbn; by rewrite lookup_insert_eq. Qed.

Lemma store_holds `{Cell C T} w k p (x y : T) : holds w k p x →
  runs (eq k) (store p y) w (fun _ w' => holds w' k p y).
Proof.
  intros [Ho Hm]. exists tt, (World (<[p := k]> (owner w)) (<[p := box y]> (memory w))).
  split; [apply store_step; by eexists|]. split; [|apply holds_write]. apply evolve_write; auto.
Qed.

Lemma new_holds `{Cell C T} w k (x : T) : labelled w →
  runs (eq k) (new x) w (fun p w' => holds w' k p x).
Proof.
  intros Hw. set (p := fresh (dom (memory w))).
  assert (memory w !! p = None) as Hp by apply not_elem_of_dom, is_fresh.
  exists p, (World (<[p := k]> (owner w)) (<[p := box x]> (memory w))). split; [done|].
  split; [|apply holds_write]. apply evolve_write; [done|]. right. split; [done|]. destruct (owner w !! p) as [k'|] eqn:E; [|done].
  destruct (Hw _ _ E). congruence.
Qed.

End holds.

Section own.
Context {T : Type}.

Lemma own_evolve `{Cell C (list T)} S w w' k s (xs : list T) : evolve S w w' → ¬ S k → own w k s xs → own w' k s xs.
Proof.
  intros Hev Hk. destruct s as [v|]; [|done]. intros (arr & Ha & ?). exists arr. split; [|done]. by eapply holds_evolve.
Qed.

Lemma own_len `{Cell C (list T)} w k s (xs : list T) : own w k s xs → slice_len s = length xs.
Proof. destruct s as [v|]; [|by intros ->]. intros (arr & _ & _ & ? & ? & ->). cbn. rewrite length_take. lia. Qed.

Lemma make_room_own `{Cell C (list T), Zero T} w k n : labelled w →
  runs (eq k) (make_room (T := T) n) w (fun s w' => own w' k s ([] : list T)).
Proof.
  intros Hw. eapply runs_bind; [by apply (new_holds w k)|]. intros p w' _ Hp. apply runs_ret.
  exists (replicate n zero). split_and!; [done|done|cbn; lia|by rewrite length_replicate|done].
Qed.

Lemma elements_own `{Cell C (list T)} w k s (xs : list T) : own w k s xs →
  slice_elements s (memory w) = Some (xs, memory w).
Proof.
  destruct s as [v|]; [|by intros ->]. intros (arr & Hh & Ho & Hl & Ha & ->). cbn.
  rewrite (bind_step _ _ _ _ _ (load_holds _ _ _ _ Hh)). unfold window. rewrite Ho, bool_decide_true by lia.
  by rewrite drop_0.
Qed.

Lemma append_new `{Growth, Cell C (list T), Zero T} w k (xs : list T) x : labelled w →
  runs (eq k) (p ← new (xs ++ x :: replicate (grow (length xs) - S (length xs)) (zero : T));
               mret (Some (Slice p 0 (S (length xs)) (grow (length xs))))) w (fun s w' => own w' k s (xs ++ [x])).
Proof.
  intros Hw. eapply runs_bind; [by apply (new_holds w k)|]. intros p w' _ Hp. apply runs_ret.
  eexists. split; [exact Hp|]. pose proof (grow_room (length xs)).
  split_and!; [done|cbn; lia|rewrite length_app; cbn; rewrite length_replicate; lia|].
  cbn [sl_len]. rewrite (cons_middle x xs (replicate _ _)), app_assoc, take_app_length'; [done|]. rewrite length_app. cbn. lia.
Qed.

Lemma append_own `{Growth, Cell C (list T), Zero T} w k s (xs : list T) x : labelled w → own w k s xs →
  runs (eq k) (append s x) w (fun s' w' => own w' k s' (xs ++ [x])).
Proof.
  intros Hw Hs. destruct s as [v|]; cbn [append]; [|cbn in Hs; subst xs; by apply append_new].
  case_bool_decide as Hroom; [|eapply runs_read; [by eapply elements_own|by apply append_new]].
  destruct Hs as (arr & Hh & Ho & Hl & Ha & ->). eapply runs_read; [by eapply load_holds|].
  rewrite Ho, bool_decide_true by lia. cbn [Nat.add].
  eapply runs_bind; [by eapply (store_holds w k)|]. intros [] w' _ Hh'. apply runs_ret.
  exists (<[sl_len v := x]> arr). split_and!; [done|done|cbn; lia|by rewrite length_insert|]. cbn [sl_len].
  rewrite (take_S_r _ _ x) by (rewrite list_lookup_insert_eq; [done|lia]). by rewrite take_insert_ge.
Qed.

Lemma sort_own `{Cell C (list T), StableSort} w k s (xs : list T) less : own w k s xs →
  runs (eq k) (sort_slice less s) w (fun _ w' => own w' k s (SliceStable less xs)).
Proof.
  destruct s as [v|]; cbn [sort_slice own].
  - intros (arr & Hh & Ho & Hl & Ha & ->). eapply runs_read; [by eapply load_holds|].
    unfold window. rewrite Ho, bool_decide_true, drop_0 by lia. cbn [take app Nat.add].
    set (ys := SliceStable less (take (sl_len v) arr)).
    assert (length ys = sl_len v) as Hys by (unfold ys; rewrite SliceStable_perm, length_take; lia).
    eapply runs_mono; [by eapply (store_holds w k)|done|]. intros [] w' _ Hh'.
    exists (ys ++ drop (sl_len v) arr). split_and!; [done|done|done| |by rewrite take_app_length'].
    rewrite length_app, length_drop. lia.
  - intros ->. apply runs_ret. cbn. apply Permutation_nil_r. by rewrite SliceStable_perm.
Qed.
End own.

(** ** Reading *)

(** The elements of slice [s] are [xs]. *)
Definition reads {T} `{Cell C (list T)} (h : heap C) (s : option slice) (xs : list T) : Prop :=
  match s with
  | None => xs = []
  | Some v => ∃ c arr, h !! sl_array v = Some c ∧ unbox c = Some arr ∧ window v arr = Some xs
  end.

(** [x] means [a], and nothing it is made of is labelled. *)
Definition shared {T A} (rd : T → view C A) (w : world) (x : T) (a : A) : Prop :=
  ∃ R, rd x (memory w) = Some (a, R) ∧ ∀ p, p ∈ R → owner w !! p = None.

(** [x] means [a]. *)
Definition seen {T A} (rd : T → view C A) (w : world) (x : T) (a : A) : Prop :=
  ∃ R, rd x (memory w) = Some (a, R).

Lemma view_ret_Some {A} (a b : A) (h : heap C) R : (mret a : view C A) h = Some (b, R) → b = a ∧ R = [].
Proof. by intros [= <- <-]. Qed.

(** A slice with the elements of a view of slices: nil is empty. *)
Definition or_empty {A} (v : view C (option (list A))) : view C (list A) := l ← v; mret (default [] l).

#[export] Instance local_or_empty {A} (v : view C (option (list A))) : Local v → Local (or_empty v).
Proof. intros. apply local_bind; apply _. Qed.

Section reading.
Context {T : Type} `{Cell C (list T)}.

Lemma window_elements (v : slice) (arr xs : list T) : window v arr = Some xs →
  length xs = sl_len v ∧ ∀ i x, xs !! i = Some x → arr !! (sl_off v + i) = Some x ∧ i < sl_len v.
Proof.
  unfold window. case_bool_decide as Hw; [|done]. intros [= <-]. split; [rewrite length_take, length_drop; lia|].
  intros i x Hi. assert (i < sl_len v) as Hl by (apply lookup_lt_Some in Hi; rewrite length_take in Hi; lia).
  by rewrite lookup_take_lt, lookup_drop in Hi by done.
Qed.

Lemma reads_len h s (xs : list T) : reads h s xs → slice_len s = length xs.
Proof. destruct s as [v|]; [|by intros ->]. intros (c & arr & _ & _ & [-> _]%window_elements). done. Qed.

Lemma reads_at h v (xs : list T) i x : reads h (Some v) xs → xs !! i = Some x → slice_at v i h = Some (x, h).
Proof. intros (c & arr & Hc & Ha & [_ Hx]%window_elements) [? ?]%Hx. by eapply slice_at_step. Qed.

Lemma reads_elements h s (xs : list T) : reads h s xs → slice_elements s h = Some (xs, h).
Proof.
  destruct s as [v|]; [|by intros ->]. intros (c & arr & Hc & Ha & Hw). cbn.
  by rewrite (bind_step _ _ _ _ _ (load_step _ _ _ _ Hc Ha)), Hw.
Qed.

Lemma own_reads w k s (xs : list T) : own w k s xs → reads (memory w) s xs.
Proof.
  destruct s as [v|]; [|done]. intros (arr & [_ Hm] & Ho & Hl & Ha & ->). exists (box arr), arr.
  split; [done|]. split; [apply unbox_box|]. unfold window. by rewrite Ho, bool_decide_true, drop_0 by lia.
Qed.

Lemma shared_evolve {T' A} (rd : T' → view C A) `{!∀ x, Local (rd x)} S w w' x a :
  evolve S w w' → shared rd w x a → shared rd w' x a.
Proof.
  intros Hev (R & Hr & Hs). exists R. split.
  - apply (local_frame _ _ _ _ Hr). intros p Hp. destruct (local_dom _ _ _ _ Hr Hp) as [c Hc]. rewrite Hc.
    eapply evolve_keeps; [done..|]. intros k. by rewrite Hs.
  - intros p Hp. eapply evolve_new; [done|by eapply local_dom|by apply Hs].
Qed.

Lemma shared_seen {T' A} (rd : T' → view C A) w x a : shared rd w x a → seen rd w x a.
Proof. intros (R & ? & _). by exists R. Qed.

Lemma view_list_Some {T' A} (rd : T' → view C A) xs h l R : view_list rd xs h = Some (l, R) →
  Forall2 (fun x a => ∃ R', rd x h = Some (a, R') ∧ R' ⊆ R) xs l.
Proof.
  revert l R. induction xs as [|x xs IH]; intros l R; cbn [view_list].
  - intros [= <- <-]. constructor.
  - intros (a & R1 & b & R2 & Hx & (l' & R3 & b' & R4 & Hl & Hb & E1)%view_bind_Some & E2)%view_bind_Some.
    apply view_ret_Some in Hb as [-> ->]. simplify_eq. constructor; [exists R1; set_solver|].
    eapply Forall2_impl; [by apply IH|]. intros ? ? (R' & ? & ?). exists R'. set_solver.
Qed.

Lemma view_list_seen {T' A} (rd : T' → view C A) w xs l : Forall2 (seen rd w) xs l → seen (view_list rd) w xs l.
Proof.
  induction 1 as [|x a xs l [R1 Hx] _ [R2 Hl]]; [by eexists|]. eexists. apply view_bind_Some.
  eexists _, _, _, _. split; [done|]. split; [|done]. apply view_bind_Some. by eexists _, _, _, _.
Qed.

(** A slice of shared memory, now and later. *)
Lemma shared_slice {A} (rd : T → view C A) w s l : shared (fun s => or_empty (view_slice rd s)) w s l →
  ∃ xs, Forall2 (shared rd w) xs l ∧ ∀ S w', evolve S w w' → reads (memory w') s xs.
Proof.
  intros (R & (o & R1 & b & R2 & Hv & Hb & E)%view_bind_Some & Hs). apply view_ret_Some in Hb as [-> ->]. simplify_eq. destruct s as [v|]; cbn [view_slice] in Hv.
  2: { injection Hv as <- <-. by exists []. }
  apply view_bind_Some in Hv as (arr & R3 & b' & R4 & Hd & Hv & E). simplify_eq. unfold deref in Hd.
  destruct (memory w !! sl_array v) as [c|] eqn:Hc; [|done]. cbn in Hd. destruct (unbox c) as [arr'|] eqn:Ha; [|done].
  simplify_eq. destruct (window v arr) as [xs|] eqn:Hw; [|done].
  apply view_bind_Some in Hv as (l & R5 & b & R6 & Hl & Hb & E). apply view_ret_Some in Hb as [-> ->]. simplify_eq. exists xs. split.
  - eapply Forall2_impl; [by eapply view_list_Some|]. intros x a (R' & Hx & Hsub). exists R'. split; [done|].
    intros p Hp. apply Hs. set_solver.
  - intros S w' Hev. exists c, arr. split_and!; [|done..]. eapply evolve_keeps; [done..|]. intros k. rewrite Hs; [done|set_solver].
Qed.

(** A slice whose elements mean [l] means [l]. *)
Lemma reads_seen {A} (rd : T → view C A) w s xs l : reads (memory w) s xs → Forall2 (seen rd w) xs l →
  seen (fun s => or_empty (view_slice rd s)) w s l.
Proof.
  intros Hr Hl. destruct s as [v|]; cbn [reads] in Hr.
  - destruct Hr as (c & arr & Hc & Ha & Hw). apply view_list_seen in Hl as [R Hl].
    eexists. apply view_bind_Some. eexists (Some l), _, l, []. split; [|by split]. cbn [view_slice].
    apply view_bind_Some. eexists arr, _, _, _. split; [unfold deref; rewrite Hc; cbn; by rewrite Ha|].
    rewrite Hw. split; [|done]. apply view_bind_Some. eexists _, _, _, _. split; [exact Hl|done].
  - subst xs. apply Forall2_nil_inv_l in Hl as ->. by exists [].
Qed.

Lemma own_reads_later S w w' k s (xs : list T) : own w k s xs → ¬ S k → evolve S w w' → reads (memory w') s xs.
Proof. intros Ho Hk Hev. eapply own_reads, own_evolve; [exact Hev|exact Hk|done]. Qed.
End reading.

(** What views made of views mean. *)
Lemma shared_bind {T A B} (v : T → view C A) (k : T → A → view C B) w x b :
  shared (fun x => v x ≫= k x) w x b ↔ ∃ a, shared v w x a ∧ shared (fun x => k x a) w x b.
Proof.
  split.
  - intros (R & (a & R1 & b' & R2 & Ha & Hb & E)%view_bind_Some & Hs). simplify_eq.
    exists a. split; (eexists; split; [done|]; intros p Hp; apply Hs; set_solver).
  - intros (a & (R1 & Ha & H1) & R2 & Hb & H2). exists (R1 ++ R2). split; [apply view_bind_Some; by eexists _, _, _, _|].
    intros p [?|?]%elem_of_app; auto.
Qed.

Lemma shared_ret {T A} (f : T → A) w x a : shared (fun x => mret (f x)) w x a ↔ a = f x.
Proof.
  split; [by intros (R & [-> _]%view_ret_Some & _)|]. intros ->. exists []. split; [done|]. by intros p ?%not_elem_of_nil.
Qed.

Lemma seen_bind {T A B} (v : T → view C A) (k : T → A → view C B) w x b :
  seen (fun x => v x ≫= k x) w x b ↔ ∃ a, seen v w x a ∧ seen (fun x => k x a) w x b.
Proof.
  split.
  - intros (R & (a & R1 & b' & R2 & Ha & Hb & E)%view_bind_Some). simplify_eq. exists a. by split; eexists.
  - intros (a & (R1 & Ha) & R2 & Hb). exists (R1 ++ R2). apply view_bind_Some. by eexists _, _, _, _.
Qed.

Lemma seen_ret {T A} (f : T → A) w x a : seen (fun x => mret (f x)) w x a ↔ a = f x.
Proof. split; [by intros (R & [-> _]%view_ret_Some)|]. intros ->. by exists []. Qed.

(** ** Loops *)
Section loops.
Context (S : K → Prop).

Lemma fold_each_runs {A B} (l : list A) (body : B → A → mem C B) (I : list A → B → world → Prop) b w :
  I [] b w →
  (∀ before x after b w', l = before ++ x :: after → evolve S w w' → I before b w' →
    runs S (body b x) w' (I (before ++ [x]))) →
  runs S (fold_each l body b) w (I l).
Proof.
  intros HI Hstep.
  assert (∀ after before b w', l = before ++ after → evolve S w w' → I before b w' →
    runs S (fold_each after body b) w' (I l)) as Hloop; [|by apply (Hloop l [])].
  induction after as [|x after IH]; intros before b0 w' Hl Hev HI0.
  - apply runs_ret. rewrite app_nil_r in Hl. by subst.
  - eapply runs_bind; [by eapply Hstep|]. intros b1 w1 Hev1 HI1.
    apply (IH (before ++ [x])); [by rewrite <-app_assoc|by etrans|done].
Qed.

(** A loop over a slice whose elements are [xs] in every world the loop can
    reach. *)
Lemma fold_slice_runs {T B} `{Cell C (list T)} s (xs : list T) (body : B → T → mem C B) (I : list T → B → world → Prop) b w :
  (∀ w', evolve S w w' → reads (memory w') s xs) →
  I [] b w →
  (∀ before x after b w', xs = before ++ x :: after → evolve S w w' → I before b w' →
    runs S (body b x) w' (I (before ++ [x]))) →
  runs S (fold_slice s body b) w (I xs).
Proof.
  intros Hr HI Hstep. pose proof (reads_len _ _ _ (Hr w (reflexivity w))) as Hlen.
  destruct s as [v|]; cbn [fold_slice slice_len] in *; [|destruct xs; [by apply runs_ret|done]].
  eapply runs_mono; [apply (fold_each_runs _ _ (fun before b w => I (take (length before) xs) b w))|done|].
  - done.
  - intros before i after b0 w' Hs Hev HI0.
    assert (i = length before ∧ length before < sl_len v) as [-> Hi].
    { assert (seq 0 (sl_len v) !! length before = Some i) as Hi by (rewrite Hs; by apply list_lookup_middle).
      apply lookup_seq in Hi. lia. }
    destruct (lookup_lt_is_Some_2 xs (length before)) as [x Hx]; [lia|].
    eapply runs_read; [eapply reads_at; [by apply Hr|done]|].
    rewrite length_app. cbn [length]. rewrite Nat.add_1_r, (take_S_r _ _ x) by done.
    apply (Hstep _ _ (drop (Datatypes.S (length before)) xs)); [by rewrite take_drop_middle|done|done].
  - cbv beta. intros b' w' _. by rewrite length_seq, Hlen, firstn_all.
Qed.

(** The same loops, next to a loop over what the elements mean. *)
Lemma Forall2_split {A B} (R : A → B → Prop) l l' before x after : Forall2 R l l' → l = before ++ x :: after →
  l' = take (length before) l' ++ drop (length before) l' ∧
  ∃ a after', drop (length before) l' = a :: after' ∧ R x a.
Proof.
  intros HR ->. apply Forall2_app_inv_l in HR as (k1 & k2 & H1 & H2 & ->).
  inversion H2 as [|? a ? after' Hx Hafter]; subst. pose proof (Forall2_length _ _ _ H1) as Hlen.
  rewrite take_app_length', drop_app_length' by done. split; [done|]. by exists a, after'.
Qed.

Lemma fold_each_related {A A' B} (R : A → A' → Prop) l l' (body : B → A → mem C B) (I : list A' → B → world → Prop) b w :
  Forall2 R l l' → I [] b w →
  (∀ before x a after b w', l' = before ++ a :: after → R x a → evolve S w w' → I before b w' →
    runs S (body b x) w' (I (before ++ [a]))) →
  runs S (fold_each l body b) w (I l').
Proof.
  intros HR HI Hstep. pose proof (Forall2_length _ _ _ HR) as Hlen.
  eapply runs_mono; [apply (fold_each_runs _ _ (fun before b w => I (take (length before) l') b w))|done|].
  - done.
  - intros before x after b0 w' Hl Hev HI0. destruct (Forall2_split _ _ _ _ _ _ HR Hl) as (Hl' & a & after' & Hd & Hx).
    rewrite Hd in Hl'. rewrite length_app. cbn [length]. rewrite Nat.add_1_r, (take_S_r _ _ a); [by eapply Hstep|].
    rewrite <-(Nat.add_0_r (length before)), <-lookup_drop, Hd. done.
  - cbv beta. intros b' w' _. by rewrite Hlen, firstn_all.
Qed.

Lemma fold_slice_related {T A B} `{Cell C (list T)} (rd : T → view C A) `{!∀ x, Local (rd x)} s xs l
    (body : B → T → mem C B) (I : list A → B → world → Prop) b w :
  (∀ w', evolve S w w' → reads (memory w') s xs) → Forall2 (shared rd w) xs l → I [] b w →
  (∀ before x a after b w', l = before ++ a :: after → shared rd w' x a → evolve S w w' → I before b w' →
    runs S (body b x) w' (I (before ++ [a]))) →
  runs S (fold_slice s body b) w (I l).
Proof.
  intros Hr HR HI Hstep. pose proof (Forall2_length _ _ _ HR) as Hlen.
  eapply runs_mono; [apply (fold_slice_runs _ xs _ (fun before b w => I (take (length before) l) b w)); [done|done|]|done|].
  - intros before x after b0 w' Hl Hev HI0. destruct (Forall2_split _ _ _ _ _ _ HR Hl) as (Hl' & a & after' & Hd & Hx).
    rewrite Hd in Hl'. rewrite length_app. cbn [length]. rewrite Nat.add_1_r, (take_S_r _ _ a).
    + eapply Hstep; [done|by eapply shared_evolve|done..].
    + rewrite <-(Nat.add_0_r (length before)), <-lookup_drop, Hd. done.
  - cbv beta. intros b' w' _. by rewrite Hlen, firstn_all.
Qed.
End loops.
End worlds.
Arguments world : clear implicits.
