(* ===== verification/ApiTypes.v ===== *)
(** * ApiTypes: the custom resources of [api/], the Kubernetes objects the
    program reads, and the client interfaces it reads them through

    Records carry the fields of the Go structs; pointers are [option]s, Go
    maps are [gmap]s, and times are nanoseconds.  [Reader] is the part of
    controller-runtime's [client.Reader] the program calls: what the API
    server answers is an input of the model.  The accessors of
    [k8s.io/apimachinery] on untyped objects are the members of the class
    [Apimachinery]. *)

From S2P Require Import Prelude GoStrings.

(** ** Dynamic values: Go's [any] as filled in by [encoding/json] *)
#[warnings="-register-all"]
Inductive any :=
| ANil
| ABool (b : bool)
| AInt64 (z : Z)
| AFloat64 (bits : Z)
| AString (s : string)
| AStrings (l : list string)
| ASlice (l : list any)
| AMap (m : gmap string any).

(** [v, ok := x.(string)] and [v, ok := x.(map[string]any)]; the zero value
    stands for [v] when [ok] is false. *)
Definition as_string (x : any) : option string :=
  match x with AString s => Some s | _ => None end.
Definition as_map (x : any) : option (gmap string any) :=
  match x with AMap m => Some m | _ => None end.

(** [m[k]] on a [map[string]any] and on a [map[string]string]. *)
Definition any_at (m : gmap string any) (k : string) : any := default ANil (m !! k).
Definition str_at (m : gmap string string) (k : string) : string := default "" (m !! k).

(** ** Metadata *)
Record ObjectMeta := {
  om_Name : string;
  om_Namespace : string;
  om_Annotations : gmap string string
}.

Record GroupVersion := { gv_Group : string; gv_Version : string }.
#[export] Instance GroupVersion_eq_dec : EqDecision GroupVersion.
Proof. solve_decision. Defined.

Record GroupVersionKind := { gvk_gv : GroupVersion; gvk_Kind : string }.
#[export] Instance GroupVersionKind_eq_dec : EqDecision GroupVersionKind.
Proof. solve_decision. Defined.

Definition GVK (group version kind : string) : GroupVersionKind :=
  {| gvk_gv := {| gv_Group := group; gv_Version := version |}; gvk_Kind := kind |}.

Record NamespacedName := { nn_Namespace : string; nn_Name : string }.
#[export] Instance NamespacedName_eq_dec : EqDecision NamespacedName.
Proof. solve_decision. Defined.

(** ** api/dashboard/v1alpha1 *)
Definition BookmarkLinkTargetSelf : string := "_self".
Definition BookmarkLinkTargetBlank : string := "_blank".
Definition BookmarkLinkTargetParent : string := "_parent".
Definition BookmarkLinkTargetTop : string := "_top".

Record LocalObjectReference := { lor_Name : string }.

Record URLSource := {
  IngressRef : option LocalObjectReference;
  RouteRef : option LocalObjectReference;
  IngressRouteRef : option LocalObjectReference;
  HTTPRouteRef : option LocalObjectReference;
  GRPCRouteRef : option LocalObjectReference;
  ServiceRef : option LocalObjectReference
}.

Record BookmarkSpec := {
  bs_Group : string;
  bs_Name : string;
  bs_URL : string;
  bs_URLFrom : option URLSource;
  bs_Target : string;
  bs_Icon : string;
  bs_NetworkRestricted : bool;
  bs_Replicate : bool;
  bs_Groups : list string;
  bs_Properties : gmap string string
}.

Record BookmarkStatus := {
  bst_URLReachable : option bool;
  bst_LastURLCheckAt : option Z;
  bst_URLCheckError : string;
  bst_LastSyncedAt : option Z
}.

Record Bookmark := {
  b_meta : ObjectMeta;
  b_Spec : BookmarkSpec;
  b_Status : BookmarkStatus
}.

Record BookmarkGroupSpec := {
  bgs_Name : string;
  bgs_Properties : gmap string string;
  bgs_Replicate : bool
}.

Record BookmarkGroupStatus := {
  bgst_BookmarkCount : Z;
  bgst_LastSyncedAt : option Z
}.

Record BookmarkGroup := {
  bg_meta : ObjectMeta;
  bg_Spec : BookmarkGroupSpec;
  bg_Status : BookmarkGroupStatus
}.

Record InfoTileQueryParam := { qp_Name : string; qp_Value : string }.
Record InfoTileHeader := { hd_Name : string; hd_Value : string }.

Record InfoTileHTTPRequest := {
  hr_Method : string;
  hr_URL : string;
  hr_QueryParams : list InfoTileQueryParam;
  hr_Headers : list InfoTileHeader;
  hr_Body : string
}.

Record InfoTileSpec := {
  its_Name : string;
  its_Group : string;
  its_Icon : string;
  its_URL : string;
  its_Target : string;
  its_Source : string;
  its_Interval : option Z;
  its_Replicate : bool;
  its_HTTPRequest : option InfoTileHTTPRequest;
  its_Processor : string
}.

Record InfoTileStatus := {
  itst_Content : string;
  itst_LastFetchedAt : option Z;
  itst_LastError : string
}.

Record InfoTile := {
  it_meta : ObjectMeta;
  it_Spec : InfoTileSpec;
  it_Status : InfoTileStatus
}.

(** ** api/forecastle/v1alpha1 *)
Record ForecastleURLSource := {
  fc_IngressRef : option LocalObjectReference;
  fc_RouteRef : option LocalObjectReference;
  fc_IngressRouteRef : option LocalObjectReference;
  fc_HTTPRouteRef : option LocalObjectReference
}.

Record ForecastleAppSpec := {
  fas_Name : string;
  fas_Instance : string;
  fas_Group : string;
  fas_Icon : string;
  fas_URL : string;
  fas_URLFrom : option ForecastleURLSource;
  fas_NetworkRestricted : bool;
  fas_Groups : list string;
  fas_Properties : gmap string string
}.

Record ForecastleApp := {
  fa_meta : ObjectMeta;
  fa_Spec : ForecastleAppSpec
}.

Definition forecastle_GroupVersion : GroupVersion :=
  {| gv_Group := "forecastle.stakater.com"; gv_Version := "v1alpha1" |}.

(** ** Kubernetes objects, as far as the program looks at them *)
Record Ingress := { ing_meta : ObjectMeta; ing_RuleHosts : list string }.
Record Service := { svc_meta : ObjectMeta; svc_Ports : list Z }.
Record EndpointSlice := { eps_meta : ObjectMeta }.
Record Unstructured := { u_meta : ObjectMeta; u_Object : any }.

(** ** Clients *)
Record Reader := {
  list_BookmarkGroups : result (list BookmarkGroup);
  list_Bookmarks : option string → result (list Bookmark);
  list_ForecastleApps : result (list ForecastleApp);
  list_InfoTiles : result (list InfoTile);
  list_Ingresses : gmap string string → result (list Ingress);
  list_Services : gmap string string → result (list Service);
  list_EndpointSlices : gmap string string → result (list EndpointSlice);
  list_Unstructured : GroupVersionKind → gmap string string → result (list Unstructured);
  get_Ingress : NamespacedName → result Ingress;
  get_Service : NamespacedName → result Service;
  get_Unstructured : GroupVersionKind → NamespacedName → result Unstructured
}.

(** [ServerResourcesForGroupVersion]: the kinds of the resources served under
    a group and version. *)
Definition Discovery : Type := GroupVersion → result (list string).

(** [apierrors.IsNotFound] and [client.IgnoreNotFound]. *)
Definition IsNotFound (e : error) : bool := bool_decide (err_class e = KNotFound).
Definition IgnoreNotFound (e : error) : option error :=
  if IsNotFound e then None else Some e.

(** [unstructured.NestedStringSlice], [NestedSlice] and [NestedString]:
    [Ok None] is "not found", [Err] a value of another type on the path. *)
Class Apimachinery := {
  NestedStringSlice : any → list string → result (option (list string));
  NestedSlice : any → list string → result (option (list any));
  NestedString : any → list string → result (option string)
}.

(** The documented behaviour of the accessors, for evaluation. *)
Fixpoint nested_field (x : any) (path : list string) : result (option any) :=
  match path with
  | [] => Ok (Some x)
  | k :: path =>
    match x with
    | AMap m => match m !! k with Some y => nested_field y path | None => Ok None end
    | _ => Err (new_error "accessor error")
    end
  end.

Definition nested_as {A} (f : any → option A) (x : any) (path : list string)
    : result (option A) :=
  match nested_field x path with
  | Ok None => Ok None
  | Ok (Some y) =>
    match f y with Some v => Ok (Some v) | None => Err (new_error "accessor error") end
  | Err e => Err e
  end.

Definition as_slice (x : any) : option (list any) :=
  match x with ASlice l => Some l | _ => None end.

Definition apimachinery : Apimachinery :=
  {| NestedStringSlice := nested_as (fun y => as_slice y ≫= mapM as_string);
     NestedSlice := nested_as as_slice;
     NestedString := nested_as as_string |}.
