(* ===== verification/UrlResolver.v ===== *)
(** * UrlResolver: internal/webhook/dashboard/v1alpha1/url_resolver.go

    Resolving a [URLSource] reference to the URL of a host that a Kubernetes
    object publishes. *)

From S2P Require Import Prelude GoStrings ApiTypes.

Section resolver.
Context `{Unicode, Apimachinery}.
Implicit Types (c : Reader) (namespace name : string).

(** [ExtractHostFromTraefikMatch] *)
Definition ExtractHostFromTraefikMatch (match_ : string) : string :=
  let start := Index match_ "Host(`" in
  if (start <? 0)%Z then "" else
  let start := (start + 6)%Z in
  let end_ := Index (slice_from match_ start) "`)" in
  if (end_ <? 0)%Z then "" else
  TrimSpace (slice match_ start (start + end_)).

(** [for _, h := range hosts { if strings.TrimSpace(h) != "" { return "https://" + h } }] *)
Definition https_of_host (host : string) : option string :=
  if is_blank host then None else Some ("https://" +:+ host).

(** The error prefix ["ingressRef %q: "], for the named reference. *)
Definition ref_prefix (kind name : string) : string := kind +:+ " " +:+ quote name +:+ ": ".
Definition ref_error {A} (kind name what : string) : result A :=
  Err (new_error (kind +:+ " " +:+ quote name +:+ what)).

Definition resolveIngressURL c namespace name : result string :=
  match get_Ingress c {| nn_Namespace := namespace; nn_Name := name |} with
  | Err err => Err (wrap_error (ref_prefix "ingressRef" name) err)
  | Ok ingress =>
    match find_map https_of_host (ing_RuleHosts ingress) with
    | Some u => Ok u
    | None => ref_error "ingressRef" name " has no host rules"
    end
  end.

(** The common shape of the resolvers of the Gateway API: get the object,
    read [spec.hostnames], take the first that is not blank. *)
Definition resolve_gateway (kind ref : string) c namespace name : result string :=
  match get_Unstructured c (GVK "gateway.networking.k8s.io" "v1" kind)
          {| nn_Namespace := namespace; nn_Name := name |} with
  | Err err => Err (wrap_error (ref_prefix ref name) err)
  | Ok obj =>
    match NestedStringSlice (u_Object obj) ["spec"; "hostnames"] with
    | Err err => Err (wrap_error (ref_prefix ref name) err)
    | Ok hostnames =>
      match find_map https_of_host (default [] hostnames) with
      | Some u => Ok u
      | None => ref_error ref name " has no hostnames"
      end
    end
  end.

Definition resolveHTTPRouteURL : Reader → string → string → result string :=
  resolve_gateway "HTTPRoute" "httpRouteRef".
Definition resolveGRPCRouteURL : Reader → string → string → result string :=
  resolve_gateway "GRPCRoute" "grpcRouteRef".

(** [fmt.Sprintf("%s://%s.%s.svc.cluster.local:%d", ...)] with the scheme
    chosen by the first port. *)
Definition service_url (svc : Service) (port : Z) : string :=
  (if (port =? 443)%Z then "https" else "http") +:+ "://" +:+ om_Name (svc_meta svc) +:+ "."
    +:+ om_Namespace (svc_meta svc) +:+ ".svc.cluster.local:" +:+ itoa port.

Definition resolveServiceURL c namespace name : result string :=
  match get_Service c {| nn_Namespace := namespace; nn_Name := name |} with
  | Err err => Err (wrap_error (ref_prefix "serviceRef" name) err)
  | Ok svc =>
    match svc_Ports svc with
    | [] => ref_error "serviceRef" name " has no ports"
    | port :: _ => Ok (service_url svc port)
    end
  end.

Definition resolveOpenShiftRouteURL c namespace name : result string :=
  match get_Unstructured c (GVK "route.openshift.io" "v1" "Route")
          {| nn_Namespace := namespace; nn_Name := name |} with
  | Err err => Err (wrap_error (ref_prefix "routeRef" name) err)
  | Ok obj =>
    match NestedString (u_Object obj) ["spec"; "host"] with
    | Err err => Err (wrap_error (ref_prefix "routeRef" name) err)
    | Ok None => ref_error "routeRef" name " has no spec.host"
    | Ok (Some host) =>
      if is_blank host then ref_error "routeRef" name " has no spec.host"
      else Ok ("https://" +:+ host)
    end
  end.

(** One route of a Traefik IngressRoute: its [match] rule, when it is a map. *)
Definition https_of_traefik_route (extract : string → string) (route : any) : option string :=
  match as_map route with
  | None => None
  | Some routeMap =>
    let match_ := default "" (as_string (any_at routeMap "match")) in
    let host := extract match_ in
    if bool_decide (host ≠ "") then Some ("https://" +:+ host) else None
  end.

(** The body of the loop over the two API groups, once [Get] succeeded. *)
Definition traefik_routes_url name (obj : Unstructured) : result string :=
  match NestedSlice (u_Object obj) ["spec"; "routes"] with
  | Err err => Err (wrap_error (ref_prefix "ingressRouteRef" name) err)
  | Ok None | Ok (Some []) => ref_error "ingressRouteRef" name " has no routes"
  | Ok (Some routes) =>
    match find_map (https_of_traefik_route ExtractHostFromTraefikMatch) routes with
    | Some u => Ok u
    | None => ref_error "ingressRouteRef" name " has no parsable host"
    end
  end.

Fixpoint resolve_traefik_in (gvs : list string) c namespace name : result string :=
  match gvs with
  | [] => ref_error "ingressRouteRef" name " not found"
  | group :: gvs =>
    match get_Unstructured c (GVK group "v1alpha1" "IngressRoute")
            {| nn_Namespace := namespace; nn_Name := name |} with
    | Ok obj => traefik_routes_url name obj
    | Err _ => resolve_traefik_in gvs c namespace name
    end
  end.

Definition resolveTraefikIngressRouteURL c namespace name : result string :=
  resolve_traefik_in ["traefik.containo.us"; "traefik.io"] c namespace name.

Definition ResolveURLFromSource c namespace (source : option URLSource) : result string :=
  match source with
  | None => Err (new_error "urlFrom must not be nil")
  | Some source =>
    match IngressRef source with
    | Some ref => resolveIngressURL c namespace (lor_Name ref)
    | None =>
    match HTTPRouteRef source with
    | Some ref => resolveHTTPRouteURL c namespace (lor_Name ref)
    | None =>
    match GRPCRouteRef source with
    | Some ref => resolveGRPCRouteURL c namespace (lor_Name ref)
    | None =>
    match ServiceRef source with
    | Some ref => resolveServiceURL c namespace (lor_Name ref)
    | None =>
    match RouteRef source with
    | Some ref => resolveOpenShiftRouteURL c namespace (lor_Name ref)
    | None =>
    match IngressRouteRef source with
    | Some ref => resolveTraefikIngressRouteURL c namespace (lor_Name ref)
    | None => Err (new_error "urlFrom must set one reference")
    end end end end end end
  end.
End resolver.

(** ** The Traefik rule parser *)

(** [m] is [p ++ "Host(`" ++ h ++ "`)" ++ t], both delimiters at their first
    possible place. *)
Definition traefik_host_at (m p h t : string) : Prop :=
  m = p +:+ "Host(`" +:+ h +:+ "`)" +:+ t ∧
  first_at (bytes "Host(`") (bytes p) (bytes (h +:+ "`)" +:+ t)) ∧
  first_at (bytes "`)") (bytes h) (bytes t).

Lemma Index_Some s sub n :
  index_of (bytes sub) (bytes s) = Some n → Index s sub = Z.of_nat n.
Proof. intros Hi. unfold Index. by rewrite Hi. Qed.

Lemma Index_None s sub :
  index_of (bytes sub) (bytes s) = None → Index s sub = (-1)%Z.
Proof. intros Hi. unfold Index. by rewrite Hi. Qed.

Lemma slice_from_app p sub r :
  slice_from (p +:+ sub +:+ r) (Z.of_nat (length (bytes p)) + Z.of_nat (length (bytes sub))) = r.
Proof.
  unfold slice_from. rewrite <-Nat2Z.inj_add, Nat2Z.id, !bytes_app, app_assoc, <-length_app.
  by rewrite drop_app_length, str_bytes.
Qed.

Lemma slice_app p sub h r :
  slice (p +:+ sub +:+ h +:+ r) (Z.of_nat (length (bytes p)) + Z.of_nat (length (bytes sub)))
    (Z.of_nat (length (bytes p)) + Z.of_nat (length (bytes sub)) + Z.of_nat (length (bytes h)))
  = h.
Proof.
  unfold slice. rewrite Z.add_simpl_l, Nat2Z.id.
  rewrite <-Nat2Z.inj_add, Nat2Z.id, !bytes_app, app_assoc, <-length_app.
  by rewrite drop_app_length, take_app_length, str_bytes.
Qed.

(** When the rule holds a host between the delimiters, it is the answer. *)
Lemma extract_host_found m p h t :
  traefik_host_at m p h t → ExtractHostFromTraefikMatch m = TrimSpace h.
Proof.
  intros (-> & Hp & Hh). unfold ExtractHostFromTraefikMatch.
  rewrite (Index_Some _ _ (length (bytes p))).
  2: { apply index_of_Some. exists (bytes p), (bytes (h +:+ "`)" +:+ t)).
       by rewrite !bytes_app in *. }
  destruct (Z.ltb_spec (Z.of_nat (length (bytes p))) 0); [lia|].
  change 6%Z with (Z.of_nat (length (bytes "Host(`"))).
  rewrite slice_from_app, (Index_Some _ _ (length (bytes h))).
  2: { apply index_of_Some. exists (bytes h), (bytes t). by rewrite !bytes_app. }
  destruct (Z.ltb_spec (Z.of_nat (length (bytes h))) 0); [lia|].
  by rewrite slice_app.
Qed.

Lemma extract_host_none m :
  (∀ p h t, ¬ traefik_host_at m p h t) → ExtractHostFromTraefikMatch m = "".
Proof.
  intros Hm. unfold ExtractHostFromTraefikMatch.
  destruct (index_of (bytes "Host(`") (bytes m)) as [n|] eqn:Hn;
    [|by rewrite (Index_None _ _ Hn)].
  rewrite (Index_Some _ _ _ Hn). apply index_of_Some in Hn as (p & r & Hr & <- & Hf).
  assert (m = str p +:+ "Host(`" +:+ str r) as ->.
  { apply bytes_inj. by rewrite !bytes_app, !bytes_str. }
  destruct (Z.ltb_spec (Z.of_nat (length p)) 0); [lia|].
  change 6%Z with (Z.of_nat (length (bytes "Host(`"))).
  replace (length p) with (length (bytes (str p))) by (by rewrite bytes_str).
  rewrite slice_from_app.
  destruct (index_of (bytes "`)") (bytes (str r))) as [k|] eqn:Hk;
    [|by rewrite (Index_None _ _ Hk)].
  exfalso. apply index_of_Some in Hk as (h & t & Ht & <- & Hft). rewrite bytes_str in Ht.
  apply (Hm (str p) (str h) (str t)). unfold traefik_host_at. rewrite !bytes_app, !bytes_str.
  split; [|split; [by rewrite <-Ht|done]].
  f_equal. f_equal. apply bytes_inj. by rewrite !bytes_app, !bytes_str.
Qed.

(** ** What a reference may resolve to *)

(** [h] is the first host of the list that is not blank. *)
Definition first_host (hosts : list string) (h : string) : Prop :=
  ∃ l1 l2, hosts = l1 ++ h :: l2 ∧ is_blank h = false ∧ Forall (fun x => is_blank x = true) l1.

Lemma find_https_host hosts u :
  find_map https_of_host hosts = Some u ↔ ∃ h, first_host hosts h ∧ u = "https://" +:+ h.
Proof.
  rewrite find_map_Some. unfold https_of_host, first_host. split.
  - intros (l1 & h & l2 & -> & Hh & Hl). destruct (is_blank h) eqn:Hb; [done|].
    injection Hh as <-. exists h. split; [|done]. exists l1, l2. repeat split; [done|].
    eapply Forall_impl; [exact Hl|]. intros x Hx. simpl in Hx. by destruct (is_blank x).
  - intros (h & (l1 & l2 & -> & Hb & Hl) & ->). exists l1, h, l2. rewrite Hb.
    repeat split. eapply Forall_impl; [exact Hl|]. intros x Hx. simpl. by rewrite Hx.
Qed.

(** The abstract contract of [ResolveURLFromSource]: the first reference that
    is set, in a fixed order, names an object of the same namespace, and the
    URL is built from the first usable host this object publishes. *)
Section contract.
Context `{Unicode, Apimachinery} (c : Reader) (namespace : string).

Definition named (ref : option LocalObjectReference) (nn : NamespacedName) : Prop :=
  ∃ r, ref = Some r ∧ nn = {| nn_Namespace := namespace; nn_Name := lor_Name r |}.

Definition gateway_host (kind : string) (nn : NamespacedName) (h : string) : Prop :=
  ∃ obj hosts,
    get_Unstructured c (GVK "gateway.networking.k8s.io" "v1" kind) nn = Ok obj ∧
    NestedStringSlice (u_Object obj) ["spec"; "hostnames"] = Ok (Some hosts) ∧
    first_host hosts h.

(** The IngressRoute of the first API group that serves it. *)
Definition traefik_object (nn : NamespacedName) (obj : Unstructured) : Prop :=
  get_Unstructured c (GVK "traefik.containo.us" "v1alpha1" "IngressRoute") nn = Ok obj ∨
  is_ok (get_Unstructured c (GVK "traefik.containo.us" "v1alpha1" "IngressRoute") nn) = false ∧
  get_Unstructured c (GVK "traefik.io" "v1alpha1" "IngressRoute") nn = Ok obj.

Inductive resolves (s : URLSource) : string → Prop :=
| resolves_ingress nn ing h :
    named (IngressRef s) nn → get_Ingress c nn = Ok ing → first_host (ing_RuleHosts ing) h →
    resolves s ("https://" +:+ h)
| resolves_httproute nn h :
    IngressRef s = None → named (HTTPRouteRef s) nn → gateway_host "HTTPRoute" nn h →
    resolves s ("https://" +:+ h)
| resolves_grpcroute nn h :
    IngressRef s = None → HTTPRouteRef s = None →
    named (GRPCRouteRef s) nn → gateway_host "GRPCRoute" nn h →
    resolves s ("https://" +:+ h)
| resolves_service nn svc port ports :
    IngressRef s = None → HTTPRouteRef s = None → GRPCRouteRef s = None →
    named (ServiceRef s) nn → get_Service c nn = Ok svc → svc_Ports svc = port :: ports →
    resolves s (service_url svc port)
| resolves_route nn obj host :
    IngressRef s = None → HTTPRouteRef s = None → GRPCRouteRef s = None → ServiceRef s = None →
    named (RouteRef s) nn →
    get_Unstructured c (GVK "route.openshift.io" "v1" "Route") nn = Ok obj →
    NestedString (u_Object obj) ["spec"; "host"] = Ok (Some host) → is_blank host = false →
    resolves s ("https://" +:+ host)
| resolves_ingressroute nn obj routes u :
    IngressRef s = None → HTTPRouteRef s = None → GRPCRouteRef s = None → ServiceRef s = None →
    RouteRef s = None → named (IngressRouteRef s) nn → traefik_object nn obj →
    NestedSlice (u_Object obj) ["spec"; "routes"] = Ok (Some routes) →
    find_map (https_of_traefik_route ExtractHostFromTraefikMatch) routes = Some u →
    resolves s u.

Lemma traefik_routes_url_ok name obj u :
  traefik_routes_url name obj = Ok u ↔
  ∃ routes, NestedSlice (u_Object obj) ["spec"; "routes"] = Ok (Some routes) ∧
    find_map (https_of_traefik_route ExtractHostFromTraefikMatch) routes = Some u.
Proof.
  unfold traefik_routes_url, ref_error. split.
  - intros Hr. destruct (NestedSlice _ _) as [[[|r rs]|]|]; [done| |done..].
    exists (r :: rs). split; [done|]. by destruct (find_map _ _); simplify_eq.
  - intros (routes & -> & Hf). destruct routes; [done|]. by rewrite Hf.
Qed.

Lemma resolve_traefik_ok name u :
  resolveTraefikIngressRouteURL c namespace name = Ok u ↔
  ∃ obj, traefik_object {| nn_Namespace := namespace; nn_Name := name |} obj ∧
    traefik_routes_url name obj = Ok u.
Proof.
  unfold resolveTraefikIngressRouteURL, traefik_object. cbn [resolve_traefik_in].
  destruct (get_Unstructured c (GVK "traefik.containo.us" _ _) _) as [o1|e1]; simpl;
    [|destruct (get_Unstructured c (GVK "traefik.io" _ _) _) as [o2|e2]; simpl];
    unfold ref_error; naive_solver.
Qed.

Lemma resolve_gateway_ok kind ref name u :
  resolve_gateway kind ref c namespace name = Ok u ↔
  ∃ h, gateway_host kind {| nn_Namespace := namespace; nn_Name := name |} h ∧
    u = "https://" +:+ h.
Proof.
  unfold resolve_gateway, gateway_host, ref_error. split.
  - intros Hr. destruct (get_Unstructured _ _ _) as [obj|] eqn:Ho; [|done].
    destruct (NestedStringSlice _ _) as [hosts|] eqn:Hn; [|done].
    destruct (find_map _ _) as [v|] eqn:Hf; [|done]. injection Hr as <-.
    apply find_https_host in Hf as (h & Hh & ->). exists h. split; [|done].
    destruct hosts as [hosts|]; simpl in Hh; [by exists obj, hosts|].
    destruct Hh as ([|] & ? & ? & _); done.
  - intros (h & (obj & hosts & -> & -> & Hh) & ->).
    assert (find_map https_of_host (default [] (Some hosts)) = Some ("https://" +:+ h)) as ->;
      [apply find_https_host; eauto|done].
Qed.

Lemma resolve_ingress_ok name u :
  resolveIngressURL c namespace name = Ok u ↔
  ∃ ing h, get_Ingress c {| nn_Namespace := namespace; nn_Name := name |} = Ok ing ∧
    first_host (ing_RuleHosts ing) h ∧ u = "https://" +:+ h.
Proof.
  unfold resolveIngressURL, ref_error. split.
  - intros Hr. destruct (get_Ingress _ _) as [ing|]; [|done].
    destruct (find_map _ _) as [v|] eqn:Hf; [|done]. injection Hr as <-.
    apply find_https_host in Hf as (h & Hh & ->). eauto.
  - intros (ing & h & -> & Hh & ->).
    assert (find_map https_of_host (ing_RuleHosts ing) = Some ("https://" +:+ h)) as ->;
      [apply find_https_host; eauto|done].
Qed.

Lemma resolve_service_ok name u :
  resolveServiceURL c namespace name = Ok u ↔
  ∃ svc port ports, get_Service c {| nn_Namespace := namespace; nn_Name := name |} = Ok svc ∧
    svc_Ports svc = port :: ports ∧ u = service_url svc port.
Proof.
  unfold resolveServiceURL, ref_error. split.
  - intros Hr. case_all. naive_solver.
  - intros (svc & port & ports & -> & -> & ->). done.
Qed.

Lemma resolve_route_ok name u :
  resolveOpenShiftRouteURL c namespace name = Ok u ↔
  ∃ obj host, get_Unstructured c (GVK "route.openshift.io" "v1" "Route")
      {| nn_Namespace := namespace; nn_Name := name |} = Ok obj ∧
    NestedString (u_Object obj) ["spec"; "host"] = Ok (Some host) ∧
    is_blank host = false ∧ u = "https://" +:+ host.
Proof.
  unfold resolveOpenShiftRouteURL, ref_error. split.
  - intros Hr. case_all. naive_solver.
  - intros (obj & host & -> & -> & -> & ->). done.
Qed.

(** C22: resolution succeeds with [u] exactly when [u] is the URL that the
    first reference set, in the order ingress, HTTP route, gRPC route,
    service, OpenShift route, Traefik ingress route, publishes. *)
Theorem resolve_url_contract s u :
  ResolveURLFromSource c namespace (Some s) = Ok u ↔ resolves s u.
Proof.
  split.
  - unfold ResolveURLFromSource. intros Hr.
    destruct (IngressRef s) as [r|] eqn:H1.
    { apply resolve_ingress_ok in Hr as (? & ? & ? & ? & ->).
      eapply resolves_ingress; unfold named; eauto. }
    destruct (HTTPRouteRef s) as [r|] eqn:H2.
    { apply resolve_gateway_ok in Hr as (? & ? & ->).
      eapply resolves_httproute; unfold named; eauto. }
    destruct (GRPCRouteRef s) as [r|] eqn:H3.
    { apply resolve_gateway_ok in Hr as (? & ? & ->).
      eapply resolves_grpcroute; unfold named; eauto. }
    destruct (ServiceRef s) as [r|] eqn:H4.
    { apply resolve_service_ok in Hr as (? & ? & ? & ? & ? & ->).
      eapply resolves_service; unfold named; eauto. }
    destruct (RouteRef s) as [r|] eqn:H5.
    { apply resolve_route_ok in Hr as (? & ? & ? & ? & ? & ->).
      eapply resolves_route; unfold named; eauto. }
    destruct (IngressRouteRef s) as [r|] eqn:H6; [|done].
    apply resolve_traefik_ok in Hr as (? & ? & (? & ? & ?)%traefik_routes_url_ok).
    eapply resolves_ingressroute; unfold named; eauto.
  - unfold ResolveURLFromSource.
    destruct 1 as [nn ing h (r & Hr & ->)|nn h H1 (r & Hr & ->)|nn h H1 H2 (r & Hr & ->)
      |nn svc port ports H1 H2 H3 (r & Hr & ->)|nn obj host H1 H2 H3 H4 (r & Hr & ->)
      |nn obj routes u H1 H2 H3 H4 H5 (r & Hr & ->)];
      rewrite ?Hr; repeat match goal with H : _ = None |- _ => rewrite H; clear H end; rewrite ?Hr.
    + apply resolve_ingress_ok; eauto.
    + apply resolve_gateway_ok; eauto.
    + apply resolve_gateway_ok; eauto.
    + apply resolve_service_ok; eauto 6.
    + apply resolve_route_ok; eauto 6.
    + apply resolve_traefik_ok. setoid_rewrite traefik_routes_url_ok. eauto.
Qed.
End contract.
