(* ===== verification/Links.v ===== *)
(** * Links: the data of web/dashboard.go and its pure helpers

    The records sent to clients, the metadata read from annotations, the
    normalisation of user groups (web/auth.go), the visibility filters and the
    order of link groups. *)

From S2P Require Import Prelude GoStrings StableSort ApiTypes.

(** ** Data *)

Record DashboardLink := {
  l_Name : string;
  l_LinkGroup : string;
  l_URL : string;
  l_Target : string;
  l_Icon : string;
  l_Source : string;
  l_Metadata : string;
  l_Groups : list string;
  l_Replicate : bool
}.
#[export] Instance DashboardLink_eq_dec : EqDecision DashboardLink.
Proof. solve_decision. Defined.

Record DashboardInfoTile := {
  t_Name : string;
  t_Icon : string;
  t_URL : string;
  t_Target : string;
  t_Source : string;
  t_Content : string;
  t_Replicate : bool
}.
#[export] Instance DashboardInfoTile_eq_dec : EqDecision DashboardInfoTile.
Proof. solve_decision. Defined.

Record DashboardLinkGroup := {
  g_Name : string;
  g_Priority : Z;
  g_PriorityClass : string;
  g_DisplayName : string;
  g_Source : string;
  g_Properties : gmap string string;
  g_Replicate : bool
}.
#[export] Instance DashboardLinkGroup_eq_dec : EqDecision DashboardLinkGroup.
Proof. solve_decision. Defined.

Record DashboardGroup := {
  dg_Name : string;
  dg_LinkGroup : string;
  dg_Links : list DashboardLink;
  dg_Tiles : list DashboardInfoTile;
  dg_Source : string
}.
#[export] Instance DashboardGroup_eq_dec : EqDecision DashboardGroup.
Proof. solve_decision. Defined.

Record DashboardResponse := {
  r_LinkGroups : list DashboardLinkGroup;
  r_Groups : list DashboardGroup
}.
#[export] Instance DashboardResponse_eq_dec : EqDecision DashboardResponse.
Proof. solve_decision. Defined.

(** ** web/options.go *)
Record StaticLink := {
  sl_Group : string;
  sl_LinkGroup : string;
  sl_Name : string;
  sl_URL : string;
  sl_Target : string;
  sl_Icon : string;
  sl_Groups : list string
}.

Record LinkGroup := {
  lg_Name : string;
  lg_Priority : Z;
  lg_PriorityClass : string;
  lg_DisplayName : string
}.

(** ** Small helpers *)

Definition defaultTarget (raw : string) : string :=
  if is_blank raw then BookmarkLinkTargetSelf else raw.

(** [firstNonEmpty(values...)] *)
Definition firstNonEmpty (values : list string) : string :=
  default "" (find_map (fun v => if is_blank v then None else Some v) values).

Definition labelEnabled : string := "cupboard.netztronaut.de/enabled".
Definition annotationGroup : string := "cupboard.netztronaut.de/group".
Definition annotationName : string := "cupboard.netztronaut.de/name".
Definition annotationURL : string := "cupboard.netztronaut.de/url".
Definition annotationTarget : string := "cupboard.netztronaut.de/target".
Definition annotationIcon : string := "cupboard.netztronaut.de/icon".
Definition annotationIconURL : string := "cupboard.netztronaut.de/icon-url".
Definition annotationReplicate : string := "cupboard.netztronaut.de/replicate".

(** ["\x00all-link-groups"] *)
Definition allLinkGroupsWildcard : string := String (of_byte 0) "all-link-groups".

Record resourceMeta := {
  rm_Group : string;
  rm_Name : string;
  rm_URL : string;
  rm_Target : string;
  rm_Icon : string;
  rm_Replicate : bool
}.

(** [if s == "" { s = fallback }] *)
Definition or_else (s fallback : string) : string := if bool_decide (s = "") then fallback else s.

Definition resourceMetaFrom (obj : ObjectMeta) : resourceMeta :=
  let ann := om_Annotations obj in
  {| rm_Group := or_else (str_at ann annotationGroup) (om_Namespace obj);
     rm_Name := or_else (str_at ann annotationName) (om_Name obj);
     rm_URL := str_at ann annotationURL;
     rm_Target := defaultTarget (str_at ann annotationTarget);
     rm_Icon := firstNonEmpty [str_at ann annotationIcon; str_at ann annotationIconURL];
     rm_Replicate := bool_decide (str_at ann annotationReplicate = "true") |}.

(** ** Groups of a user or of a link: [normalizedGroups] of web/auth.go *)

(** The closure [add]: trim, drop blanks, keep the first of equals. *)
Definition add_group (st : gset string * list string) (group : string)
    : gset string * list string :=
  let group := TrimSpace group in
  if bool_decide (group = "") then st else
  if bool_decide (group ∈ st.1) then st else
  ({[group]} ∪ st.1, st.2 ++ [group]).

Definition add_groups (l : list string) : list string := (foldl add_group (∅, []) l).2.

(** The strings the type switch passes to [add]. *)
Definition raw_groups (raw : any) : list string :=
  match raw with
  | AStrings value => value
  | ASlice value => omap as_string value
  | AString value => Split value ","%char
  | _ => []
  end.

Definition normalizedGroups (raw : any) : list string := add_groups (raw_groups raw).

Lemma foldl_add_group l seen groups :
  seen = list_to_set groups → NoDup groups →
  let st := foldl add_group (seen, groups) l in
  st.1 = list_to_set st.2 ∧ NoDup st.2 ∧
  ∃ new, st.2 = groups ++ new ∧
    ∀ g, g ∈ new ↔ (g ∉ groups) ∧ g ≠ "" ∧ ∃ r, r ∈ l ∧ g = TrimSpace r.
Proof.
  revert seen groups. induction l as [|r l IH]; intros seen groups Hs Hn; cbn zeta.
  { simpl. split_and!; [done..|]. exists []. rewrite app_nil_r. split; [done|]. set_solver. }
  cbn [foldl]. destruct (decide (TrimSpace r = "" ∨ TrimSpace r ∈ groups)) as [Hskip|Hadd].
  - assert (add_group (seen, groups) r = (seen, groups)) as ->.
    { unfold add_group. simpl. case_bool_decide; [done|].
      rewrite bool_decide_true; [done|]. rewrite Hs, elem_of_list_to_set. tauto. }
    destruct (IH seen groups Hs Hn) as (H1 & H2 & new & H3 & H4).
    split_and!; [done..|]. exists new. split; [done|]. intros g. rewrite H4. set_solver.
  - assert (add_group (seen, groups) r
      = ({[TrimSpace r]} ∪ seen, groups ++ [TrimSpace r])) as ->.
    { unfold add_group. simpl. rewrite !bool_decide_false; [done| |tauto].
      rewrite Hs, elem_of_list_to_set. tauto. }
    destruct (IH ({[TrimSpace r]} ∪ seen) (groups ++ [TrimSpace r])) as (H1 & H2 & new & H3 & H4).
    { rewrite list_to_set_app_L, Hs. set_solver. }
    { apply NoDup_app. split_and!; [done|set_solver|apply NoDup_singleton]. }
    split_and!; [done..|]. exists (TrimSpace r :: new). rewrite H3, <-app_assoc.
    split; [done|]. intros g. rewrite elem_of_cons, H4.
    destruct (decide (g = TrimSpace r)); set_solver.
Qed.

Lemma add_groups_spec l :
  NoDup (add_groups l) ∧
  ∀ g, g ∈ add_groups l ↔ g ≠ "" ∧ ∃ r, r ∈ l ∧ g = TrimSpace r.
Proof.
  destruct (foldl_add_group l ∅ []) as (_ & H1 & new & H2 & H3); [done|constructor|].
  unfold add_groups. split; [done|]. intros g. rewrite H2. simpl. rewrite H3. set_solver.
Qed.

Lemma add_groups_snoc l r :
  add_groups (l ++ [r]) =
  if bool_decide (TrimSpace r = "" ∨ TrimSpace r ∈ add_groups l) then add_groups l
  else add_groups l ++ [TrimSpace r].
Proof.
  destruct (foldl_add_group l ∅ []) as (Hs & _ & _); [done|constructor|].
  unfold add_groups. rewrite foldl_snoc. unfold add_group at 1.
  case_bool_decide as H1; [by rewrite bool_decide_true by auto|].
  case_bool_decide as H2; rewrite Hs, elem_of_list_to_set in H2.
  - by rewrite bool_decide_true by auto.
  - by rewrite bool_decide_false by tauto.
Qed.

(** ** Visibility *)

Definition linkAllowedForGroups (link : DashboardLink) (userGroups : gset string) : bool :=
  bool_decide (l_Groups link = [])
  || bool_decide (allLinkGroupsWildcard ∈ userGroups)
  || existsb (fun g => bool_decide (g ∈ userGroups)) (l_Groups link).

(** The set [filterLinksForGroups] builds from the user's groups. *)
Definition user_group_set (userGroups : list string) : gset string :=
  foldl (fun s g => let g := TrimSpace g in
    if bool_decide (g ≠ "") then {[g]} ∪ s else s) ∅ userGroups.

Definition filterLinksForGroups (links : list DashboardLink) (userGroups : list string)
    : list DashboardLink :=
  let groupSet := user_group_set userGroups in
  List.filter (fun link => linkAllowedForGroups link groupSet) links.

Definition filterLinksForReplication (links : list DashboardLink) : list DashboardLink :=
  List.filter l_Replicate links.

Definition filterTilesForReplication (ts : list DashboardInfoTile) : list DashboardInfoTile :=
  List.filter t_Replicate ts.

Lemma elem_of_user_group_set us g :
  g ∈ user_group_set us ↔ g ≠ "" ∧ ∃ r, r ∈ us ∧ g = TrimSpace r.
Proof.
  unfold user_group_set. rewrite <-(reverse_involutive us).
  induction (reverse us) as [|r l IH]; [set_solver|].
  rewrite reverse_cons, foldl_snoc. case_bool_decide; set_solver.
Qed.

Lemma linkAllowed_iff link us :
  linkAllowedForGroups link us = true ↔
  l_Groups link = [] ∨ allLinkGroupsWildcard ∈ us ∨ ∃ g, g ∈ l_Groups link ∧ g ∈ us.
Proof.
  unfold linkAllowedForGroups. rewrite !orb_true_iff, !bool_decide_eq_true, existsb_exists.
  setoid_rewrite bool_decide_eq_true. setoid_rewrite <-list_elem_of_In. tauto.
Qed.

(** ** Order of link groups *)
Section order.
Context `{Unicode}.

Definition priorityClassRank (value : string) : Z :=
  let v := ToLower (TrimSpace value) in
  if bool_decide (v = "first") then 0%Z
  else if bool_decide (v = "last") then 2%Z else 1%Z.

(** The comparison function literal of [sortLinkGroups]; [int] arithmetic
    wraps. *)
Definition compareLinkGroups (a b : DashboardLinkGroup) : Z :=
  let rankA := priorityClassRank (g_PriorityClass a) in
  let rankB := priorityClassRank (g_PriorityClass b) in
  if bool_decide (rankA ≠ rankB) then wrap64 (rankA - rankB) else
  if bool_decide (g_Priority a ≠ g_Priority b) then wrap64 (g_Priority a - g_Priority b) else
  let dA := ToLower (g_DisplayName a) in
  let dB := ToLower (g_DisplayName b) in
  if bool_decide (dA ≠ dB) then (if str_lt dA dB then -1 else 1)%Z else
  let nA := ToLower (g_Name a) in
  let nB := ToLower (g_Name b) in
  if bool_decide (nA ≠ nB) then (if str_lt nA nB then -1 else 1)%Z else
  0%Z.

Definition lessLinkGroups (a b : DashboardLinkGroup) : bool := (compareLinkGroups a b <? 0)%Z.

Definition sortLinkGroups `{MapRange, StableSort} (loop : list nat)
    (groups : gmap string DashboardLinkGroup) : list DashboardLinkGroup :=
  SliceStable lessLinkGroups (range loop groups).*2.

(** Priorities for which the subtraction does not wrap. *)
Definition priority_ok (g : DashboardLinkGroup) : Prop :=
  (-4611686018427387904 ≤ g_Priority g < 4611686018427387904)%Z.

(** The order the comparison stands for: class rank, priority, display
    name, name. *)
Definition group_before (a b : DashboardLinkGroup) : bool :=
  less_then (fun a b => priorityClassRank (g_PriorityClass a) <? priorityClassRank (g_PriorityClass b))%Z
    (less_then (fun a b => g_Priority a <? g_Priority b)%Z
      (less_then (fun a b => str_lt (ToLower (g_DisplayName a)) (ToLower (g_DisplayName b)))
        (fun a b => str_lt (ToLower (g_Name a)) (ToLower (g_Name b))))) a b.

(** What the comparison looks at. *)
Definition group_key (g : DashboardLinkGroup) : Z * Z * string * string :=
  (priorityClassRank (g_PriorityClass g), g_Priority g,
   ToLower (g_DisplayName g), ToLower (g_Name g)).

Lemma priorityClassRank_range v : (0 ≤ priorityClassRank v ≤ 2)%Z.
Proof. unfold priorityClassRank. repeat case_bool_decide; lia. Qed.

Lemma str_lt_irrefl s : str_lt s s = false.
Proof. by apply str_lt_false. Qed.

Lemma lessLinkGroups_spec a b : priority_ok a → priority_ok b →
  lessLinkGroups a b = group_before a b.
Proof.
  intros Ha Hb. unfold lessLinkGroups, compareLinkGroups, group_before, less_then, priority_ok in *.
  pose proof (priorityClassRank_range (g_PriorityClass a)) as Hra.
  pose proof (priorityClassRank_range (g_PriorityClass b)) as Hrb.
  set (ra := priorityClassRank (g_PriorityClass a)) in *.
  set (rb := priorityClassRank (g_PriorityClass b)) in *.
  case_bool_decide as H1.
  { rewrite wrap64_id by (unfold in_int64, int64_min, int64_max; lia).
    destruct (Z.ltb_spec (ra - rb) 0), (Z.ltb_spec ra rb), (Z.ltb_spec rb ra); simpl; lia || done. }
  rewrite H1, Z.ltb_irrefl. simpl.
  case_bool_decide as H2.
  { rewrite wrap64_id by (unfold in_int64, int64_min, int64_max; lia).
    destruct (Z.ltb_spec (g_Priority a - g_Priority b) 0), (Z.ltb_spec (g_Priority a) (g_Priority b)),
      (Z.ltb_spec (g_Priority b) (g_Priority a)); simpl; lia || done. }
  rewrite H2, Z.ltb_irrefl. simpl.
  assert (∀ s t, s ≠ t → ((if str_lt s t then -1 else 1) <? 0)%Z = str_lt s t ∧
    (str_lt s t = false → str_lt t s = true)) as Hstr.
  { intros s t Hne. split; [by destruct (str_lt s t)|]. intros Hle%str_lt_false.
    apply str_lt_iff. split; [done|]. by intros ->. }
  case_bool_decide as H3.
  { destruct (Hstr _ _ H3) as [-> Hf]. destruct (str_lt (ToLower (g_DisplayName a)) _) eqn:E; [done|].
    by rewrite Hf. }
  rewrite H3, str_lt_irrefl. simpl.
  case_bool_decide as H4; [apply Hstr, H4|].
  by rewrite H4, str_lt_irrefl.
Qed.

Lemma group_before_weak : WeakOrder (fun _ => True) group_before.
Proof.
  repeat apply weak_order_then; apply (weak_order_key (fun _ => True)); auto with cupboard.
Qed.

#[export] Instance lessLinkGroups_weak : WeakOrder priority_ok lessLinkGroups.
Proof.
  eapply weak_order_ext; [apply lessLinkGroups_spec|].
  eapply weak_order_mono; [|apply group_before_weak]. done.
Qed.

Lemma str_lt_antisym s t : str_lt s t = false → str_lt t s = false → s = t.
Proof. rewrite !str_lt_false. intros ??. by apply (anti_symm String.le). Qed.

(** The comparison does not tell two groups apart exactly when their keys
    are equal. *)
Lemma lessLinkGroups_tied a b : priority_ok a → priority_ok b →
  tied lessLinkGroups a b = true ↔ group_key a = group_key b.
Proof.
  intros Ha Hb. rewrite tied_true, !lessLinkGroups_spec by done.
  unfold group_before, less_then, group_key. split.
  - set (ra := priorityClassRank (g_PriorityClass a)).
    set (rb := priorityClassRank (g_PriorityClass b)).
    intros [Hab Hba].
    destruct (Z.ltb_spec ra rb), (Z.ltb_spec rb ra); simpl in Hab, Hba; try done.
    destruct (Z.ltb_spec (g_Priority a) (g_Priority b)), (Z.ltb_spec (g_Priority b) (g_Priority a));
      simpl in Hab, Hba; try done.
    destruct (str_lt (ToLower (g_DisplayName a)) _) eqn:Hd1,
      (str_lt (ToLower (g_DisplayName b)) _) eqn:Hd2; simpl in Hab, Hba; try done.
    rewrite (str_lt_antisym _ _ Hab Hba), (str_lt_antisym _ _ Hd1 Hd2).
    assert (ra = rb) as -> by lia. assert (g_Priority a = g_Priority b) as -> by lia. done.
  - intros [= -> -> -> ->]. by rewrite !Z.ltb_irrefl, !str_lt_irrefl.
Qed.
End order.
