(* ===== verification/Collectors.v ===== *)
(** * Collectors: the [collect*] functions of web/dashboard.go

    A collector reads one kind of resource and adds links (or tiles) to the
    maps of the request, [dash].  Collectors are state transformers that may
    stop with an error; the state reached before the error is kept, because
    [collectForeignLinks] goes on with it. *)

From S2P Require Import Prelude GoStrings StableSort ApiTypes UrlResolver Links.

(** ** State and control *)

(** The three maps of [collectDashboard]. *)
Record dash := {
  d_groups : gmap string (list DashboardLink);
  d_tiles : gmap string (list DashboardInfoTile);
  d_details : gmap string DashboardLinkGroup
}.

Definition empty_dash : dash := {| d_groups := ∅; d_tiles := ∅; d_details := ∅ |}.

Definition with_groups (f : gmap string (list DashboardLink) → gmap string (list DashboardLink))
    (st : dash) : dash :=
  {| d_groups := f (d_groups st); d_tiles := d_tiles st; d_details := d_details st |}.
Definition with_tiles (f : gmap string (list DashboardInfoTile) → gmap string (list DashboardInfoTile))
    (st : dash) : dash :=
  {| d_groups := d_groups st; d_tiles := f (d_tiles st); d_details := d_details st |}.
Definition with_details (f : gmap string DashboardLinkGroup → gmap string DashboardLinkGroup)
    (st : dash) : dash :=
  {| d_groups := d_groups st; d_tiles := d_tiles st; d_details := f (d_details st) |}.

Definition collector : Type := dash → result unit * dash.

(** [return nil], [if err := m(); err != nil { return err }; k], a call whose
    error is only logged, and a loop whose body cannot fail. *)
Definition done_ : collector := fun st => (Ok tt, st).
Definition fail (e : error) : collector := fun st => (Err e, st).
Definition fail_unless_not_found (e : error) : collector := fun st =>
  match IgnoreNotFound e with Some e => (Err e, st) | None => (Ok tt, st) end.
Definition seq (m k : collector) : collector := fun st =>
  match m st with (Ok _, st) => k st | (Err e, st) => (Err e, st) end.
Definition logged (m : collector) : collector := fun st => (Ok tt, (m st).2).
Definition when (b : bool) (m : collector) : collector := if b then m else done_.
Definition for_each {A} (body : dash → A → dash) (l : list A) : collector :=
  fun st => (Ok tt, foldl body st l).

Declare Scope collector_scope.
Delimit Scope collector_scope with collector.
Notation "m ;; k" := (seq m k) (at level 100, k at level 200, right associativity) : collector_scope.

(** Body of a loop that also knows how many iterations came before. *)
Definition for_each_i {A} (body : nat → dash → A → dash) (l : list A) : collector :=
  fun st => (Ok tt, foldl (fun st p => body p.1 st p.2) st (imap pair l)).

(** ** Steps shared by the collectors *)

Definition local_group (name : string) : DashboardLinkGroup :=
  {| g_Name := name; g_Priority := 0; g_PriorityClass := ""; g_DisplayName := name;
     g_Source := "local"; g_Properties := ∅; g_Replicate := false |}.

Definition ensureLinkGroup (groups : gmap string DashboardLinkGroup) (name : string)
    : gmap string DashboardLinkGroup :=
  match groups !! name with
  | Some _ => groups
  | None => <[name := local_group name]> groups
  end.

(** [m[k] = append(m[k], x)] *)
Definition append_at {A} (k : string) (x : A) (m : gmap string (list A)) : gmap string (list A) :=
  <[k := default [] (m !! k) ++ [x]]> m.

(** [ensureLinkGroup(groupDetails, g); groups[g] = append(groups[g], link)] *)
Definition add_link (g : string) (link : DashboardLink) (st : dash) : dash :=
  with_groups (append_at g link) (with_details (fun d => ensureLinkGroup d g) st).

Definition link_of_meta (meta : resourceMeta) (source : string) : DashboardLink :=
  {| l_Name := rm_Name meta; l_LinkGroup := ""; l_URL := rm_URL meta; l_Target := rm_Target meta;
     l_Icon := rm_Icon meta; l_Source := source; l_Metadata := ""; l_Groups := [];
     l_Replicate := rm_Replicate meta |}.

(** [if meta.URL == "" { meta.URL = derived }] *)
Definition with_derived_url (meta : resourceMeta) (derived : string) : resourceMeta :=
  {| rm_Group := rm_Group meta; rm_Name := rm_Name meta; rm_URL := or_else (rm_URL meta) derived;
     rm_Target := rm_Target meta; rm_Icon := rm_Icon meta; rm_Replicate := rm_Replicate meta |}.

(** [if meta.Group == "" || meta.Name == "" || meta.URL == "" { continue }],
    otherwise add the link. *)
Definition add_resource (source : string) (meta : resourceMeta) (st : dash) : dash :=
  if bool_decide (rm_Group meta = "") || bool_decide (rm_Name meta = "") || bool_decide (rm_URL meta = "")
  then st
  else add_link (rm_Group meta) (link_of_meta meta source) st.

Definition first_https (hosts : list string) : string := default "" (find_map https_of_host hosts).

Section collectors.
Context `{Unicode, Apimachinery, MapRange}.
Open Scope collector_scope.

Definition enabled_labels : gmap string string := {[ labelEnabled := "true" ]}.

(** *** Static configuration *)

Definition initLinkGroups (linkGroups : list LinkGroup) : gmap string DashboardLinkGroup :=
  foldl (fun result group =>
    let name := TrimSpace (lg_Name group) in
    if bool_decide (name = "") then result else
    let displayName := or_else (TrimSpace (lg_DisplayName group)) name in
    <[name := {| g_Name := name; g_Priority := lg_Priority group;
                 g_PriorityClass := TrimSpace (lg_PriorityClass group);
                 g_DisplayName := displayName; g_Source := "local";
                 g_Properties := ∅; g_Replicate := false |}]> result) ∅ linkGroups.

Definition resolveLinkGroupName (loop : list nat) (raw : string)
    (groupDetails : gmap string DashboardLinkGroup) : string :=
  let name := TrimSpace raw in
  if bool_decide (name = "") then "" else
  match groupDetails !! name with
  | Some _ => name
  | None =>
    default name (find_map (fun '(key, details) =>
      if EqualFold (TrimSpace (g_DisplayName details)) name || EqualFold key name
      then Some key else None) (range loop groupDetails))
  end.

Definition static_link (link : StaticLink) : DashboardLink :=
  {| l_Name := TrimSpace (sl_Name link); l_LinkGroup := ""; l_URL := TrimSpace (sl_URL link);
     l_Target := defaultTarget (sl_Target link); l_Icon := TrimSpace (sl_Icon link);
     l_Source := "static"; l_Metadata := "";
     l_Groups := normalizedGroups (AStrings (sl_Groups link)); l_Replicate := false |}.

Definition static_link_group (loop : list nat) (link : StaticLink)
    (groupDetails : gmap string DashboardLinkGroup) : string :=
  resolveLinkGroupName loop
    (firstNonEmpty [TrimSpace (sl_LinkGroup link); TrimSpace (sl_Group link)]) groupDetails.

Definition static_link_step (i : nat) (st : dash) (link : StaticLink) : dash :=
  let groupName := static_link_group [0; i] link (d_details st) in
  let name := TrimSpace (sl_Name link) in
  let url := TrimSpace (sl_URL link) in
  if bool_decide (groupName = "") || bool_decide (name = "") || bool_decide (url = "") then st else
  add_link groupName (static_link link) st.

Definition collectStaticLinks (staticLinks : list StaticLink) : collector :=
  for_each_i static_link_step staticLinks.

(** *** Discovery *)

Definition resourceAvailable (discovery : option Discovery) (gv : GroupVersion) (kind : string) : bool :=
  match discovery with
  | None => false
  | Some served =>
    match served gv with
    | Err _ => false
    | Ok kinds => existsb (fun k => bool_decide (k = kind)) kinds
    end
  end.

(** *** Bookmarks *)

Definition bookmark_group_step (st : dash) (item : BookmarkGroup) : dash :=
  let groupName := om_Name (bg_meta item) in
  with_details (fun d =>
    let d := ensureLinkGroup d groupName in
    let existing := default (local_group groupName) (d !! groupName) in
    let displayName := TrimSpace (bgs_Name (bg_Spec item)) in
    <[groupName :=
      {| g_Name := g_Name existing; g_Priority := g_Priority existing;
         g_PriorityClass := g_PriorityClass existing;
         g_DisplayName :=
           if bool_decide (displayName ≠ "") then displayName else g_DisplayName existing;
         g_Source := g_Source existing;
         g_Properties :=
           if bool_decide (0 < size (bgs_Properties (bg_Spec item)))
           then bgs_Properties (bg_Spec item) else g_Properties existing;
         g_Replicate := bgs_Replicate (bg_Spec item) |}]> d) st.

(** The map [groupReplicate] after the first loop. *)
Definition group_replicate (items : list BookmarkGroup) : gmap string bool :=
  foldl (fun m item => <[om_Name (bg_meta item) := bgs_Replicate (bg_Spec item)]> m) ∅ items.

Definition bookmark_link (groupReplicate : gmap string bool) (b : Bookmark) : DashboardLink :=
  {| l_Name := bs_Name (b_Spec b); l_LinkGroup := ""; l_URL := TrimSpace (bs_URL (b_Spec b));
     l_Target := or_else (bs_Target (b_Spec b)) BookmarkLinkTargetSelf;
     l_Icon := bs_Icon (b_Spec b); l_Source := "bookmark"; l_Metadata := "";
     l_Groups := normalizedGroups (AStrings (bs_Groups (b_Spec b)));
     l_Replicate :=
       bs_Replicate (b_Spec b) || default false (groupReplicate !! bs_Group (b_Spec b)) |}.

(** [b.Status.URLReachable == nil || !*b.Status.URLReachable] negated. *)
Definition confirmed_reachable (b : Bookmark) : bool :=
  default false (bst_URLReachable (b_Status b)).

Definition bookmark_step (groupReplicate : gmap string bool) (st : dash) (b : Bookmark) : dash :=
  if confirmed_reachable b
  then add_link (TrimSpace (bs_Group (b_Spec b))) (bookmark_link groupReplicate b) st
  else st.

Definition collectBookmarkGroups (c : Reader) : collector :=
  match list_BookmarkGroups c with
  | Err err => fail err
  | Ok groupList =>
    for_each bookmark_group_step groupList ;;
    match list_Bookmarks c None with
    | Err err => fail err
    | Ok bookmarkList => for_each (bookmark_step (group_replicate groupList)) bookmarkList
    end
  end.

(** *** ForecastleApps *)

Definition parseForecastleURLSource (source : option ForecastleURLSource) : option URLSource :=
  match source with
  | None => None
  | Some source =>
    let parse (ref : option LocalObjectReference) : option LocalObjectReference :=
      match ref with
      | None => None
      | Some ref => if is_blank (lor_Name ref) then None else Some {| lor_Name := lor_Name ref |}
      end in
    Some {| IngressRef := parse (fc_IngressRef source);
            RouteRef := parse (fc_RouteRef source);
            IngressRouteRef := parse (fc_IngressRouteRef source);
            HTTPRouteRef := parse (fc_HTTPRouteRef source);
            GRPCRouteRef := None; ServiceRef := None |}
  end.

Definition forecastle_url (c : Reader) (item : ForecastleApp) : string :=
  let url := fas_URL (fa_Spec item) in
  if is_blank url then
    match parseForecastleURLSource (fas_URLFrom (fa_Spec item)) with
    | None => url
    | Some source =>
      match ResolveURLFromSource c (om_Namespace (fa_meta item)) (Some source) with
      | Ok resolved => resolved
      | Err _ => url
      end
    end
  else url.

Definition forecastle_link (c : Reader) (item : ForecastleApp) : DashboardLink :=
  let v := str_at (fas_Properties (fa_Spec item)) "target" in
  {| l_Name := fas_Name (fa_Spec item); l_LinkGroup := ""; l_URL := forecastle_url c item;
     l_Target := if is_blank v then BookmarkLinkTargetBlank else v;
     l_Icon := fas_Icon (fa_Spec item); l_Source := "forecastleapp"; l_Metadata := "";
     l_Groups := normalizedGroups (AStrings (fas_Groups (fa_Spec item)));
     l_Replicate :=
       bool_decide (str_at (om_Annotations (fa_meta item)) annotationReplicate = "true") |}.

(** [c.forecastleInstance != "" && TrimSpace(item.Spec.Instance) != c.forecastleInstance] *)
Definition other_instance (instance : string) (item : ForecastleApp) : bool :=
  bool_decide (instance ≠ "") && bool_decide (TrimSpace (fas_Instance (fa_Spec item)) ≠ instance).

Definition forecastle_step (c : Reader) (instance : string) (loop : list nat) (i : nat)
    (st : dash) (item : ForecastleApp) : dash :=
  if other_instance instance item then st else
  let groupName := resolveLinkGroupName (loop ++ [i]) (fas_Group (fa_Spec item)) (d_details st) in
  let link := forecastle_link c item in
  if is_blank (l_Name link) || is_blank groupName || is_blank (l_URL link) then st else
  add_link groupName link st.

Definition collectForecastleApps (c : Reader) (instance : string) (loop : list nat) : collector :=
  match list_ForecastleApps c with
  | Err err => fail_unless_not_found err
  | Ok items => for_each_i (forecastle_step c instance loop) items
  end.

(** *** Labelled resources *)

Definition ingress_step (st : dash) (ing : Ingress) : dash :=
  add_resource "ingress"
    (with_derived_url (resourceMetaFrom (ing_meta ing)) (first_https (ing_RuleHosts ing))) st.

Definition collectIngresses (c : Reader) : collector :=
  match list_Ingresses c enabled_labels with
  | Err err => fail err
  | Ok items => for_each ingress_step items
  end.

(** [spec.hostnames] of a route, when present and well typed. *)
Definition route_hostnames (route : Unstructured) : list string :=
  match NestedStringSlice (u_Object route) ["spec"; "hostnames"] with
  | Ok (Some hostnames) => hostnames
  | _ => []
  end.

Definition hostname_route_step (source : string) (st : dash) (route : Unstructured) : dash :=
  add_resource source
    (with_derived_url (resourceMetaFrom (u_meta route)) (first_https (route_hostnames route))) st.

Definition collect_unstructured (c : Reader) (gvk : GroupVersionKind)
    (step : dash → Unstructured → dash) : collector :=
  match list_Unstructured c gvk enabled_labels with
  | Err err => fail_unless_not_found err
  | Ok items => for_each step items
  end.

Definition collectHTTPRoutes (c : Reader) : collector :=
  collect_unstructured c (GVK "gateway.networking.k8s.io" "v1" "HTTPRouteList")
    (hostname_route_step "httproute").

Definition collectGRPCRoutes (c : Reader) : collector :=
  collect_unstructured c (GVK "gateway.networking.k8s.io" "v1" "GRPCRouteList")
    (hostname_route_step "grpcroute").

Definition collectTLSRoutes (c : Reader) : collector :=
  collect_unstructured c (GVK "gateway.networking.k8s.io" "v1" "TLSRouteList")
    (hostname_route_step "tlsroute").

Definition tcp_route_step (st : dash) (route : Unstructured) : dash :=
  add_resource "tcproute" (resourceMetaFrom (u_meta route)) st.

Definition collectTCPRoutes (c : Reader) : collector :=
  collect_unstructured c (GVK "gateway.networking.k8s.io" "v1alpha2" "TCPRouteList") tcp_route_step.

Definition extractHostFromTraefikMatch (match_ : string) : string :=
  let start := Index match_ "Host(`" in
  if (start <? 0)%Z then "" else
  let start := (start + 6)%Z in
  let end_ := Index (slice_from match_ start) "`)" in
  if (end_ <? 0)%Z then "" else
  TrimSpace (slice match_ start (start + end_)).

(** [routes, found, _ := NestedSlice(...)]: an error counts as absent. *)
Definition ingress_route_url (route : Unstructured) : string :=
  match NestedSlice (u_Object route) ["spec"; "routes"] with
  | Ok (Some routes) =>
    default "" (find_map (https_of_traefik_route extractHostFromTraefikMatch) routes)
  | _ => ""
  end.

Definition ingress_route_step (st : dash) (route : Unstructured) : dash :=
  add_resource "ingressroute"
    (with_derived_url (resourceMetaFrom (u_meta route)) (ingress_route_url route)) st.

Definition collectIngressRoutes (c : Reader) (gv : GroupVersion) : collector :=
  collect_unstructured c {| gvk_gv := gv; gvk_Kind := "IngressRouteList" |} ingress_route_step.

Definition service_step (st : dash) (svc : Service) : dash :=
  let derived := match svc_Ports svc with [] => "" | port :: _ => service_url svc port end in
  add_resource "service" (with_derived_url (resourceMetaFrom (svc_meta svc)) derived) st.

Definition collectServices (c : Reader) : collector :=
  match list_Services c enabled_labels with
  | Err err => fail err
  | Ok items => for_each service_step items
  end.

Definition endpoint_slice_step (st : dash) (eps : EndpointSlice) : dash :=
  add_resource "endpointslice" (resourceMetaFrom (eps_meta eps)) st.

Definition collectEndpointSlices (c : Reader) : collector :=
  match list_EndpointSlices c enabled_labels with
  | Err err => fail err
  | Ok items => for_each endpoint_slice_step items
  end.

(** One entry of [spec.endpoints]. *)
Definition https_of_endpoint (item : any) : option string :=
  match as_map item with
  | None => None
  | Some endpointMap =>
    match as_string (any_at endpointMap "dnsName") with
    | Some dnsName => https_of_host dnsName
    | None => None
    end
  end.

Definition dns_endpoint_url (ep : Unstructured) : string :=
  match NestedSlice (u_Object ep) ["spec"; "endpoints"] with
  | Ok (Some endpoints) => default "" (find_map https_of_endpoint endpoints)
  | _ => ""
  end.

Definition dns_endpoint_step (st : dash) (ep : Unstructured) : dash :=
  add_resource "dnsendpoint"
    (with_derived_url (resourceMetaFrom (u_meta ep)) (dns_endpoint_url ep)) st.

Definition collectDNSEndpoints (c : Reader) : collector :=
  collect_unstructured c (GVK "externaldns.k8s.io" "v1alpha1" "DNSEndpointList") dns_endpoint_step.

(** *** Info tiles *)

Definition info_tile (item : InfoTile) : DashboardInfoTile :=
  {| t_Name := its_Name (it_Spec item); t_Icon := its_Icon (it_Spec item);
     t_URL := its_URL (it_Spec item); t_Target := defaultTarget (its_Target (it_Spec item));
     t_Source := its_Source (it_Spec item); t_Content := itst_Content (it_Status item);
     t_Replicate := its_Replicate (it_Spec item) |}.

Definition tile_group (name : string) : DashboardLinkGroup :=
  {| g_Name := name; g_Priority := 0; g_PriorityClass := ""; g_DisplayName := name;
     g_Source := "infotile"; g_Properties := ∅; g_Replicate := false |}.

Definition info_tile_step (st : dash) (item : InfoTile) : dash :=
  let groupName := or_else (TrimSpace (its_Group (it_Spec item))) (om_Name (it_meta item)) in
  with_tiles (append_at groupName (info_tile item))
    (with_details (fun d =>
      match d !! groupName with
      | Some _ => d
      | None => <[groupName := tile_group groupName]> d
      end) st).

Definition collectInfoTiles (c : Reader) : collector :=
  match list_InfoTiles c with
  | Err err => fail (wrap_error "list InfoTiles: " err)
  | Ok items => for_each info_tile_step items
  end.

(** *** The Traefik loop: the first API group that is served *)

Fixpoint first_available (discovery : option Discovery) (kind : string) (gvs : list GroupVersion)
    (m : GroupVersion → collector) : collector :=
  match gvs with
  | [] => done_
  | gv :: gvs =>
    if resourceAvailable discovery gv kind then m gv else first_available discovery kind gvs m
  end.

Definition traefik_gvs : list GroupVersion :=
  [{| gv_Group := "traefik.io"; gv_Version := "v1alpha1" |};
   {| gv_Group := "traefik.containo.us"; gv_Version := "v1alpha1" |}].
End collectors.

(** ** What every collector promises

    A state is well formed when a group is filed under its own name and every
    group that holds links or tiles has details.  A collector keeps states
    well formed and only adds: links and tiles are appended, groups keep their
    identity, priority and provenance. *)
Record wf (st : dash) : Prop := {
  wf_name k d : d_details st !! k = Some d → g_Name d = k;
  wf_groups k : is_Some (d_groups st !! k) → is_Some (d_details st !! k);
  wf_tiles k : is_Some (d_tiles st !! k) → is_Some (d_details st !! k)
}.

Definition links_at (st : dash) (k : string) : list DashboardLink := default [] (d_groups st !! k).
Definition tiles_at (st : dash) (k : string) : list DashboardInfoTile := default [] (d_tiles st !! k).

Definition same_group (d d' : DashboardLinkGroup) : Prop :=
  g_Name d = g_Name d' ∧ g_Priority d = g_Priority d' ∧
  g_PriorityClass d = g_PriorityClass d' ∧ g_Source d = g_Source d'.

Record extends (st st' : dash) : Prop := {
  extends_links k : links_at st k `prefix_of` links_at st' k;
  extends_tiles k : tiles_at st k `prefix_of` tiles_at st' k;
  extends_details k d : d_details st !! k = Some d →
    ∃ d', d_details st' !! k = Some d' ∧ same_group d d'
}.

#[export] Instance extends_preorder : PreOrder extends.
Proof.
  split.
  - intros st. split; [done..|]. intros k d ?. by exists d.
  - intros s1 s2 s3 [L1 T1 D1] [L2 T2 D2]. split.
    + intros k. by transitivity (links_at s2 k).
    + intros k. by transitivity (tiles_at s2 k).
    + intros k d (d' & (d'' & ? & ?)%D2 & ?)%D1. exists d''. split; [done|].
      unfold same_group in *. naive_solver congruence.
Qed.

(** The law of a pure step, of a collector. *)
Class StepOk (f : dash → dash) : Prop := {
  step_wf st : wf st → wf (f st);
  step_extends st : extends st (f st)
}.
Class CollectorOk (m : collector) : Prop :=
  collector_step :: StepOk (fun st => (m st).2).

Section laws.
Implicit Types (st : dash) (f : dash → dash) (m : collector).

Lemma step_ok_foldl {A} (body : dash → A → dash) l :
  (∀ x, x ∈ l → StepOk (fun st => body st x)) → StepOk (fun st => foldl body st l).
Proof.
  intros Hb. split; intros st.
  - intros Hst. apply foldl_ind; [done|]. intros st' x Hx. by apply Hb.
  - apply foldl_preorder; [apply _|]. intros st' x Hx. by apply Hb.
Qed.

#[export] Instance step_ok_id : StepOk (fun st => st).
Proof. by split. Qed.

Lemma step_ok_compose f g : StepOk f → StepOk g → StepOk (fun st => g (f st)).
Proof.
  intros Hf Hg. split; intros st.
  - intros ?. by apply Hg, Hf.
  - etrans; [apply Hf|apply Hg].
Qed.

#[export] Instance collector_ok_done : CollectorOk done_.
Proof. apply step_ok_id. Qed.
#[export] Instance collector_ok_fail e : CollectorOk (fail e).
Proof. apply step_ok_id. Qed.
#[export] Instance collector_ok_not_found e : CollectorOk (fail_unless_not_found e).
Proof. unfold CollectorOk, fail_unless_not_found. destruct (IgnoreNotFound e); apply step_ok_id. Qed.

#[export] Instance collector_ok_seq m k : CollectorOk m → CollectorOk k → CollectorOk (seq m k).
Proof.
  intros Hm Hk. split; intros st; unfold seq;
    pose proof (step_wf (f := fun st => (m st).2) st) as W;
    pose proof (step_extends (f := fun st => (m st).2) st) as X;
    cbn beta in W, X; destruct (m st) as [[[]|e] st1]; simpl in *; try done.
  - intros ?. by apply Hk, W.
  - etrans; [done|apply Hk].
Qed.

#[export] Instance collector_ok_logged m : CollectorOk m → CollectorOk (logged m).
Proof. done. Qed.
#[export] Instance collector_ok_when b m : CollectorOk m → CollectorOk (when b m).
Proof. destruct b; [done|]. intros; apply _. Qed.

Lemma collector_ok_for_each {A} (body : dash → A → dash) l :
  (∀ x, StepOk (fun st => body st x)) → CollectorOk (for_each body l).
Proof. intros Hb. by apply step_ok_foldl. Qed.

Lemma collector_ok_for_each_i {A} (body : nat → dash → A → dash) l :
  (∀ i x, StepOk (fun st => body i st x)) → CollectorOk (for_each_i body l).
Proof. intros Hb. by apply step_ok_foldl. Qed.

#[export] Instance collector_ok_first_available disc kind gvs (body : GroupVersion → collector) :
  (∀ gv, CollectorOk (body gv)) → CollectorOk (first_available disc kind gvs body).
Proof.
  intros Hm. induction gvs as [|gv gvs IH]; simpl; [apply _|]. by destruct (resourceAvailable _ _ _).
Qed.

(** *** Steps *)

Lemma ensure_lookup d name k :
  ensureLinkGroup d name !! k =
  if bool_decide (name = k) then Some (default (local_group name) (d !! name)) else d !! k.
Proof.
  unfold ensureLinkGroup. case_bool_decide as Hk.
  - subst. destruct (d !! k) eqn:E; [by rewrite E|]. by rewrite lookup_insert_eq.
  - destruct (d !! name); [done|]. by rewrite lookup_insert_ne.
Qed.

(** Filling in the details of a group that has none. *)
Lemma default_step_ok name (detail : DashboardLinkGroup) : g_Name detail = name →
  StepOk (with_details (fun d => match d !! name with Some _ => d | None => <[name := detail]> d end)).
Proof.
  intros Hn. split; intros st.
  - intros [W1 W2 W3]. destruct (d_details st !! name) eqn:E.
    { split; simpl; rewrite E; eauto. }
    split; simpl; rewrite E.
    + intros k d. destruct (decide (name = k)) as [<-|Hk].
      * rewrite lookup_insert_eq. by intros [= <-].
      * rewrite lookup_insert_ne by done. apply W1.
    + intros k Hk. rewrite lookup_insert. case_decide; eauto.
    + intros k Hk. rewrite lookup_insert. case_decide; eauto.
  - split; simpl; [done..|]. intros k d Hd. exists d. split; [|done].
    destruct (d_details st !! name) eqn:E; [done|].
    rewrite lookup_insert_ne; [done|]. intros <-. congruence.
Qed.

Lemma ensure_step_ok name : StepOk (with_details (fun d => ensureLinkGroup d name)).
Proof. by apply default_step_ok. Qed.

Lemma links_at_append st g link k :
  links_at (with_groups (append_at g link) st) k =
  links_at st k ++ (if bool_decide (g = k) then [link] else []).
Proof.
  unfold links_at, append_at. simpl. rewrite lookup_insert.
  case_decide; case_bool_decide; subst; try done. by rewrite app_nil_r.
Qed.

(** Appending to a group that has details. *)
Lemma append_wf st g link : wf st → is_Some (d_details st !! g) → wf (with_groups (append_at g link) st).
Proof.
  intros [W1 W2 W3] Hg. split; simpl; [done| |done].
  intros k. unfold append_at. rewrite lookup_insert. case_decide; [by subst|apply W2].
Qed.

Lemma append_extends st g link : extends st (with_groups (append_at g link) st).
Proof.
  split; [|done|].
  - intros k. rewrite links_at_append. by apply prefix_app_r.
  - intros k d ?. exists d. done.
Qed.

#[export] Instance add_link_ok g link : StepOk (add_link g link).
Proof.
  split; intros st; unfold add_link.
  - intros W. apply append_wf; [by apply ensure_step_ok|]. simpl.
    rewrite ensure_lookup, bool_decide_true by done. done.
  - etrans; [apply (step_extends (StepOk := ensure_step_ok g))|apply append_extends].
Qed.

#[export] Instance add_resource_ok source meta : StepOk (add_resource source meta).
Proof. unfold add_resource. destruct (_ || _ || _)%bool; apply _. Qed.
End laws.

(** Unfold a step to the helper it ends in. *)
Ltac solve_step := repeat case_match; apply _.

Section collector_laws.
Context `{Unicode, Apimachinery, MapRange}.

#[export] Instance static_link_step_ok i link : StepOk (fun st => static_link_step i st link).
Proof.
  (* the group name depends on the state *)
  split; intros st; unfold static_link_step; destruct (_ || _ || _)%bool; try done; apply add_link_ok.
Qed.

#[export] Instance forecastle_step_ok c instance loop i item :
  StepOk (fun st => forecastle_step c instance loop i st item).
Proof.
  split; intros st; unfold forecastle_step;
    (destruct (other_instance _ _); [done|]);
    destruct (_ || _ || _)%bool; try done; apply add_link_ok.
Qed.

#[export] Instance bookmark_step_ok rep b : StepOk (fun st => bookmark_step rep st b).
Proof. unfold bookmark_step. solve_step. Qed.

#[export] Instance bookmark_group_step_ok item : StepOk (fun st => bookmark_group_step st item).
Proof.
  set (g := om_Name (bg_meta item)).
  split; intros st; unfold bookmark_group_step; fold g.
  - intros [W1 W2 W3]. split; simpl.
    + intros k d. rewrite lookup_insert. case_decide as Hk.
      * intros [= <-]. simpl. rewrite ensure_lookup, bool_decide_true by done. simpl.
        destruct (d_details st !! g) eqn:E; simpl; [|done]. subst. by apply W1.
      * rewrite ensure_lookup, bool_decide_false by done. apply W1.
    + intros k Hk. rewrite lookup_insert. case_decide; [done|].
      rewrite ensure_lookup, bool_decide_false by done. by apply W2.
    + intros k Hk. rewrite lookup_insert. case_decide; [done|].
      rewrite ensure_lookup, bool_decide_false by done. by apply W3.
  - split; simpl; [done..|]. intros k d Hd. rewrite lookup_insert. case_decide as Hk.
    + eexists. split; [done|]. rewrite ensure_lookup, bool_decide_true by done. subst k.
      by rewrite Hd.
    + rewrite ensure_lookup, bool_decide_false by done. by exists d.
Qed.

#[export] Instance info_tile_step_ok item : StepOk (fun st => info_tile_step st item).
Proof.
  unfold info_tile_step. set (g := or_else _ _).
  pose proof (default_step_ok g (tile_group g) eq_refl) as Hd.
  split; intros st.
  - intros W. apply Hd in W as [W1 W2 W3]. split; [done..|].
    simpl. intros k. unfold append_at. rewrite lookup_insert. case_decide as Hk; [|apply W3].
    intros _. rewrite <-Hk. destruct (d_details st !! g) eqn:E; [by rewrite E|].
    by rewrite lookup_insert_eq.
  - etrans; [apply Hd|]. split; [done| |].
    + intros k. unfold tiles_at, append_at. simpl. rewrite lookup_insert.
      case_decide; [|done]. subst. by apply prefix_app_r.
    + intros k d ?. by exists d.
Qed.

#[export] Instance collectStaticLinks_ok l : CollectorOk (collectStaticLinks l).
Proof. apply collector_ok_for_each_i. apply _. Qed.

#[export] Instance collectBookmarkGroups_ok c : CollectorOk (collectBookmarkGroups c).
Proof.
  unfold collectBookmarkGroups. case_match; [|apply _].
  apply collector_ok_seq; [apply collector_ok_for_each; apply _|].
  case_match; [|apply _]. apply collector_ok_for_each. apply _.
Qed.

#[export] Instance collectForecastleApps_ok c inst loop : CollectorOk (collectForecastleApps c inst loop).
Proof.
  unfold collectForecastleApps. case_match; [|apply _]. apply collector_ok_for_each_i. apply _.
Qed.

#[export] Instance collect_unstructured_ok c gvk step :
  (∀ x, StepOk (fun st => step st x)) → CollectorOk (collect_unstructured c gvk step).
Proof.
  intros Hs. unfold collect_unstructured. case_match; [|apply _]. by apply collector_ok_for_each.
Qed.

#[export] Instance collectIngresses_ok c : CollectorOk (collectIngresses c).
Proof. unfold collectIngresses. case_match; [|apply _]. apply collector_ok_for_each. apply _. Qed.
#[export] Instance collectServices_ok c : CollectorOk (collectServices c).
Proof. unfold collectServices. case_match; [|apply _]. apply collector_ok_for_each. apply _. Qed.
#[export] Instance collectEndpointSlices_ok c : CollectorOk (collectEndpointSlices c).
Proof. unfold collectEndpointSlices. case_match; [|apply _]. apply collector_ok_for_each. apply _. Qed.
#[export] Instance collectHTTPRoutes_ok c : CollectorOk (collectHTTPRoutes c).
Proof. apply collect_unstructured_ok. apply _. Qed.
#[export] Instance collectGRPCRoutes_ok c : CollectorOk (collectGRPCRoutes c).
Proof. apply collect_unstructured_ok. apply _. Qed.
#[export] Instance collectTLSRoutes_ok c : CollectorOk (collectTLSRoutes c).
Proof. apply collect_unstructured_ok. apply _. Qed.
#[export] Instance collectTCPRoutes_ok c : CollectorOk (collectTCPRoutes c).
Proof. apply collect_unstructured_ok. apply _. Qed.
#[export] Instance collectIngressRoutes_ok c gv : CollectorOk (collectIngressRoutes c gv).
Proof. apply collect_unstructured_ok. apply _. Qed.
#[export] Instance collectDNSEndpoints_ok c : CollectorOk (collectDNSEndpoints c).
Proof. apply collect_unstructured_ok. apply _. Qed.
#[export] Instance collectInfoTiles_ok c : CollectorOk (collectInfoTiles c).
Proof. unfold collectInfoTiles. case_match; [|apply _]. apply collector_ok_for_each. apply _. Qed.
End collector_laws.

(** ** Where links come from and where they end up

    [Sound Q m]: every link [m] adds satisfies [Q].  [Emits m g l]: when [m]
    completes, group [g] holds [l]. *)
Definition all_links (Q : string → DashboardLink → Prop) (st : dash) : Prop :=
  ∀ k l, l ∈ links_at st k → Q k l.

Class StepSound (Q : string → DashboardLink → Prop) (f : dash → dash) : Prop :=
  step_sound st : all_links Q st → all_links Q (f st).
Class Sound (Q : string → DashboardLink → Prop) (m : collector) : Prop :=
  sound :: StepSound Q (fun st => (m st).2).
Class Emits (m : collector) (g : string) (l : DashboardLink) : Prop :=
  emits st st' : m st = (Ok tt, st') → l ∈ links_at st' g.

Lemma links_at_add_link g link st k :
  links_at (add_link g link st) k = links_at st k ++ (if bool_decide (g = k) then [link] else []).
Proof. unfold add_link. by rewrite links_at_append. Qed.

Section provenance.
Context (Q : string → DashboardLink → Prop).

Lemma add_link_sound g link : Q g link → StepSound Q (add_link g link).
Proof.
  intros HQ st Hst k l. rewrite links_at_add_link, elem_of_app. intros [?|Hl]; [by apply Hst|].
  case_bool_decide; [subst|by apply elem_of_nil in Hl].
  by apply list_elem_of_singleton in Hl as ->.
Qed.

Lemma step_sound_foldl {A} (body : dash → A → dash) l :
  (∀ x, x ∈ l → StepSound Q (fun st => body st x)) → StepSound Q (fun st => foldl body st l).
Proof.
  intros Hb st Hst. apply foldl_ind; [done|]. intros st' x Hx. by apply Hb.
Qed.

#[export] Instance sound_done : Sound Q done_.
Proof. by intros st. Qed.
#[export] Instance sound_fail e : Sound Q (fail e).
Proof. by intros st. Qed.
#[export] Instance sound_not_found e : Sound Q (fail_unless_not_found e).
Proof. intros st ?. unfold fail_unless_not_found. by destruct (IgnoreNotFound e). Qed.
#[export] Instance sound_seq m k : Sound Q m → Sound Q k → Sound Q (seq m k).
Proof.
  intros Hm Hk st Hst. specialize (Hm st Hst). cbn beta in Hm. unfold seq.
  destruct (m st) as [[[]|e] st1]; [by apply Hk|done].
Qed.
#[export] Instance sound_logged m : Sound Q m → Sound Q (logged m).
Proof. done. Qed.
Lemma sound_when b m : (b = true → Sound Q m) → Sound Q (when b m).
Proof. destruct b; [|intros _; apply _]. intros Hm. by apply Hm. Qed.
Lemma sound_first_available disc kind gvs (body : GroupVersion → collector) :
  (∀ gv, gv ∈ gvs → resourceAvailable disc gv kind = true → Sound Q (body gv)) →
  Sound Q (first_available disc kind gvs body).
Proof.
  induction gvs as [|gv gvs IH]; intros Hb; simpl; [apply _|].
  destruct (resourceAvailable disc gv kind) eqn:E; [apply Hb; [left|done]|].
  apply IH. intros gv' Hgv'. apply Hb. by right.
Qed.
Lemma sound_for_each {A} (body : dash → A → dash) l :
  (∀ x, x ∈ l → StepSound Q (fun st => body st x)) → Sound Q (for_each body l).
Proof. apply step_sound_foldl. Qed.
Lemma sound_for_each_i {A} (body : nat → dash → A → dash) l :
  (∀ i x, x ∈ l → StepSound Q (fun st => body i st x)) → Sound Q (for_each_i body l).
Proof.
  intros Hb. apply step_sound_foldl. intros [i x] (j & y & ? & ?%list_elem_of_lookup_2)%elem_of_lookup_imap.
  simplify_eq. by apply Hb.
Qed.

(** The condition under which a labelled resource is listed. *)
Definition complete (meta : resourceMeta) : Prop :=
  rm_Group meta ≠ "" ∧ rm_Name meta ≠ "" ∧ rm_URL meta ≠ "".

Lemma add_resource_unfold source meta st :
  complete meta → add_resource source meta st = add_link (rm_Group meta) (link_of_meta meta source) st.
Proof. intros (?&?&?). unfold add_resource. by rewrite !bool_decide_false. Qed.

Lemma add_resource_skip source meta st : ¬ complete meta → add_resource source meta st = st.
Proof.
  unfold complete, add_resource. intros Hc.
  repeat (case_bool_decide; simpl; try done). naive_solver.
Qed.

Lemma add_resource_sound source meta :
  (complete meta → Q (rm_Group meta) (link_of_meta meta source)) →
  StepSound Q (fun st => add_resource source meta st).
Proof.
  intros HQ st Hst. assert (Decision (complete meta)) as [Hc|Hc] by (unfold complete; apply _).
  - rewrite add_resource_unfold by done. by apply add_link_sound; [apply HQ|].
  - by rewrite add_resource_skip.
Qed.
End provenance.

Section emission.
Implicit Types (m k : collector) (g : string) (l : DashboardLink).

Lemma seq_Ok m k st st' : seq m k st = (Ok tt, st') ↔
  ∃ st1, m st = (Ok tt, st1) ∧ k st1 = (Ok tt, st').
Proof.
  unfold seq. destruct (m st) as [[[]|e] st1]; [naive_solver|]. split; [done|]. by intros (? & ? & ?).
Qed.

Lemma extends_elem st st' g l : extends st st' → l ∈ links_at st g → l ∈ links_at st' g.
Proof. intros [Hx _ _] Hl. destruct (Hx g) as [t ->]. apply elem_of_app. by left. Qed.

Lemma emits_here m k g l : Emits m g l → CollectorOk k → Emits (seq m k) g l.
Proof.
  intros Hm Hk st st' (st1 & H1 & H2)%seq_Ok.
  eapply extends_elem; [|by eapply Hm]. pose proof (step_extends (StepOk := Hk) st1) as X.
  cbn beta in X. by rewrite H2 in X.
Qed.

Lemma emits_later m k g l : Emits k g l → Emits (seq m k) g l.
Proof. intros Hk st st' (st1 & H1 & H2)%seq_Ok. by eapply Hk. Qed.

Lemma emits_when b m g l : b = true → Emits m g l → Emits (when b m) g l.
Proof. by intros ->. Qed.

Lemma emits_for_each {A} (body : dash → A → dash) items x g l :
  (∀ x, StepOk (fun st => body st x)) → x ∈ items →
  (∀ st, l ∈ links_at (body st x) g) → Emits (for_each body items) g l.
Proof.
  intros Hok Hx Hb st st' [= <-].
  apply (foldl_reaches (fun _ => True) (fun st => l ∈ links_at st g) _ _ _ x);
    [done|done|intros st1 _; apply Hb|done|].
  intros st1 y _. apply extends_elem, Hok.
Qed.

Lemma add_link_emits g l st : l ∈ links_at (add_link g l st) g.
Proof.
  rewrite links_at_add_link, bool_decide_true by done. apply elem_of_app. right. by left.
Qed.

Lemma emits_resource {A} (source : string) (meta : A → resourceMeta) items x :
  x ∈ items → complete (meta x) →
  Emits (for_each (fun st y => add_resource source (meta y) st) items)
    (rm_Group (meta x)) (link_of_meta (meta x) source).
Proof.
  intros Hx Hc. apply (emits_for_each _ _ x); [intros; apply _|done|].
  intros st. rewrite add_resource_unfold by done. apply add_link_emits.
Qed.

Lemma emits_first_available disc kind gvs1 gv gvs2 (body : GroupVersion → collector) g l :
  Forall (fun gv => resourceAvailable disc gv kind = false) gvs1 →
  resourceAvailable disc gv kind = true → Emits (body gv) g l →
  Emits (first_available disc kind (gvs1 ++ gv :: gvs2) body) g l.
Proof.
  intros Hn Ha Hb. induction Hn as [|gv' gvs1 Hgv' _ IH]; simpl; [by rewrite Ha|by rewrite Hgv'].
Qed.
End emission.
