(* ===== verification/Dashboard.v ===== *)
(** * Dashboard: [collectDashboard] of web/dashboard.go

    One request: the collectors run in a fixed order on fresh maps, data of
    sync peers and of foreign clusters is merged in, the sync endpoint keeps
    only what is marked for replication, and the response lists the groups in
    order, each with the links its reader may see. *)

From S2P Require Import Prelude GoStrings StableSort ApiTypes UrlResolver Links Collectors.

(** ** The collector and its inputs *)

(** [foreigncluster.ClusterInfo] *)
Record ClusterInfo := {
  ci_Name : string;
  ci_Client : Reader;
  ci_Discovery : Discovery
}.

(** [syncClient] holds the snapshot [GetRemoteData] returns, [foreignClusters]
    the list [ActiveClusters] returns; [None] is a nil pointer. *)
Record dashboardCollector := {
  dc_reader : Reader;
  dc_discovery : option Discovery;
  dc_forecastleInstance : string;
  dc_linkGroups : list LinkGroup;
  dc_staticLinks : list StaticLink;
  dc_syncClient : option (gmap string DashboardResponse);
  dc_foreignClusters : option (list ClusterInfo)
}.

Definition newDashboardCollector (reader : Reader) (discovery : option Discovery)
    (instance : string) (linkGroups : list LinkGroup) (staticLinks : list StaticLink)
    (syncClient : option (gmap string DashboardResponse))
    (foreignClusters : option (list ClusterInfo)) : dashboardCollector :=
  {| dc_reader := reader; dc_discovery := discovery;
     dc_forecastleInstance := TrimSpace instance;
     dc_linkGroups := linkGroups; dc_staticLinks := staticLinks;
     dc_syncClient := syncClient; dc_foreignClusters := foreignClusters |}.

Definition with_source (source : string) (link : DashboardLink) : DashboardLink :=
  {| l_Name := l_Name link; l_LinkGroup := l_LinkGroup link; l_URL := l_URL link;
     l_Target := l_Target link; l_Icon := l_Icon link; l_Source := source;
     l_Metadata := l_Metadata link; l_Groups := l_Groups link; l_Replicate := l_Replicate link |}.

(** [for _, link := range links { groups[g] = append(groups[g], stamp(link)) }] *)
Definition append_links (g : string) (links : list DashboardLink) (st : dash) : dash :=
  foldl (fun st link => with_groups (append_at g link) st) st links.

(** [if _, ok := groupDetails[g]; !ok { groupDetails[g] = detail }] *)
Definition default_detail (g : string) (detail : DashboardLinkGroup) (st : dash) : dash :=
  with_details (fun d => match d !! g with Some _ => d | None => <[g := detail]> d end) st.

Section dashboard.
Context `{Unicode, Apimachinery, MapRange, StableSort}.
Open Scope collector_scope.

(** *** mergeRemoteData *)

Definition remote_group (groupName source : string) (remote : option DashboardLinkGroup)
    : DashboardLinkGroup :=
  match remote with
  | Some lg =>
    {| g_Name := g_Name lg; g_Priority := g_Priority lg; g_PriorityClass := g_PriorityClass lg;
       g_DisplayName := g_DisplayName lg; g_Source := source; g_Properties := g_Properties lg;
       g_Replicate := false |}
  | None =>
    {| g_Name := groupName; g_Priority := 0; g_PriorityClass := ""; g_DisplayName := groupName;
       g_Source := source; g_Properties := ∅; g_Replicate := false |}
  end.

Definition remote_link_groups (resp : DashboardResponse) : gmap string DashboardLinkGroup :=
  foldl (fun m lg => <[g_Name lg := lg]> m) ∅ (r_LinkGroups resp).

Definition remote_group_name (group : DashboardGroup) : string :=
  or_else (dg_LinkGroup group) (dg_Name group).

Definition remote_group_step (source : string) (remoteLinkGroups : gmap string DashboardLinkGroup)
    (st : dash) (group : DashboardGroup) : dash :=
  let groupName := remote_group_name group in
  append_links groupName (with_source source <$> dg_Links group)
    (default_detail groupName (remote_group groupName source (remoteLinkGroups !! groupName)) st).

Definition peer_step (st : dash) (peer : string * DashboardResponse) : dash :=
  let source := "sync:" +:+ peer.1 in
  foldl (remote_group_step source (remote_link_groups peer.2)) st (r_Groups peer.2).

Definition mergeRemoteData (remoteData : gmap string DashboardResponse) : collector :=
  for_each peer_step (range [2] remoteData).

(** *** mergeForeignClusterData *)

Definition collectForeignLinks (loop : list nat) (c : Reader) (discovery : option Discovery)
    : collector :=
  logged (collectIngresses c) ;;
  logged (collectServices c) ;;
  when (resourceAvailable discovery {| gv_Group := "gateway.networking.k8s.io"; gv_Version := "v1" |} "HTTPRoute")
    (logged (collectHTTPRoutes c)) ;;
  when (resourceAvailable discovery {| gv_Group := "gateway.networking.k8s.io"; gv_Version := "v1" |} "GRPCRoute")
    (logged (collectGRPCRoutes c)) ;;
  when (resourceAvailable discovery {| gv_Group := "gateway.networking.k8s.io"; gv_Version := "v1" |} "TLSRoute")
    (logged (collectTLSRoutes c)) ;;
  when (resourceAvailable discovery {| gv_Group := "gateway.networking.k8s.io"; gv_Version := "v1alpha2" |} "TCPRoute")
    (logged (collectTCPRoutes c)) ;;
  first_available discovery "IngressRoute" traefik_gvs (fun gv => logged (collectIngressRoutes c gv)) ;;
  when (resourceAvailable discovery forecastle_GroupVersion "ForecastleApp")
    (logged (collectForecastleApps c "" loop)).

Definition foreign_group (groupName source : string) (detail : option DashboardLinkGroup)
    : DashboardLinkGroup :=
  match detail with
  | Some d =>
    {| g_Name := g_Name d; g_Priority := g_Priority d; g_PriorityClass := g_PriorityClass d;
       g_DisplayName := g_DisplayName d; g_Source := source; g_Properties := g_Properties d;
       g_Replicate := g_Replicate d |}
  | None =>
    {| g_Name := groupName; g_Priority := 0; g_PriorityClass := ""; g_DisplayName := groupName;
       g_Source := source; g_Properties := ∅; g_Replicate := false |}
  end.

Definition foreign_group_step (source : string) (tempGroupDetails : gmap string DashboardLinkGroup)
    (st : dash) (entry : string * list DashboardLink) : dash :=
  let groupName := entry.1 in
  let replicatedLinks := filterLinksForReplication entry.2 in
  if bool_decide (replicatedLinks = []) then st else
  append_links groupName
    ((fun link => with_source (source +:+ ":" +:+ l_Source link) link) <$> replicatedLinks)
    (default_detail groupName (foreign_group groupName source (tempGroupDetails !! groupName)) st).

(** What a foreign cluster contributes, collected on maps of its own. *)
Definition foreign_temp (i : nat) (fc : ClusterInfo) : dash :=
  (collectForeignLinks [3; i] (ci_Client fc) (Some (ci_Discovery fc)) empty_dash).2.

Definition foreign_cluster_step (i : nat) (st : dash) (fc : ClusterInfo) : dash :=
  let source := "foreign:" +:+ ci_Name fc in
  let temp := foreign_temp i fc in
  foldl (foreign_group_step source (d_details temp)) st (range [4; i] (d_groups temp)).

Definition mergeForeignClusterData (clusters : list ClusterInfo) : collector :=
  for_each_i foreign_cluster_step clusters.

(** *** The request *)

(** The collectors of the local cluster, up to [collectInfoTiles]. *)
Definition collect_local (c : dashboardCollector) : collector :=
  let r := dc_reader c in
  let available group version kind :=
    resourceAvailable (dc_discovery c) {| gv_Group := group; gv_Version := version |} kind in
  collectStaticLinks (dc_staticLinks c) ;;
  collectBookmarkGroups r ;;
  when (resourceAvailable (dc_discovery c) forecastle_GroupVersion "ForecastleApp")
    (collectForecastleApps r (dc_forecastleInstance c) [1]) ;;
  when (available "networking.k8s.io" "v1" "Ingress") (collectIngresses r) ;;
  when (available "gateway.networking.k8s.io" "v1" "HTTPRoute") (collectHTTPRoutes r) ;;
  when (available "gateway.networking.k8s.io" "v1" "GRPCRoute") (collectGRPCRoutes r) ;;
  when (available "gateway.networking.k8s.io" "v1" "TLSRoute") (collectTLSRoutes r) ;;
  when (available "gateway.networking.k8s.io" "v1alpha2" "TCPRoute") (collectTCPRoutes r) ;;
  first_available (dc_discovery c) "IngressRoute" traefik_gvs (collectIngressRoutes r) ;;
  collectServices r ;;
  collectEndpointSlices r ;;
  when (available "externaldns.k8s.io" "v1alpha1" "DNSEndpoint") (collectDNSEndpoints r) ;;
  collectInfoTiles r.

(** [logMissingOptionalResources]: the optional kinds it reports as
    unavailable, in order. *)
Definition optional_resources : list (GroupVersion * string) :=
  let gv group version := {| gv_Group := group; gv_Version := version |} in
  [(forecastle_GroupVersion, "ForecastleApp"); (gv "networking.k8s.io" "v1", "Ingress");
   (gv "gateway.networking.k8s.io" "v1", "HTTPRoute"); (gv "gateway.networking.k8s.io" "v1", "GRPCRoute");
   (gv "gateway.networking.k8s.io" "v1", "TLSRoute"); (gv "gateway.networking.k8s.io" "v1alpha2", "TCPRoute");
   (gv "traefik.io" "v1alpha1", "IngressRoute"); (gv "traefik.containo.us" "v1alpha1", "IngressRoute");
   (gv "externaldns.k8s.io" "v1alpha1", "DNSEndpoint")].

Definition logMissingOptionalResources (c : dashboardCollector) : list (GroupVersion * string) :=
  List.filter (fun resource => negb (resourceAvailable (dc_discovery c) resource.1 resource.2)) optional_resources.

(** Data of other instances, for a browser. *)
Definition merge_others (c : dashboardCollector) (localOnly : bool) : collector :=
  match dc_syncClient c with
  | Some remoteData => when (negb localOnly) (mergeRemoteData remoteData)
  | None => done_
  end ;;
  match dc_foreignClusters c with
  | Some clusters => when (negb localOnly) (mergeForeignClusterData clusters)
  | None => done_
  end.

(** [for name, x := range m { m[name] = f(x) }] *)
Definition update_each {A} (loop : list nat) (f : A → A) (m : gmap string A) : gmap string A :=
  foldl (fun m' kv => <[kv.1 := f kv.2]> m') m (range loop m).

Definition keep_replicated (st : dash) : dash :=
  with_tiles (update_each [6] filterTilesForReplication)
    (with_groups (update_each [5] filterLinksForReplication) st).

Definition link_name_less (a b : DashboardLink) : bool :=
  str_lt (ToLower (l_Name a)) (ToLower (l_Name b)).
Definition tile_name_less (a b : DashboardInfoTile) : bool :=
  str_lt (ToLower (t_Name a)) (ToLower (t_Name b)).

Definition render_group (st : dash) (userGroups : list string) (localOnly : bool)
    (group : DashboardLinkGroup) : option DashboardGroup :=
  let links := filterLinksForGroups (default [] (d_groups st !! g_Name group)) userGroups in
  let groupTiles := default [] (d_tiles st !! g_Name group) in
  if bool_decide (links = []) && bool_decide (groupTiles = [])
     && (negb localOnly || negb (g_Replicate group))
  then None
  else Some {| dg_Name := g_DisplayName group; dg_LinkGroup := g_Name group;
               dg_Links := SliceStable link_name_less links;
               dg_Tiles := SliceStable tile_name_less groupTiles;
               dg_Source := g_Source group |}.

Definition render (st : dash) (userGroups : list string) (localOnly : bool) : DashboardResponse :=
  let orderedGroups := sortLinkGroups [7] (d_details st) in
  {| r_LinkGroups := orderedGroups;
     r_Groups := omap (render_group st userGroups localOnly) orderedGroups |}.

(** The maps of a request before anything is collected. *)
Definition initial_dash (c : dashboardCollector) : dash :=
  {| d_groups := ∅; d_tiles := ∅; d_details := initLinkGroups (dc_linkGroups c) |}.

Definition collectDashboard (c : dashboardCollector) (userGroups : list string) (localOnly : bool)
    : result DashboardResponse :=
  match (collect_local c ;; merge_others c localOnly) (initial_dash c) with
  | (Err err, _) => Err err
  | (Ok _, st) =>
    Ok (render (if localOnly then keep_replicated st else st) userGroups localOnly)
  end.
End dashboard.
