(* ===== verification/RequestMemory.v ===== *)
(** * RequestMemory: the second half of [collectDashboard] in memory

    Requests run at the same time and share the cache of the sync client: the
    snapshot [GetRemoteData] takes is a map of its own, but the responses in
    it, their slices and their maps, are the cached ones.  This file follows
    web/dashboard.go and web/sync.go from [GetRemoteData] to the response with
    slices, maps, [append] and in-place sorting as they are; [view_T] says
    what a value in memory means in Links. *)

From S2P Require Import Prelude GoStrings StableSort Memory Ownership ApiTypes UrlResolver Links Collectors Dashboard.

(** ** Values in memory *)
Record link_mem := {
  ml_Name : string;
  ml_LinkGroup : string;
  ml_URL : string;
  ml_Target : string;
  ml_Icon : string;
  ml_Source : string;
  ml_Metadata : string;
  ml_Groups : option slice;
  ml_Replicate : bool
}.

Record link_group_mem := {
  mg_Name : string;
  mg_Priority : Z;
  mg_PriorityClass : string;
  mg_DisplayName : string;
  mg_Source : string;
  mg_Properties : option loc;
  mg_Replicate : bool
}.

Record group_mem := {
  mdg_Name : string;
  mdg_LinkGroup : string;
  mdg_Links : option slice;
  mdg_Tiles : option slice;
  mdg_Source : string
}.

Record response_mem := {
  mr_LinkGroups : option slice;
  mr_Groups : option slice
}.

(** What one location holds: the array of a slice, or a map. *)
Inductive wcell :=
| WStrings (l : list string)
| WLinks (l : list link_mem)
| WTiles (l : list DashboardInfoTile)
| WLinkGroups (l : list link_group_mem)
| WGroups (l : list group_mem)
| WProperties (m : gmap string string)
| WSlices (m : gmap string (option slice))
| WDetails (m : gmap string link_group_mem)
| WResponses (m : gmap string response_mem).

#[export] Instance wcell_strings : Cell wcell (list string) :=
  {| box := WStrings; unbox c := match c with WStrings l => Some l | _ => None end; unbox_box _ := eq_refl |}.
#[export] Instance wcell_links : Cell wcell (list link_mem) :=
  {| box := WLinks; unbox c := match c with WLinks l => Some l | _ => None end; unbox_box _ := eq_refl |}.
#[export] Instance wcell_tiles : Cell wcell (list DashboardInfoTile) :=
  {| box := WTiles; unbox c := match c with WTiles l => Some l | _ => None end; unbox_box _ := eq_refl |}.
#[export] Instance wcell_link_groups : Cell wcell (list link_group_mem) :=
  {| box := WLinkGroups; unbox c := match c with WLinkGroups l => Some l | _ => None end; unbox_box _ := eq_refl |}.
#[export] Instance wcell_groups : Cell wcell (list group_mem) :=
  {| box := WGroups; unbox c := match c with WGroups l => Some l | _ => None end; unbox_box _ := eq_refl |}.
#[export] Instance wcell_properties : Cell wcell (gmap string string) :=
  {| box := WProperties; unbox c := match c with WProperties m => Some m | _ => None end; unbox_box _ := eq_refl |}.
#[export] Instance wcell_slices : Cell wcell (gmap string (option slice)) :=
  {| box := WSlices; unbox c := match c with WSlices m => Some m | _ => None end; unbox_box _ := eq_refl |}.
#[export] Instance wcell_details : Cell wcell (gmap string link_group_mem) :=
  {| box := WDetails; unbox c := match c with WDetails m => Some m | _ => None end; unbox_box _ := eq_refl |}.
#[export] Instance wcell_responses : Cell wcell (gmap string response_mem) :=
  {| box := WResponses; unbox c := match c with WResponses m => Some m | _ => None end; unbox_box _ := eq_refl |}.

#[export] Instance zero_link : Zero link_mem :=
  {| ml_Name := zero; ml_LinkGroup := zero; ml_URL := zero; ml_Target := zero; ml_Icon := zero; ml_Source := zero;
     ml_Metadata := zero; ml_Groups := zero; ml_Replicate := zero |}.
#[export] Instance zero_tile : Zero DashboardInfoTile :=
  {| t_Name := zero; t_Icon := zero; t_URL := zero; t_Target := zero; t_Source := zero; t_Content := zero;
     t_Replicate := zero |}.
#[export] Instance zero_link_group : Zero link_group_mem :=
  {| mg_Name := zero; mg_Priority := zero; mg_PriorityClass := zero; mg_DisplayName := zero; mg_Source := zero;
     mg_Properties := zero; mg_Replicate := zero |}.
#[export] Instance zero_group : Zero group_mem :=
  {| mdg_Name := zero; mdg_LinkGroup := zero; mdg_Links := zero; mdg_Tiles := zero; mdg_Source := zero |}.

(** *** What they mean: nil slices and maps are empty *)

Definition view_link (x : link_mem) : view wcell DashboardLink :=
  Groups ← or_empty (view_slice (T := string) view_flat (ml_Groups x));
  mret {| l_Name := ml_Name x; l_LinkGroup := ml_LinkGroup x; l_URL := ml_URL x; l_Target := ml_Target x;
          l_Icon := ml_Icon x; l_Source := ml_Source x; l_Metadata := ml_Metadata x; l_Groups := Groups;
          l_Replicate := ml_Replicate x |}.

Definition view_link_group (x : link_group_mem) : view wcell DashboardLinkGroup :=
  Properties ← view_map (T := string) (mg_Properties x);
  mret {| g_Name := mg_Name x; g_Priority := mg_Priority x; g_PriorityClass := mg_PriorityClass x;
          g_DisplayName := mg_DisplayName x; g_Source := mg_Source x; g_Properties := default ∅ Properties;
          g_Replicate := mg_Replicate x |}.

Definition view_group (x : group_mem) : view wcell DashboardGroup :=
  Links ← or_empty (view_slice view_link (mdg_Links x));
  Tiles ← or_empty (view_slice (T := DashboardInfoTile) view_flat (mdg_Tiles x));
  mret {| dg_Name := mdg_Name x; dg_LinkGroup := mdg_LinkGroup x; dg_Links := Links; dg_Tiles := Tiles;
          dg_Source := mdg_Source x |}.

Definition view_response (x : response_mem) : view wcell DashboardResponse :=
  LinkGroups ← or_empty (view_slice view_link_group (mr_LinkGroups x));
  Groups ← or_empty (view_slice view_group (mr_Groups x));
  mret {| r_LinkGroups := LinkGroups; r_Groups := Groups |}.

(** ** The program *)
Section request.
Context `{Unicode, MapRange, StableSort, Growth}.

(** The maps of a request. *)
Record request := { q_groups : loc; q_tiles : loc; q_details : loc }.

(** [m[k]] of a map of slices: nil when there is no entry. *)
Definition slice_entry (m : gmap string (option slice)) (k : string) : option slice := default None (m !! k).

(** [GetRemoteData]; [maps.Copy] copies entry by entry. *)
Definition GetRemoteData (cache : loc) : mem wcell loc :=
  result ← new (∅ : gmap string response_mem);
  m ← load (T := gmap string response_mem) cache;
  _ ← fold_each (range [] m) (fun _ kv =>
    r ← load (T := gmap string response_mem) result; store result (<[kv.1 := kv.2]> r)) tt;
  mret result.

(** [groups[groupName] = append(groups[groupName], link)] *)
Definition append_link (q : request) (groupName : string) (link : link_mem) : mem wcell unit :=
  groups ← load (T := gmap string (option slice)) (q_groups q);
  links ← append (slice_entry groups groupName) link;
  groups ← load (T := gmap string (option slice)) (q_groups q);
  store (q_groups q) (<[groupName := links]> groups).

(** [if _, ok := groupDetails[groupName]; !ok { groupDetails[groupName] = detail }] *)
Definition ensure_detail (q : request) (groupName : string) (detail : link_group_mem) : mem wcell unit :=
  details ← load (T := gmap string link_group_mem) (q_details q);
  match details !! groupName with
  | Some _ => mret tt
  | None => store (q_details q) (<[groupName := detail]> details)
  end.

Definition remote_detail (groupName source : string) (remoteLG : option link_group_mem) : link_group_mem :=
  match remoteLG with
  | Some lg =>
    {| mg_Name := mg_Name lg; mg_Priority := mg_Priority lg; mg_PriorityClass := mg_PriorityClass lg;
       mg_DisplayName := mg_DisplayName lg; mg_Source := source; mg_Properties := mg_Properties lg;
       mg_Replicate := false |}
  | None =>
    {| mg_Name := groupName; mg_Priority := 0; mg_PriorityClass := ""; mg_DisplayName := groupName;
       mg_Source := source; mg_Properties := None; mg_Replicate := false |}
  end.

(** [link.Source = source] on the loop's copy of the link. *)
Definition link_from (source : string) (link : link_mem) : link_mem :=
  {| ml_Name := ml_Name link; ml_LinkGroup := ml_LinkGroup link; ml_URL := ml_URL link; ml_Target := ml_Target link;
     ml_Icon := ml_Icon link; ml_Source := source; ml_Metadata := ml_Metadata link; ml_Groups := ml_Groups link;
     ml_Replicate := ml_Replicate link |}.

(** One group of a peer. *)
Definition merge_group (q : request) (source : string) (remoteLinkGroups : loc) (group : group_mem) : mem wcell unit :=
  let groupName := or_else (mdg_LinkGroup group) (mdg_Name group) in
  remote ← load (T := gmap string link_group_mem) remoteLinkGroups;
  _ ← ensure_detail q groupName (remote_detail groupName source (remote !! groupName));
  fold_slice (T := link_mem) (mdg_Links group) (fun _ link => append_link q groupName (link_from source link)) tt.

(** One peer. *)
Definition merge_peer (q : request) (peerURL : string) (remoteResp : response_mem) : mem wcell unit :=
  let source := "sync:" +:+ peerURL in
  remoteLinkGroups ← new (∅ : gmap string link_group_mem);
  _ ← fold_slice (T := link_group_mem) (mr_LinkGroups remoteResp) (fun _ lg =>
    m ← load (T := gmap string link_group_mem) remoteLinkGroups;
    store remoteLinkGroups (<[mg_Name lg := lg]> m)) tt;
  fold_slice (T := group_mem) (mr_Groups remoteResp) (fun _ group => merge_group q source remoteLinkGroups group) tt.

Definition merge_snapshot (q : request) (remoteData : loc) : mem wcell unit :=
  m ← load (T := gmap string response_mem) remoteData;
  fold_each (range [2] m) (fun _ kv => merge_peer q kv.1 kv.2) tt.

Definition mergeRemoteData (q : request) (cache : loc) : mem wcell unit :=
  remoteData ← GetRemoteData cache;
  merge_snapshot q remoteData.

(** *** What the sync endpoint keeps *)

(** [out := make([]T, 0, len(s))], and a loop that appends what [keep] accepts. *)
Definition filter_slice {T} `{Cell wcell (list T), Zero T} (keep : T → bool) (s : option slice) : mem wcell (option slice) :=
  out ← make_room (T := T) (slice_len s);
  fold_slice (T := T) s (fun out x => if keep x then append out x else mret out) out.

Definition filterLinksForReplication : option slice → mem wcell (option slice) := filter_slice ml_Replicate.
Definition filterTilesForReplication : option slice → mem wcell (option slice) := filter_slice t_Replicate.

(** [for name, x := range m { m[name] = f(x) }] *)
Definition update_each (loop : list nat) (f : option slice → mem wcell (option slice)) (p : loc) : mem wcell unit :=
  m ← load (T := gmap string (option slice)) p;
  fold_each (range loop m) (fun _ kv =>
    x ← f kv.2;
    m ← load (T := gmap string (option slice)) p;
    store p (<[kv.1 := x]> m)) tt.

Definition keep_replicated (q : request) : mem wcell unit :=
  _ ← update_each [5] filterLinksForReplication (q_groups q);
  update_each [6] filterTilesForReplication (q_tiles q).

(** *** Rendering *)
Definition linkAllowedForGroups (userGroups : gset string) (link : link_mem) : mem wcell bool :=
  if bool_decide (slice_len (ml_Groups link) = 0) then mret true else
  if bool_decide (allLinkGroupsWildcard ∈ userGroups) then mret true else
  required ← slice_elements (T := string) (ml_Groups link);
  mret (existsb (fun g => bool_decide (g ∈ userGroups)) required).

Definition filterLinksForGroups (links : option slice) (userGroups : list string) : mem wcell (option slice) :=
  let groupSet := user_group_set userGroups in
  result ← make_room (T := link_mem) (slice_len links);
  fold_slice (T := link_mem) links (fun result link =>
    allowed ← linkAllowedForGroups groupSet link;
    if (allowed : bool) then append result link else mret result) result.

Definition name_less (a b : link_mem) : bool := str_lt (ToLower (ml_Name a)) (ToLower (ml_Name b)).

Definition compareLinkGroups (a b : link_group_mem) : Z :=
  let rankA := priorityClassRank (mg_PriorityClass a) in
  let rankB := priorityClassRank (mg_PriorityClass b) in
  if bool_decide (rankA ≠ rankB) then wrap64 (rankA - rankB) else
  if bool_decide (mg_Priority a ≠ mg_Priority b) then wrap64 (mg_Priority a - mg_Priority b) else
  let dA := ToLower (mg_DisplayName a) in
  let dB := ToLower (mg_DisplayName b) in
  if bool_decide (dA ≠ dB) then (if str_lt dA dB then -1 else 1)%Z else
  let nA := ToLower (mg_Name a) in
  let nB := ToLower (mg_Name b) in
  if bool_decide (nA ≠ nB) then (if str_lt nA nB then -1 else 1)%Z else
  0%Z.

Definition sortLinkGroups (groups : loc) : mem wcell (option slice) :=
  m ← load (T := gmap string link_group_mem) groups;
  result ← make_room (T := link_group_mem) (size m);
  result ← fold_each (range [7] m).*2 (fun result group => append result group) result;
  _ ← sort_slice (fun a b => (compareLinkGroups a b <? 0)%Z) result;
  mret result.

(** One iteration of the loop that fills [response.Groups]. *)
Definition render_group (q : request) (userGroups : list string) (localOnly : bool) (out : option slice)
    (group : link_group_mem) : mem wcell (option slice) :=
  groups ← load (T := gmap string (option slice)) (q_groups q);
  links ← filterLinksForGroups (slice_entry groups (mg_Name group)) userGroups;
  tiles ← load (T := gmap string (option slice)) (q_tiles q);
  let groupTiles := slice_entry tiles (mg_Name group) in
  if bool_decide (slice_len links = 0) && bool_decide (slice_len groupTiles = 0)
     && (negb localOnly || negb (mg_Replicate group))
  then mret out else
  _ ← sort_slice name_less links;
  _ ← sort_slice tile_name_less groupTiles;
  append out {| mdg_Name := mg_DisplayName group; mdg_LinkGroup := mg_Name group; mdg_Links := links;
                mdg_Tiles := groupTiles; mdg_Source := mg_Source group |}.

Definition render (q : request) (userGroups : list string) (localOnly : bool) : mem wcell response_mem :=
  orderedGroups ← sortLinkGroups (q_details q);
  out ← make_room (T := group_mem) (slice_len orderedGroups);
  out ← fold_slice (T := link_group_mem) orderedGroups (render_group q userGroups localOnly) out;
  mret {| mr_LinkGroups := orderedGroups; mr_Groups := out |}.

(** From the collected maps to the response, without foreign clusters; [cache]
    is that of the sync client, if there is one. *)
Definition finish_request (q : request) (cache : option loc) (userGroups : list string) (localOnly : bool)
    : mem wcell response_mem :=
  _ ← match cache with
      | Some cache => if localOnly then mret tt else mergeRemoteData q cache
      | None => mret tt
      end;
  _ ← (if localOnly then keep_replicated q else mret tt);
  render q userGroups localOnly.
End request.
