(* ===== verification/DashboardSpec.v ===== *)
(** * DashboardSpec: what [collectDashboard] guarantees

    Provenance and completeness of the collected links, the merge of remote
    data, visibility and replication filters, the order of the response, its
    independence of map iteration order, and error propagation. *)

From S2P Require Import Prelude GoStrings StableSort ApiTypes UrlResolver Links Collectors Dashboard.

(** ** The abstract content of a local collection *)
Section content.
Context `{Unicode, Apimachinery, MapRange} (c : dashboardCollector).

Definition served (group version kind : string) : Prop :=
  resourceAvailable (dc_discovery c) {| gv_Group := group; gv_Version := version |} kind = true.

(** The Traefik API group in use. *)
Definition traefik_gv (gv : GroupVersion) : Prop :=
  ∃ gvs1 gvs2, traefik_gvs = gvs1 ++ gv :: gvs2 ∧
    Forall (fun gv => resourceAvailable (dc_discovery c) gv "IngressRoute" = false) gvs1 ∧
    resourceAvailable (dc_discovery c) gv "IngressRoute" = true.

(** [local_resource source meta]: a labelled object of the cluster whose
    metadata, with the URL derived from its spec, is [meta]. *)
Inductive local_resource : string → resourceMeta → Prop :=
| res_ingress items x :
    served "networking.k8s.io" "v1" "Ingress" →
    list_Ingresses (dc_reader c) enabled_labels = Ok items → x ∈ items →
    local_resource "ingress"
      (with_derived_url (resourceMetaFrom (ing_meta x)) (first_https (ing_RuleHosts x)))
| res_httproute items x :
    served "gateway.networking.k8s.io" "v1" "HTTPRoute" →
    list_Unstructured (dc_reader c) (GVK "gateway.networking.k8s.io" "v1" "HTTPRouteList")
      enabled_labels = Ok items → x ∈ items →
    local_resource "httproute"
      (with_derived_url (resourceMetaFrom (u_meta x)) (first_https (route_hostnames x)))
| res_grpcroute items x :
    served "gateway.networking.k8s.io" "v1" "GRPCRoute" →
    list_Unstructured (dc_reader c) (GVK "gateway.networking.k8s.io" "v1" "GRPCRouteList")
      enabled_labels = Ok items → x ∈ items →
    local_resource "grpcroute"
      (with_derived_url (resourceMetaFrom (u_meta x)) (first_https (route_hostnames x)))
| res_tlsroute items x :
    served "gateway.networking.k8s.io" "v1" "TLSRoute" →
    list_Unstructured (dc_reader c) (GVK "gateway.networking.k8s.io" "v1" "TLSRouteList")
      enabled_labels = Ok items → x ∈ items →
    local_resource "tlsroute"
      (with_derived_url (resourceMetaFrom (u_meta x)) (first_https (route_hostnames x)))
| res_tcproute items x :
    served "gateway.networking.k8s.io" "v1alpha2" "TCPRoute" →
    list_Unstructured (dc_reader c) (GVK "gateway.networking.k8s.io" "v1alpha2" "TCPRouteList")
      enabled_labels = Ok items → x ∈ items →
    local_resource "tcproute" (resourceMetaFrom (u_meta x))
| res_ingressroute gv items x :
    traefik_gv gv →
    list_Unstructured (dc_reader c) {| gvk_gv := gv; gvk_Kind := "IngressRouteList" |}
      enabled_labels = Ok items → x ∈ items →
    local_resource "ingressroute"
      (with_derived_url (resourceMetaFrom (u_meta x)) (ingress_route_url x))
| res_service items x :
    list_Services (dc_reader c) enabled_labels = Ok items → x ∈ items →
    local_resource "service"
      (with_derived_url (resourceMetaFrom (svc_meta x))
        (match svc_Ports x with [] => "" | port :: _ => service_url x port end))
| res_endpointslice items x :
    list_EndpointSlices (dc_reader c) enabled_labels = Ok items → x ∈ items →
    local_resource "endpointslice" (resourceMetaFrom (eps_meta x))
| res_dnsendpoint items x :
    served "externaldns.k8s.io" "v1alpha1" "DNSEndpoint" →
    list_Unstructured (dc_reader c) (GVK "externaldns.k8s.io" "v1alpha1" "DNSEndpointList")
      enabled_labels = Ok items → x ∈ items →
    local_resource "dnsendpoint"
      (with_derived_url (resourceMetaFrom (u_meta x)) (dns_endpoint_url x)).

(** [collected g l]: [l] belongs in group [g]. *)
Inductive collected : string → DashboardLink → Prop :=
| collected_static loop link details :
    link ∈ dc_staticLinks c →
    static_link_group loop link details ≠ "" →
    TrimSpace (sl_Name link) ≠ "" → TrimSpace (sl_URL link) ≠ "" →
    collected (static_link_group loop link details) (static_link link)
| collected_bookmark groupList bookmarkList b :
    list_BookmarkGroups (dc_reader c) = Ok groupList →
    list_Bookmarks (dc_reader c) None = Ok bookmarkList → b ∈ bookmarkList →
    confirmed_reachable b = true →
    collected (TrimSpace (bs_Group (b_Spec b))) (bookmark_link (group_replicate groupList) b)
| collected_forecastle items item loop details :
    resourceAvailable (dc_discovery c) forecastle_GroupVersion "ForecastleApp" = true →
    list_ForecastleApps (dc_reader c) = Ok items → item ∈ items →
    other_instance (dc_forecastleInstance c) item = false →
    is_blank (fas_Name (fa_Spec item)) = false →
    is_blank (forecastle_url (dc_reader c) item) = false →
    collected (resolveLinkGroupName loop (fas_Group (fa_Spec item)) details)
      (forecastle_link (dc_reader c) item)
| collected_resource source meta :
    local_resource source meta → complete meta →
    collected (rm_Group meta) (link_of_meta meta source).

Lemma local_resource_sound source meta : local_resource source meta →
  StepSound collected (fun st => add_resource source meta st).
Proof. intros Hr. apply add_resource_sound. by apply collected_resource. Qed.

Lemma collect_unstructured_sound gvk source (meta : Unstructured → resourceMeta) :
  (∀ items x, list_Unstructured (dc_reader c) gvk enabled_labels = Ok items → x ∈ items →
    local_resource source (meta x)) →
  Sound collected
    (collect_unstructured (dc_reader c) gvk (fun st x => add_resource source (meta x) st)).
Proof.
  intros Hr. unfold collect_unstructured. destruct (list_Unstructured _ _ _) eqn:E; [|apply _].
  apply sound_for_each. intros x Hx. by eapply local_resource_sound, Hr.
Qed.

Lemma static_sound : Sound collected (collectStaticLinks (dc_staticLinks c)).
Proof.
  apply sound_for_each_i. intros i link Hl st Hst. unfold static_link_step.
  repeat (case_bool_decide; simpl; [done|]).
  apply add_link_sound; [|done]. by apply collected_static.
Qed.

Lemma bookmark_sound : Sound collected (collectBookmarkGroups (dc_reader c)).
Proof.
  unfold collectBookmarkGroups. destruct (list_BookmarkGroups _) as [gl|] eqn:Eg; [|apply _].
  apply sound_seq.
  - apply sound_for_each. intros x Hx st Hst. done.
  - destruct (list_Bookmarks _ _) as [bl|] eqn:Eb; [|apply _].
    apply sound_for_each. intros b Hb st Hst. unfold bookmark_step.
    destruct (confirmed_reachable b) eqn:E; [|done].
    apply add_link_sound; [|done]. by eapply collected_bookmark.
Qed.

Lemma forecastle_sound :
  resourceAvailable (dc_discovery c) forecastle_GroupVersion "ForecastleApp" = true →
  Sound collected (collectForecastleApps (dc_reader c) (dc_forecastleInstance c) [1]).
Proof.
  intros Ha. unfold collectForecastleApps. destruct (list_ForecastleApps _) as [items|] eqn:E; [|apply _].
  apply sound_for_each_i. intros i item Hi st Hst. unfold forecastle_step. cbv zeta.
  destruct (other_instance _ _) eqn:Ho; [done|].
  destruct (is_blank (l_Name _)) eqn:Hn, (is_blank (resolveLinkGroupName _ _ _)),
    (is_blank (l_URL _)) eqn:Hu; simpl; try done.
  apply add_link_sound; [|done]. by eapply collected_forecastle.
Qed.

(** Every link of the local collection has one of the listed origins. *)
Lemma collect_local_sound : Sound collected (collect_local c).
Proof.
  unfold collect_local. cbv zeta.
  apply sound_seq; [apply static_sound|]. apply sound_seq; [apply bookmark_sound|].
  apply sound_seq; [by apply sound_when, forecastle_sound|].
  apply sound_seq.
  { apply sound_when. intros Ha. unfold collectIngresses.
    destruct (list_Ingresses _ _) eqn:E; [|apply _]. apply sound_for_each.
    intros x Hx. eapply local_resource_sound. by eapply res_ingress. }
  do 3 (apply sound_seq;
    [apply sound_when; intros Ha; apply collect_unstructured_sound; by econstructor|]).
  apply sound_seq.
  { apply sound_when. intros Ha. apply collect_unstructured_sound. by econstructor. }
  apply sound_seq.
  { unfold traefik_gvs. cbn [first_available].
    destruct (resourceAvailable _ _ _) eqn:Ha1;
      [|destruct (resourceAvailable _ {| gv_Group := "traefik.containo.us"; gv_Version := _ |} _) eqn:Ha2;
        [|apply _]];
      apply collect_unstructured_sound; intros items x Hi Hx; eapply res_ingressroute; try done.
    - by exists [], [{| gv_Group := "traefik.containo.us"; gv_Version := "v1alpha1" |}].
    - exists [{| gv_Group := "traefik.io"; gv_Version := "v1alpha1" |}], []. by repeat constructor. }
  apply sound_seq.
  { unfold collectServices. destruct (list_Services _ _) eqn:E; [|apply _]. apply sound_for_each.
    intros x Hx. eapply local_resource_sound. by eapply res_service. }
  apply sound_seq.
  { unfold collectEndpointSlices. destruct (list_EndpointSlices _ _) eqn:E; [|apply _].
    apply sound_for_each. intros x Hx. eapply local_resource_sound. by eapply res_endpointslice. }
  apply sound_seq.
  { apply sound_when. intros Ha. apply collect_unstructured_sound. by econstructor. }
  unfold collectInfoTiles. destruct (list_InfoTiles _); [|apply _].
  apply sound_for_each. by intros x Hx st.
Qed.

(** *** Completeness *)

(** The [n]-th collector of the request, from 0. *)
Tactic Notation "nth_collector" integer(n) :=
  unfold collect_local; cbv zeta; do n apply emits_later; apply emits_here; [|apply _].

Lemma step_emits {A} source (step : dash → A → dash) items x meta :
  (∀ y, StepOk (fun st => step st y)) → (∀ st, step st x = add_resource source meta st) →
  x ∈ items → complete meta → Emits (for_each step items) (rm_Group meta) (link_of_meta meta source).
Proof.
  intros Hok Hs Hx Hc. apply (emits_for_each _ _ x); [done..|].
  intros st. rewrite Hs, add_resource_unfold by done. apply add_link_emits.
Qed.

Lemma unstructured_emits gvk source step items x meta :
  list_Unstructured (dc_reader c) gvk enabled_labels = Ok items →
  (∀ y, StepOk (fun st => step st y)) → (∀ st, step st x = add_resource source meta st) →
  x ∈ items → complete meta →
  Emits (collect_unstructured (dc_reader c) gvk step) (rm_Group meta) (link_of_meta meta source).
Proof. intros Hl. unfold collect_unstructured. rewrite Hl. apply step_emits. Qed.

Lemma collect_local_emits_resource source meta :
  local_resource source meta → complete meta →
  Emits (collect_local c) (rm_Group meta) (link_of_meta meta source).
Proof.
  intros Hr Hc. destruct Hr as
    [? x ? E|? x ? E|? x ? E|? x ? E|? x ? E|? ? x Ht E|? x E|? x E|? x ? E].
  - nth_collector 3. apply emits_when; [done|]. unfold collectIngresses. rewrite E.
    by apply (step_emits _ _ _ x); [apply _|..].
  - nth_collector 4. apply emits_when; [done|]. by apply (unstructured_emits _ _ _ _ x) with (1 := E); [apply _|..].
  - nth_collector 5. apply emits_when; [done|]. by apply (unstructured_emits _ _ _ _ x) with (1 := E); [apply _|..].
  - nth_collector 6. apply emits_when; [done|]. by apply (unstructured_emits _ _ _ _ x) with (1 := E); [apply _|..].
  - nth_collector 7. apply emits_when; [done|]. by apply (unstructured_emits _ _ _ _ x) with (1 := E); [apply _|..].
  - destruct Ht as (gvs1 & gvs2 & Hgvs & Hn & Ha). nth_collector 8. rewrite Hgvs.
    apply emits_first_available; [done..|]. by apply (unstructured_emits _ _ _ _ x) with (1 := E); [apply _|..].
  - nth_collector 9. unfold collectServices. rewrite E. by apply (step_emits _ _ _ x); [apply _|..].
  - nth_collector 10. unfold collectEndpointSlices. rewrite E. by apply (step_emits _ _ _ x); [apply _|..].
  - nth_collector 11. apply emits_when; [done|]. by apply (unstructured_emits _ _ _ _ x) with (1 := E); [apply _|..].
Qed.

Lemma collect_local_emits_bookmark groupList bookmarkList b :
  list_BookmarkGroups (dc_reader c) = Ok groupList →
  list_Bookmarks (dc_reader c) None = Ok bookmarkList → b ∈ bookmarkList →
  confirmed_reachable b = true →
  Emits (collect_local c) (TrimSpace (bs_Group (b_Spec b)))
    (bookmark_link (group_replicate groupList) b).
Proof.
  intros Hg Hb Hin Hr. nth_collector 1.
  unfold collectBookmarkGroups. rewrite Hg. apply emits_later. rewrite Hb.
  apply (emits_for_each _ _ b); [apply _|done|].
  intros st. unfold bookmark_step. rewrite Hr. apply add_link_emits.
Qed.
End content.
