(* ===== verification/MergeSpec.v ===== *)
(** * MergeSpec: the data of other instances

    What [mergeRemoteData] and [mergeForeignClusterData] add to the maps of a
    request: the links of the peers and of the foreign clusters, stamped with
    where they come from, after the local ones; details of groups that are
    already known are left alone. *)

From S2P Require Import Prelude GoStrings StableSort ApiTypes UrlResolver Links Collectors Dashboard.

(** ** The two steps the merges are made of *)

Lemma links_at_append_links g ls st k :
  links_at (append_links g ls st) k = links_at st k ++ (if bool_decide (g = k) then ls else []).
Proof.
  revert st. induction ls as [|l ls IH]; intros st.
  - case_bool_decide; by rewrite app_nil_r.
  - change (append_links g (l :: ls) st) with (append_links g ls (with_groups (append_at g l) st)).
    rewrite IH, links_at_append. case_bool_decide; by rewrite <-app_assoc.
Qed.

Lemma append_links_rest g ls st :
  d_details (append_links g ls st) = d_details st ∧ d_tiles (append_links g ls st) = d_tiles st.
Proof.
  apply (foldl_ind (fun s => d_details s = d_details st ∧ d_tiles s = d_tiles st)); [done|].
  by intros s l _ [<- <-].
Qed.

Lemma details_default_detail g detail st k :
  d_details (default_detail g detail st) !! k =
  if bool_decide (g = k) then Some (default detail (d_details st !! g)) else d_details st !! k.
Proof.
  unfold default_detail. simpl. case_bool_decide as Hk.
  - subst. destruct (d_details st !! k) eqn:E; [by rewrite E|]. by rewrite lookup_insert_eq.
  - destruct (d_details st !! g); [done|]. by rewrite lookup_insert_ne.
Qed.

(** [append_default g ls detail]: the shape of an iteration of both merges. *)
Lemma append_default_ok g ls detail : g_Name detail = g →
  StepOk (fun st => append_links g ls (default_detail g detail st)).
Proof.
  intros Hn. pose proof (default_step_ok g detail Hn) as Hd.
  assert (∀ st, is_Some (d_details (default_detail g detail st) !! g)) as Hsome.
  { intros st. by rewrite details_default_detail, bool_decide_true. }
  split; intros st.
  - intros W%(step_wf (StepOk := Hd)). change (wf (default_detail g detail st)) in W.
    apply (foldl_ind (fun s => wf s ∧ is_Some (d_details s !! g))); [by split|].
    intros s l _ [? ?]. split; [by apply append_wf|done].
  - etrans; [apply (step_extends (StepOk := Hd))|].
    unfold append_links. apply (foldl_preorder extends). intros s l _. apply append_extends.
Qed.

(** What both merges leave alone. *)
Record adds_links (st st' : dash) : Prop := {
  adds_tiles : d_tiles st' = d_tiles st;
  adds_details k d : d_details st !! k = Some d → d_details st' !! k = Some d
}.

#[export] Instance adds_links_preorder : PreOrder adds_links.
Proof.
  split; [by split|]. intros s1 s2 s3 [T1 D1] [T2 D2]. split; [by rewrite T2|eauto].
Qed.

Lemma append_default_adds g ls detail st :
  adds_links st (append_links g ls (default_detail g detail st)).
Proof.
  destruct (append_links_rest g ls (default_detail g detail st)) as [Hd Ht].
  split; [by rewrite Ht|]. intros k d Hk. rewrite Hd, details_default_detail.
  case_bool_decide; [subst; by rewrite Hk|done].
Qed.

Lemma links_at_append_default g ls detail st k :
  links_at (append_links g ls (default_detail g detail st)) k =
  links_at st k ++ (if bool_decide (g = k) then ls else []).
Proof. by rewrite links_at_append_links. Qed.

(** Appending loop by loop: [contrib x] is what iteration [x] appends. *)
Lemma links_at_foldl {A} (body : dash → A → dash) (contrib : A → list DashboardLink) l st k :
  (∀ st x, x ∈ l → links_at (body st x) k = links_at st k ++ contrib x) →
  links_at (foldl body st l) k = links_at st k ++ concat (contrib <$> l).
Proof.
  revert st. induction l as [|x l IH]; intros st Hb; simpl; [by rewrite app_nil_r|].
  rewrite IH, Hb, <-app_assoc; [done|left|]. intros st' y Hy. apply Hb. by right.
Qed.

Section merge.
Context `{Unicode, Apimachinery, MapRange}.

(** ** Sync peers *)

(** The links a peer files under [k], as [mergeRemoteData] stores them. *)
Definition peer_links (k : string) (peer : string * DashboardResponse) : list DashboardLink :=
  concat ((fun group =>
    if bool_decide (remote_group_name group = k)
    then with_source ("sync:" +:+ peer.1) <$> dg_Links group else []) <$> r_Groups peer.2).

Lemma remote_link_groups_name resp k lg : remote_link_groups resp !! k = Some lg → g_Name lg = k.
Proof.
  unfold remote_link_groups. revert k lg. apply foldl_ind.
  - intros k lg. by rewrite lookup_empty.
  - intros m x _ IH k lg. rewrite lookup_insert. case_decide; [by intros [= <-]|apply IH].
Qed.

Lemma remote_group_named resp k source : g_Name (remote_group k source (remote_link_groups resp !! k)) = k.
Proof.
  destruct (remote_link_groups resp !! k) eqn:E; [|done]. by apply remote_link_groups_name in E.
Qed.

#[export] Instance peer_step_ok peer : StepOk (fun st => peer_step st peer).
Proof.
  apply step_ok_foldl. intros group _. apply append_default_ok, remote_group_named.
Qed.

#[export] Instance mergeRemoteData_ok rd : CollectorOk (mergeRemoteData rd).
Proof. apply collector_ok_for_each. apply _. Qed.

Lemma peer_step_adds st peer : adds_links st (peer_step st peer).
Proof. unfold peer_step. cbv zeta. apply (foldl_preorder adds_links). intros. apply append_default_adds. Qed.

Lemma peer_step_links st peer k : links_at (peer_step st peer) k = links_at st k ++ peer_links k peer.
Proof. apply links_at_foldl. intros. apply links_at_append_default. Qed.

Lemma mergeRemoteData_Ok rd st : (mergeRemoteData rd st).1 = Ok tt.
Proof. done. Qed.

Lemma mergeRemoteData_adds rd st : adds_links st (mergeRemoteData rd st).2.
Proof. simpl. apply (foldl_preorder adds_links). intros. apply peer_step_adds. Qed.

Lemma mergeRemoteData_links rd st k :
  links_at (mergeRemoteData rd st).2 k =
  links_at st k ++ concat (peer_links k <$> range [2] rd).
Proof. apply links_at_foldl. intros. apply peer_step_links. Qed.

(** ** Foreign clusters *)

#[export] Instance collectForeignLinks_ok loop c disc : CollectorOk (collectForeignLinks loop c disc).
Proof. unfold collectForeignLinks. apply _. Qed.

Lemma wf_empty : wf empty_dash.
Proof. split; simpl; intros k; rewrite lookup_empty; [done|by intros []..]. Qed.

Lemma foreign_temp_wf i fc : wf (foreign_temp i fc).
Proof. apply (step_wf (f := fun st => (collectForeignLinks _ _ _ st).2)), wf_empty. Qed.

Definition stamp_foreign (name : string) (link : DashboardLink) : DashboardLink :=
  with_source (("foreign:" +:+ name) +:+ ":" +:+ l_Source link) link.

(** The links a foreign cluster contributes to [k]. *)
Definition foreign_links (k : string) (i : nat) (fc : ClusterInfo) : list DashboardLink :=
  stamp_foreign (ci_Name fc) <$> filterLinksForReplication (links_at (foreign_temp i fc) k).

Lemma foreign_group_named i fc k source :
  g_Name (foreign_group k source (d_details (foreign_temp i fc) !! k)) = k.
Proof.
  destruct (d_details _ !! k) eqn:E; [|done]. by apply (wf_name _ (foreign_temp_wf i fc)) in E.
Qed.

#[export] Instance foreign_cluster_step_ok i fc : StepOk (fun st => foreign_cluster_step i st fc).
Proof.
  apply step_ok_foldl. intros [k ls] _. unfold foreign_group_step. cbv zeta.
  case_bool_decide; [apply step_ok_id|]. apply append_default_ok, foreign_group_named.
Qed.

#[export] Instance mergeForeignClusterData_ok cs : CollectorOk (mergeForeignClusterData cs).
Proof. apply collector_ok_for_each_i. apply _. Qed.

Lemma foreign_cluster_step_adds i st fc : adds_links st (foreign_cluster_step i st fc).
Proof.
  unfold foreign_cluster_step. cbv zeta.
  apply (foldl_preorder adds_links). intros s [k ls] _. unfold foreign_group_step. cbv zeta.
  case_bool_decide; [done|]. apply append_default_adds.
Qed.

Lemma foreign_group_step_links source details st entry k :
  links_at (foreign_group_step source details st entry) k = links_at st k ++
    (if bool_decide (entry.1 = k)
     then (fun l => with_source (source +:+ ":" +:+ l_Source l) l) <$> filterLinksForReplication entry.2
     else []).
Proof.
  unfold foreign_group_step. cbv zeta. case_bool_decide as Hn.
  - rewrite Hn. case_bool_decide; by rewrite app_nil_r.
  - rewrite links_at_append_links. done.
Qed.

(** Selecting one key from a list of entries with distinct keys. *)
Lemma concat_select {A B} (k : string) (f : A → list B) (l : list (string * A)) :
  NoDup l.*1 →
  concat ((fun e => if bool_decide (e.1 = k) then f e.2 else []) <$> l) =
  match list_to_map (M := gmap string A) l !! k with Some a => f a | None => [] end.
Proof.
  induction l as [|[k' a] l IH]; intros Hn; [done|].
  apply NoDup_cons in Hn as [Hk' Hn]. rewrite fmap_cons, list_to_map_cons. cbn [concat fst snd].
  rewrite IH by done. rewrite lookup_insert. case_bool_decide as E.
  - subst. rewrite decide_True by done.
    apply not_elem_of_list_to_map_1 in Hk'. cbn [fst] in Hk'. rewrite Hk'. apply app_nil_r.
  - by rewrite decide_False.
Qed.

Lemma list_to_map_range {A} loop (m : gmap string A) : list_to_map (range loop m) = m.
Proof.
  rewrite <-(list_to_map_to_list m) at 2. apply list_to_map_proper; [apply NoDup_fst_range|].
  apply range_perm.
Qed.

Lemma foreign_cluster_step_links i st fc k :
  links_at (foreign_cluster_step i st fc) k = links_at st k ++ foreign_links k i fc.
Proof.
  unfold foreign_cluster_step. cbv zeta.
  erewrite links_at_foldl; [|intros; apply foreign_group_step_links].
  f_equal. rewrite (concat_select k (fun ls => _ <$> filterLinksForReplication ls)) by apply NoDup_fst_range.
  rewrite list_to_map_range. unfold foreign_links, links_at. by destruct (d_groups _ !! k).
Qed.

Lemma mergeForeignClusterData_adds cs st : adds_links st (mergeForeignClusterData cs st).2.
Proof. simpl. apply (foldl_preorder adds_links). intros. apply foreign_cluster_step_adds. Qed.

Lemma mergeForeignClusterData_links cs st k :
  links_at (mergeForeignClusterData cs st).2 k =
  links_at st k ++ concat (imap (foreign_links k) cs).
Proof.
  unfold mergeForeignClusterData, for_each_i. simpl.
  rewrite (links_at_foldl _ (fun p => foreign_links k p.1 p.2)).
  - f_equal. f_equal. rewrite fmap_imap. done.
  - intros. apply foreign_cluster_step_links.
Qed.

(** ** Both *)

(** What other instances add to group [k] of a browser's dashboard. *)
Definition other_links (c : dashboardCollector) (k : string) : list DashboardLink :=
  match dc_syncClient c with
  | Some rd => concat (peer_links k <$> range [2] rd)
  | None => []
  end ++
  match dc_foreignClusters c with
  | Some cs => concat (imap (foreign_links k) cs)
  | None => []
  end.

#[export] Instance merge_others_ok c lo : CollectorOk (merge_others c lo).
Proof.
  apply collector_ok_seq; [destruct (dc_syncClient c)|destruct (dc_foreignClusters c)]; apply _.
Qed.

Lemma merge_others_Ok c lo st : (merge_others c lo st).1 = Ok tt.
Proof.
  unfold merge_others, seq. destruct (dc_syncClient c), (dc_foreignClusters c), lo; done.
Qed.

Lemma merge_others_local c st : merge_others c true st = (Ok tt, st).
Proof. unfold merge_others, seq. by destruct (dc_syncClient c), (dc_foreignClusters c). Qed.

Lemma merge_others_adds c lo st : adds_links st (merge_others c lo st).2.
Proof.
  unfold merge_others, seq. destruct (dc_syncClient c) as [rd|], (dc_foreignClusters c) as [cs|], lo;
    simpl; try reflexivity.
  - etrans; [apply mergeRemoteData_adds|apply mergeForeignClusterData_adds].
  - apply mergeRemoteData_adds.
  - apply mergeForeignClusterData_adds.
Qed.

Lemma seq_total m k st : (m st).1 = Ok tt → seq m k st = k (m st).2.
Proof. unfold seq. destruct (m st) as [[[]|e] st1]; [done|]. by intros [=]. Qed.

Lemma merge_others_links c st k :
  links_at (merge_others c false st).2 k = links_at st k ++ other_links c k.
Proof.
  unfold merge_others, other_links.
  rewrite seq_total by (by destruct (dc_syncClient c)). cbn [when negb].
  destruct (dc_syncClient c) as [rd|], (dc_foreignClusters c) as [cs|];
    cbn [done_ snd]; rewrite ?mergeForeignClusterData_links, ?mergeRemoteData_links;
    by rewrite ?app_nil_r, <-?app_assoc.
Qed.
End merge.
