(* ===== verification/RenderSpec.v ===== *)
(** * RenderSpec: from the maps of a request to the response

    What a reader may see, the replication filter, the groups of a response
    and their order, and the shape of [collectDashboard] as a local
    collection, a merge and a rendering. *)

From S2P Require Import Prelude GoStrings StableSort ApiTypes UrlResolver Links Collectors Dashboard MergeSpec.

(** ** Visibility *)

(** A link is visible to a user when it names no groups, or the user has one
    of them, or the wildcard. *)
Definition visible (userGroups : list string) (link : DashboardLink) : Prop :=
  l_Groups link = [] ∨
  ∃ r, r ∈ userGroups ∧ TrimSpace r ≠ "" ∧
    (TrimSpace r = allLinkGroupsWildcard ∨ TrimSpace r ∈ l_Groups link).

Lemma allowed_visible us link :
  linkAllowedForGroups link (user_group_set us) = true ↔ visible us link.
Proof.
  rewrite linkAllowed_iff. unfold visible. setoid_rewrite elem_of_user_group_set.
  split; [|naive_solver].
  intros [?|[(? & r & ? & ?)|(g & ? & ? & r & ? & ?)]]; [by left|right..];
    exists r; split_and!; try done; try congruence; [left|right]; congruence.
Qed.

#[export] Instance visible_dec us link : Decision (visible us link).
Proof.
  destruct (linkAllowedForGroups link (user_group_set us)) eqn:E;
    [left|right]; rewrite <-allowed_visible; by rewrite E.
Defined.

Lemma filter_bool {A} (b : A → bool) (P : A → Prop) `{∀ x, Decision (P x)} l :
  (∀ x, b x = true ↔ P x) → List.filter b l = filter P l.
Proof.
  intros Hb. induction l as [|x l IH]; [done|]. rewrite filter_cons. simpl.
  destruct (b x) eqn:E; case_decide as Hd; rewrite IH; try done; apply Hb in Hd || (rewrite <-Hb in Hd);
    congruence.
Qed.

Lemma filterLinksForGroups_visible links us : filterLinksForGroups links us = filter (visible us) links.
Proof. apply filter_bool. intros. apply allowed_visible. Qed.

(** ** The replication filter *)

Lemma foldl_insert_lookup {A B} (f : A → B) (l : list (string * A)) (m : gmap string B) k :
  NoDup l.*1 →
  foldl (fun m' kv => <[kv.1 := f kv.2]> m') m l !! k =
  match list_to_map (M := gmap string A) l !! k with Some a => Some (f a) | None => m !! k end.
Proof.
  revert m. induction l as [|[k' a] l IH]; intros m; [done|].
  intros [Hk' Hn]%NoDup_cons. cbn [foldl]. rewrite IH by done. rewrite list_to_map_cons.
  rewrite !lookup_insert. simpl. case_decide as E; [|done].
  subst. apply not_elem_of_list_to_map_1 in Hk'. cbn [fst] in Hk'. by rewrite Hk'.
Qed.

Lemma update_each_fmap `{MapRange} {A} loop (f : A → A) (m : gmap string A) :
  update_each loop f m = f <$> m.
Proof.
  apply map_eq. intros k. unfold update_each.
  rewrite foldl_insert_lookup, list_to_map_range, lookup_fmap by apply NoDup_fst_range.
  by destruct (m !! k).
Qed.

Lemma keep_replicated_links `{MapRange} st k :
  links_at (keep_replicated st) k = filterLinksForReplication (links_at st k).
Proof.
  unfold links_at, keep_replicated. simpl. rewrite update_each_fmap, lookup_fmap. by destruct (_ !! _).
Qed.

Lemma keep_replicated_tiles `{MapRange} st k :
  tiles_at (keep_replicated st) k = filterTilesForReplication (tiles_at st k).
Proof.
  unfold tiles_at, keep_replicated. simpl. rewrite update_each_fmap, lookup_fmap. by destruct (_ !! _).
Qed.

Lemma keep_replicated_wf `{MapRange} st : wf st → wf (keep_replicated st).
Proof.
  intros [W1 W2 W3]. split; simpl; [done|..]; intros k; rewrite update_each_fmap, lookup_fmap, fmap_is_Some; eauto.
Qed.

(** ** The groups of a response *)

(** Everything a response lists under the link group [k]. *)
Definition shown_links (resp : DashboardResponse) (k : string) : list DashboardLink :=
  concat ((fun g => if bool_decide (dg_LinkGroup g = k) then dg_Links g else []) <$> r_Groups resp).
Definition shown_tiles (resp : DashboardResponse) (k : string) : list DashboardInfoTile :=
  concat ((fun g => if bool_decide (dg_LinkGroup g = k) then dg_Tiles g else []) <$> r_Groups resp).

Lemma concat_Permutation {A B} (f : A → list B) (l k : list A) :
  l ≡ₚ k → concat (f <$> l) ≡ₚ concat (f <$> k).
Proof.
  induction 1 as [|x l k _ IH|x y l|l k m _ IH1 _ IH2]; simpl; [done| | |by etrans].
  - by rewrite IH.
  - rewrite !app_assoc. by rewrite (Permutation_app_comm (f y)).
Qed.

Lemma elem_of_concat_map {A B} (f : A → list B) l y :
  y ∈ concat (f <$> l) ↔ ∃ x, x ∈ l ∧ y ∈ f x.
Proof.
  induction l as [|x l IH]; simpl; [set_solver|].
  rewrite elem_of_app, IH. set_solver.
Qed.

Lemma omap_cons {A B} (f : A → option B) x l :
  omap f (x :: l) = match f x with Some y => y :: omap f l | None => omap f l end.
Proof. done. Qed.

Lemma elem_of_shown_links resp k l :
  l ∈ shown_links resp k ↔ ∃ g, g ∈ r_Groups resp ∧ dg_LinkGroup g = k ∧ l ∈ dg_Links g.
Proof.
  unfold shown_links. rewrite elem_of_concat_map. apply exist_proper. intros g.
  case_bool_decide; set_solver.
Qed.

Lemma elem_of_shown_tiles resp k t :
  t ∈ shown_tiles resp k ↔ ∃ g, g ∈ r_Groups resp ∧ dg_LinkGroup g = k ∧ t ∈ dg_Tiles g.
Proof.
  unfold shown_tiles. rewrite elem_of_concat_map. apply exist_proper. intros g.
  case_bool_decide; set_solver.
Qed.

Section render.
Context `{Unicode, MapRange, StableSort}.

Lemma sortLinkGroups_perm loop m : sortLinkGroups loop m ≡ₚ (map_to_list m).*2.
Proof. unfold sortLinkGroups. rewrite SliceStable_perm. by rewrite range_perm. Qed.

Lemma sortLinkGroups_elem loop m g : g ∈ sortLinkGroups loop m ↔ ∃ k, m !! k = Some g.
Proof.
  rewrite sortLinkGroups_perm, list_elem_of_fmap. setoid_rewrite <-elem_of_map_to_list.
  split; [intros ([k ?] & -> & ?); by exists k|intros [k ?]; by exists (k, g)].
Qed.

Lemma sortLinkGroups_names loop st : wf st →
  NoDup (g_Name <$> sortLinkGroups loop (d_details st)).
Proof.
  intros W. rewrite sortLinkGroups_perm, <-list_fmap_compose.
  rewrite (list_fmap_ext _ fst); [apply NoDup_fst_map_to_list|].
  intros i [k g] Hi%list_elem_of_lookup_2%elem_of_map_to_list. by apply (wf_name _ W).
Qed.

(** The part of a rendered group that [part] selects, found by key. *)
Lemma render_part {B} (part : DashboardGroup → list B) st us lo k : wf st →
  concat ((fun g => if bool_decide (dg_LinkGroup g = k) then part g else []) <$>
    r_Groups (render st us lo)) ≡ₚ
  match d_details st !! k with
  | Some d => default [] (part <$> render_group st us lo d)
  | None => []
  end.
Proof.
  intros W. unfold render. simpl.
  set (h d := match render_group st us lo d with
    | Some g => if bool_decide (dg_LinkGroup g = k) then part g else [] | None => [] end).
  trans (concat (h <$> sortLinkGroups [7] (d_details st))).
  { apply reflexive_eq. induction (sortLinkGroups _ _) as [|d ds IH]; [done|].
    rewrite fmap_cons, omap_cons. cbn [concat]. rewrite <-IH. unfold h at 1.
    by destruct (render_group _ _ _ d). }
  rewrite (concat_Permutation h) by apply sortLinkGroups_perm. rewrite <-list_fmap_compose.
  rewrite (list_fmap_ext _ (fun e => if bool_decide (e.1 = k)
    then default [] (part <$> render_group st us lo e.2) else [])).
  { rewrite (concat_select k (fun d => default [] (part <$> render_group st us lo d)))
      by apply NoDup_fst_map_to_list. by rewrite list_to_map_to_list. }
  intros i [k' d] Hi%list_elem_of_lookup_2%elem_of_map_to_list. apply (wf_name _ W) in Hi. subst. simpl.
  unfold h, render_group. cbv zeta. destruct (_ && _ && _)%bool; simpl; by case_bool_decide.
Qed.

Lemma render_links st us lo k : wf st →
  shown_links (render st us lo) k ≡ₚ filter (visible us) (links_at st k).
Proof.
  intros W. unfold shown_links. rewrite render_part by done.
  destruct (d_details st !! k) as [d|] eqn:E.
  - apply (wf_name _ W) in E. unfold render_group, links_at. rewrite E, filterLinksForGroups_visible.
    cbv zeta. destruct (_ && _ && _)%bool eqn:Hb; simpl; [|apply SliceStable_perm].
    apply andb_true_iff in Hb as [[Hl _]%andb_true_iff _].
    apply bool_decide_eq_true in Hl. by rewrite Hl.
  - unfold links_at. destruct (d_groups st !! k) eqn:Hk; [|done].
    destruct (wf_groups _ W k) as [? ?]; [done|congruence].
Qed.

Lemma render_tiles st us lo k : wf st → shown_tiles (render st us lo) k ≡ₚ tiles_at st k.
Proof.
  intros W. unfold shown_tiles. rewrite render_part by done.
  destruct (d_details st !! k) as [d|] eqn:E.
  - apply (wf_name _ W) in E. unfold render_group, tiles_at. rewrite E.
    cbv zeta. destruct (_ && _ && _)%bool eqn:Hb; simpl; [|apply SliceStable_perm].
    apply andb_true_iff in Hb as [[_ Hl]%andb_true_iff _].
    apply bool_decide_eq_true in Hl. by rewrite Hl.
  - unfold tiles_at. destruct (d_tiles st !! k) eqn:Hk; [|done].
    destruct (wf_tiles _ W k) as [? ?]; [done|congruence].
Qed.
End render.

(** ** The shape of a request *)
Section request.
Context `{Unicode, Apimachinery, MapRange, StableSort} (c : dashboardCollector).

(** The state [sortLinkGroups] and the rendering work on. *)
Definition final_state (localOnly : bool) (st : dash) : dash :=
  if localOnly then keep_replicated st else (merge_others c false st).2.

(** Only the local collection can fail. *)
Lemma collectDashboard_unfold us lo :
  collectDashboard c us lo =
  match collect_local c (initial_dash c) with
  | (Ok _, st) => Ok (render (final_state lo st) us lo)
  | (Err e, _) => Err e
  end.
Proof.
  unfold collectDashboard, seq. destruct (collect_local c _) as [[[]|e] st]; [|done].
  destruct lo; [by rewrite merge_others_local|]. unfold final_state.
  pose proof (merge_others_Ok c false st) as Hm.
  destruct (merge_others c false st) as [[[]|e] st']; [done|]. discriminate Hm.
Qed.

Lemma collectDashboard_Ok us lo resp :
  collectDashboard c us lo = Ok resp ↔
  ∃ st, collect_local c (initial_dash c) = (Ok tt, st) ∧ resp = render (final_state lo st) us lo.
Proof.
  rewrite collectDashboard_unfold. destruct (collect_local c _) as [[[]|e] st]; naive_solver.
Qed.

Lemma initial_dash_wf : wf (initial_dash c).
Proof.
  split; simpl; [|by intros k [? []%lookup_empty_Some]..].
  unfold initLinkGroups. intros k d. revert k d. apply foldl_ind; [intros k d; by rewrite lookup_empty|].
  intros m lg _ IH k d. cbv zeta. case_bool_decide; [apply IH|].
  rewrite lookup_insert. case_decide; [by intros [= <-]|apply IH].
Qed.

#[export] Instance collect_local_ok : CollectorOk (collect_local c).
Proof. unfold collect_local. apply _. Qed.

Lemma collect_local_wf st : collect_local c (initial_dash c) = (Ok tt, st) → wf st.
Proof.
  intros E. pose proof (step_wf (f := fun st => (collect_local c st).2) _ initial_dash_wf) as W.
  cbn beta in W. by rewrite E in W.
Qed.

Lemma final_state_wf lo st : wf st → wf (final_state lo st).
Proof.
  intros W. destruct lo; [by apply keep_replicated_wf|].
  by apply (step_wf (f := fun st => (merge_others c false st).2)).
Qed.

Lemma final_links lo st k :
  links_at (final_state lo st) k =
  if lo then filterLinksForReplication (links_at st k) else links_at st k ++ other_links c k.
Proof. destruct lo; [apply keep_replicated_links|apply merge_others_links]. Qed.

Lemma final_tiles lo st k :
  tiles_at (final_state lo st) k =
  if lo then filterTilesForReplication (tiles_at st k) else tiles_at st k.
Proof.
  destruct lo; [apply keep_replicated_tiles|]. unfold tiles_at, final_state.
  by rewrite (adds_tiles _ _ (merge_others_adds c false st)).
Qed.

Lemma final_adds st : adds_links st (final_state false st).
Proof. apply merge_others_adds. Qed.

Lemma final_details st k d :
  d_details st !! k = Some d → d_details (final_state false st) !! k = Some d.
Proof. apply adds_details, final_adds. Qed.
End request.
