(* ===== verification/Sample.v ===== *)
(** * Sample: a small cluster

    Concrete inputs the theorems are instantiated at: Unicode restricted to
    ASCII, the documented accessors, a map order, Go's insertion sort, and a
    cluster with bookmarks, an ingress, a tile, a sync peer and two foreign
    clusters, one of them unreachable. *)

From S2P Require Import Prelude GoStrings StableSort ApiTypes UrlResolver Links Collectors Dashboard.

#[export] Existing Instance unicode_ascii.
#[export] Existing Instance apimachinery.
#[export] Existing Instance range_asc.
#[export] Existing Instance insertion.

Definition not_found : error := Error KNotFound "not found".
Definition refused : error := new_error "connection refused".

Definition meta (namespace name : string) (annotations : gmap string string) : ObjectMeta :=
  {| om_Name := name; om_Namespace := namespace; om_Annotations := annotations |}.

(** A reader that answers every list and get with [e]. *)
Definition failing_reader (e : error) : Reader :=
  {| list_BookmarkGroups := Err e; list_Bookmarks := fun _ => Err e; list_ForecastleApps := Err e;
     list_InfoTiles := Err e; list_Ingresses := fun _ => Err e; list_Services := fun _ => Err e;
     list_EndpointSlices := fun _ => Err e; list_Unstructured := fun _ _ => Err e;
     get_Ingress := fun _ => Err e; get_Service := fun _ => Err e; get_Unstructured := fun _ _ => Err e |}.

Definition no_discovery : Discovery := fun _ => Err refused.

Definition bookmark (name group url : string) (groups : list string) (replicate : bool)
    (reachable : option bool) : Bookmark :=
  {| b_meta := meta "default" name ∅;
     b_Spec := {| bs_Group := group; bs_Name := name; bs_URL := url; bs_URLFrom := None;
                  bs_Target := ""; bs_Icon := ""; bs_NetworkRestricted := false;
                  bs_Replicate := replicate; bs_Groups := groups; bs_Properties := ∅ |};
     b_Status := {| bst_URLReachable := reachable; bst_LastURLCheckAt := None;
                    bst_URLCheckError := ""; bst_LastSyncedAt := None |} |}.

Definition wiki : Bookmark := bookmark "Wiki" "tools" "https://wiki.example" [] true (Some true).
Definition vault : Bookmark := bookmark "Vault" "tools" "https://vault.example" ["admins"] false (Some true).
Definition broken : Bookmark := bookmark "Broken" "tools" "https://broken.example" [] false (Some false).

Definition tools_group : BookmarkGroup :=
  {| bg_meta := meta "default" "tools" ∅;
     bg_Spec := {| bgs_Name := "Tools"; bgs_Properties := ∅; bgs_Replicate := false |};
     bg_Status := {| bgst_BookmarkCount := 3; bgst_LastSyncedAt := None |} |}.

Definition shop_ingress : Ingress :=
  {| ing_meta := meta "shop" "web" {[ annotationName := "Shop" ]};
     ing_RuleHosts := [""; "shop.example"] |}.

Definition uptime_tile : InfoTile :=
  {| it_meta := meta "default" "uptime" ∅;
     it_Spec := {| its_Name := "Uptime"; its_Group := "tools"; its_Icon := ""; its_URL := "";
                   its_Target := ""; its_Source := ""; its_Interval := None; its_Replicate := true;
                   its_HTTPRequest := None; its_Processor := "" |};
     it_Status := {| itst_Content := "99.9"; itst_LastFetchedAt := None; itst_LastError := "" |} |}.

Definition sample_reader : Reader :=
  {| list_BookmarkGroups := Ok [tools_group];
     list_Bookmarks := fun _ => Ok [wiki; vault; broken];
     list_ForecastleApps := Err not_found;
     list_InfoTiles := Ok [uptime_tile];
     list_Ingresses := fun _ => Ok [shop_ingress];
     list_Services := fun _ => Ok [];
     list_EndpointSlices := fun _ => Ok [];
     list_Unstructured := fun _ _ => Err not_found;
     get_Ingress := fun nn =>
       if bool_decide (nn_Name nn = "web") then Ok shop_ingress else Err not_found;
     get_Service := fun _ => Err not_found;
     get_Unstructured := fun _ _ => Err not_found |}.

Definition sample_discovery : Discovery := fun gv =>
  if bool_decide (gv = {| gv_Group := "networking.k8s.io"; gv_Version := "v1" |})
  then Ok ["Ingress"; "NetworkPolicy"]
  else if bool_decide (gv = forecastle_GroupVersion) then Ok ["ForecastleApp"]
  else Err not_found.

Definition remote_link : DashboardLink :=
  {| l_Name := "Remote"; l_LinkGroup := ""; l_URL := "https://remote.example"; l_Target := "_self";
     l_Icon := ""; l_Source := "bookmark"; l_Metadata := ""; l_Groups := []; l_Replicate := false |}.

Definition peer_response : DashboardResponse :=
  {| r_LinkGroups := [];
     r_Groups := [{| dg_Name := "Tools"; dg_LinkGroup := "tools"; dg_Links := [remote_link];
                     dg_Tiles := []; dg_Source := "local" |}] |}.

Definition foreign_ingress : Ingress :=
  {| ing_meta := meta "edge" "grafana" {[ annotationReplicate := "true" ]};
     ing_RuleHosts := ["grafana.edge.example"] |}.

Definition edge_reader : Reader :=
  {| list_BookmarkGroups := Err not_found; list_Bookmarks := fun _ => Err not_found;
     list_ForecastleApps := Err not_found; list_InfoTiles := Err not_found;
     list_Ingresses := fun _ => Ok [foreign_ingress];
     list_Services := fun _ => Err refused; list_EndpointSlices := fun _ => Err refused;
     list_Unstructured := fun _ _ => Err refused;
     get_Ingress := fun _ => Err not_found; get_Service := fun _ => Err not_found;
     get_Unstructured := fun _ _ => Err not_found |}.

Definition edge : ClusterInfo :=
  {| ci_Name := "edge"; ci_Client := edge_reader; ci_Discovery := no_discovery |}.
Definition dead : ClusterInfo :=
  {| ci_Name := "dead"; ci_Client := failing_reader refused; ci_Discovery := no_discovery |}.

Definition sample : dashboardCollector :=
  newDashboardCollector sample_reader (Some sample_discovery) ""
    [{| lg_Name := "ops"; lg_Priority := 5; lg_PriorityClass := "First"; lg_DisplayName := "Operations" |}]
    [{| sl_Group := ""; sl_LinkGroup := "operations"; sl_Name := "Status"; sl_URL := "https://status.example";
        sl_Target := ""; sl_Icon := ""; sl_Groups := [] |}]
    (Some {["https://peer.example" := peer_response]}) (Some [dead; edge]).

Definition no_response : DashboardResponse := {| r_LinkGroups := []; r_Groups := [] |}.

Definition response_of (r : result DashboardResponse) : DashboardResponse :=
  match r with Ok resp => resp | Err _ => no_response end.

(** What a user in [devs] sees, and what a peer is served. *)
Definition sample_page : DashboardResponse := response_of (collectDashboard sample ["devs"] false).
Definition sample_sync : DashboardResponse := response_of (collectDashboard sample [allLinkGroupsWildcard] true).

Lemma sample_page_ok : collectDashboard sample ["devs"] false = Ok sample_page.
Proof. vm_compute. reflexivity. Qed.
Lemma sample_sync_ok : collectDashboard sample [allLinkGroupsWildcard] true = Ok sample_sync.
Proof. vm_compute. reflexivity. Qed.

(** The page lists four groups: the configured one first, then the shop's
    namespace, the foreign namespace and the bookmarks. *)
Example sample_page_names :
  (fun g => (dg_LinkGroup g, l_Name <$> dg_Links g, dg_Source g)) <$> r_Groups sample_page =
  [("ops", ["Status"], "local"); ("edge", ["grafana"], "foreign:edge");
   ("shop", ["Shop"], "local"); ("tools", ["Remote"; "Wiki"], "local")].
Proof. vm_compute. reflexivity. Qed.

Example sample_sync_names :
  (fun g => (dg_LinkGroup g, l_Name <$> dg_Links g)) <$> r_Groups sample_sync = [("tools", ["Wiki"])].
Proof. vm_compute. reflexivity. Qed.
