(* ===== verification/DashboardProps.v ===== *)
(** * DashboardProps: the guarantees of a dashboard request

    Properties of [collectDashboard] as a whole: exactly which links and tiles
    a browser and a sync peer receive, who may see them, where they come from,
    the order they come in, what that order depends on, and which failures
    surface. *)

From S2P Require Import Prelude GoStrings StableSort ApiTypes UrlResolver Links Collectors Dashboard.
From S2P Require Import DashboardSpec MergeSpec RenderSpec Sample.

(** The collector with other sync peers and foreign clusters. *)
Definition with_others (c : dashboardCollector) (peers : option (gmap string DashboardResponse))
    (clusters : option (list ClusterInfo)) : dashboardCollector :=
  {| dc_reader := dc_reader c; dc_discovery := dc_discovery c;
     dc_forecastleInstance := dc_forecastleInstance c; dc_linkGroups := dc_linkGroups c;
     dc_staticLinks := dc_staticLinks c; dc_syncClient := peers; dc_foreignClusters := clusters |}.

(** A link that came from a sync peer, or from a foreign cluster. *)
Definition from_peer (c : dashboardCollector) (k : string) (l : DashboardLink) : Prop :=
  ∃ rd peer resp group l0, dc_syncClient c = Some rd ∧ rd !! peer = Some resp ∧
    group ∈ r_Groups resp ∧ or_else (dg_LinkGroup group) (dg_Name group) = k ∧
    l0 ∈ dg_Links group ∧ l = with_source ("sync:" +:+ peer) l0.

Definition from_cluster `{Unicode, Apimachinery, MapRange} (c : dashboardCollector) (k : string)
    (l : DashboardLink) : Prop :=
  ∃ cs i fc l0, dc_foreignClusters c = Some cs ∧ cs !! i = Some fc ∧
    l0 ∈ links_at (foreign_temp i fc) k ∧ l_Replicate l0 = true ∧
    l = with_source (("foreign:" +:+ ci_Name fc) +:+ ":" +:+ l_Source l0) l0.

Section helpers.
Context `{Unicode, Apimachinery, MapRange}.

Lemma elem_of_other_links c k l : l ∈ other_links c k ↔ from_peer c k l ∨ from_cluster c k l.
Proof.
  unfold other_links, from_peer, from_cluster. rewrite elem_of_app. f_equiv.
  - destruct (dc_syncClient c) as [rd|]; [|set_solver]. rewrite elem_of_concat_map.
    setoid_rewrite elem_of_concat_map. split.
    + intros ([peer resp] & Hp%elem_of_range & group & Hg & Hl).
      case_bool_decide; [|set_solver]. apply list_elem_of_fmap in Hl as (l0 & -> & ?).
      by exists rd, peer, resp, group, l0.
    + intros (? & peer & resp & group & l0 & [= <-] & ? & ? & ? & ? & ->).
      exists (peer, resp). rewrite elem_of_range. split; [done|]. exists group. split; [done|].
      unfold remote_group_name. rewrite bool_decide_true by done. by apply list_elem_of_fmap_2.
  - destruct (dc_foreignClusters c) as [cs|]; [|set_solver].
    rewrite list_elem_of_In, in_concat. setoid_rewrite <-list_elem_of_In.
    setoid_rewrite elem_of_lookup_imap. unfold foreign_links, filterLinksForReplication. split.
    + intros (? & (i & fc & -> & ?) & (l0 & -> & [? ?]%elem_of_filter_bool)%list_elem_of_fmap).
      by exists cs, i, fc, l0.
    + intros (? & i & fc & l0 & [= <-] & ? & ? & ? & ->).
      eexists. split; [by exists i, fc|]. apply (list_elem_of_fmap_2 (stamp_foreign _)).
      by apply elem_of_filter_bool.
Qed.

Lemma all_links_initial Q c : all_links Q (initial_dash c).
Proof. intros k l Hl. by apply elem_of_nil in Hl. Qed.

Lemma local_collected c st k l :
  collect_local c (initial_dash c) = (Ok tt, st) → l ∈ links_at st k → collected c k l.
Proof.
  intros E. pose proof (collect_local_sound c _ (all_links_initial _ c)) as Hs.
  cbn beta in Hs. rewrite E in Hs. apply Hs.
Qed.

Context `{StableSort}.

(** What a page shows under [k], with the filters pushed to the end. *)
Lemma shown_iff c us lo resp : collectDashboard c us lo = Ok resp →
  ∃ st, collect_local c (initial_dash c) = (Ok tt, st) ∧
    ∀ k l, l ∈ shown_links resp k ↔ visible us l ∧
      (if lo then l_Replicate l = true ∧ l ∈ links_at st k
       else l ∈ links_at st k ∨ l ∈ other_links c k).
Proof.
  intros (st & E & ->)%collectDashboard_Ok. exists st. split; [done|]. intros k l.
  rewrite render_links by by apply final_state_wf, (collect_local_wf c).
  rewrite list_elem_of_filter, final_links. destruct lo; [|by rewrite elem_of_app].
  unfold filterLinksForReplication. by rewrite elem_of_filter_bool.
Qed.

Lemma emitted_shown c us resp k l : collectDashboard c us false = Ok resp →
  Emits (collect_local c) k l → visible us l → l ∈ shown_links resp k.
Proof.
  intros (st & E & Hs)%shown_iff He Hv. apply Hs. split; [done|]. left. by apply (He _ _ E).
Qed.

Lemma shown_in resp g l : g ∈ r_Groups resp → l ∈ dg_Links g → l ∈ shown_links resp (dg_LinkGroup g).
Proof. intros. apply elem_of_shown_links. by exists g. Qed.
End helpers.

Section properties.
Context `{Unicode, Apimachinery, MapRange, StableSort}.
Implicit Types (c : dashboardCollector) (us : list string) (resp : DashboardResponse).

(** C1: the page of a browser lists, under every link group and up to
    order, exactly the links of the local collection, of the sync peers and
    of the foreign clusters that the user may see, each as often as it was
    collected, and every tile of the group. *)
Theorem dashboard_content c us resp : collectDashboard c us false = Ok resp →
  ∃ st, collect_local c (initial_dash c) = (Ok tt, st) ∧
    ∀ k, shown_links resp k ≡ₚ filter (visible us) (links_at st k ++ other_links c k) ∧
         shown_tiles resp k ≡ₚ tiles_at st k.
Proof.
  intros (st & E & ->)%collectDashboard_Ok. exists st. split; [done|]. intros k.
  apply collect_local_wf in E. rewrite render_links, render_tiles by by apply final_state_wf.
  by rewrite final_links, final_tiles.
Qed.

(** C3: the sync endpoint serves exactly the visible local links and the
    local tiles that are marked for replication. *)
Theorem sync_content c us resp : collectDashboard c us true = Ok resp →
  ∃ st, collect_local c (initial_dash c) = (Ok tt, st) ∧
    ∀ k, shown_links resp k ≡ₚ
           filter (visible us) (filter (fun l => l_Replicate l = true) (links_at st k)) ∧
         shown_tiles resp k ≡ₚ filter (fun t => t_Replicate t = true) (tiles_at st k).
Proof.
  intros (st & E & ->)%collectDashboard_Ok. exists st. split; [done|]. intros k.
  apply collect_local_wf in E. rewrite render_links, render_tiles by by apply final_state_wf.
  rewrite final_links, final_tiles. unfold filterLinksForReplication, filterTilesForReplication.
  by rewrite !(filter_bool _ (fun x => _ = true)) by done.
Qed.

(** What a sync peer is served does not depend on this instance's own
    peers or foreign clusters, so data is never re-exported. *)
Theorem sync_ignores_others c us peers clusters :
  collectDashboard (with_others c peers clusters) us true = collectDashboard c us true.
Proof. by rewrite !collectDashboard_unfold. Qed.

Lemma shown_visible c us lo resp g l :
  collectDashboard c us lo = Ok resp → g ∈ r_Groups resp → l ∈ dg_Links g → visible us l.
Proof.
  intros (st & _ & Hs)%shown_iff Hg Hl. by apply (Hs (dg_LinkGroup g)), shown_in.
Qed.

(** C2: no response contains a link whose reader is not in one of the
    link's groups, unless the link names none or the reader has the
    wildcard. *)
Theorem links_authorized c us lo resp g l :
  collectDashboard c us lo = Ok resp → g ∈ r_Groups resp → l ∈ dg_Links g → visible us l.
Proof. apply shown_visible. Qed.

Lemma page_link_origin c us resp g l :
  collectDashboard c us false = Ok resp → g ∈ r_Groups resp → l ∈ dg_Links g →
  collected c (dg_LinkGroup g) l ∨ from_peer c (dg_LinkGroup g) l ∨ from_cluster c (dg_LinkGroup g) l.
Proof.
  intros (st & E & Hs)%shown_iff Hg Hl.
  destruct (proj1 (Hs _ _) (shown_in _ _ _ Hg Hl)) as [_ [?|?]].
  - left. by eapply local_collected.
  - right. by apply elem_of_other_links.
Qed.

(** What a sync peer is served was collected locally and is marked. *)
Lemma served_link c us resp g l :
  collectDashboard c us true = Ok resp → g ∈ r_Groups resp → l ∈ dg_Links g →
  collected c (dg_LinkGroup g) l ∧ l_Replicate l = true.
Proof.
  intros (st & E & Hs)%shown_iff Hg Hl.
  destruct (proj1 (Hs _ _) (shown_in _ _ _ Hg Hl)) as [_ [? ?]]. split; [by eapply local_collected|done].
Qed.

Lemma sync_others c us peers clusters :
  collectDashboard (with_others c peers clusters) us true = collectDashboard c us true.
Proof. by rewrite !collectDashboard_unfold. Qed.

(** C13: every link of a page was configured, is a reachable bookmark, a
    Forecastle app or a labelled resource of this cluster, or was taken
    from a peer or from a foreign cluster's replicated links and says so in
    its source. *)
Theorem links_origin c us resp g l :
  collectDashboard c us false = Ok resp → g ∈ r_Groups resp → l ∈ dg_Links g →
  collected c (dg_LinkGroup g) l ∨ from_peer c (dg_LinkGroup g) l ∨ from_cluster c (dg_LinkGroup g) l.
Proof. apply page_link_origin. Qed.

(** C14: a bookmark confirmed reachable is on the page of every user its
    groups admit, under its own group. *)
Theorem bookmark_listed c us resp groupList bookmarkList b :
  collectDashboard c us false = Ok resp →
  list_BookmarkGroups (dc_reader c) = Ok groupList →
  list_Bookmarks (dc_reader c) None = Ok bookmarkList → b ∈ bookmarkList →
  bst_URLReachable (b_Status b) = Some true →
  visible us (bookmark_link (group_replicate groupList) b) →
  ∃ g, g ∈ r_Groups resp ∧ dg_LinkGroup g = TrimSpace (bs_Group (b_Spec b)) ∧
    bookmark_link (group_replicate groupList) b ∈ dg_Links g.
Proof.
  intros Hr Hg Hb Hin Hreach Hv. apply elem_of_shown_links.
  eapply emitted_shown; [done| |done]. eapply collect_local_emits_bookmark; [done..|].
  unfold confirmed_reachable. by rewrite Hreach.
Qed.

(** C15: an enabled resource of a served kind whose metadata, completed by
    the URL derived from its spec, names a group, a name and a URL is on
    every page. *)
Theorem resource_listed c us resp source meta :
  collectDashboard c us false = Ok resp → local_resource c source meta →
  rm_Group meta ≠ "" → rm_Name meta ≠ "" → rm_URL meta ≠ "" →
  ∃ g, g ∈ r_Groups resp ∧ dg_LinkGroup g = rm_Group meta ∧ link_of_meta meta source ∈ dg_Links g.
Proof.
  intros Hr Hres ???. apply elem_of_shown_links.
  eapply emitted_shown; [done|by apply collect_local_emits_resource|by left].
Qed.

(** C16: peers and foreign clusters add groups but never change a group this
    instance already has: its entry in the response is the local one. *)
Theorem local_groups_win c us resp st k d :
  collectDashboard c us false = Ok resp → collect_local c (initial_dash c) = (Ok tt, st) →
  d_details st !! k = Some d → d ∈ r_LinkGroups resp ∧ g_Name d = k.
Proof.
  intros (st' & E & ->)%collectDashboard_Ok E' Hd. rewrite E in E'. injection E' as ->.
  split; [|by apply (wf_name _ (collect_local_wf c _ E))].
  apply sortLinkGroups_elem. exists k. by apply final_details.
Qed.
End properties.

(** ** Witnesses *)

Lemma dashboard_content_witness :
  ∃ st, collect_local sample (initial_dash sample) = (Ok tt, st) ∧
    ∀ k, shown_links sample_page k ≡ₚ
           filter (visible ["devs"]) (links_at st k ++ other_links sample k) ∧
         shown_tiles sample_page k ≡ₚ tiles_at st k.
Proof. apply (dashboard_content sample ["devs"] sample_page), sample_page_ok. Defined.

Lemma sync_content_witness :
  ∃ st, collect_local sample (initial_dash sample) = (Ok tt, st) ∧
    ∀ k, shown_links sample_sync k ≡ₚ
           filter (visible [allLinkGroupsWildcard]) (filter (fun l => l_Replicate l = true) (links_at st k)) ∧
         shown_tiles sample_sync k ≡ₚ filter (fun t => t_Replicate t = true) (tiles_at st k).
Proof. apply (sync_content sample [allLinkGroupsWildcard] sample_sync), sample_sync_ok. Defined.

(** The first link of the first group with that name. *)
Definition pick (resp : DashboardResponse) (k : string) (n : nat) : option (DashboardGroup * DashboardLink) :=
  g ← find_map (fun g => if bool_decide (dg_LinkGroup g = k) then Some g else None) (r_Groups resp);
  l ← dg_Links g !! n; Some (g, l).

Lemma pick_elem resp k n g l : pick resp k n = Some (g, l) →
  g ∈ r_Groups resp ∧ dg_LinkGroup g = k ∧ l ∈ dg_Links g.
Proof.
  unfold pick. intros (g' & (l1 & x & l2 & Hg & Hx & _)%find_map_Some & (l' & Hl & [= -> ->])%bind_Some)%bind_Some.
  case_bool_decide; [|done]. simplify_eq. rewrite Hg. split; [set_solver|]. split; [done|].
  by eapply list_elem_of_lookup_2.
Qed.

Lemma links_authorized_witness :
  ∃ g l, pick sample_page "tools" 1 = Some (g, l) ∧ visible ["devs"] l.
Proof.
  destruct (pick sample_page "tools" 1) as [[g l]|] eqn:E; [|vm_compute in E; discriminate].
  exists g, l. split; [done|]. apply pick_elem in E as (? & _ & ?).
  by apply (links_authorized sample ["devs"] false sample_page g l sample_page_ok).
Defined.

Lemma links_origin_witness :
  ∃ g l, pick sample_page "edge" 0 = Some (g, l) ∧
    (collected sample (dg_LinkGroup g) l ∨ from_peer sample (dg_LinkGroup g) l
     ∨ from_cluster sample (dg_LinkGroup g) l).
Proof.
  destruct (pick sample_page "edge" 0) as [[g l]|] eqn:E; [|vm_compute in E; discriminate].
  exists g, l. split; [done|]. apply pick_elem in E as (? & _ & ?).
  by apply (links_origin sample ["devs"] sample_page g l sample_page_ok).
Defined.

Lemma bookmark_listed_witness :
  ∃ g, g ∈ r_Groups sample_page ∧ dg_LinkGroup g = "tools" ∧
    bookmark_link (group_replicate [tools_group]) wiki ∈ dg_Links g.
Proof.
  apply (bookmark_listed sample ["devs"] sample_page [tools_group] [wiki; vault; broken] wiki sample_page_ok);
    [reflexivity..|left|reflexivity|by left].
Defined.

Lemma resource_listed_witness :
  ∃ g, g ∈ r_Groups sample_page ∧ dg_LinkGroup g = "shop" ∧
    link_of_meta (with_derived_url (resourceMetaFrom (ing_meta shop_ingress)) "https://shop.example")
      "ingress" ∈ dg_Links g.
Proof.
  apply (resource_listed sample ["devs"] sample_page "ingress"
    (with_derived_url (resourceMetaFrom (ing_meta shop_ingress)) "https://shop.example") sample_page_ok);
    [|done..].
  apply (res_ingress sample [shop_ingress] shop_ingress); [reflexivity..|left].
Defined.

Lemma local_groups_win_witness :
  ∃ d, d ∈ r_LinkGroups sample_page ∧ g_Name d = "tools".
Proof.
  destruct (collect_local sample (initial_dash sample)) as [r st] eqn:E.
  destruct (d_details st !! "tools") as [d|] eqn:Hd;
    [|exfalso; apply (f_equal snd) in E; simpl in E; rewrite <-E in Hd; vm_compute in Hd; discriminate].
  exists d. apply (local_groups_win sample ["devs"] sample_page st "tools" d sample_page_ok); [|done].
  rewrite E. apply (f_equal fst) in E. vm_compute in E. by rewrite <-E.
Defined.
