(* ===== verification/OrderProps.v ===== *)
(** * OrderProps: the order of a response, what it depends on, and failures *)

From S2P Require Import Prelude GoStrings StableSort ApiTypes UrlResolver Links Collectors Dashboard.
From S2P Require Import MergeSpec RenderSpec Sample.

(** ** When a request succeeds *)

(** [OkIff m P]: [m] completes exactly when [P], whatever state it starts in. *)
Definition OkIff (m : collector) (P : Prop) : Prop := ∀ st, (m st).1 = Ok tt ↔ P.

Definition ok {A} (r : result A) : Prop := is_ok r = true.
(** A list that failed with NotFound counts as empty. *)
Definition ok_or_absent {A} (r : result A) : Prop :=
  match r with Ok _ => True | Err e => err_class e = KNotFound end.

Section ok.
Context `{Unicode, Apimachinery, MapRange}.

Lemma ok_seq m k P Q : OkIff m P → OkIff k Q → OkIff (seq m k) (P ∧ Q).
Proof.
  intros Hm Hk st. specialize (Hm st). unfold seq. destruct (m st) as [[[]|e] st1]; simpl in *.
  - rewrite (Hk st1). intuition.
  - split; [done|]. intros [HP _]. by apply Hm in HP.
Qed.

Lemma ok_when b m P : OkIff m P → OkIff (when b m) (b = true → P).
Proof. intros Hm st. destruct b; simpl; [rewrite (Hm st); tauto|]. split; [by intros _|done]. Qed.

Lemma ok_total m : (∀ st, (m st).1 = Ok tt) → OkIff m True.
Proof. intros Hm st. by split. Qed.

(** A list call, its items handled by a loop. *)
Lemma ok_list {A} (r : result (list A)) (e : error → error) (k : list A → collector) :
  (∀ l, OkIff (k l) True) →
  OkIff (match r with Err err => fail (e err) | Ok l => k l end) (ok r).
Proof.
  intros Hk st. unfold ok. destruct r as [l|]; simpl; [|done]. rewrite (Hk l st). tauto.
Qed.

Lemma ok_list_absent {A} (r : result (list A)) (k : list A → collector) :
  (∀ l, OkIff (k l) True) →
  OkIff (match r with Err err => fail_unless_not_found err | Ok l => k l end) (ok_or_absent r).
Proof.
  intros Hk st. destruct r as [l|e]; simpl; [rewrite (Hk l st); tauto|].
  unfold fail_unless_not_found, IgnoreNotFound, IsNotFound.
  destruct (decide (err_class e = KNotFound)).
  - by rewrite bool_decide_true.
  - rewrite bool_decide_false by done. done.
Qed.

Lemma ok_loop {A} (body : dash → A → dash) l : OkIff (for_each body l) True.
Proof. by apply ok_total. Qed.
Lemma ok_loop_i {A} (body : nat → dash → A → dash) l : OkIff (for_each_i body l) True.
Proof. by apply ok_total. Qed.

Lemma ok_first_available disc kind gvs (body : GroupVersion → collector) (P : GroupVersion → Prop) :
  (∀ gv, OkIff (body gv) (P gv)) →
  OkIff (first_available disc kind gvs body)
    (∀ gvs1 gv gvs2, gvs = gvs1 ++ gv :: gvs2 →
      Forall (fun gv => resourceAvailable disc gv kind = false) gvs1 →
      resourceAvailable disc gv kind = true → P gv).
Proof.
  intros Hb. induction gvs as [|gv gvs IH]; intros st; simpl.
  - split; [|done]. intros _ gvs1 gv gvs2 E. by destruct gvs1.
  - destruct (resourceAvailable disc gv kind) eqn:E.
    + rewrite (Hb gv st). split; [|intros Hall; by apply (Hall [] gv gvs)].
      intros HP [|gv1 gvs1] gv' gvs2 [= <- ?] Hn Ha; [done|]. apply Forall_cons in Hn as [? _]. congruence.
    + rewrite (IH st). split.
      * intros Hall [|gv1 gvs1] gv' gvs2 [= <- ->] Hn Ha; [congruence|].
        apply Forall_cons in Hn as [_ Hn]. by eapply Hall.
      * intros Hall gvs1 gv' gvs2 -> Hn Ha. apply (Hall (gv :: gvs1) gv' gvs2); [done| |done].
        by constructor.
Qed.
End ok.

(** The lists a dashboard request depends on: an error other than "this kind
    does not exist" is reported, for every kind the cluster serves. *)
Definition lists_succeed (c : dashboardCollector) : Prop :=
  let r := dc_reader c in
  let served group version kind :=
    resourceAvailable (dc_discovery c) {| gv_Group := group; gv_Version := version |} kind = true in
  let routes group version kind list :=
    served group version kind →
    ok_or_absent (list_Unstructured r (GVK group version list) enabled_labels) in
  True ∧ (ok (list_BookmarkGroups r) ∧ ok (list_Bookmarks r None)) ∧
  (served "forecastle.stakater.com" "v1alpha1" "ForecastleApp" → ok_or_absent (list_ForecastleApps r)) ∧
  (served "networking.k8s.io" "v1" "Ingress" → ok (list_Ingresses r enabled_labels)) ∧
  routes "gateway.networking.k8s.io" "v1" "HTTPRoute" "HTTPRouteList" ∧
  routes "gateway.networking.k8s.io" "v1" "GRPCRoute" "GRPCRouteList" ∧
  routes "gateway.networking.k8s.io" "v1" "TLSRoute" "TLSRouteList" ∧
  routes "gateway.networking.k8s.io" "v1alpha2" "TCPRoute" "TCPRouteList" ∧
  (∀ gvs1 gv gvs2, traefik_gvs = gvs1 ++ gv :: gvs2 →
    Forall (fun gv => resourceAvailable (dc_discovery c) gv "IngressRoute" = false) gvs1 →
    resourceAvailable (dc_discovery c) gv "IngressRoute" = true →
    ok_or_absent (list_Unstructured r {| gvk_gv := gv; gvk_Kind := "IngressRouteList" |} enabled_labels)) ∧
  ok (list_Services r enabled_labels) ∧ ok (list_EndpointSlices r enabled_labels) ∧
  routes "externaldns.k8s.io" "v1alpha1" "DNSEndpoint" "DNSEndpointList" ∧
  ok (list_InfoTiles r).

Section succeeds.
Context `{Unicode, Apimachinery, MapRange}.

Lemma ok_unstructured r gvk step :
  OkIff (collect_unstructured r gvk step) (ok_or_absent (list_Unstructured r gvk enabled_labels)).
Proof. apply ok_list_absent. intros. apply ok_loop. Qed.

Lemma ok_bookmarks r :
  OkIff (collectBookmarkGroups r) (ok (list_BookmarkGroups r) ∧ ok (list_Bookmarks r None)).
Proof.
  unfold collectBookmarkGroups. destruct (list_BookmarkGroups r) as [l|]; [|by intros st; split; [|intros []]].
  intros st. rewrite (ok_seq _ _ True _ (ok_loop _ _) (ok_list _ id _ (fun l => ok_loop _ l)) st).
  unfold ok. simpl. tauto.
Qed.

Lemma collect_local_succeeds c : OkIff (collect_local c) (lists_succeed c).
Proof.
  unfold collect_local, lists_succeed. cbv zeta.
  apply ok_seq; [apply ok_loop_i|]. apply ok_seq; [apply ok_bookmarks|].
  apply ok_seq; [apply ok_when, ok_list_absent; intros; apply ok_loop_i|].
  apply ok_seq; [apply ok_when, (ok_list _ id); intros; apply ok_loop|].
  do 4 (apply ok_seq; [apply ok_when, ok_unstructured|]).
  apply ok_seq; [apply ok_first_available; intros; apply ok_unstructured|].
  apply ok_seq; [apply (ok_list _ id); intros; apply ok_loop|].
  apply ok_seq; [apply (ok_list _ id); intros; apply ok_loop|].
  apply ok_seq; [apply ok_when, ok_unstructured|].
  apply ok_list; intros; apply ok_loop.
Qed.
End succeeds.

(** ** Order *)

(** [a] does not come after [b] in [less]. *)
Definition not_after {A} (less : A → A → bool) (a b : A) : Prop := less b a = false.

Section order.
Context `{Unicode}.

Lemma link_name_less_weak : WeakOrder (fun _ => True) link_name_less.
Proof. exact (weak_order_key (fun _ => True) (fun x => ToLower (l_Name x)) str_lt weak_order_str). Qed.
Lemma tile_name_less_weak : WeakOrder (fun _ => True) tile_name_less.
Proof. exact (weak_order_key (fun _ => True) (fun x => ToLower (t_Name x)) str_lt weak_order_str). Qed.

Lemma Forall_trivial {A} (l : list A) : Forall (fun _ => True) l.
Proof. by apply Forall_forall. Qed.

Lemma StronglySorted_mono {A} (P : A → Prop) (R S : A → A → Prop) l :
  (∀ x y, P x → P y → R x y → S x y) → Forall P l → StronglySorted R l → StronglySorted S l.
Proof.
  intros HRS. induction 1 as [|x l Hx Hl IH]; [constructor|].
  intros [Hs Hf]%StronglySorted_inv. constructor; [by apply IH|].
  rewrite Forall_forall in Hf, Hl |- *. auto.
Qed.

Lemma render_names_sublist `{MapRange, StableSort} st us lo :
  dg_LinkGroup <$> r_Groups (render st us lo) `sublist_of` g_Name <$> r_LinkGroups (render st us lo).
Proof.
  unfold render. simpl. induction (sortLinkGroups _ _) as [|d ds IH]; [constructor|].
  rewrite omap_cons, fmap_cons. unfold render_group at 1. cbv zeta.
  destruct (_ && _ && _)%bool; [by constructor|]. by constructor.
Qed.

Lemma sorted_groups_agree (M1 M2 : MapRange) (S1 S2 : StableSort) loop
    (m : gmap string DashboardLinkGroup) :
  (∀ k d, m !! k = Some d → priority_ok d) →
  (∀ k1 k2 d1 d2, m !! k1 = Some d1 → m !! k2 = Some d2 → group_key d1 = group_key d2 → d1 = d2) →
  @sortLinkGroups _ M1 S1 loop m = @sortLinkGroups _ M2 S2 loop m.
Proof.
  intros Hp Hk.
  assert (∀ M : MapRange, ∀ d, d ∈ (range loop m).*2 → ∃ k, m !! k = Some d) as Hin.
  { intros M d ([k ?] & -> & ?%elem_of_range)%list_elem_of_fmap. by exists k. }
  assert (∀ M : MapRange, Forall priority_ok (range loop m).*2) as Hall.
  { intros M. apply Forall_forall. intros d (k & ?)%Hin. by eapply Hp. }
  unfold sortLinkGroups. trans (@SliceStable S1 _ lessLinkGroups (@range M2 _ loop m).*2).
  - apply (SliceStable_deterministic priority_ok);
      [apply _|by rewrite (@range_perm M1), (@range_perm M2)|done|].
    intros d1 d2 [k1 H1]%Hin [k2 H2]%Hin Ht. apply lessLinkGroups_tied in Ht; eauto.
  - apply (sorters_agree _ _ priority_ok); [apply _|done].
Qed.
End order.

Section properties.
Context `{Unicode, Apimachinery, MapRange, StableSort}.

(** C17: the link groups of a response come in the documented order (class,
    priority, display name, name; case ignored in the names), no name
    twice; the listed groups follow the same order, and the links and tiles
    of each come by name. *)
Theorem response_order c us lo resp :
  collectDashboard c us lo = Ok resp → Forall priority_ok (r_LinkGroups resp) →
  StronglySorted (not_after group_before) (r_LinkGroups resp) ∧
  NoDup (g_Name <$> r_LinkGroups resp) ∧
  (dg_LinkGroup <$> r_Groups resp `sublist_of` g_Name <$> r_LinkGroups resp) ∧
  ∀ g, g ∈ r_Groups resp →
    StronglySorted (not_after link_name_less) (dg_Links g) ∧
    StronglySorted (not_after tile_name_less) (dg_Tiles g).
Proof.
  intros (st & E & ->)%collectDashboard_Ok Hp. apply collect_local_wf, (final_state_wf c lo) in E.
  split_and!.
  - apply (StronglySorted_mono priority_ok (fun x y => lessLinkGroups y x = false)); [|done|].
    + intros x y Hx Hy. unfold not_after. by rewrite lessLinkGroups_spec.
    + apply (SliceStable_sorted _ priority_ok lessLinkGroups).
      eapply Permutation_Forall; [|apply Hp]. apply SliceStable_perm.
  - by apply sortLinkGroups_names.
  - apply render_names_sublist.
  - intros g (d & _ & Hg)%list_elem_of_omap. unfold render_group in Hg. cbv zeta in Hg.
    destruct (_ && _ && _)%bool; [done|]. injection Hg as <-. simpl.
    pose proof link_name_less_weak. pose proof tile_name_less_weak.
    split; by apply (SliceStable_sorted _ (fun _ => True)), Forall_trivial.
Qed.

(** C18: rendering depends on nothing but the collected and merged maps.  When
    no two groups of them agree on class, priority, display name and name up to
    case, the same maps are rendered as the same response whatever order Go
    ranges over them and whichever stable sort is used.  How the maps come to
    be, from this cluster's resources, the peers and the foreign clusters, is
    not part of the claim. *)
Theorem render_deterministic (M1 M2 : MapRange) (S1 S2 : StableSort) st us lo :
  (∀ k d, d_details st !! k = Some d → priority_ok d) →
  (∀ k1 k2 d1 d2, d_details st !! k1 = Some d1 → d_details st !! k2 = Some d2 →
    group_key d1 = group_key d2 → d1 = d2) →
  @render _ M1 S1 st us lo = @render _ M2 S2 st us lo.
Proof.
  intros Hp Hk. unfold render. cbv zeta. rewrite (sorted_groups_agree M1 M2 S1 S2) by done.
  f_equal. induction (@sortLinkGroups _ M2 S2 _ _) as [|d ds IH]; [done|].
  rewrite !omap_cons, IH. unfold render_group. cbv zeta.
  pose proof link_name_less_weak. pose proof tile_name_less_weak.
  rewrite (sorters_agree S1 S2 (fun _ => True) link_name_less) by apply Forall_trivial.
  by rewrite (sorters_agree S1 S2 (fun _ => True) tile_name_less) by apply Forall_trivial.
Qed.

(** C19: a request succeeds exactly when this cluster's lists do, a missing
    kind excepted where the code excepts it; peers, foreign clusters and
    the user play no part. *)
Theorem request_succeeds c us lo : ok (collectDashboard c us lo) ↔ lists_succeed c.
Proof.
  rewrite collectDashboard_unfold. rewrite <-(collect_local_succeeds c (initial_dash c)).
  by destruct (collect_local c (initial_dash c)) as [[[]|e] st].
Qed.

(** A foreign cluster whose lists fail and whose discovery fails
    leaves the page as it is. *)
Theorem unreachable_cluster_adds_nothing i st fc e e' :
  ci_Discovery fc = (fun _ => Err e') →
  (∀ labels, list_Ingresses (ci_Client fc) labels = Err e) →
  (∀ labels, list_Services (ci_Client fc) labels = Err e) →
  foreign_cluster_step i st fc = st.
Proof.
  intros Hd Hi Hs. unfold foreign_cluster_step. cbv zeta.
  assert (foreign_temp i fc = empty_dash) as ->; [|].
  { unfold foreign_temp, collectForeignLinks, collectIngresses, collectServices, seq, logged.
    by rewrite Hi, Hs, Hd. }
  assert (range [4; i] (d_groups empty_dash) = []) as ->; [|done].
  apply Permutation_nil_r. by rewrite range_perm.
Qed.
End properties.

(** ** Witnesses *)

Definition priority_okb (g : DashboardLinkGroup) : bool :=
  (-4611686018427387904 <=? g_Priority g)%Z && (g_Priority g <? 4611686018427387904)%Z.

Lemma priority_okb_spec g : priority_okb g = true → priority_ok g.
Proof. unfold priority_okb, priority_ok. rewrite andb_true_iff, Z.leb_le, Z.ltb_lt. tauto. Qed.

Lemma Forall_priority_ok l : forallb priority_okb l = true → Forall priority_ok l.
Proof.
  rewrite forallb_forall. intros Hl. apply Forall_forall. intros g ?%list_elem_of_In.
  by apply priority_okb_spec, Hl.
Qed.

Lemma response_order_witness :
  StronglySorted (not_after group_before) (r_LinkGroups sample_page) ∧
  NoDup (g_Name <$> r_LinkGroups sample_page) ∧
  (dg_LinkGroup <$> r_Groups sample_page `sublist_of` g_Name <$> r_LinkGroups sample_page) ∧
  ∀ g, g ∈ r_Groups sample_page →
    StronglySorted (not_after link_name_less) (dg_Links g) ∧
    StronglySorted (not_after tile_name_less) (dg_Tiles g).
Proof.
  apply (response_order sample ["devs"] false sample_page sample_page_ok).
  apply Forall_priority_ok. vm_compute. reflexivity.
Defined.

(** The maps of the sample page. *)
Definition sample_state : dash :=
  (seq (collect_local sample) (merge_others sample false) (initial_dash sample)).2.

Definition all_details (P : string → DashboardLinkGroup → bool) (st : dash) : bool :=
  forallb (fun e => P e.1 e.2) (map_to_list (d_details st)).

Lemma all_details_spec P st : all_details P st = true →
  ∀ k d, d_details st !! k = Some d → P k d = true.
Proof.
  intros Hall k d Hd%elem_of_map_to_list. unfold all_details in Hall. rewrite forallb_forall in Hall.
  apply (Hall (k, d)). by apply list_elem_of_In.
Qed.

Definition distinct_from (d1 d2 : DashboardLinkGroup) : bool :=
  bool_decide (d1 = d2) || negb (bool_decide (group_key d1 = group_key d2)).

Lemma distinct_keys st :
  all_details (fun _ d1 => all_details (fun _ => distinct_from d1) st) st = true →
  ∀ k1 k2 d1 d2, d_details st !! k1 = Some d1 → d_details st !! k2 = Some d2 →
    group_key d1 = group_key d2 → d1 = d2.
Proof.
  intros Hall k1 k2 d1 d2 H1 H2 Hk.
  pose proof (all_details_spec _ _ Hall k1 d1 H1) as Hall1. cbn beta in Hall1.
  pose proof (all_details_spec _ _ Hall1 k2 d2 H2) as Hd. cbn beta in Hd. unfold distinct_from in Hd.
  apply orb_true_iff in Hd as [Hd%bool_decide_eq_true|Hd]; [done|].
  by rewrite bool_decide_true in Hd.
Qed.

Lemma render_deterministic_witness :
  @render _ range_asc insertion sample_state ["devs"] false =
  @render _ range_desc insertion sample_state ["devs"] false.
Proof.
  apply (render_deterministic range_asc range_desc insertion insertion).
  - intros k d Hd. apply priority_okb_spec. revert k d Hd.
    apply (all_details_spec (fun _ d => priority_okb d)). vm_compute. reflexivity.
  - apply distinct_keys. vm_compute. reflexivity.
Defined.

Lemma unreachable_cluster_adds_nothing_witness :
  foreign_cluster_step 0 sample_state dead = sample_state.
Proof.
  apply (unreachable_cluster_adds_nothing 0 sample_state dead refused refused); reflexivity.
Defined.

(** Two groups with the same key keep the order the map was read in: the
    response is not a function of the cluster alone. *)
Definition tie_state : dash :=
  {| d_groups := ∅; d_tiles := ∅;
     d_details := {[ "Tools" := {| g_Name := "Tools"; g_Priority := 0; g_PriorityClass := "";
                                   g_DisplayName := "Tools"; g_Source := "local"; g_Properties := ∅;
                                   g_Replicate := false |};
                     "tools" := {| g_Name := "tools"; g_Priority := 0; g_PriorityClass := "";
                                   g_DisplayName := "tools"; g_Source := "local"; g_Properties := ∅;
                                   g_Replicate := false |} ]} |}.

(** Without that condition the order does depend on the map: "Tools" and
    "tools" come out in the order Go happened to range over them. *)
Theorem ties_follow_the_map :
  @render _ range_asc insertion tie_state [] false ≠ @render _ range_desc insertion tie_state [] false.
Proof. vm_compute. discriminate. Qed.

(** Priorities far apart are compared the wrong way round: the
    difference of two 64-bit integers wraps. *)
Theorem priority_difference_wraps :
  let group (name : string) (priority : Z) :=
    {| g_Name := name; g_Priority := priority; g_PriorityClass := ""; g_DisplayName := name;
       g_Source := "local"; g_Properties := ∅; g_Replicate := false |} in
  group_before (group "low" (-1)%Z) (group "high" 9223372036854775807%Z) = true ∧
  lessLinkGroups (group "high" 9223372036854775807%Z) (group "low" (-1)%Z) = true.
Proof. by vm_compute. Qed.
