(* ===== verification/RequestOwnership.v ===== *)
(** * RequestOwnership: what a request writes

    Memory of a request is labelled with slots; everything that existed before
    and has no label is shared: the cache, the responses in it, the memory of
    other requests.  Each operation of RequestMemory is shown to compute what
    its counterpart in Dashboard says and to write slots of its own only. *)

From S2P Require Import Prelude GoStrings StableSort Memory Ownership ApiTypes UrlResolver Links Collectors Dashboard.
From S2P Require Import DashboardSpec MergeSpec RenderSpec Sample OrderProps RequestMemory.

(** ** Loops over related maps *)

(** The order of a loop over a map is decided by the loop and the keys. *)
Class KeyOrder `{MapRange} : Prop :=
  range_keys : ∀ (A B : Type) loop (m : gmap string A) (m' : gmap string B),
    dom m = dom m' → (range loop m).*1 = (range loop m').*1.

Lemma range_Forall2 `{KeyOrder} {A B} (R : A → B → Prop) loop (m : gmap string A) (m' : gmap string B) :
  map_Forall2 (fun _ => R) m m' →
  Forall2 (fun kv kv' => kv.1 = kv'.1 ∧ R kv.2 kv'.2) (range loop m) (range loop m').
Proof.
  intros Hm. pose proof (range_keys A B loop m m' (map_Forall2_dom_L _ _ _ Hm)) as Hk.
  assert (∀ kv, kv ∈ range loop m → m !! kv.1 = Some kv.2) as Hl by (by intros [k v] ?%elem_of_range).
  assert (∀ kv, kv ∈ range loop m' → m' !! kv.1 = Some kv.2) as Hl' by (by intros [k v] ?%elem_of_range).
  revert Hk Hl Hl'. generalize (range loop m) as l, (range loop m') as l'.
  induction l as [|[k v] l IH]; intros [|[k' v'] l']; cbn; [constructor|done..|].
  intros [= <- Hk] Hl Hl'. constructor; [|by apply IH; [done|intros kv ?; (apply Hl || apply Hl'); right..]].
  split; [done|]. specialize (Hm k). pose proof (Hl (k, v) ltac:(left)) as H1. pose proof (Hl' (k, v') ltac:(left)) as H2.
  cbn in H1, H2. rewrite H1, H2 in Hm. by inversion Hm.
Qed.

(** ** What a request owns *)

(** The maps of a request, the slices of their entries before and after the
    replication filter, the map a merge looks groups up in, the slices of
    the response, and the map of the cache, which belongs to the sync client. *)
Inductive slot :=
| SGroups | STileMap | SDetails | SScratch | SOrdered | SOut | SCache
| SLinks (kept : bool) (k : string) | STiles (kept : bool) (k : string) | SShown (k : string).

#[export] Instance local_view_link x : Local (view_link x).
Proof. apply local_bind; apply _. Qed.
#[export] Instance local_view_link_group x : Local (view_link_group x).
Proof. apply local_bind; apply _. Qed.
#[export] Instance local_view_group x : Local (view_group x).
Proof. repeat (apply local_bind; [apply _|intros]). apply _. Qed.
#[export] Instance local_view_response x : Local (view_response x).
Proof. repeat (apply local_bind; [apply _|intros]). apply _. Qed.

(** The links of every group: the slice is the request's, the links in it may
    refer to shared memory. *)
Definition groups_in (kept : bool) (w : world wcell slot) (q : request) (st : dash) : Prop :=
  ∃ m, holds w SGroups (q_groups q) m ∧
       ∀ k, ∃ xs, own w (SLinks kept k) (slice_entry m k) xs ∧ Forall2 (shared view_link w) xs (links_at st k).

Definition tiles_in (kept : bool) (w : world wcell slot) (q : request) (st : dash) : Prop :=
  ∃ m, holds w STileMap (q_tiles q) m ∧ ∀ k, own w (STiles kept k) (slice_entry m k) (tiles_at st k).

Definition details_in (w : world wcell slot) (q : request) (st : dash) : Prop :=
  ∃ m, holds w SDetails (q_details q) m ∧ map_Forall2 (fun _ => shared view_link_group w) m (d_details st).

Definition not_cache (s : slot) : Prop := s ≠ SCache.

(** The map of the cache belongs to the sync client, the responses in it are
    shared. *)
Definition cached (w : world wcell slot) (cache : loc) (remote : gmap string DashboardResponse) : Prop :=
  ∃ m, holds w SCache cache m ∧ map_Forall2 (fun _ => shared view_response w) m remote.

Definition dash_in (kept : bool) (w : world wcell slot) (q : request) (st : dash) : Prop :=
  groups_in kept w q st ∧ tiles_in kept w q st ∧ details_in w q st.

(** What the steps of a merge write. *)
Definition linking (s : slot) : Prop := match s with SGroups | SLinks false _ => True | _ => False end.
Definition adding (s : slot) : Prop := linking s ∨ s = SDetails.
Definition merging (s : slot) : Prop := adding s ∨ s = SScratch.

Section request.
Context `{Unicode, MapRange, StableSort, Growth}.
Implicit Types (w : world wcell slot) (q : request) (st : dash).

Lemma Forall2_shared {T A} (rd : T → view wcell A) `{!∀ x, Local (rd x)} S w w' xs l :
  evolve S w w' → Forall2 (shared rd w) xs l → Forall2 (shared rd w') xs l.
Proof. intros Hev HF. eapply Forall2_impl; [exact HF|]. intros. by eapply shared_evolve. Qed.

Lemma map_Forall2_shared {T A} (rd : T → view wcell A) `{!∀ x, Local (rd x)} S w w' m (m' : gmap string A) :
  evolve S w w' → map_Forall2 (fun _ => shared rd w) m m' → map_Forall2 (fun _ => shared rd w') m m'.
Proof. intros Hev Hm k. specialize (Hm k). destruct Hm; constructor. by eapply shared_evolve. Qed.

Lemma groups_in_evolve S kept w w' q st :
  evolve S w w' → ¬ S SGroups → (∀ k, ¬ S (SLinks kept k)) → groups_in kept w q st → groups_in kept w' q st.
Proof.
  intros Hev HG HL (m & Hm & Hl). exists m. split; [by eapply holds_evolve|]. intros k. destruct (Hl k) as (xs & Ho & Hs).
  exists xs. split; [eapply own_evolve; [exact Hev|apply HL|done]|exact (Forall2_shared _ _ _ _ _ _ Hev Hs)].
Qed.

Lemma tiles_in_evolve S kept w w' q st :
  evolve S w w' → ¬ S STileMap → (∀ k, ¬ S (STiles kept k)) → tiles_in kept w q st → tiles_in kept w' q st.
Proof.
  intros Hev HM HT (m & Hm & Hl). exists m. split; [by eapply holds_evolve|]. intros k. eapply own_evolve; [exact Hev|apply HT|apply Hl].
Qed.

Lemma details_in_evolve S w w' q st : evolve S w w' → ¬ S SDetails → details_in w q st → details_in w' q st.
Proof.
  intros Hev HD (m & Hm & Hl). exists m. split; [by eapply holds_evolve|exact (map_Forall2_shared _ _ _ _ _ _ Hev Hl)].
Qed.

Lemma append_link_runs w q st g x link : labelled w → groups_in false w q st → shared view_link w x link →
  runs linking (append_link q g x) w (fun _ w' => groups_in false w' q (with_groups (append_at g link) st)).
Proof.
  intros Hw (m & Hm & Hl) Hx. destruct (Hl g) as (xs & Ho & Hs). unfold append_link.
  eapply runs_read; [by eapply load_holds|].
  eapply runs_call; [by apply append_own|by intros ? <-|]. intros s w1 Hev Ho1.
  assert (holds w1 SGroups (q_groups q) m) as Hm1 by (by eapply holds_evolve; [exact Hev|..]; [discriminate|]).
  eapply runs_read; [by eapply load_holds|].
  destruct (store_holds _ _ _ _ (<[g := s]> m) Hm1) as ([] & w2 & Hst & Hev2 & Hm2).
  exists tt, w2. split; [done|]. split; [eapply evolve_mono; [|exact Hev2]; by intros ? <-|].
  assert (evolve linking w w2) as Hall by (etrans; (eapply evolve_mono; [|done]); by intros ? <-).
  exists (<[g := s]> m). split; [done|]. intros k. rewrite links_at_append. unfold slice_entry. rewrite lookup_insert.
  case_decide as Hgk; subst.
  - exists (xs ++ [x]). rewrite bool_decide_true by done. split; [eapply own_evolve; [exact Hev2|done|exact Ho1]|].
    apply Forall2_app; [exact (Forall2_shared _ _ _ _ _ _ Hall Hs)|].
    constructor; [exact (shared_evolve _ _ _ _ _ _ Hall Hx)|constructor].
  - rewrite bool_decide_false, app_nil_r by done. destruct (Hl k) as (ys & Ho2 & Hs2). exists ys.
    split; [|exact (Forall2_shared _ _ _ _ _ _ Hall Hs2)].
    eapply own_evolve; [exact Hev2|done|]. eapply own_evolve; [exact Hev|congruence|done].
Qed.

Lemma dash_append_link w q st g x link : labelled w → dash_in false w q st → shared view_link w x link →
  runs adding (append_link q g x) w (fun _ w' => dash_in false w' q (with_groups (append_at g link) st)).
Proof.
  intros Hw (HG & HT & HD) Hx. eapply runs_mono; [by eapply append_link_runs|by left|]. intros [] w' Hev HG'.
  split_and!; [done| |].
  - by eapply tiles_in_evolve; [exact Hev|..|exact HT]; [intros []|intros ? []].
  - by eapply details_in_evolve; [exact Hev|..|exact HD]; intros [].
Qed.

Lemma ensure_detail_runs w q st g x detail : dash_in false w q st → shared view_link_group w x detail →
  runs adding (ensure_detail q g x) w (fun _ w' => dash_in false w' q (default_detail g detail st)).
Proof.
  intros (HG & HT & m & Hm & Hd) Hx. unfold ensure_detail, default_detail. eapply runs_read; [by eapply load_holds|].
  pose proof (Hd g) as Hg. destruct (m !! g) as [y|] eqn:Ey, (d_details st !! g) as [d|] eqn:Ed; inversion Hg; subst.
  - apply runs_ret. split_and!; [done..|]. exists m. split; [done|]. cbn. by rewrite Ed.
  - eapply runs_mono; [by eapply store_holds|intros ? <-; by right|]. intros [] w' Hev Hm'. split_and!.
    + by eapply groups_in_evolve; [exact Hev|..|exact HG].
    + by eapply tiles_in_evolve; [exact Hev|..|exact HT].
    + exists (<[g := x]> m). split; [done|]. cbn. rewrite Ed.
      apply map_Forall2_insert_2; [exact (shared_evolve _ _ _ _ _ _ Hev Hx)|exact (map_Forall2_shared _ _ _ _ _ _ Hev Hd)].
Qed.

(** *** Copies of shared values *)
Lemma shared_link w x l : shared view_link w x l ↔
  ∃ Groups, shared (fun x => or_empty (view_slice view_flat (ml_Groups x))) w x Groups ∧
  l = {| l_Name := ml_Name x; l_LinkGroup := ml_LinkGroup x; l_URL := ml_URL x; l_Target := ml_Target x;
         l_Icon := ml_Icon x; l_Source := ml_Source x; l_Metadata := ml_Metadata x; l_Groups := Groups;
         l_Replicate := ml_Replicate x |}.
Proof.
  unfold view_link. split.
  - intros (a & Ha & ->%shared_ret)%shared_bind. by exists a.
  - intros (a & Ha & ->). apply shared_bind. exists a. split; [done|]. by apply shared_ret.
Qed.

Lemma shared_link_group w x g : shared view_link_group w x g ↔
  ∃ Properties, shared (fun x => view_map (mg_Properties x)) w x Properties ∧
  g = {| g_Name := mg_Name x; g_Priority := mg_Priority x; g_PriorityClass := mg_PriorityClass x;
         g_DisplayName := mg_DisplayName x; g_Source := mg_Source x; g_Properties := default ∅ Properties;
         g_Replicate := mg_Replicate x |}.
Proof.
  unfold view_link_group. split.
  - intros (a & Ha & ->%shared_ret)%shared_bind. by exists a.
  - intros (a & Ha & ->). apply shared_bind. exists a. split; [done|]. by apply shared_ret.
Qed.

Lemma shared_group w x g : shared view_group w x g ↔
  ∃ Links Tiles, shared (fun x => or_empty (view_slice view_link (mdg_Links x))) w x Links ∧
  shared (fun x => or_empty (view_slice view_flat (mdg_Tiles x))) w x Tiles ∧
  g = {| dg_Name := mdg_Name x; dg_LinkGroup := mdg_LinkGroup x; dg_Links := Links; dg_Tiles := Tiles;
         dg_Source := mdg_Source x |}.
Proof.
  unfold view_group. split.
  - intros (a & Ha & (b & Hb & ->%shared_ret)%shared_bind)%shared_bind. by exists a, b.
  - intros (a & b & Ha & Hb & ->). apply shared_bind. exists a. split; [done|]. apply shared_bind. exists b.
    split; [done|]. by apply shared_ret.
Qed.

Lemma shared_response w x r : shared view_response w x r ↔
  ∃ LinkGroups Groups, shared (fun x => or_empty (view_slice view_link_group (mr_LinkGroups x))) w x LinkGroups ∧
  shared (fun x => or_empty (view_slice view_group (mr_Groups x))) w x Groups ∧
  r = {| r_LinkGroups := LinkGroups; r_Groups := Groups |}.
Proof.
  unfold view_response. split.
  - intros (a & Ha & (b & Hb & ->%shared_ret)%shared_bind)%shared_bind. by exists a, b.
  - intros (a & b & Ha & Hb & ->). apply shared_bind. exists a. split; [done|]. apply shared_bind. exists b.
    split; [done|]. by apply shared_ret.
Qed.

Lemma shared_link_from w x l source : shared view_link w x l →
  shared view_link w (link_from source x) (with_source source l).
Proof. rewrite !shared_link. intros (G & HG & ->). by exists G. Qed.

Lemma shared_remote_detail w g source o o' : option_Forall2 (shared view_link_group w) o o' →
  shared view_link_group w (remote_detail g source o) (remote_group g source o').
Proof.
  destruct 1 as [x d Hx|]; cbn [remote_detail remote_group].
  - apply shared_link_group in Hx as (P & HP & ->). apply shared_link_group. by exists P.
  - apply shared_link_group. exists None. split; [|done]. exists []. split; [done|]. by intros p ?%not_elem_of_nil.
Qed.

(** *** Merging *)
Lemma merge_group_runs w q st source scratch m m' x group :
  labelled w → dash_in false w q st → holds w SScratch scratch m → map_Forall2 (fun _ => shared view_link_group w) m m' →
  shared view_group w x group →
  runs adding (merge_group q source scratch x) w (fun _ w' => dash_in false w' q (remote_group_step source m' st group)).
Proof.
  intros Hw Hst Hm Hd Hx. apply shared_group in Hx as (ls & ts & (xs & Hxs & Hr)%shared_slice & _ & ->).
  unfold merge_group, remote_group_step, remote_group_name. cbn [dg_LinkGroup dg_Name dg_Links].
  set (g := or_else (mdg_LinkGroup x) (mdg_Name x)). eapply runs_read; [by eapply load_holds|].
  eapply runs_bind; [eapply ensure_detail_runs; [done|by apply shared_remote_detail]|]. intros [] w1 Hev1 Hst1.
  set (st1 := default_detail _ _ st) in *.
  eapply runs_mono; [apply (fold_slice_related _ view_link _ xs ls _
    (fun before _ w => dash_in false w q (append_links g (with_source source <$> before) st1)))|done|done].
  - intros w' Hev. apply (Hr adding). by etrans.
  - exact (Forall2_shared _ _ _ _ _ _ Hev1 Hxs).
  - done.
  - intros before y l after [] w2 _ Hy Hev2 HI. eapply runs_mono; [|done|].
    + eapply dash_append_link; [|exact HI|by apply shared_link_from]. by do 2 (eapply evolve_labelled; [done|]).
    + cbv beta. intros [] w3 _. rewrite fmap_app. unfold append_links. rewrite foldl_app. done.
Qed.

Lemma dash_in_evolve S kept w w' q st : evolve S w w' →
  (∀ s, S s → s = SScratch ∨ s = SCache ∨ s = SOrdered ∨ s = SOut ∨ ∃ k, s = SShown k) → dash_in kept w q st → dash_in kept w' q st.
Proof.
  intros Hev HS (HG & HT & HD). split_and!.
  - eapply groups_in_evolve; [exact Hev|..|exact HG]; [intros Hs|intros k Hs]; apply HS in Hs; naive_solver.
  - eapply tiles_in_evolve; [exact Hev|..|exact HT]; [intros Hs|intros k Hs]; apply HS in Hs; naive_solver.
  - eapply details_in_evolve; [exact Hev|..|exact HD]. intros Hs; apply HS in Hs; naive_solver.
Qed.

(** The groups of a peer by name. *)
Definition by_name (lgs : list DashboardLinkGroup) : gmap string DashboardLinkGroup :=
  foldl (fun m lg => <[g_Name lg := lg]> m) ∅ lgs.

Lemma remote_groups_runs w s lgs scratch : holds w SScratch scratch (∅ : gmap string link_group_mem) →
  shared (fun s => or_empty (view_slice view_link_group s)) w s lgs →
  runs (eq SScratch) (fold_slice (T := link_group_mem) s (fun _ lg =>
    m ← load (T := gmap string link_group_mem) scratch; store scratch (<[mg_Name lg := lg]> m)) tt) w
    (fun _ w' => ∃ m : gmap string link_group_mem, holds w' SScratch scratch m ∧
      map_Forall2 (fun _ => shared view_link_group w') m (by_name lgs)).
Proof.
  intros Hm (xs & Hxs & Hr)%shared_slice. apply (fold_slice_related _ view_link_group _ xs lgs _
    (fun before _ w => ∃ m : gmap string link_group_mem, holds w SScratch scratch m ∧
      map_Forall2 (fun _ => shared view_link_group w) m (by_name before))).
  - intros w'. apply Hr.
  - done.
  - exists ∅. split; [done|]. apply map_Forall2_empty.
  - intros before x lg after [] w1 _ Hx Hev (m & Hm1 & HF). eapply runs_read; [by eapply load_holds|].
    eapply runs_mono; [by eapply store_holds|done|]. intros [] w2 Hev2 Hm2. eexists. split; [done|].
    unfold by_name. rewrite foldl_app. cbn [foldl]. assert (mg_Name x = g_Name lg) as -> by (apply shared_link_group in Hx as (? & _ & ->); done).
    apply map_Forall2_insert_2; [exact (shared_evolve _ _ _ _ _ _ Hev2 Hx)|exact (map_Forall2_shared _ _ _ _ _ _ Hev2 HF)].
Qed.

Lemma merge_peer_runs w q st url x resp : labelled w → dash_in false w q st → shared view_response w x resp →
  runs merging (merge_peer q url x) w (fun _ w' => dash_in false w' q (peer_step st (url, resp))).
Proof.
  intros Hw Hst Hx. apply shared_response in Hx as (lgs & gs & Hlgs & Hgs & ->). unfold merge_peer, peer_step. cbn [fst snd r_Groups].
  eapply runs_call; [by apply (new_holds w SScratch)|intros ? <-; by right|]. intros scratch w1 Hev1 Hscratch.
  eapply runs_call; [apply remote_groups_runs; [done|exact (shared_evolve (fun s => or_empty (view_slice _ s)) _ _ _ _ _ Hev1 Hlgs)]|intros ? <-; by right|].
  intros [] w2 Hev2 (m & Hm & HF). assert (evolve (eq SScratch) w w2) as Hev by by etrans.
  pose proof (shared_evolve (fun s => or_empty (view_slice _ s)) _ _ _ _ _ Hev Hgs) as (xs & Hxs & Hr)%shared_slice.
  eapply runs_mono; [apply (fold_slice_related adding view_group _ xs gs _ (fun before _ w => 
    holds w SScratch scratch m ∧ map_Forall2 (fun _ => shared view_link_group w) m (by_name lgs) ∧
    dash_in false w q (foldl (remote_group_step ("sync:" +:+ url) (by_name lgs)) st before)))|by left|].
  - intros w'. apply Hr.
  - done.
  - split_and!; [done..|]. eapply dash_in_evolve; [exact Hev| |done]. intros ? <-. by left.
  - intros before y group after [] w3 _ Hy Hev3 (Hm3 & HF3 & HI). eapply runs_mono; [|done|].
    + eapply merge_group_runs; [by do 2 (eapply evolve_labelled; [done|])|exact HI|exact Hm3|exact HF3|exact Hy].
    + cbv beta. intros [] w4 Hev4 HI4. rewrite foldl_app. split_and!; [|exact (map_Forall2_shared _ _ _ _ _ _ Hev4 HF3)|done].
      eapply holds_evolve; [exact Hev4| |done]. by intros [[]|].
  - by intros [] w' _ (_ & _ & ?).
Qed.

(** The snapshot is a map of its own; what it holds is what the cache holds. *)
Lemma GetRemoteData_runs w cache (m : gmap string response_mem) : labelled w → holds w SCache cache m →
  runs (eq SScratch) (GetRemoteData cache) w (fun p w' => holds w' SScratch p m).
Proof.
  intros Hw Hm. unfold GetRemoteData. eapply runs_bind; [by apply (new_holds w SScratch)|]. intros p w1 Hev1 Hp.
  assert (holds w1 SCache cache m) as Hm1 by (eapply holds_evolve; [exact Hev1| |exact Hm]; done).
  eapply runs_read; [eapply load_holds; exact Hm1|].
  eapply runs_bind; [apply (fold_each_runs _ _ _ (fun before _ w =>
    holds w SScratch p (foldl (fun (r : gmap string response_mem) kv => <[kv.1 := kv.2]> r) ∅ before)))|].
  - done.
  - intros before kv after [] w2 _ Hev2 Hp2. eapply runs_read; [by eapply load_holds|]. rewrite foldl_app. by eapply store_holds.
  - cbv beta. intros [] w2 _ Hp2. apply runs_ret. replace (foldl _ _ _) with m in Hp2; [done|]. apply map_eq. intros k.
    pose proof (foldl_insert_lookup id (range [] m) ∅ k (NoDup_fst_range _ _)) as E. unfold id in E.
    rewrite E, list_to_map_range. by destruct (m !! k).
Qed.

Lemma merge_snapshot_runs `{!KeyOrder} w q st p m remote : labelled w → dash_in false w q st →
  holds w SScratch p m → map_Forall2 (fun _ => shared view_response w) m remote →
  runs merging (merge_snapshot q p) w (fun _ w' => dash_in false w' q (Dashboard.mergeRemoteData remote st).2).
Proof.
  intros Hw Hst Hp HF. unfold merge_snapshot. eapply runs_read; [eapply load_holds; exact Hp|].
  cbn [Dashboard.mergeRemoteData Collectors.for_each snd]. pose proof (range_Forall2 _ [2] _ _ HF) as HR.
  apply (fold_each_related _ _ _ _ _ (fun before _ w => dash_in false w q (foldl peer_step st before)) _ _ HR); [done|].
  intros before [url x] [url' resp] after [] w2 _ [Hurl Hx] Hev2 HI. cbn in Hurl, Hx. subst url'. rewrite foldl_app.
  eapply merge_peer_runs; [by eapply evolve_labelled|exact HI|exact (shared_evolve _ _ _ _ _ _ Hev2 Hx)].
Qed.

Lemma mergeRemoteData_runs `{!KeyOrder} w q st cache remote : labelled w → dash_in false w q st → cached w cache remote →
  runs merging (mergeRemoteData q cache) w (fun _ w' => dash_in false w' q (Dashboard.mergeRemoteData remote st).2).
Proof.
  intros Hw Hst (m & Hm & HF). unfold mergeRemoteData.
  eapply runs_call; [apply (GetRemoteData_runs w cache m Hw Hm)|intros ? <-; by right|]. intros p w1 Hev1 Hp.
  eapply merge_snapshot_runs; [by eapply evolve_labelled| |exact Hp|exact (map_Forall2_shared _ _ _ _ _ _ Hev1 HF)].
  eapply dash_in_evolve; [exact Hev1| |done]. intros ? <-. by left.
Qed.

(** *** What the sync endpoint keeps *)
Lemma filter_slice_runs {T A} `{Cell wcell (list T), Zero T} (rd : T → view wcell A) `{!∀ x, Local (rd x)}
    (keep : T → bool) (keep' : A → bool) w k s xs l :
  (∀ w x a, shared rd w x a → keep x = keep' a) → labelled w →
  (∀ w', evolve (eq k) w w' → reads (memory w') s xs) → Forall2 (shared rd w) xs l →
  runs (eq k) (filter_slice keep s) w
    (fun r w' => ∃ ys, own w' k r ys ∧ Forall2 (shared rd w') ys (List.filter keep' l)).
Proof.
  intros Hkeep Hw Hr Hxs. unfold filter_slice. eapply runs_bind; [by apply (make_room_own w k)|].
  intros r w1 Hev1 Hr1. apply (fold_slice_related _ rd _ xs l _ (fun before r w => ∃ ys, own w k r ys ∧
    Forall2 (shared rd w) ys (List.filter keep' before))).
  - intros w' Hev. apply Hr. by etrans.
  - exact (Forall2_shared _ _ _ _ _ _ Hev1 Hxs).
  - exists []. split; [done|constructor].
  - intros before x a after r1 w2 _ Hx Hev2 (ys & Hys & HF). rewrite List.filter_app, (Hkeep _ _ _ Hx). cbn [List.filter].
    destruct (keep' a).
    + eapply runs_mono; [apply append_own; [by do 2 (eapply evolve_labelled; [done|])|done]|done|].
      intros r2 w3 Hev3 Hr2. exists (ys ++ [x]). split; [done|].
      apply Forall2_app; [exact (Forall2_shared _ _ _ _ _ _ Hev3 HF)|]. constructor; [exact (shared_evolve _ _ _ _ _ _ Hev3 Hx)|done].
    + apply runs_ret. exists ys. by rewrite app_nil_r.
Qed.

(** The slices of a map: those named in [done] are filtered. *)
Definition entries_in {T A} `{Cell wcell (list T)} (rd : T → view wcell A) (entry : bool → string → slot)
    (keep : A → bool) (l : string → list A) (done : list string) w (m : gmap string (option slice)) : Prop :=
  ∀ k, ∃ xs, own w (entry (bool_decide (k ∈ done)) k) (slice_entry m k) xs ∧
    Forall2 (shared rd w) xs (if bool_decide (k ∈ done) then List.filter keep (l k) else l k).

Lemma update_each_runs {T A} `{Cell wcell (list T), Zero T} (rd : T → view wcell A) `{!∀ x, Local (rd x)}
    (keep : T → bool) (keep' : A → bool) (root : slot) (entry : bool → string → slot) loop p l w m :
  (∀ w x a, shared rd w x a → keep x = keep' a) →
  (∀ b k, root ≠ entry b k) → (∀ b k b' k', entry b k = entry b' k' → b = b' ∧ k = k') →
  labelled w → holds w root p m → entries_in rd entry keep' l [] w m →
  runs (fun s => s = root ∨ ∃ b k, s = entry b k) (update_each loop (filter_slice keep) p) w
    (fun _ w' => ∃ m', holds w' root p m' ∧
      ∀ k, ∃ xs, own w' (entry true k) (slice_entry m' k) xs ∧ Forall2 (shared rd w') xs (List.filter keep' (l k))).
Proof.
  intros Hkeep Hroot Hentry Hw Hm Hl. unfold update_each. eapply runs_read; [by eapply load_holds|].
  eapply runs_mono; [apply (fold_each_runs (fun s => s = root ∨ ∃ b k, s = entry b k) _ _ (fun before _ w =>
    ∃ m', holds w root p m' ∧ entries_in rd entry keep' l before.*1 w m' ∧
      ∀ k, k ∉ before.*1 → m' !! k = m !! k))|done|].
  - exists m. split; [done|]. by split.
  - intros before [k s] after [] w1 Hb Hev1 (m1 & Hm1 & Hl1 & Hsame). cbn [fst snd].
    pose proof (NoDup_fst_range loop m) as Hnd. rewrite Hb, fmap_app, fmap_cons in Hnd.
    apply NoDup_app in Hnd as (_ & Hnd & _). assert (k ∉ before.*1) as Hk by (intros Hin; apply (Hnd _ Hin); left).
    assert (m !! k = Some s) as Hs by (apply (elem_of_range loop); rewrite Hb; set_solver).
    destruct (Hl1 k) as (xs & Hxs & HF). rewrite bool_decide_false in Hxs, HF by done.
    replace (slice_entry m1 k) with s in Hxs by (unfold slice_entry; by rewrite (Hsame k Hk), Hs).
    eapply runs_call; [eapply (filter_slice_runs rd keep keep' w1 (entry true k) s xs (l k)); [done|by eapply evolve_labelled| |exact HF]|intros ? <-; eauto|].
    { intros w' Hev. eapply own_reads_later; [exact Hxs| |exact Hev]. by intros [[=] _]%Hentry. }
    intros r w2 Hev2 (ys & Hys & HFy).
    assert (holds w2 root p m1) as Hm2 by (eapply holds_evolve; [exact Hev2| |exact Hm1]; intros E; by apply (Hroot true k)).
    eapply runs_read; [by eapply load_holds|].
    eapply runs_mono; [by eapply store_holds|by left|]. intros [] w3 Hev3 Hm3. exists (<[k := r]> m1). split; [exact Hm3|].
    assert (evolve (fun s => s = entry true k ∨ s = root) w1 w3) as Hev13.
    { etrans; (eapply evolve_mono; [|done]); intros ? <-; auto. }
    rewrite fmap_app. cbn [fmap list_fmap fst]. split.
    + intros k'. unfold slice_entry. rewrite lookup_insert. case_decide as Hkk; subst.
      * rewrite bool_decide_true by set_solver. exists ys.
        split; [eapply own_evolve; [exact Hev3|by apply Hroot|done]|exact (Forall2_shared _ _ _ _ _ _ Hev3 HFy)].
      * rewrite (bool_decide_ext (k' ∈ before.*1 ++ [k]) (k' ∈ before.*1)) by set_solver.
        destruct (Hl1 k') as (zs & Hzs & HFz). exists zs. split; [|exact (Forall2_shared _ _ _ _ _ _ Hev13 HFz)].
        eapply own_evolve; [exact Hev13| |exact Hzs]. intros [[_ ?]%Hentry|E]; [done|by eapply Hroot].
    + intros k' Hk'. rewrite lookup_insert_ne by set_solver. apply Hsame. set_solver.
  - cbv beta. intros [] w' _ (m' & Hm' & Hl' & Hsame). exists m'. split; [done|]. intros k.
    destruct (Hl' k) as (xs & Hxs & HF). case_bool_decide as Hk; [by exists xs|].
    assert (m' !! k = None) as Hnone.
    { rewrite Hsame by done. apply not_elem_of_dom. intros [s Hs]%elem_of_dom. apply Hk.
      apply list_elem_of_fmap. exists (k, s). by rewrite elem_of_range. }
    unfold slice_entry in *. rewrite Hnone in Hxs |- *. cbn in Hxs. subst xs. apply Forall2_nil_inv_l in HF as ->. by exists [].
Qed.

Definition keeping (s : slot) : Prop := match s with SGroups | STileMap | SLinks _ _ | STiles _ _ => True | _ => False end.

Lemma shared_flat {T} w (xs l : list T) : Forall2 (shared view_flat w) xs l ↔ xs = l.
Proof.
  split.
  - induction 1 as [|x a xs l (R & [-> _]%view_ret_Some & _) _ ->]; done.
  - intros <-. induction xs; constructor; [|done]. exists []. split; [done|]. by intros p ?%not_elem_of_nil.
Qed.

Lemma keep_replicated_runs w q st : labelled w → dash_in false w q st →
  runs keeping (keep_replicated q) w (fun _ w' => dash_in true w' q (Dashboard.keep_replicated st)).
Proof.
  intros Hw ((gm & Hgm & Hgs) & (tm & Htm & Hts) & HD). unfold keep_replicated.
  eapply runs_call; [eapply (update_each_runs view_link ml_Replicate l_Replicate SGroups SLinks [5] _ (links_at st));
    [by intros ? ? ? (? & _ & ->)%shared_link|done|by intros ? ? ? ? [=]|done|exact Hgm|exact Hgs]|by intros ? [->|(? & ? & ->)]|].
  intros [] w1 Hev1 (gm' & Hgm' & Hgs').
  eapply runs_mono; [eapply (update_each_runs view_flat t_Replicate t_Replicate STileMap STiles [6] _ (tiles_at st) w1 tm)|by intros ? [->|(? & ? & ->)]|].
  - by intros ? ? ? (? & [-> _]%view_ret_Some & _).
  - done.
  - by intros ? ? ? ? [=].
  - by eapply evolve_labelled.
  - eapply holds_evolve; [exact Hev1| |exact Htm]. by intros [|(? & ? & ?)].
  - intros k. exists (tiles_at st k). rewrite bool_decide_false by set_solver. split; [|by apply shared_flat].
    eapply own_evolve; [exact Hev1| |apply Hts]. by intros [|(? & ? & ?)].
  - intros [] w2 Hev2 (tm' & Htm' & Hts'). split_and!.
    + exists gm'. split; [eapply holds_evolve; [exact Hev2| |exact Hgm']; by intros [|(? & ? & ?)]|].
      intros k. destruct (Hgs' k) as (xs & Hxs & HF). exists xs. rewrite keep_replicated_links.
      split; [|exact (Forall2_shared _ _ _ _ _ _ Hev2 HF)].
      eapply own_evolve; [exact Hev2| |exact Hxs]. by intros [|(? & ? & ?)].
    + exists tm'. split; [done|]. intros k. rewrite keep_replicated_tiles.
      destruct (Hts' k) as (xs & Hxs & ->%shared_flat). exact Hxs.
    + eapply details_in_evolve; [exact Hev2| |eapply details_in_evolve; [exact Hev1| |exact HD]]; by intros [|(? & ? & ?)].
Qed.

(** *** Links a reader may see *)
Lemma linkAllowed_reads w x l us : shared view_link w x l →
  linkAllowedForGroups us x (memory w) = Some (Links.linkAllowedForGroups l us, memory w).
Proof.
  intros (gs & (xs & Hxs & Hr)%shared_slice & ->)%shared_link. specialize (Hr (eq SOut) w (reflexivity w)).
  assert (xs = gs) as ->.
  { clear Hr. induction Hxs as [|y g xs gs (R & [-> _]%view_ret_Some & _) _ ->]; done. }
  unfold linkAllowedForGroups, Links.linkAllowedForGroups. cbn [l_Groups]. rewrite (reads_len _ _ _ Hr).
  destruct gs as [|g gs]; [done|]. rewrite bool_decide_false, (bool_decide_false (g :: gs = [])) by done. cbn [orb].
  case_bool_decide; [done|]. by rewrite (bind_step _ _ _ _ _ (reads_elements _ _ _ Hr)).
Qed.

Lemma filter_runs w k s xs l us : labelled w → (∀ w', evolve (eq (SShown k)) w w' → reads (memory w') s xs) →
  Forall2 (shared view_link w) xs l →
  runs (eq (SShown k)) (filterLinksForGroups s us) w
    (fun r w' => ∃ ys, own w' (SShown k) r ys ∧ Forall2 (shared view_link w') ys (Links.filterLinksForGroups l us)).
Proof.
  intros Hw Hr Hxs. unfold filterLinksForGroups. eapply runs_bind; [by apply (make_room_own w (SShown k))|].
  intros r w1 Hev1 Hr1. apply (fold_slice_related _ view_link _ xs l _ (fun before r w => ∃ ys, own w (SShown k) r ys ∧
    Forall2 (shared view_link w) ys (Links.filterLinksForGroups before us))).
  - intros w' Hev. apply Hr. by etrans.
  - exact (Forall2_shared _ _ _ _ _ _ Hev1 Hxs).
  - exists []. split; [done|constructor].
  - intros before x a after r1 w2 _ Hx Hev2 (ys & Hys & HF). eapply runs_read; [by apply linkAllowed_reads|].
    unfold Links.filterLinksForGroups. rewrite List.filter_app. cbn [List.filter].
    destruct (Links.linkAllowedForGroups a (user_group_set us)).
    + eapply runs_mono; [apply append_own; [by do 2 (eapply evolve_labelled; [done|])|done]|done|].
      intros r2 w3 Hev3 Hr2. exists (ys ++ [x]). split; [done|].
      apply Forall2_app; [exact (Forall2_shared _ _ _ _ _ _ Hev3 HF)|]. constructor; [exact (shared_evolve _ _ _ _ _ _ Hev3 Hx)|done].
    + apply runs_ret. exists ys. by rewrite app_nil_r.
Qed.

(** *** The order of groups and links *)
Definition flat_link_group (x : link_group_mem) : DashboardLinkGroup :=
  {| g_Name := mg_Name x; g_Priority := mg_Priority x; g_PriorityClass := mg_PriorityClass x;
     g_DisplayName := mg_DisplayName x; g_Source := mg_Source x; g_Properties := ∅; g_Replicate := mg_Replicate x |}.

Definition group_less (a b : link_group_mem) : bool := (compareLinkGroups a b <? 0)%Z.

Lemma compare_same w x y g h : shared view_link_group w x g → shared view_link_group w y h →
  group_less x y = lessLinkGroups g h.
Proof. by intros (P & _ & ->)%shared_link_group (Q & _ & ->)%shared_link_group. Qed.

#[export] Instance group_less_weak : WeakOrder (fun x => priority_ok (flat_link_group x)) group_less :=
  weak_order_key priority_ok flat_link_group lessLinkGroups lessLinkGroups_weak.

#[export] Instance name_less_weak : WeakOrder (fun _ => True) name_less :=
  weak_order_key (fun _ => True) (fun x => ToLower (ml_Name x)) str_lt weak_order_str.

Lemma sort_link_groups_shared w xs gs : Forall2 (shared view_link_group w) xs gs → Forall priority_ok gs →
  Forall2 (shared view_link_group w) (SliceStable group_less xs) (SliceStable lessLinkGroups gs).
Proof.
  intros HF Hok.
  apply (SliceStable_Forall2 _ (fun x => priority_ok (flat_link_group x)) priority_ok group_less lessLinkGroups); [done| |done|].
  - clear -HF Hok. induction HF as [|x g xs gs (P & _ & ->)%shared_link_group _ IH]; [done|].
    apply Forall_cons in Hok as [? ?]. constructor; auto.
  - intros. by eapply compare_same.
Qed.

Lemma sort_links_shared w xs ls : Forall2 (shared view_link w) xs ls →
  Forall2 (shared view_link w) (SliceStable name_less xs) (SliceStable link_name_less ls).
Proof.
  intros HF. pose proof link_name_less_weak.
  apply (SliceStable_Forall2 _ (fun _ => True) (fun _ => True) name_less link_name_less); [done|by apply Forall_true..|].
  by intros x l y k (? & _ & ->)%shared_link (? & _ & ->)%shared_link.
Qed.

Lemma sortLinkGroups_runs `{!KeyOrder} w q st : labelled w → details_in w q st →
  (∀ k d, d_details st !! k = Some d → priority_ok d) →
  runs (eq SOrdered) (sortLinkGroups (q_details q)) w (fun s w' => ∃ xs, own w' SOrdered s xs ∧
    Forall2 (shared view_link_group w') xs (Links.sortLinkGroups [7] (d_details st))).
Proof.
  intros Hw (m & Hm & HF) Hok. unfold sortLinkGroups. eapply runs_read; [by eapply load_holds|].
  eapply runs_bind; [by apply (make_room_own w SOrdered)|]. intros s w1 Hev1 Hs.
  pose proof (range_Forall2 _ [7] _ _ (map_Forall2_shared _ _ _ _ _ _ Hev1 HF)) as HR.
  eapply runs_bind; [apply (fold_each_related _ (shared view_link_group w1) _ (range [7] (d_details st)).*2 _
    (fun before s w => ∃ xs, own w SOrdered s xs ∧ Forall2 (shared view_link_group w) xs before))|].
  - apply Forall2_fmap. eapply Forall2_impl; [exact HR|]. by intros ? ? [_ ?].
  - by exists [].
  - intros before x g after s1 w2 _ Hx Hev2 (xs & Hs1 & Hxs).
    eapply runs_mono; [apply append_own; [by do 2 (eapply evolve_labelled; [done|])|done]|done|].
    intros s2 w3 Hev3 Hs2. exists (xs ++ [x]). split; [done|].
    apply Forall2_app; [exact (Forall2_shared _ _ _ _ _ _ Hev3 Hxs)|].
    constructor; [|done]. apply (shared_evolve _ (eq SOrdered) w1); [by etrans|done].
  - cbv beta. intros s2 w2 Hev2 (xs & Hs2 & Hxs). eapply runs_bind; [by apply sort_own|].
    intros [] w3 Hev3 Hs3. apply runs_ret. exists (SliceStable group_less xs). split; [done|].
    apply sort_link_groups_shared; [exact (Forall2_shared _ _ _ _ _ _ Hev3 Hxs)|].
    apply Forall_forall. intros g ([k d] & -> & Hk%elem_of_range)%list_elem_of_fmap. by eapply Hok.
Qed.

(** *** The groups of the response *)
Definition rendering (s : slot) : Prop := match s with SOut | SShown _ | STiles _ _ => True | _ => False end.

(** A group of the response: its links and its tiles are the request's. *)
Definition rendered (kept : bool) w (x : group_mem) (g : DashboardGroup) : Prop :=
  mdg_Name x = dg_Name g ∧ mdg_LinkGroup x = dg_LinkGroup g ∧ mdg_Source x = dg_Source g ∧
  own w (STiles kept (dg_LinkGroup g)) (mdg_Tiles x) (dg_Tiles g) ∧
  ∃ ys, own w (SShown (dg_LinkGroup g)) (mdg_Links x) ys ∧ Forall2 (shared view_link w) ys (dg_Links g).

(** The tiles of the groups that are not in the response yet. *)
Definition tiles_left (kept : bool) w q st (shown : list string) : Prop :=
  ∃ m, holds w STileMap (q_tiles q) m ∧ ∀ k, k ∉ shown → own w (STiles kept k) (slice_entry m k) (tiles_at st k).

Lemma rendered_evolve S kept w w' x g : evolve S w w' → ¬ S (STiles kept (dg_LinkGroup g)) → ¬ S (SShown (dg_LinkGroup g)) →
  rendered kept w x g → rendered kept w' x g.
Proof.
  intros Hev HT HS (? & ? & ? & Ht & ys & Hys & HF). split_and!; [done..|by eapply own_evolve|].
  exists ys. split; [by eapply own_evolve|exact (Forall2_shared _ _ _ _ _ _ Hev HF)].
Qed.

Lemma tiles_left_evolve S kept w w' q st shown : evolve S w w' → ¬ S STileMap → (∀ k, k ∉ shown → ¬ S (STiles kept k)) →
  tiles_left kept w q st shown → tiles_left kept w' q st shown.
Proof.
  intros Hev HM HT (m & Hm & Hl). exists m. split; [by eapply holds_evolve|].
  intros k Hk. eapply own_evolve; [exact Hev|by apply HT|by apply Hl].
Qed.

Lemma rendered_all_evolve S kept w w' outs rs : evolve S w w' →
  (∀ r, r ∈ rs → ¬ S (STiles kept (dg_LinkGroup r)) ∧ ¬ S (SShown (dg_LinkGroup r))) →
  Forall2 (rendered kept w) outs rs → Forall2 (rendered kept w') outs rs.
Proof.
  intros Hev HS HF. induction HF as [|x g outs rs Hx _ IH]; [done|]. constructor.
  - destruct (HS g ltac:(left)). by eapply rendered_evolve.
  - apply IH. intros r Hr. apply HS. by right.
Qed.

Definition rendering_at (kept : bool) (k : string) (s : slot) : Prop := s = SOut ∨ s = SShown k ∨ s = STiles kept k.

Lemma render_group_runs kept lo w q st us shown out outs rs x g :
  labelled w → groups_in kept w q st → tiles_left kept w q st shown → g_Name g ∉ shown → shared view_link_group w x g →
  own w SOut out outs → Forall2 (rendered kept w) outs rs → (∀ r, r ∈ rs → dg_LinkGroup r ∈ shown) →
  runs (rendering_at kept (g_Name g)) (render_group q us lo out x) w (fun out' w' => ∃ outs', own w' SOut out' outs' ∧
    Forall2 (rendered kept w') outs' (rs ++ omap (Dashboard.render_group st us lo) [g])).
Proof.
  intros Hw (gm & Hgm & Hlinks) (tm & Htm & Htiles) Hg Hx Hout HF Hrs. pose proof Hx as (P & _ & Eg)%shared_link_group.
  assert (mg_Name x = g_Name g ∧ mg_DisplayName x = g_DisplayName g ∧ mg_Source x = g_Source g ∧
    mg_Replicate x = g_Replicate g) as (En & Ed & Es & Er) by by rewrite Eg.
  set (k := g_Name g) in *. destruct (Hlinks k) as (xs & Hxs & HFx). specialize (Htiles k Hg).
  assert (∀ r, r ∈ rs → dg_LinkGroup r ≠ k) as Hne by (intros r Hr Hrk; apply Hg; rewrite <-Hrk; by apply Hrs).
  unfold render_group. rewrite En. eapply runs_read; [eapply load_holds; exact Hgm|].
  eapply runs_call; [apply (filter_runs w k _ xs (links_at st k) us); [done| |done]|intros ? <-; right; by left|].
  { intros w' Hev. eapply own_reads_later; [exact Hxs| |exact Hev]. done. }
  intros links w1 Hev1 (ys & Hys & HFy). set (ls := Links.filterLinksForGroups (links_at st k) us) in *.
  assert (holds w1 STileMap (q_tiles q) tm) as Htm1 by (eapply holds_evolve; [exact Hev1| |exact Htm]; done).
  eapply runs_read; [eapply load_holds; exact Htm1|].
  assert (own w1 (STiles kept k) (slice_entry tm k) (tiles_at st k)) as Ht1 by (eapply own_evolve; [exact Hev1|done|done]).
  rewrite (own_len _ _ _ _ Hys), (own_len _ _ _ _ Ht1), (Forall2_length _ _ _ HFy).
  assert (Forall2 (rendered kept w1) outs rs) as HF1.
  { eapply rendered_all_evolve; [exact Hev1| |done]. intros r Hr%Hne. split; congruence. }
  assert (own w1 SOut out outs) as Hout1 by (eapply own_evolve; [exact Hev1|done|done]).
  rewrite (omap_cons _ g []). unfold Dashboard.render_group. fold k. fold (links_at st k). fold ls. fold (tiles_at st k).
  rewrite <-!(bool_decide_ext _ _ (length_zero_iff_nil _)). rewrite Er.
  destruct (bool_decide (length ls = 0) && bool_decide (length (tiles_at st k) = 0) && (negb lo || negb (g_Replicate g))).
  - apply runs_ret. exists outs. by rewrite app_nil_r.
  - eapply runs_call; [by apply sort_own|intros ? <-; right; by left|]. intros [] w2 Hev2 Hys2.
    assert (own w2 (STiles kept k) (slice_entry tm k) (tiles_at st k)) as Ht2 by (by eapply own_evolve).
    eapply runs_call; [by apply sort_own|intros ? <-; right; by right|]. intros [] w3 Hev3 Ht3.
    assert (evolve (rendering_at kept k) w1 w3) as Hev13.
    { etrans; eapply evolve_mono; [|exact Hev2| |exact Hev3]; intros ? <-; right; [by left|by right]. }
    eapply runs_mono; [apply append_own|intros ? <-; by left|].
    + do 2 (eapply evolve_labelled; [done|]). done.
    + eapply own_evolve; [exact Hev3|done|]. eapply own_evolve; [exact Hev2|done|exact Hout1].
    + intros out' w4 Hev4 Hout4. eexists. split; [exact Hout4|]. assert (evolve (rendering_at kept k) w1 w4) as Hev14.
      { etrans; [exact Hev13|]. eapply evolve_mono; [|exact Hev4]. intros ? <-. by left. }
      apply Forall2_app; [|constructor; [|constructor]].
      * eapply rendered_all_evolve; [exact Hev14| |done]. unfold rendering_at. intros r Hr%Hne. split; naive_solver.
      * split_and!; [done..|eapply own_evolve; [exact Hev4|done|exact Ht3]|]. eexists. split.
        -- eapply own_evolve; [exact Hev4|done|]. eapply own_evolve; [exact Hev3|done|exact Hys2].
        -- apply sort_links_shared. exact (Forall2_shared _ _ _ _ _ _ Hev14 HFy).
Qed.

Lemma tiles_left_shown kept w q st shown k w' : evolve (rendering_at kept k) w w' →
  tiles_left kept w q st shown → tiles_left kept w' q st (shown ++ [k]).
Proof.
  intros Hev (m & Hm & Hl). exists m. split; [eapply holds_evolve; [exact Hev| |done]; by intros [|[]]|].
  intros k' Hk'. eapply own_evolve; [exact Hev| |apply Hl; set_solver].
  intros [|[|[= ->]]]; [done..|]. apply Hk'. set_solver.
Qed.

(** *** The response *)
Lemma seen_flat {T} w (l : list T) : Forall2 (seen view_flat w) l l.
Proof. induction l; constructor; [by exists []|done]. Qed.

Lemma Forall2_shared_seen {T A} (rd : T → view wcell A) w xs l : Forall2 (shared rd w) xs l → Forall2 (seen rd w) xs l.
Proof. intros HF. eapply Forall2_impl; [exact HF|]. intros. by apply shared_seen. Qed.

Lemma rendered_seen kept w x g : rendered kept w x g → seen view_group w x g.
Proof.
  intros (En & El & Es & Ht & ys & Hys & HF). destruct (reads_seen view_link w _ _ _ (own_reads _ _ _ _ Hys)
    (Forall2_shared_seen _ _ _ _ HF)) as [R1 HR1].
  destruct (reads_seen view_flat w _ _ _ (own_reads _ _ _ _ Ht) (seen_flat _ _)) as [R2 HR2].
  apply seen_bind. exists (dg_Links g). split; [by exists R1|]. apply seen_bind. exists (dg_Tiles g). split; [by exists R2|].
  apply seen_ret. rewrite En, El, Es. by destruct g.
Qed.

Definition responding (s : slot) : Prop := s = SOrdered ∨ rendering s.

Lemma render_runs `{!KeyOrder} kept lo w q st us : labelled w → dash_in kept w q st → wf st →
  (∀ k d, d_details st !! k = Some d → priority_ok d) →
  runs responding (render q us lo) w (fun x w' => seen view_response w' x (Dashboard.render st us lo)).
Proof.
  intros Hw (HG & (tm & Htm & Hts) & HD) Hwf Hok. unfold render.
  eapply runs_call; [by apply sortLinkGroups_runs|intros ? <-; by left|]. intros ordered w1 Hev1 (xs & Hxs & HFx).
  set (gs := Links.sortLinkGroups [7] (d_details st)) in *.
  eapply runs_call; [apply (make_room_own w1 SOut); by eapply evolve_labelled|intros ? <-; by right|]. intros out w2 Hev2 Hout.
  assert (own w2 SOrdered ordered xs) as Hxs2 by (by eapply own_evolve).
  assert (groups_in kept w2 q st ∧ tiles_left kept w2 q st []) as [HG2 HT2].
  { split; [eapply groups_in_evolve; [exact Hev2|..|eapply groups_in_evolve; [exact Hev1|..|exact HG]]; done|].
    exists tm. split; [eapply holds_evolve; [exact Hev2|..|eapply holds_evolve; [exact Hev1|..|exact Htm]]; done|].
    intros k _. eapply own_evolve; [exact Hev2|..|eapply own_evolve; [exact Hev1|..|apply Hts]]; done. }
  eapply runs_call; [apply (fold_slice_related rendering view_link_group _ xs gs _ (fun before out w => ∃ outs,
    own w SOut out outs ∧ Forall2 (rendered kept w) outs (omap (Dashboard.render_group st us lo) before) ∧
    groups_in kept w q st ∧ tiles_left kept w q st (g_Name <$> before)))|intros; by right|].
  - intros w' Hev. eapply own_reads_later; [exact Hxs2| |exact Hev]. by intros [].
  - exact (Forall2_shared _ _ _ _ _ _ Hev2 HFx).
  - exists []. split_and!; done.
  - intros before x g after out1 w3 Hgs Hx Hev3 (outs & Hout1 & HF & HG3 & HT3).
    eapply runs_mono; [eapply (render_group_runs kept lo w3 q st us (g_Name <$> before))|..].
    + do 3 (eapply evolve_labelled; [done|]). done.
    + done.
    + done.
    + pose proof (sortLinkGroups_names [7] st Hwf) as Hnd. fold gs in Hnd. rewrite Hgs, fmap_app, fmap_cons in Hnd.
      apply NoDup_app in Hnd as (_ & Hnd & _). intros Hin. apply (Hnd _ Hin). left.
    + exact Hx.
    + exact Hout1.
    + exact HF.
    + intros r (g' & Hg' & Hr)%list_elem_of_omap. apply list_elem_of_fmap. exists g'. split; [|done].
      unfold Dashboard.render_group in Hr. case_match; [done|]. by injection Hr as <-.
    + intros s [->|[->| ->]]; done.
    + cbv beta. intros out2 w4 Hev4 (outs' & Hout2 & HF2). exists outs'. rewrite omap_app, fmap_app. split_and!; [done..| |].
      * eapply groups_in_evolve; [exact Hev4|..|exact HG3]; [by intros [|[]]|by intros k [|[]]].
      * by eapply tiles_left_shown.
  - cbv beta. intros out' w3 Hev3 (outs & Hout3 & HFo & _). apply runs_ret.
    assert (evolve responding w1 w3) as Hev13.
    { etrans; (eapply evolve_mono; [|done]); [intros ? <-|intros ? ?]; by right. }
    apply seen_bind. exists gs. split.
    { assert (own w3 SOrdered ordered xs) as Hxs3 by (eapply own_evolve; [exact Hev3| |exact Hxs2]; by intros []).
      eapply reads_seen; [by eapply own_reads|].
      apply Forall2_shared_seen. exact (Forall2_shared _ _ _ _ _ _ Hev13 HFx). }
    apply seen_bind. eexists. split; [|by apply seen_ret].
    eapply reads_seen; [by eapply own_reads|]. eapply Forall2_impl; [exact HFo|]. intros. by eapply rendered_seen.
Qed.
End request.
