(* ===== verification/RequestMemoryProps.v ===== *)
(** * RequestMemoryProps: requests do not write shared memory

    The second half of [collectDashboard], run in memory, computes what
    Dashboard says and leaves alone what the request does not own. *)

From S2P Require Import Prelude GoStrings StableSort Memory Ownership ApiTypes UrlResolver Links Collectors Dashboard.
From S2P Require Import DashboardSpec MergeSpec RenderSpec Sample OrderProps RequestMemory RequestOwnership.

Section request.
Context `{Unicode, MapRange, StableSort, Growth, Apimachinery}.
Implicit Types (w : world wcell slot) (q : request) (st : dash).

Lemma merging_not_cache s : merging s → not_cache s.
Proof. by intros [[Hs|Hs]|Hs] ->. Qed.

Lemma responding_not_cache s : responding s → not_cache s.
Proof. by intros [Hs|Hs] ->. Qed.

Lemma keeping_not_cache s : keeping s → not_cache s.
Proof. by intros Hs ->. Qed.

(** C6: The second half of a request without foreign clusters, from the merge
    of the peers to the response, run in memory next to everything else:
    from the maps the collectors filled, whose slices the request owns while
    links and groups in them refer to shared memory, and from the cached
    responses of the peers, it computes exactly the response [collectDashboard]
    specifies, for browsers and for the sync endpoint, and every location it
    does not own is as it was: the cache, the responses in it, the maps and
    slices of other requests.  Appending, overwriting and sorting in place
    never reach shared memory. *)
Theorem requests_write_own_memory `{!KeyOrder} w q cache c st us lo :
  labelled w → dash_in false w q st → option_Forall2 (cached w) cache (dc_syncClient c) →
  dc_foreignClusters c = None → collect_local c (initial_dash c) = (Ok tt, st) →
  (∀ k d, d_details (final_state c lo st) !! k = Some d → priority_ok d) →
  ∃ x h resp R, finish_request q cache us lo (memory w) = Some (x, h) ∧
    collectDashboard c us lo = Ok resp ∧ view_response x h = Some (resp, R) ∧
    ∀ p cell, memory w !! p = Some cell → owner w !! p = None ∨ owner w !! p = Some SCache → h !! p = Some cell.
Proof.
  intros Hw Hst Hc Hforeign Hl Hok.
  assert (runs not_cache (finish_request q cache us lo) w (fun x w' => seen view_response w' x
    (Dashboard.render (final_state c lo st) us lo))) as (x & w' & Hf & Hev & R & HR).
  { assert (wf (final_state c lo st)) as Hwf by (apply final_state_wf; by eapply collect_local_wf).
    eapply runs_call with (S := merging) (Q := fun _ w' => dash_in false w' q (if lo then st else final_state c lo st));
      [|apply merging_not_cache|].
    - unfold final_state, merge_others, Collectors.seq. rewrite Hforeign.
      destruct Hc as [p remote Hc|]; destruct lo; [by apply runs_ret|by apply mergeRemoteData_runs|by apply runs_ret..].
    - intros [] w1 Hev1 Hst1. assert (labelled w1) as Hw1 by by eapply evolve_labelled. destruct lo.
      + eapply runs_call; [by apply keep_replicated_runs|apply keeping_not_cache|]. intros [] w2 Hev2 Hst2.
        eapply runs_mono; [eapply render_runs; [by eapply evolve_labelled|exact Hst2|exact Hwf|exact Hok]|apply responding_not_cache|done].
      + eapply runs_read; [done|]. eapply runs_mono; [by eapply render_runs|apply responding_not_cache|done]. }
  eexists x, (memory w'), _, R. split; [done|]. split; [|split; [exact HR|]].
  - by rewrite collectDashboard_unfold, Hl.
  - intros p cell Hp Ho. eapply evolve_keeps; [done..|]. intros k Hk HS. apply HS. destruct Ho; congruence.
Qed.

(** C7: In a request without foreign clusters, what the poller does to the cache after [GetRemoteData] has released
    the lock does not reach the request: whatever the cache map holds by then,
    entries replaced, added or dropped, the response is made of the peers'
    responses as they were when the snapshot was taken. *)
Theorem snapshot_isolated `{!KeyOrder} w q cache remote c st us :
  labelled w → dash_in false w q st → cached w cache remote → dc_syncClient c = Some remote →
  dc_foreignClusters c = None → collect_local c (initial_dash c) = (Ok tt, st) →
  (∀ k d, d_details (final_state c false st) !! k = Some d → priority_ok d) →
  ∃ snapshot h, GetRemoteData cache (memory w) = Some (snapshot, h) ∧
  ∀ h', is_Some (h' !! cache) → (∀ p cell, p ≠ cache → h !! p = Some cell → h' !! p = Some cell) →
  ∃ x h'' resp R, (_ ← merge_snapshot q snapshot; render q us false) h' = Some (x, h'') ∧
    collectDashboard c us false = Ok resp ∧ view_response x h'' = Some (resp, R).
Proof.
  intros Hw Hst (m & Hm & HF) Hsync Hforeign Hl Hok.
  destruct (GetRemoteData_runs w cache m Hw Hm) as (p & w1 & Hget & Hev1 & Hp). exists p, (memory w1). split; [done|].
  intros h' Hcache Hsame. set (w2 := World (owner w1) h'). assert (owner w1 !! cache = Some SCache) as Ho1.
  { eapply evolve_label; [done|]. by destruct Hm. }
  assert (evolve (eq SCache) w1 w2) as Hev2.
  { split; cbn; [|done| | |done].
    - intros Hw1 l k Hk. destruct (decide (l = cache)) as [->|Hn]; [done|]. destruct (Hw1 l k Hk) as [cell ?]. exists cell. by apply Hsame.
    - intros l cell Hc Hk. apply Hsame; [|done]. intros ->. by apply (Hk SCache).
    - intros l [cell Hc]. destruct (decide (l = cache)) as [->|Hn]; [done|]. exists cell. by apply Hsame. }
  assert (evolve (fun s => s = SScratch ∨ s = SCache) w w2) as Hev by (etrans; (eapply evolve_mono; [|done]); intros ? <-; auto).
  assert (runs not_cache (_ ← merge_snapshot q p; render q us false) w2 (fun x w' => seen view_response w' x
    (Dashboard.render (final_state c false st) us false))) as (x & w' & Hf & _ & R & HR).
  { eapply runs_call; [eapply (merge_snapshot_runs w2 q st p m remote)|apply merging_not_cache|].
    - by eapply evolve_labelled.
    - eapply dash_in_evolve; [exact Hev| |exact Hst]. intros ? [->| ->]; auto.
    - eapply holds_evolve; [exact Hev2|done|exact Hp].
    - exact (map_Forall2_shared _ _ _ _ _ _ Hev HF).
    - intros [] w3 Hev3 Hst3. replace (Dashboard.mergeRemoteData remote st).2 with (final_state c false st) in Hst3.
      2: { unfold final_state, merge_others, Collectors.seq. by rewrite Hsync, Hforeign. }
      eapply runs_mono; [eapply render_runs; [|exact Hst3|..|exact Hok]|apply responding_not_cache|done].
      + do 2 (eapply evolve_labelled; [done|]). done.
      + apply final_state_wf. by eapply collect_local_wf. }
  eexists x, (memory w'), _, R. split; [exact Hf|]. split; [by rewrite collectDashboard_unfold, Hl|exact HR].
Qed.
End request.

(** ** A request in memory *)

(** Maps are ranged over in an order of their keys. *)
Definition by_key {A} (m : gmap string A) : list (string * A) :=
  omap (fun k => pair k <$> m !! k) (elements (dom m)).

Lemma by_key_fst {A} (m : gmap string A) : (by_key m).*1 = elements (dom m).
Proof.
  unfold by_key. assert (∀ k, k ∈ elements (dom m) → is_Some (m !! k)) as Hk by (intros k ?%elem_of_elements; by apply elem_of_dom).
  induction (elements (dom m)) as [|k ks IH]; [done|]. destruct (Hk k ltac:(left)) as [v Hv].
  rewrite omap_cons, Hv. cbn. f_equal. apply IH. intros k' ?. apply Hk. by right.
Qed.

Lemma by_key_perm {A} (m : gmap string A) : by_key m ≡ₚ map_to_list m.
Proof.
  apply NoDup_Permutation.
  - apply (NoDup_fmap_1 fst). rewrite by_key_fst. apply NoDup_elements.
  - apply NoDup_map_to_list.
  - intros [k v]. unfold by_key. rewrite list_elem_of_omap, elem_of_map_to_list. split.
    + intros (k' & _ & Hk). destruct (m !! k') eqn:E; [|done]. by injection Hk as <- <-.
    + intros Hk. exists k. rewrite elem_of_elements, elem_of_dom, Hk. by split.
Qed.

Definition range_by_key : MapRange := {| range := fun A _ m => by_key m; range_perm := fun A _ m => by_key_perm m |}.

Lemma range_by_key_order : @KeyOrder range_by_key.
Proof. intros A B loop m m' Hm. cbn. by rewrite !by_key_fst, Hm. Qed.

Lemma doubling_room n : n < S (2 * n).
Proof. lia. Qed.

Definition doubling : Growth := {| grow := fun n => S (2 * n); grow_room := doubling_room |}.

(** One bookmark for admins, one tile, one peer. *)
Definition small_reader : Reader :=
  {| list_BookmarkGroups := Ok [tools_group]; list_Bookmarks := fun _ => Ok [vault]; list_ForecastleApps := Err not_found;
     list_InfoTiles := Ok [uptime_tile]; list_Ingresses := fun _ => Ok []; list_Services := fun _ => Ok [];
     list_EndpointSlices := fun _ => Ok []; list_Unstructured := fun _ _ => Err not_found;
     get_Ingress := fun _ => Err not_found; get_Service := fun _ => Err not_found;
     get_Unstructured := fun _ _ => Err not_found |}.

Definition small_peers : gmap string DashboardResponse := {["https://peer.example" := peer_response]}.

Definition small : dashboardCollector :=
  newDashboardCollector small_reader (Some no_discovery) "" [] [] (Some small_peers) None.

Definition small_state : dash := (@collect_local _ _ range_by_key small (initial_dash small)).2.

Definition link_in_memory (l : DashboardLink) (groups : option slice) : link_mem :=
  {| ml_Name := l_Name l; ml_LinkGroup := l_LinkGroup l; ml_URL := l_URL l; ml_Target := l_Target l; ml_Icon := l_Icon l;
     ml_Source := l_Source l; ml_Metadata := l_Metadata l; ml_Groups := groups; ml_Replicate := l_Replicate l |}.

Definition small_link : DashboardLink := default remote_link (head (links_at small_state "tools")).
Definition small_detail : DashboardLinkGroup :=
  default (flat_link_group (zero : link_group_mem)) (d_details small_state !! "tools").
Definition small_tiles : list DashboardInfoTile := tiles_at small_state "tools".

Definition small_memory : gmap loc wcell :=
  list_to_map [
    (1, WSlices {["tools" := Some (Slice 4 0 1 1)]}); (2, WSlices {["tools" := Some (Slice 5 0 1 1)]});
    (3, WDetails {["tools" := {| mg_Name := g_Name small_detail; mg_Priority := g_Priority small_detail;
                            mg_PriorityClass := g_PriorityClass small_detail; mg_DisplayName := g_DisplayName small_detail;
                            mg_Source := g_Source small_detail; mg_Properties := None; mg_Replicate := g_Replicate small_detail |} ]});
    (4, WLinks [link_in_memory small_link (Some (Slice 6 0 1 1))]); (5, WTiles small_tiles); (6, WStrings (l_Groups small_link));
    (7, WResponses {["https://peer.example" := {| mr_LinkGroups := None; mr_Groups := Some (Slice 8 0 1 1) |} ]});
    (8, WGroups [{| mdg_Name := "Tools"; mdg_LinkGroup := "tools"; mdg_Links := Some (Slice 9 0 1 1); mdg_Tiles := None; mdg_Source := "local" |}]);
    (9, WLinks [link_in_memory remote_link None])]%positive.

Definition small_world : world wcell slot :=
  World (list_to_map [(1, SGroups); (2, STileMap); (3, SDetails); (4, SLinks false "tools"); (5, STiles false "tools"); (7, SCache)]%positive) small_memory.

Definition small_request : request := {| q_groups := 1%positive; q_tiles := 2%positive; q_details := 3%positive |}.

Lemma small_groups : d_groups small_state = {["tools" := [small_link]]}.
Proof. vm_compute. reflexivity. Qed.
Lemma small_tile_map : d_tiles small_state = {["tools" := small_tiles]}.
Proof. vm_compute. reflexivity. Qed.
Lemma small_details : d_details small_state = {["tools" := small_detail]}.
Proof. vm_compute. reflexivity. Qed.

Lemma small_labelled : labelled small_world.
Proof.
  change (map_Forall (fun p _ => is_Some (memory small_world !! p)) (owner small_world)). cbn [owner small_world list_to_map foldr fst snd].
  repeat (apply map_Forall_insert_2; [vm_compute; by eexists|]). apply map_Forall_empty.
Qed.

Definition unowned (w : world wcell slot) (R : list loc) : bool :=
  forallb (fun p => match owner w !! p with None => true | Some _ => false end) R.

Lemma shared_here {T A} (rd : T → view wcell A) w x a R : rd x (memory w) = Some (a, R) → unowned w R = true → shared rd w x a.
Proof.
  intros Hx HR. exists R. split; [done|]. intros p Hp%list_elem_of_In. eapply forallb_forall in HR; [|exact Hp].
  by destruct (owner w !! p).
Qed.

Ltac shared_now := eapply shared_here; [vm_compute; reflexivity|reflexivity].
Ltac own_now := eexists; split; [by split|]; split_and!; [done|cbn; lia|done|reflexivity].

Lemma small_dash_in : dash_in false small_world small_request small_state.
Proof.
  split_and!; (eexists; split; [by split|]).
  - intros k. unfold slice_entry, links_at. rewrite small_groups. destruct (decide (k = "tools")) as [->|Hk].
    + rewrite !lookup_singleton_eq. eexists. split; [own_now|]. constructor; [shared_now|constructor].
    + rewrite !lookup_singleton_ne by done. exists []. split; [done|constructor].
  - intros k. unfold slice_entry, tiles_at. rewrite small_tile_map. destruct (decide (k = "tools")) as [->|Hk].
    + rewrite !lookup_singleton_eq. own_now.
    + by rewrite !lookup_singleton_ne by done.
  - rewrite small_details. apply map_Forall2_singleton. shared_now.
Qed.

Lemma small_cached : cached small_world 7%positive small_peers.
Proof. eexists. split; [by split|]. apply map_Forall2_singleton. shared_now. Qed.

Lemma requests_write_own_memory_witness :
  labelled small_world ∧ dash_in false small_world small_request small_state ∧ cached small_world 7%positive small_peers ∧
  ∀ lo, ∃ x h resp R, @finish_request _ range_by_key _ doubling small_request (Some 7%positive) ["devs"] lo small_memory = Some (x, h) ∧
    @collectDashboard _ _ range_by_key _ small ["devs"] lo = Ok resp ∧ view_response x h = Some (resp, R) ∧
    ∀ p cell, small_memory !! p = Some cell → owner small_world !! p = None ∨ owner small_world !! p = Some SCache →
      h !! p = Some cell.
Proof.
  split; [exact small_labelled|]. split; [exact small_dash_in|]. split; [exact small_cached|]. intros lo.
  apply (@requests_write_own_memory _ range_by_key _ doubling _ range_by_key_order small_world small_request
    (Some 7%positive) small small_state).
  - exact small_labelled.
  - exact small_dash_in.
  - constructor. exact small_cached.
  - reflexivity.
  - vm_compute. reflexivity.
  - intros k d Hd. apply priority_okb_spec. revert k d Hd.
    apply (all_details_spec (fun _ d => priority_okb d)). destruct lo; vm_compute; reflexivity.
Defined.

Lemma snapshot_isolated_witness :
  ∃ snapshot h, @GetRemoteData range_by_key 7%positive small_memory = Some (snapshot, h) ∧
  ∀ h', is_Some (h' !! 7%positive) → (∀ p cell, p ≠ 7%positive → h !! p = Some cell → h' !! p = Some cell) →
  ∃ x h'' resp R, (_ ← @merge_snapshot range_by_key doubling small_request snapshot;
                   @render _ range_by_key _ doubling small_request ["devs"] false) h' = Some (x, h'') ∧
    @collectDashboard _ _ range_by_key _ small ["devs"] false = Ok resp ∧ view_response x h'' = Some (resp, R).
Proof.
  apply (@snapshot_isolated _ range_by_key _ doubling _ range_by_key_order small_world small_request
    7%positive small_peers small small_state).
  - exact small_labelled.
  - exact small_dash_in.
  - exact small_cached.
  - reflexivity.
  - reflexivity.
  - vm_compute. reflexivity.
  - intros k d Hd. apply priority_okb_spec. revert k d Hd.
    apply (all_details_spec (fun _ d => priority_okb d)). vm_compute; reflexivity.
Defined.
