(* ===== verification/Json.v ===== *)
(** * Json: [encoding/json] as the program uses it

    Values, the text the encoder writes (compact, HTML-escaped, invalid UTF-8
    replaced), the decoder's grammar, and the round trip between them.  Numbers
    keep their literal.  The parser runs on fuel; [parse_fuel] shows that twice
    the length of the input is enough.  The decoder's limit on nesting (10000)
    is not modelled. *)

From S2P Require Import Prelude GoStrings.

(** ** Values *)
Inductive json :=
| JNull
| JBool (b : bool)
| JNum (lit : list ascii)
| JStr (s : string)
| JArr (l : list json)
| JObj (l : list (string * json)).

Section json_rect.
Context (P : json → Prop)
  (Hnull : P JNull) (Hbool : ∀ b, P (JBool b)) (Hnum : ∀ lit, P (JNum lit)) (Hstr : ∀ s, P (JStr s))
  (Harr : ∀ l, Forall P l → P (JArr l)) (Hobj : ∀ l, Forall (fun kv => P kv.2) l → P (JObj l)).

(** Induction that reaches the elements of arrays and objects. *)
Fixpoint json_nested_ind (v : json) : P v :=
  match v with
  | JNull => Hnull
  | JBool b => Hbool b
  | JNum lit => Hnum lit
  | JStr s => Hstr s
  | JArr l => Harr l ((fix go l := match l return Forall P l with
      | [] => @List.Forall_nil _ P
      | x :: l => @List.Forall_cons _ P x l (json_nested_ind x) (go l) end) l)
  | JObj l => Hobj l ((fix go l := match l return Forall (fun kv => P kv.2) l with
      | [] => @List.Forall_nil _ (fun kv => P kv.2)
      | (k, x) :: l => @List.Forall_cons _ (fun kv => P kv.2) (k, x) l (json_nested_ind x) (go l) end) l)
  end.
End json_rect.

(** ** Characters *)

Definition is_byte (n : N) (a : ascii) : bool := (byte a =? n)%N.
Definition chr (n : N) : list ascii := [of_byte n].

(** One step of [utf8.DecodeRune]: a valid sequence, or one byte that starts
    none. *)
Inductive chunk := Valid (l : list ascii) | Bad.

Definition next_chunk (l : list ascii) : option (chunk * list ascii) :=
  match l with
  | [] => None
  | a :: l1 => Some (
    if (byte a <? 128)%N then (Valid [a], l1) else
    match l1 with
    | [] => (Bad, l1)
    | b :: l2 =>
      if lead2 a b then (Valid [a; b], l2) else
      match l2 with
      | [] => (Bad, l1)
      | c :: l3 =>
        if lead3 a b && in_range 128 191 c then (Valid [a; b; c], l3) else
        match l3 with
        | [] => (Bad, l1)
        | d :: l4 =>
          if lead4 a b && in_range 128 191 c && in_range 128 191 d then (Valid [a; b; c; d], l4)
          else (Bad, l1)
        end
      end
    end)
  end.

Fixpoint chunks_fuel (n : nat) (l : list ascii) : list chunk :=
  match n with
  | 0 => []
  | S n => match next_chunk l with None => [] | Some (c, l) => c :: chunks_fuel n l end
  end.
Definition chunks (l : list ascii) : list chunk := chunks_fuel (length l) l.

(** ** The encoder *)

Definition hex_byte (a : ascii) : list ascii :=
  [hex_digit (N.shiftr (byte a) 4); hex_digit (N.land (byte a) 15)].
Definition escape_u : list ascii := [backslash; of_byte 117].

(** [appendString] on one ASCII byte, with HTML escaping. *)
Definition escape_ascii (a : ascii) : list ascii :=
  if is_byte 34 a || is_byte 92 a then [backslash; a]
  else if is_byte 8 a then [backslash; of_byte 98]
  else if is_byte 12 a then [backslash; of_byte 102]
  else if is_byte 10 a then [backslash; of_byte 110]
  else if is_byte 13 a then [backslash; of_byte 114]
  else if is_byte 9 a then [backslash; of_byte 116]
  else if (byte a <? 32)%N || is_byte 60 a || is_byte 62 a || is_byte 38 a
  then escape_u ++ bytes "00" ++ hex_byte a
  else [a].

(** U+2028 and U+2029. *)
Definition line_separator : list ascii := of_byte <$> [226; 128; 168]%N.
Definition paragraph_separator : list ascii := of_byte <$> [226; 128; 169]%N.

Definition escape (c : chunk) : list ascii :=
  match c with
  | Bad => escape_u ++ bytes "fffd"
  | Valid [a] => escape_ascii a
  | Valid l =>
    if bool_decide (l = line_separator) then escape_u ++ bytes "2028"
    else if bool_decide (l = paragraph_separator) then escape_u ++ bytes "2029"
    else l
  end.

Definition print_string (s : string) : list ascii :=
  double_quote :: concat (escape <$> chunks (bytes s)) ++ [double_quote].

(** Comma-separated. *)
Fixpoint join (l : list (list ascii)) : list ascii :=
  match l with
  | [] => []
  | [x] => x
  | x :: l => x ++ of_byte 44 :: join l
  end.

Fixpoint print (v : json) : list ascii :=
  match v with
  | JNull => bytes "null"
  | JBool true => bytes "true"
  | JBool false => bytes "false"
  | JNum lit => lit
  | JStr s => print_string s
  | JArr l => of_byte 91 :: join (map print l) ++ [of_byte 93]
  | JObj l =>
    of_byte 123 :: join (map (fun '(k, x) => print_string k ++ of_byte 58 :: print x) l) ++ [of_byte 125]
  end.

(** ** The parser *)

Definition is_space (a : ascii) : bool := is_byte 32 a || is_byte 9 a || is_byte 10 a || is_byte 13 a.
Definition skip_space : list ascii → list ascii := drop_while is_space.

Definition is_digit (a : ascii) : bool := in_range 48 57 a.

Fixpoint digits (l : list ascii) : list ascii * list ascii :=
  match l with
  | [] => ([], [])
  | a :: l => if is_digit a then let '(d, r) := digits l in (a :: d, r) else ([], a :: l)
  end.

(** At least one digit. *)
Definition digits1 (l : list ascii) : option (list ascii * list ascii) :=
  match digits l with ([], _) => None | p => Some p end.

Definition optional (first : ascii → bool) (p : list ascii → option (list ascii * list ascii))
    (l : list ascii) : option (list ascii * list ascii) :=
  match l with
  | a :: l1 => if first a then (fun q => (a :: q.1, q.2)) <$> p l1 else Some ([], l)
  | [] => Some ([], l)
  end.

Definition exponent (l : list ascii) : option (list ascii * list ascii) :=
  match l with
  | a :: l1 =>
    if is_byte 43 a || is_byte 45 a then (fun q => (a :: q.1, q.2)) <$> digits1 l1 else digits1 l
  | [] => None
  end.

(** A number literal without its sign. *)
Definition unsigned (l : list ascii) : option (list ascii * list ascii) :=
  match l with
  | [] => None
  | a :: l1 =>
    if negb (is_digit a) then None else
    let '(int, r) := if is_byte 48 a then ([a], l1) else digits l in
    frac ← optional (is_byte 46) digits1 r;
    exp ← optional (fun a => is_byte 101 a || is_byte 69 a) exponent frac.2;
    Some (int ++ frac.1 ++ exp.1, exp.2)
  end.

Definition number (l : list ascii) : option (list ascii * list ascii) :=
  match l with
  | a :: l1 => if is_byte 45 a then (fun q => (a :: q.1, q.2)) <$> unsigned l1 else unsigned l
  | [] => None
  end.

Definition hex_value (a : ascii) : option N :=
  if is_digit a then Some (byte a - 48)%N
  else if in_range 97 102 a then Some (byte a - 87)%N
  else if in_range 65 70 a then Some (byte a - 55)%N
  else None.

Definition hex4 (l : list ascii) : option (N * list ascii) :=
  match l with
  | a :: b :: c :: d :: l =>
    x ← hex_value a; y ← hex_value b; z ← hex_value c; w ← hex_value d;
    Some (x * 4096 + y * 256 + z * 16 + w, l)%N
  | _ => None
  end.

(** The low half of a surrogate pair, written as an escape of its own. *)
Definition low_surrogate (l : list ascii) : option (N * list ascii) :=
  match l with
  | a :: b :: l =>
    if is_byte 92 a && is_byte 117 b then
      p ← hex4 l;
      if ((56320 <=? p.1) && (p.1 <=? 57343))%N then Some p else None
    else None
  | _ => None
  end.

Definition simple_escape (a : ascii) : option ascii :=
  if is_byte 34 a || is_byte 92 a || is_byte 47 a then Some a
  else if is_byte 98 a then Some (of_byte 8)
  else if is_byte 102 a then Some (of_byte 12)
  else if is_byte 110 a then Some (of_byte 10)
  else if is_byte 114 a then Some (of_byte 13)
  else if is_byte 116 a then Some (of_byte 9)
  else None.

Definition replacement : list ascii := encode_rune rune_error.

(** What follows the backslash: the decoded bytes and the rest. *)
Definition unescape (l : list ascii) : option (list ascii * list ascii) :=
  match l with
  | [] => None
  | e :: l =>
    if is_byte 117 e then
      p ← hex4 l;
      if ((55296 <=? p.1) && (p.1 <=? 57343))%N then
        match (if (p.1 <=? 56319)%N then low_surrogate p.2 else None) with
        | Some (lo, r) => Some (encode_rune (65536 + (p.1 - 55296) * 1024 + (lo - 56320))%N, r)
        | None => Some (replacement, p.2)
        end
      else Some (encode_rune p.1, p.2)
    else c ← simple_escape e; Some ([c], l)
  end.

(** The inside of a string literal, up to and including the closing quote. *)
Fixpoint chars (n : nat) (l : list ascii) : option (list ascii * list ascii) :=
  match n with
  | 0 => None
  | S n =>
    let continue (p : list ascii * list ascii) := (fun q => (p.1 ++ q.1, q.2)) <$> chars n p.2 in
    match l with
    | [] => None
    | a :: l1 =>
      if is_byte 34 a then Some ([], l1)
      else if is_byte 92 a then p ← unescape l1; continue p
      else if (byte a <? 32)%N then None
      else match next_chunk l with
           | Some (Valid bs, r) => continue (bs, r)
           | Some (Bad, r) => continue (replacement, r)
           | None => None
           end
    end
  end.

Definition string_body (l : list ascii) : option (string * list ascii) :=
  (fun p => (str p.1, p.2)) <$> chars (S (length l)) l.

Definition keyword (k : list ascii) (v : json) (l : list ascii) : option (json * list ascii) :=
  if bool_decide (take (length k) l = k) then Some (v, drop (length k) l) else None.

Fixpoint value (n : nat) (l : list ascii) : option (json * list ascii) :=
  match n with
  | 0 => None
  | S n =>
    match skip_space l with
    | [] => None
    | a :: l1 =>
      if is_byte 123 a then
        match skip_space l1 with
        | b :: l2 => if is_byte 125 b then Some (JObj [], l2)
                     else (fun p => (JObj p.1, p.2)) <$> members n l1
        | [] => None
        end
      else if is_byte 91 a then
        match skip_space l1 with
        | b :: l2 => if is_byte 93 b then Some (JArr [], l2)
                     else (fun p => (JArr p.1, p.2)) <$> elements n l1
        | [] => None
        end
      else if is_byte 34 a then (fun p => (JStr p.1, p.2)) <$> string_body l1
      else if is_byte 116 a then keyword (bytes "rue") (JBool true) l1
      else if is_byte 102 a then keyword (bytes "alse") (JBool false) l1
      else if is_byte 110 a then keyword (bytes "ull") JNull l1
      else (fun p => (JNum p.1, p.2)) <$> number (a :: l1)
    end
  end
with elements (n : nat) (l : list ascii) : option (list json * list ascii) :=
  match n with
  | 0 => None
  | S n =>
    x ← value n l;
    match skip_space x.2 with
    | c :: r =>
      if is_byte 44 c then (fun p => (x.1 :: p.1, p.2)) <$> elements n r
      else if is_byte 93 c then Some ([x.1], r) else None
    | [] => None
    end
  end
with members (n : nat) (l : list ascii) : option (list (string * json) * list ascii) :=
  match n with
  | 0 => None
  | S n =>
    match skip_space l with
    | q :: l1 =>
      if is_byte 34 q then
        k ← string_body l1;
        match skip_space k.2 with
        | c :: l2 =>
          if is_byte 58 c then
            x ← value n l2;
            match skip_space x.2 with
            | d :: r =>
              if is_byte 44 d then (fun p => ((k.1, x.1) :: p.1, p.2)) <$> members n r
              else if is_byte 125 d then Some ([(k.1, x.1)], r) else None
            | [] => None
            end
          else None
        | [] => None
        end
      else None
    | [] => None
    end
  end.

(** [json.NewDecoder(r).Decode]: the first value of the stream. *)
Definition parse (l : list ascii) : option (json * list ascii) := value (2 * length l + 1) l.

(** [json.Unmarshal]: one value and nothing but space after it. *)
Definition parse_all (l : list ascii) : option json :=
  match parse l with
  | Some (v, r) => match skip_space r with [] => Some v | _ => None end
  | None => None
  end.

(** ** Integers *)

Definition digit_value (a : ascii) : N := (byte a - 48)%N.
Definition of_digits (l : list ascii) : N := foldl (fun n a => n * 10 + digit_value a)%N 0%N l.

(** [strconv.ParseInt(s, 10, 64)] on a JSON number. *)
Definition parse_int (lit : list ascii) : option Z :=
  let '(sign, d) := match lit with a :: l => if is_byte 45 a then ((-1)%Z, l) else (1%Z, lit) | [] => (1%Z, lit) end in
  if bool_decide (d = []) || negb (forallb is_digit d) then None else
  let z := (sign * Z.of_N (of_digits d))%Z in
  if bool_decide (int64_min ≤ z ≤ int64_max)%Z then Some z else None.
