(* ===== verification/JsonSpec.v ===== *)
(** * JsonSpec: what the encoder writes is what the decoder reads *)

From S2P Require Import Prelude GoStrings Json.

(** ** UTF-8 chunks *)

(** The bytes a chunk stands for once decoded. *)
Definition repair (c : chunk) : list ascii := match c with Valid l => l | Bad => replacement end.

(** [strings.ToValidUTF8] with the replacement rune for each bad byte. *)
Definition to_valid (s : string) : string := str (concat (repair <$> chunks (bytes s))).

Definition valid_utf8 (s : string) : bool :=
  forallb (fun c => match c with Valid _ => true | Bad => false end) (chunks (bytes s)).

(** A valid sequence is recognised whatever follows it. *)
Definition chunk_ok (c : chunk) : Prop :=
  match c with
  | Bad => True
  | Valid l => (∀ r, next_chunk (l ++ r) = Some (Valid l, r)) ∧
      ∃ a l', l = a :: l' ∧ (l' = [] ↔ (byte a <? 128)%N = true)
  end.

Lemma next_chunk_spec l c r : next_chunk l = Some (c, r) →
  chunk_ok c ∧ match c with Valid bs => l = bs ++ r | Bad => length r < length l end.
Proof.
  destruct l as [|a l1]; [done|]. cbn [next_chunk]. intros [= Hc].
  destruct (byte a <? 128)%N eqn:Ha.
  { injection Hc as <- <-. split; [|done]. split; [intros; simpl; by rewrite Ha|]. by exists a, []. }
  destruct l1 as [|b l2]; [injection Hc as <- <-; simpl; auto with lia|].
  destruct (lead2 a b) eqn:H2.
  { injection Hc as <- <-. split; [|done]. split; [intros; simpl; by rewrite Ha, H2|].
    exists a, [b]. split; [done|]. by rewrite Ha. }
  destruct l2 as [|c' l3]; [injection Hc as <- <-; simpl; auto with lia|].
  destruct (lead3 a b && in_range 128 191 c') eqn:H3.
  { injection Hc as <- <-. split; [|done]. split; [intros; simpl; by rewrite Ha, H2, H3|].
    exists a, [b; c']. split; [done|]. by rewrite Ha. }
  destruct l3 as [|d l4]; [injection Hc as <- <-; simpl; auto with lia|].
  destruct (lead4 a b && in_range 128 191 c' && in_range 128 191 d) eqn:H4;
    injection Hc as <- <-; [|simpl; auto with lia].
  split; [|done]. split; [intros; simpl; by rewrite Ha, H2, H3, H4|].
  exists a, [b; c'; d]. split; [done|]. by rewrite Ha.
Qed.

Lemma chunk_shorter l c r : next_chunk l = Some (c, r) → length r < length l.
Proof.
  intros [Hok Hl]%next_chunk_spec. destruct c as [bs|]; [|done].
  destruct Hok as [_ (a & l' & -> & _)]. subst. simpl. rewrite length_app. lia.
Qed.

Lemma chunks_ok l : Forall chunk_ok (chunks l).
Proof.
  unfold chunks. generalize (length l) at 1 as n. intros n. revert l.
  induction n as [|n IH]; intros l; [constructor|]. cbn [chunks_fuel].
  destruct (next_chunk l) as [[c r]|] eqn:E; [|constructor]. constructor; [|apply IH].
  by apply next_chunk_spec in E as [? _].
Qed.

Lemma chunks_fuel_valid n l : length l ≤ n →
  forallb (fun c => match c with Valid _ => true | Bad => false end) (chunks_fuel n l) = true →
  concat (repair <$> chunks_fuel n l) = l.
Proof.
  revert l. induction n as [|n IH]; intros l Hl; [by destruct l; simpl in Hl; [|lia]|].
  cbn [chunks_fuel]. destruct (next_chunk l) as [[c r]|] eqn:E; [|by destruct l].
  pose proof (chunk_shorter _ _ _ E) as Hr. apply next_chunk_spec in E as [_ E].
  destruct c as [bs|]; [|done]. subst. simpl. intros Hv. f_equal. apply IH; [lia|done].
Qed.

Lemma to_valid_id s : valid_utf8 s = true → to_valid s = s.
Proof.
  intros Hv. unfold to_valid, chunks. rewrite chunks_fuel_valid; [apply str_bytes|done|done].
Qed.

(** ** Strings *)

Lemma escape_ascii_chars a n rest : (byte a <? 128)%N = true →
  chars (S n) (escape_ascii a ++ rest) = (fun q => (a :: q.1, q.2)) <$> chars n rest.
Proof. destruct a as [[] [] [] [] [] [] [] []]; intros Ha; vm_compute in Ha; try discriminate; reflexivity. Qed.

Lemma is_byte_high n a : (n < 128)%N → (byte a <? 128)%N = false → is_byte n a = false.
Proof. unfold is_byte. rewrite N.ltb_ge, N.eqb_neq. lia. Qed.

Lemma escape_chars c n rest : chunk_ok c →
  chars (S n) (escape c ++ rest) = (fun q => (repair c ++ q.1, q.2)) <$> chars n rest.
Proof.
  intros Hok. destruct c as [l|]; [|reflexivity].
  destruct Hok as [Hn (a & l' & -> & Hl')]. destruct l' as [|b l'].
  { apply escape_ascii_chars, Hl'. done. }
  unfold escape. case_bool_decide as E; [rewrite E; reflexivity|].
  case_bool_decide as E'; [rewrite E'; reflexivity|].
  assert ((byte a <? 128)%N = false) as Ha.
  { destruct (byte a <? 128)%N eqn:Hb; [|done]. discriminate (proj2 Hl' eq_refl). }
  specialize (Hn rest). cbn [chars app] in *. rewrite !(is_byte_high _ a) by done.
  assert ((byte a <? 32)%N = false) as -> by (rewrite N.ltb_ge in *; lia).
  by rewrite Hn.
Qed.

Lemma escape_nonempty c : chunk_ok c → escape c ≠ [].
Proof.
  intros Hok. destruct c as [l|]; [|done]. destruct Hok as [_ (a & l' & -> & Hl')].
  destruct l' as [|b l'].
  - unfold escape, escape_ascii. by repeat case_match.
  - unfold escape. by repeat case_bool_decide.
Qed.

Lemma chars_print cs n rest : Forall chunk_ok cs → length cs < n →
  chars n (concat (escape <$> cs) ++ double_quote :: rest) = Some (concat (repair <$> cs), rest).
Proof.
  intros Hcs. revert n. induction Hcs as [|c cs Hc _ IH]; intros n Hn.
  - destruct n; [lia|]. reflexivity.
  - destruct n as [|n]; [simpl in Hn; lia|]. cbn [fmap list_fmap concat] in *.
    rewrite <-app_assoc, escape_chars by done. simpl in Hn. rewrite IH by lia. done.
Qed.

Lemma chunks_escape_length cs : Forall chunk_ok cs → length cs ≤ length (concat (escape <$> cs)).
Proof.
  induction 1 as [|c cs Hc _ IH]; [done|]. rewrite fmap_cons. cbn [concat length].
  rewrite length_app. pose proof (escape_nonempty c Hc). destruct (escape c); [done|]. cbn [length]. lia.
Qed.

Lemma string_body_print s rest :
  string_body (concat (escape <$> chunks (bytes s)) ++ double_quote :: rest) = Some (to_valid s, rest).
Proof.
  pose proof (chunks_ok (bytes s)) as Hok. unfold string_body. rewrite chars_print; [done|done|].
  apply chunks_escape_length in Hok. rewrite length_app. cbn [length].
  apply Nat.lt_succ_r. by etrans; [|apply Nat.le_add_r].
Qed.

(** ** Values *)

(** The value the decoder sees: every string with its bad bytes replaced. *)
Fixpoint normalise (v : json) : json :=
  match v with
  | JStr s => JStr (to_valid s)
  | JArr l => JArr (map normalise l)
  | JObj l => JObj (map (fun '(k, x) => (to_valid k, normalise x)) l)
  | v => v
  end.

(** The rest of the input ends a number. *)
Definition ends (rest : list ascii) : Prop :=
  match rest with
  | [] => True
  | a :: _ => is_digit a = false ∧ is_byte 46 a = false ∧ is_byte 101 a = false ∧ is_byte 69 a = false
  end.

Definition number_ok (lit : list ascii) : Prop :=
  (∀ rest, ends rest → number (lit ++ rest) = Some (lit, rest)) ∧
  ∃ a l, lit = a :: l ∧ (is_digit a || is_byte 45 a) = true.

Fixpoint numbers_ok (v : json) : Prop :=
  match v with
  | JNum lit => number_ok lit
  | JArr l => foldr (fun x P => numbers_ok x ∧ P) True l
  | JObj l => foldr (fun kv P => numbers_ok kv.2 ∧ P) True l
  | _ => True
  end.

Lemma number_start a : (is_digit a || is_byte 45 a) = true →
  is_space a = false ∧ is_byte 123 a = false ∧ is_byte 91 a = false ∧ is_byte 34 a = false ∧
  is_byte 116 a = false ∧ is_byte 102 a = false ∧ is_byte 110 a = false ∧
  is_byte 93 a = false ∧ is_byte 125 a = false.
Proof. destruct a as [[] [] [] [] [] [] [] []]; intros Ha; vm_compute in Ha; try discriminate; done. Qed.

Lemma number_value n lit rest : number_ok lit → ends rest →
  value (S n) (lit ++ rest) = Some (JNum lit, rest).
Proof.
  intros [Hn (a & l & -> & Ha)] Hr. specialize (Hn rest Hr). cbn [app] in *.
  apply number_start in Ha as (H1 & H2 & H3 & H4 & H5 & H6 & H7 & _).
  cbn [value]. unfold skip_space. cbn [drop_while]. by rewrite H1, H2, H3, H4, H5, H6, H7, Hn.
Qed.

Lemma string_value n s rest : value (S n) (print_string s ++ rest) = Some (JStr (to_valid s), rest).
Proof.
  unfold print_string. rewrite <-app_comm_cons, <-app_assoc. cbn [value].
  change (skip_space (double_quote :: ?l)) with (double_quote :: l).
  change ([double_quote] ++ rest) with (double_quote :: rest).
  change (is_byte 123 double_quote) with false. change (is_byte 91 double_quote) with false.
  change (is_byte 34 double_quote) with true. cbv iota. by rewrite string_body_print.
Qed.

(** Printed values start with a character that is neither space nor a
    closing bracket. *)
Definition starts (l : list ascii) : Prop :=
  match l with
  | [] => False
  | a :: _ => is_space a = false ∧ is_byte 93 a = false ∧ is_byte 125 a = false
  end.

Lemma print_starts v : numbers_ok v → starts (print v).
Proof.
  destruct v as [|[]|lit| | |]; try done.
  intros [_ (a & l & -> & Ha)]. apply number_start in Ha. cbn [print starts]. tauto.
Qed.

Lemma starts_skip l rest : starts l → skip_space (l ++ rest) = l ++ rest.
Proof.
  destruct l as [|a l]; [done|]. intros [Ha _]. unfold skip_space. simpl. by rewrite Ha.
Qed.

(** ** Arrays and objects *)

(** [value_reads v]: enough fuel reads back a printed value. *)
Definition value_reads (v : json) : Prop := ∀ n rest,
  2 * length (print v) ≤ n → ends rest → value (S n) (print v ++ rest) = Some (normalise v, rest).

Lemma join_cons x l : l ≠ [] → join (x :: l) = x ++ of_byte 44 :: join l.
Proof. by destruct l. Qed.

Lemma ends_comma l : ends (of_byte 44 :: l).
Proof. done. Qed.
Lemma ends_bracket l : ends (of_byte 93 :: l).
Proof. done. Qed.
Lemma ends_brace l : ends (of_byte 125 :: l).
Proof. done. Qed.

Lemma print_nonempty v : numbers_ok v → print v ≠ [].
Proof. intros Hs%print_starts ?. by destruct (print v). Qed.

Lemma elements_print l n rest : l ≠ [] → Forall value_reads l →
  2 * length (join (map print l)) ≤ n →
  elements (S (S n)) (join (map print l) ++ of_byte 93 :: rest) = Some (map normalise l, rest).
Proof.
  intros Hne Hl. revert n Hne. induction Hl as [|v l Hv Hl IH]; intros n Hne Hn; [done|].
  destruct l as [|w l].
  - cbn [map join] in *. remember (S n) as m eqn:Hm. cbn [elements]. subst m.
    by rewrite (Hv n) by done.
  - cbn [map] in *. rewrite join_cons in Hn |- * by done.
    rewrite length_app in Hn. cbn [length] in Hn. rewrite <-app_assoc, <-app_comm_cons.
    remember (S n) as m eqn:Hm. cbn [elements]. subst m. rewrite (Hv n) by (lia || done).
    cbn [mbind option_bind]. unfold skip_space. cbn [drop_while snd fst].
    change (is_space (of_byte 44)) with false. change (is_byte 44 (of_byte 44)) with true. cbv iota.
    destruct n as [|n]; [lia|]. rewrite (IH n) by (done || lia). done.
Qed.

Definition print_member (kv : string * json) : list ascii := print_string kv.1 ++ of_byte 58 :: print kv.2.
Definition normalise_member (kv : string * json) : string * json := (to_valid kv.1, normalise kv.2).

(** Reading one member, up to the comma or the closing brace. *)
Lemma member_print kv n c rest : value_reads kv.2 → ends (c :: rest) →
  2 * length (print kv.2) ≤ n →
  members (S (S n)) (print_member kv ++ c :: rest) =
  match skip_space (c :: rest) with
  | d :: r =>
    if is_byte 44 d then (fun p => (normalise_member kv :: p.1, p.2)) <$> members (S n) r
    else if is_byte 125 d then Some ([normalise_member kv], r) else None
  | [] => None
  end.
Proof.
  intros Hv Hc Hn. destruct kv as [k v]. unfold print_member, print_string. cbn [fst snd] in *.
  rewrite <-!app_assoc, <-app_comm_cons, <-!app_assoc. remember (S n) as m eqn:Hm. cbn [members].
  change (skip_space (double_quote :: ?l)) with (double_quote :: l).
  change ([double_quote] ++ ?r) with (double_quote :: r). change (is_byte 34 double_quote) with true.
  cbv iota. rewrite string_body_print. cbn [mbind option_bind fst snd]. rewrite <-app_comm_cons.
  change (skip_space (of_byte 58 :: ?l)) with (of_byte 58 :: l).
  change (is_byte 58 (of_byte 58)) with true. cbv iota. subst m. by rewrite (Hv n).
Qed.

Lemma members_print l n rest : l ≠ [] → Forall (fun kv => value_reads kv.2) l →
  2 * length (join (map print_member l)) ≤ n →
  members (S (S n)) (join (map print_member l) ++ of_byte 125 :: rest) = Some (map normalise_member l, rest).
Proof.
  assert (∀ kv, 2 * length (print kv.2) ≤ 2 * length (print_member kv)) as Hlen.
  { intros kv. unfold print_member. rewrite length_app. cbn [length]. lia. }
  intros Hne Hl. revert n Hne. induction Hl as [|kv l Hv Hl IH]; intros n Hne Hn; [done|].
  specialize (Hlen kv). destruct l as [|w l].
  - cbn [map join] in *. by rewrite member_print by (done || lia).
  - cbn [map] in *. rewrite join_cons in Hn |- * by done.
    rewrite length_app in Hn. cbn [length] in Hn. rewrite <-app_assoc, <-app_comm_cons.
    rewrite member_print by (done || lia). unfold skip_space. cbn [drop_while].
    change (is_space (of_byte 44)) with false. change (is_byte 44 (of_byte 44)) with true. cbv iota.
    destruct n as [|n]; [lia|]. rewrite (IH n) by (done || lia). done.
Qed.

Lemma numbers_ok_elements l : foldr (fun x P => numbers_ok x ∧ P) True l ↔ Forall numbers_ok l.
Proof. induction l as [|x l IH]; simpl; [by split|]. by rewrite IH, Forall_cons. Qed.
Lemma numbers_ok_members (l : list (string * json)) :
  foldr (fun kv P => numbers_ok kv.2 ∧ P) True l ↔ Forall (fun kv => numbers_ok kv.2) l.
Proof. induction l as [|x l IH]; simpl; [by split|]. by rewrite IH, Forall_cons. Qed.

Lemma Forall_impl_both {A} (P Q R : A → Prop) l :
  (∀ x, P x → Q x → R x) → Forall P l → Forall Q l → Forall R l.
Proof. intros HR HP HQ. rewrite Forall_forall in *. auto. Qed.

Lemma array_starts l rest : l ≠ [] → Forall numbers_ok l →
  ∃ a r, join (map print l) ++ rest = a :: r ∧ is_space a = false ∧ is_byte 93 a = false.
Proof.
  intros Hne Hl. destruct Hl as [|v l Hv _]; [done|]. apply print_starts in Hv.
  destruct (print v) as [|a r] eqn:E; [done|]. destruct Hv as (? & ? & _).
  cbn [map]. destruct l as [|w l]; [cbn [map join]|cbn [map]; rewrite join_cons by done]; rewrite E;
    eexists a, _; by split.
Qed.

Lemma value_print v : numbers_ok v → value_reads v.
Proof.
  induction v as [|b|lit|s|l IH|l IH] using json_nested_ind; intros Hok n rest Hn Hr.
  - reflexivity.
  - destruct b; reflexivity.
  - by apply number_value.
  - apply string_value.
  - cbn [print numbers_ok] in *. apply numbers_ok_elements in Hok.
    assert (Forall value_reads l) as Hl by (eapply Forall_impl_both, Hok; [|exact IH]; auto).
    cbn [length] in Hn. rewrite length_app in Hn. cbn [length] in Hn.
    cbn [value]. change (is_byte 123 (of_byte 91)) with false.
    rewrite <-app_comm_cons, <-app_assoc.
    change (skip_space (of_byte 91 :: ?l)) with (of_byte 91 :: l). cbv iota.
    change (is_byte 123 (of_byte 91)) with false. change (is_byte 91 (of_byte 91)) with true. cbv iota.
    destruct (decide (l = [])) as [->|Hne]; [reflexivity|].
    destruct (array_starts l ([of_byte 93] ++ rest) Hne Hok) as (a & r & E & Ha & H93).
    assert (skip_space (join (map print l) ++ [of_byte 93] ++ rest) = a :: r) as ->.
    { rewrite E. unfold skip_space. cbn [drop_while]. by rewrite Ha. }
    rewrite H93. destruct n as [|[|n]]; [lia..|]. cbn [app]. by rewrite elements_print by (done || lia).
  - cbn [print numbers_ok] in *. apply numbers_ok_members in Hok.
    assert (Forall (fun kv => value_reads kv.2) l) as Hl by (eapply Forall_impl_both, Hok; [|exact IH]; auto).
    rewrite (map_ext _ print_member) in Hn |- * by (by intros []).
    change (normalise (JObj l)) with (JObj (map (fun '(k, x) => (to_valid k, normalise x)) l)).
    rewrite (map_ext _ normalise_member) by (by intros []).
    cbn [length] in Hn. rewrite length_app in Hn. cbn [length] in Hn.
    cbn [value]. rewrite <-app_comm_cons, <-app_assoc.
    change (skip_space (of_byte 123 :: ?l)) with (of_byte 123 :: l). cbv iota.
    change (is_byte 123 (of_byte 123)) with true. cbv iota.
    destruct (decide (l = [])) as [->|Hne]; [reflexivity|].
    assert (∃ r, join (map print_member l) ++ [of_byte 125] ++ rest = double_quote :: r) as [r E].
    { destruct l as [|[k x] [|w l]]; [done|by eexists..]. }
    assert (skip_space (join (map print_member l) ++ [of_byte 125] ++ rest) = double_quote :: r) as ->.
    { by rewrite E. }
    change (is_byte 125 double_quote) with false. cbv iota.
    destruct n as [|[|n]]; [lia..|]. cbn [app]. by rewrite members_print by (done || lia).
Qed.

(** Reading back what was printed, whatever follows it. *)
Lemma parse_print v rest : numbers_ok v → ends rest →
  parse (print v ++ rest) = Some (normalise v, rest).
Proof.
  intros Hok Hr. unfold parse. rewrite Nat.add_1_r. apply value_print; [done| |done].
  rewrite length_app. lia.
Qed.

Lemma parse_all_print v : numbers_ok v → parse_all (print v) = Some (normalise v).
Proof.
  intros Hok. unfold parse_all. rewrite <-(app_nil_r (print v)) at 1. by rewrite parse_print.
Qed.

(** ** Integers *)

Lemma of_digits_app l k : of_digits (l ++ k) = foldl (fun n a => n * 10 + digit_value a)%N (of_digits l) k.
Proof. unfold of_digits. by rewrite foldl_app. Qed.

Lemma pretty_char_digit r : (r < 10)%N →
  is_digit (pretty_N_char r) = true ∧ digit_value (pretty_N_char r) = r ∧
  (is_byte 48 (pretty_N_char r) = true ↔ r = 0%N).
Proof.
  intros Hr. assert (r = 0 ∨ r = 1 ∨ r = 2 ∨ r = 3 ∨ r = 4 ∨ r = 5 ∨ r = 6 ∨ r = 7 ∨ r = 8 ∨ r = 9)%N as Hc by lia.
  repeat destruct Hc as [->|Hc]; [..|subst r]; repeat split; by vm_compute.
Qed.

(** The decimal digits of a positive number. *)
Definition decimal (x : N) (d : list ascii) : Prop :=
  Forall (fun a => is_digit a = true) d ∧ of_digits d = x ∧
  ∃ a d', d = a :: d' ∧ is_byte 48 a = false.

Lemma pretty_N_go_decimal x s : (0 < x)%N → ∃ d, bytes (pretty_N_go x s) = d ++ bytes s ∧ decimal x d.
Proof.
  revert s. induction x as [x IH] using (well_founded_induction N.lt_wf_0). intros s Hx.
  rewrite pretty_N_go_step by done.
  destruct (pretty_char_digit (x mod 10)) as (H1 & H2 & H3); [apply N.mod_lt; lia|].
  pose proof (N.div_mod x 10 ltac:(lia)) as Hdm. destruct (decide (x / 10 = 0)%N) as [Hz|Hnz].
  - rewrite Hz, pretty_N_go_0. exists [pretty_N_char (x mod 10)]. split; [done|]. split_and!.
    + by repeat constructor.
    + unfold of_digits. cbn [foldl]. rewrite H2. etrans; [|symmetry; exact Hdm]. by rewrite Hz.
    + eexists _, _. split; [done|]. destruct (is_byte 48 _); [|done]. exfalso.
      assert (x mod 10 = 0)%N as Hm by (by apply H3). rewrite Hz, Hm in Hdm. by subst.
  - destruct (IH (x / 10)%N) with (s := String (pretty_N_char (x mod 10)) s) as (d & Hd & Hf & Ho & a & d' & -> & Ha).
    { apply N.div_lt; [done|]. by apply N.ltb_lt. }
    { by apply N.neq_0_lt_0. }
    exists ((a :: d') ++ [pretty_N_char (x mod 10)]). split; [rewrite Hd, <-app_assoc; done|]. split_and!.
    + by apply Forall_app_2; [|repeat constructor].
    + rewrite of_digits_app, Ho. cbn [foldl]. rewrite H2, N.mul_comm. by symmetry.
    + by exists a, (d' ++ [pretty_N_char (x mod 10)]).
Qed.

Lemma pretty_N_decimal p : decimal (N.pos p) (bytes (pretty (N.pos p))).
Proof.
  unfold pretty, pretty_N. rewrite decide_False by done.
  destruct (pretty_N_go_decimal (N.pos p) "") as (d & -> & Hd); [lia|]. by rewrite app_nil_r.
Qed.

Lemma digits_all d rest : Forall (fun a => is_digit a = true) d →
  match rest with [] => True | a :: _ => is_digit a = false end → digits (d ++ rest) = (d, rest).
Proof.
  intros Hd Hr. induction Hd as [|a d Ha _ IH]; simpl.
  - destruct rest as [|a rest]; [done|]. simpl. by rewrite Hr.
  - by rewrite Ha, IH.
Qed.

Lemma ends_digits rest : ends rest → match rest with [] => True | a :: _ => is_digit a = false end.
Proof. destruct rest; [done|]. by intros [? _]. Qed.

Lemma optional_ends first p rest :
  match rest with [] => True | a :: _ => first a = false end → optional first p rest = Some ([], rest).
Proof. unfold optional. destruct rest; [done|]. by intros ->. Qed.

Lemma unsigned_zero rest : ends rest → unsigned (of_byte 48 :: rest) = Some ([of_byte 48], rest).
Proof.
  intros Hr. unfold unsigned. change (is_digit (of_byte 48)) with true. change (is_byte 48 (of_byte 48)) with true.
  cbv iota beta. rewrite optional_ends by (destruct rest; [done|apply Hr]). cbn [mbind option_bind snd fst].
  rewrite optional_ends; [done|]. destruct rest; [done|]. destruct Hr as (_ & _ & -> & ->). done.
Qed.

Lemma unsigned_decimal x d rest : decimal x d → ends rest → unsigned (d ++ rest) = Some (d, rest).
Proof.
  intros (Hd & _ & a & d' & -> & Ha) Hr. unfold unsigned. rewrite <-app_comm_cons.
  assert (is_digit a = true) as -> by (by apply Forall_cons in Hd as [? _]). rewrite Ha.
  cbn [negb]. rewrite app_comm_cons, digits_all by (done || by apply ends_digits). cbv iota beta.
  rewrite optional_ends by (destruct rest; [done|apply Hr]). cbn [mbind option_bind snd fst].
  rewrite optional_ends; [simpl; by rewrite app_nil_r|].
  destruct rest; [done|]. destruct Hr as (_ & _ & -> & ->). done.
Qed.

Lemma digit_not_minus a : is_digit a = true → is_byte 45 a = false.
Proof. destruct a as [[] [] [] [] [] [] [] []]; intros Ha; vm_compute in Ha; try discriminate; done. Qed.

Lemma decimal_not_minus x d : decimal x d → ∃ a d', d = a :: d' ∧ is_digit a = true ∧ is_byte 45 a = false.
Proof.
  intros (Hd & _ & a & d' & -> & _). apply Forall_cons in Hd as [Ha _]. exists a, d'.
  by rewrite digit_not_minus.
Qed.

Lemma itoa_neg p : bytes (itoa (Z.neg p)) = of_byte 45 :: bytes (pretty (N.pos p)).
Proof. done. Qed.
Lemma itoa_pos p : bytes (itoa (Z.pos p)) = bytes (pretty (N.pos p)).
Proof. done. Qed.

Lemma itoa_number z : number_ok (bytes (itoa z)).
Proof.
  destruct z as [|p|p].
  - split; [|by eexists _, _]. intros rest Hr. apply unsigned_zero, Hr.
  - rewrite itoa_pos. pose proof (pretty_N_decimal p) as Hd.
    pose proof (decimal_not_minus _ _ Hd) as (a & d' & E & Ha & Hm). split.
    + intros rest Hr. unfold number. rewrite E, <-app_comm_cons, Hm, app_comm_cons, <-E.
      by eapply unsigned_decimal.
    + exists a, d'. by rewrite Ha.
  - rewrite itoa_neg. pose proof (pretty_N_decimal p) as Hd. split; [|by eexists _, _].
    intros rest Hr. unfold number. rewrite <-app_comm_cons. change (is_byte 45 (of_byte 45)) with true.
    cbv iota. by erewrite unsigned_decimal.
Qed.

Lemma digits_forallb d : Forall (fun a => is_digit a = true) d → forallb is_digit d = true.
Proof. induction 1 as [|a d Ha _ IH]; [done|]. simpl. by rewrite Ha. Qed.

Lemma parse_int_itoa z : in_int64 z → parse_int (bytes (itoa z)) = Some z.
Proof.
  intros Hz. unfold in_int64 in Hz. destruct z as [|p|p]; [reflexivity|..].
  - rewrite itoa_pos. pose proof (pretty_N_decimal p) as Hd.
    pose proof (decimal_not_minus _ _ Hd) as (a & d' & E & Ha & Hm). destruct Hd as (Hf & Ho & _).
    unfold parse_int. rewrite E in *. rewrite Hm. cbv iota beta zeta.
    rewrite (digits_forallb _ Hf), Ho. rewrite bool_decide_false by done. cbn [orb negb].
    replace (1 * Z.of_N (N.pos p))%Z with (Z.pos p) by lia. by rewrite bool_decide_true.
  - rewrite itoa_neg. pose proof (pretty_N_decimal p) as (Hf & Ho & a & d' & E & _).
    unfold parse_int. change (is_byte 45 (of_byte 45)) with true. cbv iota beta zeta.
    rewrite (digits_forallb _ Hf), Ho. rewrite bool_decide_false by (by rewrite E). cbn [orb negb].
    replace (-1 * Z.of_N (N.pos p))%Z with (Z.neg p) by lia. by rewrite bool_decide_true.
Qed.

(** ** Fuel

    Every step that consumes fuel twice consumes input, so twice the length
    of the input is enough. *)

(** [leaves k l q]: what [q] leaves of [l] is shorter by at least [k]. *)
Definition leaves {A} (k : nat) (l : list ascii) (q : option (A * list ascii)) : Prop :=
  match q with Some (_, r) => length r + k ≤ length l | None => True end.

Lemma leaves_fmap {A B} k l (f : A * list ascii → B * list ascii) q :
  (∀ p, (f p).2 = p.2) → leaves k l q → leaves k l (f <$> q).
Proof. intros Hf. destruct q as [[a r]|]; [|done]. simpl. specialize (Hf (a, r)). destruct (f (a, r)). simpl in Hf. by subst. Qed.

Lemma leaves_weaken {A} k j l l' (q : option (A * list ascii)) :
  leaves k l q → length l + j ≤ length l' + k → leaves j l' q.
Proof. destruct q as [[a r]|]; simpl; [lia|done]. Qed.

Lemma skip_space_length l : length (skip_space l) ≤ length l.
Proof. unfold skip_space. induction l as [|a l IH]; simpl; [done|]. case_match; simpl; lia. Qed.

Lemma digits_leaves l : leaves 0 l (Some (digits l)).
Proof.
  induction l as [|a l IH]; simpl; [done|]. destruct (is_digit a); [|simpl; lia].
  destruct (digits l) as [d r]. simpl in *. lia.
Qed.

Lemma digits1_leaves l : leaves 0 l (digits1 l).
Proof. unfold digits1. pose proof (digits_leaves l) as H. destruct (digits l) as [[|a d] r]; [exact I|exact H]. Qed.

Lemma optional_leaves first p l : (∀ l, leaves 0 l (p l)) → leaves 0 l (optional first p l).
Proof.
  intros Hp. destruct l as [|a l]; simpl; [lia|]. destruct (first a); [|simpl; lia].
  apply leaves_fmap; [done|]. eapply leaves_weaken; [apply Hp|]. simpl. lia.
Qed.

Lemma exponent_leaves l : leaves 0 l (exponent l).
Proof.
  destruct l as [|a l]; [done|]. unfold exponent. case_match; [|apply digits1_leaves].
  apply leaves_fmap; [done|]. eapply leaves_weaken; [apply digits1_leaves|]. simpl. lia.
Qed.

Lemma unsigned_leaves l : leaves 1 l (unsigned l).
Proof.
  destruct l as [|a l]; [done|]. unfold unsigned. destruct (is_digit a) eqn:Ha; [|done]. cbn [negb].
  assert (∃ int r, (if is_byte 48 a then ([a], l) else digits (a :: l)) = (int, r) ∧ length r ≤ length l)
    as (int & r & -> & Hr).
  { destruct (is_byte 48 a); [by exists [a], l|]. simpl. rewrite Ha.
    pose proof (digits_leaves l) as Hd. destruct (digits l) as [d r]. simpl in Hd.
    exists (a :: d), r. split; [done|lia]. }
  pose proof (optional_leaves (is_byte 46) digits1 r digits1_leaves) as H1.
  destruct (optional (is_byte 46) digits1 r) as [[frac r1]|]; [|done]. cbn [mbind option_bind snd fst].
  pose proof (optional_leaves (fun a => is_byte 101 a || is_byte 69 a) exponent r1 exponent_leaves) as H2.
  destruct (optional _ exponent r1) as [[exp r2]|]; [|done]. simpl in *. lia.
Qed.

Lemma number_leaves l : leaves 1 l (number l).
Proof.
  destruct l as [|a l]; [done|]. unfold number. case_match; [|apply unsigned_leaves].
  apply leaves_fmap; [done|]. eapply leaves_weaken; [apply unsigned_leaves|]. simpl. lia.
Qed.

Lemma hex4_leaves l : leaves 0 l (hex4 l).
Proof.
  destruct l as [|a [|b [|c [|d l]]]]; try done. unfold hex4.
  destruct (hex_value a), (hex_value b), (hex_value c), (hex_value d); simpl; lia || done.
Qed.

Lemma low_surrogate_leaves l : leaves 0 l (low_surrogate l).
Proof.
  destruct l as [|a [|b l]]; try done. unfold low_surrogate. case_match; [|done].
  pose proof (hex4_leaves l) as Hh. destruct (hex4 l) as [[n r]|]; [|done]. cbn [mbind option_bind].
  case_match; [|done]. simpl in *. lia.
Qed.

Lemma unescape_leaves l : leaves 0 l (unescape l).
Proof.
  destruct l as [|e l]; [done|]. unfold unescape. case_match.
  - pose proof (hex4_leaves l) as Hh. destruct (hex4 l) as [[n r]|]; [|done]. cbn [mbind option_bind fst snd].
    case_match; [|simpl in *; lia]. pose proof (low_surrogate_leaves r) as Hlo.
    destruct (n <=? 56319)%N; [destruct (low_surrogate r) as [[lo r']|]|]; simpl in *; lia.
  - destruct (simple_escape e); simpl; [lia|done].
Qed.

Lemma chars_leaves n l : leaves 1 l (chars n l).
Proof.
  revert l. induction n as [|n IH]; intros l; [done|]. cbn [chars].
  destruct l as [|a l]; [done|]. case_match; [simpl; lia|]. case_match.
  - pose proof (unescape_leaves l) as Hu. destruct (unescape l) as [[b r]|]; [|done].
    cbn [mbind option_bind snd]. apply leaves_fmap; [done|]. eapply leaves_weaken; [apply IH|].
    simpl in *. lia.
  - case_match; [done|]. destruct (next_chunk (a :: l)) as [[c r]|] eqn:E; [|done].
    apply chunk_shorter in E.
    destruct c; (apply leaves_fmap; [done|]); (eapply leaves_weaken; [apply IH|]); cbn [snd]; lia.
Qed.

Lemma string_body_leaves l : leaves 1 l (string_body l).
Proof. apply leaves_fmap; [done|]. apply chars_leaves. Qed.

Lemma keyword_leaves k v l : leaves 0 l (keyword k v l).
Proof. unfold keyword. case_bool_decide; [|done]. simpl. rewrite length_drop. lia. Qed.

(** The separators after an element or a member. *)
Lemma value_leaves n :
  (∀ l, leaves 1 l (value n l)) ∧ (∀ l, leaves 1 l (elements n l)) ∧ (∀ l, leaves 1 l (members n l)).
Proof.
  induction n as [|n (IHv & IHe & IHm)]; [done|]. split_and!; intros l.
  - cbn [value]. pose proof (skip_space_length l) as Hs. destruct (skip_space l) as [|a l1]; [done|].
    cbn [length] in Hs. pose proof (skip_space_length l1) as Hs1.
    repeat case_match; try done; cbn [length] in *;
      try (eapply leaves_weaken; [apply keyword_leaves|lia]); try (cbn [leaves]; lia);
      (apply leaves_fmap; [done|]).
    + eapply leaves_weaken; [apply IHm|lia].
    + eapply leaves_weaken; [apply IHe|lia].
    + eapply leaves_weaken; [apply string_body_leaves|lia].
    + eapply leaves_weaken; [apply number_leaves|]. cbn [length]. lia.
  - cbn [elements]. specialize (IHv l). destruct (value n l) as [[x r]|]; [|done].
    cbn [mbind option_bind fst snd]. pose proof (skip_space_length r). cbn [leaves] in IHv.
    destruct (skip_space r) as [|c r']; [done|]. cbn [length] in *.
    case_match; [|case_match; [cbn [leaves]; lia|done]].
    apply leaves_fmap; [done|]. eapply leaves_weaken; [apply IHe|lia].
  - cbn [members]. pose proof (skip_space_length l) as Hs. destruct (skip_space l) as [|q l1]; [done|].
    cbn [length] in Hs. case_match; [|done].
    pose proof (string_body_leaves l1) as Hk. destruct (string_body l1) as [[k l2]|]; [|done].
    cbn [mbind option_bind fst snd leaves] in *. pose proof (skip_space_length l2).
    destruct (skip_space l2) as [|c l3]; [done|]. cbn [length] in *. case_match; [|done].
    specialize (IHv l3). destruct (value n l3) as [[x r]|]; [|done].
    cbn [mbind option_bind fst snd leaves] in *. pose proof (skip_space_length r).
    destruct (skip_space r) as [|d r']; [done|]. cbn [length] in *.
    case_match; [|case_match; [cbn [leaves]; lia|done]].
    apply leaves_fmap; [done|]. eapply leaves_weaken; [apply IHm|lia].
Qed.

Lemma value_fuel n : ∀ m, n ≤ m →
  (∀ l, 2 * length l + 1 ≤ n → value m l = value n l) ∧
  (∀ l, 2 * length l + 2 ≤ n → elements m l = elements n l) ∧
  (∀ l, 2 * length l + 1 ≤ n → members m l = members n l).
Proof.
  induction n as [|n IH]; intros m Hm; [by split_and!; intros; lia|].
  destruct m as [|m]; [lia|]. destruct (IH m) as (IHv & IHe & IHm); [lia|]. split_and!; intros l Hl.
  - cbn [value]. pose proof (skip_space_length l) as Hs. destruct (skip_space l) as [|a l1]; [done|].
    cbn [length] in Hs. by rewrite IHm, IHe by lia.
  - cbn [elements]. rewrite IHv by lia. pose proof (proj1 (value_leaves n) l) as Hv.
    destruct (value n l) as [[x r]|]; [|done]. cbn [mbind option_bind fst snd leaves] in *.
    pose proof (skip_space_length r). destruct (skip_space r) as [|c r']; [done|].
    cbn [length] in *. by rewrite IHe by lia.
  - cbn [members]. pose proof (skip_space_length l) as Hs. destruct (skip_space l) as [|q l1]; [done|].
    cbn [length] in Hs. destruct (is_byte 34 q); [|done].
    pose proof (string_body_leaves l1) as Hk. destruct (string_body l1) as [[k l2]|]; [|done].
    cbn [mbind option_bind fst snd leaves] in *. pose proof (skip_space_length l2).
    destruct (skip_space l2) as [|c l3]; [done|]. cbn [length] in *. rewrite IHv by lia.
    pose proof (proj1 (value_leaves n) l3) as Hv. destruct (is_byte 58 c); [|done].
    destruct (value n l3) as [[x r]|]; [|done].
    cbn [mbind option_bind fst snd leaves] in *. pose proof (skip_space_length r).
    destruct (skip_space r) as [|d r']; [done|]. cbn [length] in *. by rewrite IHm by lia.
Qed.

(** More fuel than [parse] uses changes nothing. *)
Lemma parse_fuel l n : 2 * length l + 1 ≤ n → value n l = parse l.
Proof. intros Hn. by apply (value_fuel (2 * length l + 1) n). Qed.
