(* ===== verification/Wire.v ===== *)
(** * Wire: the JSON form of a dashboard response

    The struct tags of web/dashboard.go: what [json.Encoder] writes for a
    [DashboardResponse] and what [json.Decoder] reads back into one.  Objects
    are decoded field by field; a key is matched exactly or else up to case,
    unknown keys are skipped, [null] leaves the zero value, and a value of the
    wrong type makes the decoder fail.  The fields marked [json:"-"] are not
    on the wire.  An object with the same slice-valued key twice (the encoder
    never writes one) is read as if only the last were there. *)

From S2P Require Import Prelude GoStrings StableSort Links Json JsonSpec.

(** ** Encoding *)

(** A struct's fields in order; [None] is a field left out by [omitempty]. *)
Definition fields : Type := list (string * option json).

Definition present (fs : fields) : list (string * json) :=
  omap (fun '(k, o) => pair k <$> o) fs.

Definition omit_string (s : string) : option json := if bool_decide (s = "") then None else Some (JStr s).
Definition encode_strings (l : list string) : json := JArr (JStr <$> l).
Definition omit_strings (l : list string) : option json :=
  if bool_decide (l = []) then None else Some (encode_strings l).

(** Maps are written in the order of their keys. *)
Definition sorted_entries (m : gmap string string) : list (string * string) :=
  insertion_sort (fun a b => str_lt a.1 b.1) (map_to_list m).
Definition omit_map (m : gmap string string) : option json :=
  if bool_decide (m = ∅) then None
  else Some (JObj ((fun kv => (kv.1, JStr kv.2)) <$> sorted_entries m)).

Definition link_fields (l : DashboardLink) : fields :=
  [("name", Some (JStr (l_Name l))); ("linkGroup", omit_string (l_LinkGroup l));
   ("url", Some (JStr (l_URL l))); ("target", omit_string (l_Target l));
   ("icon", omit_string (l_Icon l)); ("source", omit_string (l_Source l));
   ("metadata", omit_string (l_Metadata l)); ("groups", omit_strings (l_Groups l))].

Definition tile_fields (t : DashboardInfoTile) : fields :=
  [("name", Some (JStr (t_Name t))); ("icon", omit_string (t_Icon t)); ("url", omit_string (t_URL t));
   ("target", omit_string (t_Target t)); ("source", omit_string (t_Source t));
   ("content", omit_string (t_Content t))].

Definition link_group_fields (g : DashboardLinkGroup) : fields :=
  [("name", Some (JStr (g_Name g))); ("priority", Some (JNum (bytes (itoa (g_Priority g)))));
   ("priorityClass", omit_string (g_PriorityClass g)); ("displayName", Some (JStr (g_DisplayName g)));
   ("source", omit_string (g_Source g)); ("properties", omit_map (g_Properties g))].

Definition group_fields (g : DashboardGroup) : fields :=
  [("name", Some (JStr (dg_Name g))); ("linkGroup", omit_string (dg_LinkGroup g));
   ("links", Some (JArr ((fun l => JObj (present (link_fields l))) <$> dg_Links g)));
   ("tiles", if bool_decide (dg_Tiles g = []) then None
             else Some (JArr ((fun t => JObj (present (tile_fields t))) <$> dg_Tiles g)));
   ("source", omit_string (dg_Source g))].

Definition response_fields (r : DashboardResponse) : fields :=
  [("linkGroups", Some (JArr ((fun g => JObj (present (link_group_fields g))) <$> r_LinkGroups r)));
   ("groups", Some (JArr ((fun g => JObj (present (group_fields g))) <$> r_Groups r)))].

Definition encode_response (r : DashboardResponse) : json := JObj (present (response_fields r)).

(** ** Decoding *)
Section decode.
Context `{Unicode}.

(** The field a key of the input is stored in. *)
Definition field_of (names : list string) (k : string) : option string :=
  if bool_decide (k ∈ names) then Some k
  else find_map (fun n => if EqualFold k n then Some n else None) names.

(** The values stored in field [n], in order. *)
Definition field_values (names : list string) (n : string) (kvs : list (string * json)) : list json :=
  omap (fun kv => if bool_decide (field_of names kv.1 = Some n) then Some kv.2 else None) kvs.

Definition get {A} (dec : A → json → option A) (zero : A) (names : list string) (n : string)
    (kvs : list (string * json)) : option A :=
  foldl (fun acc v => acc ≫= fun a => dec a v) (Some zero) (field_values names n kvs).

Definition dec_string (old : string) (v : json) : option string :=
  match v with JStr s => Some s | JNull => Some old | _ => None end.
Definition dec_int (old : Z) (v : json) : option Z :=
  match v with JNum lit => parse_int lit | JNull => Some old | _ => None end.
Definition dec_list {A} (dec : json → option A) (old : list A) (v : json) : option (list A) :=
  match v with JArr l => mapM dec l | JNull => Some [] | _ => None end.
Definition dec_map (old : gmap string string) (v : json) : option (gmap string string) :=
  match v with
  | JObj kvs =>
    foldl (fun acc kv => m ← acc; s ← dec_string "" kv.2; Some (<[kv.1 := s]> m)) (Some old) kvs
  | JNull => Some ∅
  | _ => None
  end.
Definition dec_struct {A} (zero : A) (dec : list (string * json) → option A) (v : json) : option A :=
  match v with JObj kvs => dec kvs | JNull => Some zero | _ => None end.

Definition link_names : list string :=
  ["name"; "linkGroup"; "url"; "target"; "icon"; "source"; "metadata"; "groups"].
Definition decode_link : json → option DashboardLink :=
  dec_struct
    {| l_Name := ""; l_LinkGroup := ""; l_URL := ""; l_Target := ""; l_Icon := ""; l_Source := "";
       l_Metadata := ""; l_Groups := []; l_Replicate := false |}
    (fun kvs =>
      let text n := get dec_string "" link_names n kvs in
      name ← text "name"; linkGroup ← text "linkGroup"; url ← text "url"; target ← text "target";
      icon ← text "icon"; source ← text "source"; metadata ← text "metadata";
      groups ← get (dec_list (dec_string "")) [] link_names "groups" kvs;
      Some {| l_Name := name; l_LinkGroup := linkGroup; l_URL := url; l_Target := target;
              l_Icon := icon; l_Source := source; l_Metadata := metadata; l_Groups := groups;
              l_Replicate := false |}).

Definition tile_names : list string := ["name"; "icon"; "url"; "target"; "source"; "content"].
Definition decode_tile : json → option DashboardInfoTile :=
  dec_struct
    {| t_Name := ""; t_Icon := ""; t_URL := ""; t_Target := ""; t_Source := ""; t_Content := "";
       t_Replicate := false |}
    (fun kvs =>
      let text n := get dec_string "" tile_names n kvs in
      name ← text "name"; icon ← text "icon"; url ← text "url"; target ← text "target";
      source ← text "source"; content ← text "content";
      Some {| t_Name := name; t_Icon := icon; t_URL := url; t_Target := target; t_Source := source;
              t_Content := content; t_Replicate := false |}).

Definition link_group_names : list string :=
  ["name"; "priority"; "priorityClass"; "displayName"; "source"; "properties"].
Definition decode_link_group : json → option DashboardLinkGroup :=
  dec_struct
    {| g_Name := ""; g_Priority := 0; g_PriorityClass := ""; g_DisplayName := ""; g_Source := "";
       g_Properties := ∅; g_Replicate := false |}
    (fun kvs =>
      let text n := get dec_string "" link_group_names n kvs in
      name ← text "name"; priority ← get dec_int 0%Z link_group_names "priority" kvs;
      class ← text "priorityClass"; display ← text "displayName"; source ← text "source";
      properties ← get dec_map ∅ link_group_names "properties" kvs;
      Some {| g_Name := name; g_Priority := priority; g_PriorityClass := class;
              g_DisplayName := display; g_Source := source; g_Properties := properties;
              g_Replicate := false |}).

Definition group_names : list string := ["name"; "linkGroup"; "links"; "tiles"; "source"].
Definition decode_group : json → option DashboardGroup :=
  dec_struct {| dg_Name := ""; dg_LinkGroup := ""; dg_Links := []; dg_Tiles := []; dg_Source := "" |}
    (fun kvs =>
      let text n := get dec_string "" group_names n kvs in
      name ← text "name"; linkGroup ← text "linkGroup";
      links ← get (dec_list decode_link) [] group_names "links" kvs;
      tiles ← get (dec_list decode_tile) [] group_names "tiles" kvs;
      source ← text "source";
      Some {| dg_Name := name; dg_LinkGroup := linkGroup; dg_Links := links; dg_Tiles := tiles;
              dg_Source := source |}).

Definition response_names : list string := ["linkGroups"; "groups"].
Definition decode_response : json → option DashboardResponse :=
  dec_struct {| r_LinkGroups := []; r_Groups := [] |}
    (fun kvs =>
      linkGroups ← get (dec_list decode_link_group) [] response_names "linkGroups" kvs;
      groups ← get (dec_list decode_group) [] response_names "groups" kvs;
      Some {| r_LinkGroups := linkGroups; r_Groups := groups |}).
End decode.

(** ** What survives the wire *)

Definition link_on_wire (l : DashboardLink) : DashboardLink :=
  {| l_Name := l_Name l; l_LinkGroup := l_LinkGroup l; l_URL := l_URL l; l_Target := l_Target l;
     l_Icon := l_Icon l; l_Source := l_Source l; l_Metadata := l_Metadata l; l_Groups := l_Groups l;
     l_Replicate := false |}.
Definition tile_on_wire (t : DashboardInfoTile) : DashboardInfoTile :=
  {| t_Name := t_Name t; t_Icon := t_Icon t; t_URL := t_URL t; t_Target := t_Target t;
     t_Source := t_Source t; t_Content := t_Content t; t_Replicate := false |}.
Definition link_group_on_wire (g : DashboardLinkGroup) : DashboardLinkGroup :=
  {| g_Name := g_Name g; g_Priority := g_Priority g; g_PriorityClass := g_PriorityClass g;
     g_DisplayName := g_DisplayName g; g_Source := g_Source g; g_Properties := g_Properties g;
     g_Replicate := false |}.
Definition group_on_wire (g : DashboardGroup) : DashboardGroup :=
  {| dg_Name := dg_Name g; dg_LinkGroup := dg_LinkGroup g; dg_Links := link_on_wire <$> dg_Links g;
     dg_Tiles := tile_on_wire <$> dg_Tiles g; dg_Source := dg_Source g |}.
Definition on_wire (r : DashboardResponse) : DashboardResponse :=
  {| r_LinkGroups := link_group_on_wire <$> r_LinkGroups r; r_Groups := group_on_wire <$> r_Groups r |}.

(** Every string of a value is valid UTF-8. *)
Fixpoint utf8_json (v : json) : bool :=
  match v with
  | JStr s => valid_utf8 s
  | JArr l => forallb utf8_json l
  | JObj l => forallb (fun '(k, x) => valid_utf8 k && utf8_json x) l
  | _ => true
  end.

Lemma utf8_normalise v : utf8_json v = true → normalise v = v.
Proof.
  induction v as [| | |s|l IH|l IH] using json_nested_ind; simpl; try done.
  - intros Hs. by rewrite to_valid_id.
  - intros Hl. f_equal. induction IH as [|x l Hx _ IHl]; [done|].
    apply andb_true_iff in Hl as [??]. simpl. by rewrite Hx, IHl.
  - intros Hl. f_equal. induction IH as [|[k x] l Hx _ IHl]; [done|].
    apply andb_true_iff in Hl as [[??]%andb_true_iff ?]. cbn [snd] in Hx. simpl.
    by rewrite to_valid_id, Hx, IHl.
Qed.

Section roundtrip.
Context `{Unicode}.

(** The value a struct's encoding holds for a field. *)
Definition assoc (n : string) (fs : fields) : option json :=
  default None (find_map (fun '(k, o) => if bool_decide (k = n) then Some o else None) fs).

Lemma field_of_exact names k : k ∈ names → field_of names k = Some k.
Proof. intros Hk. unfold field_of. by rewrite bool_decide_true. Qed.

Lemma field_values_present names n fs : (∀ k, k ∈ fs.*1 → k ∈ names) → NoDup fs.*1 →
  field_values names n (present fs) = match assoc n fs with Some v => [v] | None => [] end.
Proof.
  induction fs as [|[k o] fs IH]; intros Hin Hn; [done|].
  rewrite fmap_cons in Hin, Hn. apply NoDup_cons in Hn as [Hk Hn]. cbn [fst] in *.
  assert (field_values names n (present ((k, o) :: fs)) =
    (if bool_decide (k = n) then match o with Some v => [v] | None => [] end else [])
      ++ field_values names n (present fs)) as ->.
  { unfold field_values, present. cbn [omap list_omap]. destruct o as [v|]; cbn [fmap option_fmap option_map].
    - cbn [omap list_omap fst snd]. rewrite field_of_exact by (apply Hin; left).
      case_bool_decide; case_bool_decide; simplify_eq; done.
    - by case_bool_decide. }
  rewrite IH by (done || intros; apply Hin; by right).
  unfold assoc. cbn [find_map]. case_bool_decide as E; [|done]. subst. cbn [default from_option].
  assert (find_map (fun '(k, o0) => if bool_decide (k = n) then Some o0 else None) fs = None) as ->;
    [|by destruct o].
  apply find_map_None, Forall_forall. intros [k' o'] Hk'. case_bool_decide; [|done]. subst.
  destruct Hk. apply list_elem_of_fmap. by exists (n, o').
Qed.

Lemma get_encoded {A} (dec : A → json → option A) zero names n fs :
  fs.*1 = names → NoDup names →
  get dec zero names n (present fs) = match assoc n fs with Some v => dec zero v | None => Some zero end.
Proof.
  intros <- Hn. unfold get. rewrite field_values_present by done. by destruct (assoc n fs).
Qed.

Lemma dec_omit_string s : match omit_string s with Some v => dec_string "" v | None => Some "" end = Some s.
Proof. unfold omit_string. case_bool_decide; by subst. Qed.

Lemma mapM_fmap {A B} (f : A → json) (dec : json → option B) (g : A → B) l :
  (∀ x, x ∈ l → dec (f x) = Some (g x)) → mapM dec (f <$> l) = Some (g <$> l).
Proof.
  induction l as [|x l IH]; intros Hd; [done|]. rewrite !fmap_cons.
  change (mapM dec (f x :: (f <$> l))) with (y ← dec (f x); k ← mapM dec (f <$> l); Some (y :: k)).
  rewrite Hd by left. cbn [mbind option_bind]. rewrite IH; [done|]. intros y Hy. apply Hd. by right.
Qed.

Lemma dec_omit_strings l :
  match omit_strings l with Some v => dec_list (dec_string "") [] v | None => Some [] end = Some l.
Proof.
  unfold omit_strings, encode_strings. case_bool_decide; subst; [done|].
  unfold dec_list. rewrite (mapM_fmap JStr _ id) by done. by rewrite list_fmap_id.
Qed.

Lemma dec_entries (l : list (string * string)) (m : gmap string string) :
  foldl (fun (acc : option (gmap string string)) (kv : string * json) => m ← acc; s ← dec_string "" kv.2; Some (<[kv.1 := s]> m)) (Some m)
    ((fun kv => (kv.1, JStr kv.2)) <$> l) = Some (foldl (fun (m : gmap string string) kv => <[kv.1 := kv.2]> m) m l).
Proof. revert m. induction l as [|[k s] l IH]; intros m; [done|]. apply IH. Qed.

Lemma dec_omit_map m : match omit_map m with Some v => dec_map ∅ v | None => Some ∅ end = Some m.
Proof.
  unfold omit_map. case_bool_decide; [by subst|]. unfold dec_map. rewrite dec_entries. f_equal.
  assert (sorted_entries m ≡ₚ map_to_list m) as Hp by apply insertion_sort_perm.
  assert (NoDup (sorted_entries m).*1) as Hn by (rewrite Hp; apply NoDup_fst_map_to_list).
  rewrite <-(list_to_map_to_list m) at 2. rewrite <-(list_to_map_proper _ _ Hn Hp).
  apply map_eq. intros k. clear Hp. generalize (sorted_entries m) Hn. intros l Hl.
  enough (∀ m0 : gmap string string, foldl (fun (m : gmap string string) kv => <[kv.1 := kv.2]> m) m0 l !! k =
    match list_to_map (M := gmap string string) l !! k with Some s => Some s | None => m0 !! k end) as ->
    by (rewrite lookup_empty; by case_match).
  induction l as [|[k' s] l IH]; intros m0; [done|]. apply NoDup_cons in Hl as [Hk' Hl].
  cbn [foldl fst snd]. rewrite IH by done. rewrite list_to_map_cons, !lookup_insert.
  case_decide; [|done]. subst. apply not_elem_of_list_to_map_1 in Hk'. cbn [fst] in Hk'. by rewrite Hk'.
Qed.

End roundtrip.

(** [assoc] on a struct's own field names computes. *)
Ltac struct_roundtrip :=
  cbn [dec_struct]; cbv zeta;
  repeat (rewrite get_encoded; [|reflexivity|by apply (bool_decide_unpack _); vm_compute]);
  unfold assoc;
  cbn [find_map fst snd];
  repeat match goal with
  | |- context [bool_decide (?a = ?b :> string)] =>
    first [rewrite (bool_decide_true (a = b)) by reflexivity | rewrite (bool_decide_false (a = b)) by done]
  end;
  cbn [default from_option id dec_string];
  rewrite ?dec_omit_string, ?dec_omit_strings, ?dec_omit_map; cbn [mbind option_bind].

Section structs.
Context `{Unicode}.

Lemma decode_encode_link l : decode_link (JObj (present (link_fields l))) = Some (link_on_wire l).
Proof. unfold decode_link, link_fields. struct_roundtrip. done. Qed.

Lemma decode_encode_tile t : decode_tile (JObj (present (tile_fields t))) = Some (tile_on_wire t).
Proof. unfold decode_tile, tile_fields. struct_roundtrip. done. Qed.

Lemma decode_encode_link_group g : in_int64 (g_Priority g) →
  decode_link_group (JObj (present (link_group_fields g))) = Some (link_group_on_wire g).
Proof.
  intros Hp. unfold decode_link_group, link_group_fields. struct_roundtrip.
  cbn [dec_int]. rewrite parse_int_itoa by done. cbn [mbind option_bind].
  rewrite ?dec_omit_string, ?dec_omit_map. done.
Qed.

Lemma dec_list_fmap {A B} (f : A → json) (dec : json → option B) (g : A → B) (old : list B) l :
  (∀ x, x ∈ l → dec (f x) = Some (g x)) → dec_list dec old (JArr (f <$> l)) = Some (g <$> l).
Proof. apply mapM_fmap. Qed.

Lemma decode_encode_group g : decode_group (JObj (present (group_fields g))) = Some (group_on_wire g).
Proof.
  unfold decode_group, group_fields. struct_roundtrip.
  rewrite (dec_list_fmap _ decode_link link_on_wire) by (intros; apply decode_encode_link).
  cbn [mbind option_bind].
  assert (match (if bool_decide (dg_Tiles g = []) then None
      else Some (JArr ((fun t => JObj (present (tile_fields t))) <$> dg_Tiles g))) with
    | Some v => dec_list decode_tile [] v | None => Some [] end = Some (tile_on_wire <$> dg_Tiles g)) as ->.
  { case_bool_decide as E; [by rewrite E|].
    apply (dec_list_fmap _ decode_tile tile_on_wire). intros. apply decode_encode_tile. }
  cbn [mbind option_bind]. rewrite ?dec_omit_string. done.
Qed.

(** Decoding what was encoded gives back the response, without the flags that
    are not serialised. *)
Lemma decode_encode_response r : Forall (fun g => in_int64 (g_Priority g)) (r_LinkGroups r) →
  decode_response (encode_response r) = Some (on_wire r).
Proof.
  intros Hp. unfold decode_response, encode_response, response_fields. struct_roundtrip.
  rewrite (dec_list_fmap _ decode_link_group link_group_on_wire).
  - cbn [mbind option_bind].
    rewrite (dec_list_fmap _ decode_group group_on_wire) by (intros; apply decode_encode_group). done.
  - intros g Hg. apply decode_encode_link_group. rewrite Forall_forall in Hp. by apply Hp.
Qed.

(** *** The numbers of an encoded response are well formed *)

Lemma numbers_ok_fields fs : Forall (fun p => match p.2 with Some v => numbers_ok v | None => True end) fs →
  numbers_ok (JObj (present fs)).
Proof.
  intros Hf. cbn [numbers_ok]. apply numbers_ok_members. unfold present.
  induction Hf as [|[k [v|]] fs Hv _ IH]; cbn; [constructor|by constructor|done].
Qed.

Lemma numbers_ok_array {A} (f : A → json) l : (∀ x, numbers_ok (f x)) → numbers_ok (JArr (f <$> l)).
Proof.
  intros Hf. cbn [numbers_ok]. apply numbers_ok_elements. apply Forall_forall.
  by intros v (x & -> & _)%list_elem_of_fmap.
Qed.

Lemma numbers_ok_omit_string s : match omit_string s with Some v => numbers_ok v | None => True end.
Proof. unfold omit_string. by case_bool_decide. Qed.

Ltac solve_fields :=
  apply numbers_ok_fields; repeat constructor; cbn [snd];
  try apply numbers_ok_omit_string; try exact I; try apply itoa_number.

Lemma link_numbers_ok l : numbers_ok (JObj (present (link_fields l))).
Proof.
  solve_fields. unfold omit_strings. case_bool_decide; [done|]. by apply numbers_ok_array.
Qed.
Lemma tile_numbers_ok t : numbers_ok (JObj (present (tile_fields t))).
Proof. solve_fields. Qed.
Lemma link_group_numbers_ok g : numbers_ok (JObj (present (link_group_fields g))).
Proof.
  solve_fields. unfold omit_map. case_bool_decide; [done|]. cbn [numbers_ok].
  apply numbers_ok_members, Forall_forall. by intros kv (x & -> & _)%list_elem_of_fmap.
Qed.
Lemma group_numbers_ok g : numbers_ok (JObj (present (group_fields g))).
Proof.
  solve_fields.
  - apply numbers_ok_array. intros. apply link_numbers_ok.
  - case_bool_decide; [done|]. apply numbers_ok_array. intros. apply tile_numbers_ok.
Qed.

Lemma response_numbers_ok r : numbers_ok (encode_response r).
Proof.
  unfold encode_response. solve_fields; apply numbers_ok_array; intros;
    [apply link_group_numbers_ok|apply group_numbers_ok].
Qed.
End structs.
