(* ===== verification/Any.v ===== *)
(** * Any: JSON documents as Go's [any] and [map[string]any]

    What [json.Unmarshal] builds in an [any] and what [json.Marshal] writes
    for it.  Numbers become [float64]: the shortest decimal text and its
    parser, [strconv.FormatFloat] and [ParseFloat], are the class
    [Float64Text]. *)

From S2P Require Import Prelude GoStrings StableSort ApiTypes Json JsonSpec Wire.

(** Bits of a [float64] and its text; [None] is a number out of range. *)
Class Float64Text := {
  parse_float : list ascii → option Z;
  format_float : Z → list ascii
}.

(** [format_float] writes JSON numbers that [parse_float] reads back. *)
Class Float64Laws `{Float64Text} := {
  format_float_number : ∀ z, number_ok (format_float z);
  parse_format_float : ∀ lit z, parse_float lit = Some z → parse_float (format_float z) = Some z
}.

(** Booleans are enough for evaluation: no literal but [0] and [1]. *)
Definition float_bits : Float64Text :=
  {| parse_float := fun lit => if bool_decide (lit = bytes "0") then Some 0%Z
       else if bool_decide (lit = bytes "1") then Some 4607182418800017408%Z else None;
     format_float := fun z => if bool_decide (z = 0%Z) then bytes "0" else bytes "1" |}.

#[export] Instance float_bits_laws : @Float64Laws float_bits.
Proof.
  split.
  - intros z. cbn. case_bool_decide; [apply (itoa_number 0)|apply (itoa_number 1)].
  - intros lit z. cbn. repeat case_bool_decide; intros; simplify_eq; done.
Qed.

Section any.
Context `{Float64Text}.

Definition insert_member (m : gmap string any) (kv : string * any) : gmap string any := <[kv.1 := kv.2]> m.

Fixpoint decode_any (v : json) : option any :=
  match v with
  | JNull => Some ANil
  | JBool b => Some (ABool b)
  | JNum lit => AFloat64 <$> parse_float lit
  | JStr s => Some (AString s)
  | JArr l => ASlice <$> mapM decode_any l
  | JObj l => (fun kvs => AMap (foldl insert_member ∅ kvs)) <$> mapM (fun '(k, x) => pair k <$> decode_any x) l
  end.

Definition key_lt {A} (a b : string * A) : bool := str_lt a.1 b.1.

Fixpoint encode_any (x : any) : json :=
  match x with
  | ANil => JNull
  | ABool b => JBool b
  | AInt64 z => JNum (bytes (itoa z))
  | AFloat64 z => JNum (format_float z)
  | AString s => JStr s
  | AStrings l => encode_strings l
  | ASlice l => JArr (encode_any <$> l)
  | AMap m => JObj (insertion_sort key_lt (map_fold (fun k x l => (k, encode_any x) :: l) [] m))
  end.

(** A [map[string]any]; [None] is the nil map. *)
Definition encode_any_map (m : option (gmap string any)) : json :=
  match m with None => JNull | Some m => encode_any (AMap m) end.
Definition dec_any_map (old : option (gmap string any)) (v : json) : option (option (gmap string any)) :=
  match v with
  | JNull => Some None
  | JObj _ => match decode_any v with Some (AMap m) => Some (Some (m ∪ default ∅ old)) | _ => None end
  | _ => None
  end.

(** ** Round trip *)

(** A value the decoder can have built. *)
Inductive from_json : any → Prop :=
| from_nil : from_json ANil
| from_bool b : from_json (ABool b)
| from_float lit z : parse_float lit = Some z → from_json (AFloat64 z)
| from_string s : from_json (AString s)
| from_slice l : Forall from_json l → from_json (ASlice l)
| from_map m : (∀ k x, m !! k = Some x → from_json x) → from_json (AMap m).

Section from_json_rect.
Context (P : any → Prop)
  (Hnil : P ANil) (Hbool : ∀ b, P (ABool b))
  (Hfloat : ∀ lit z, parse_float lit = Some z → P (AFloat64 z)) (Hstring : ∀ s, P (AString s))
  (Hslice : ∀ l, Forall from_json l → Forall P l → P (ASlice l))
  (Hmap : ∀ m, (∀ k x, m !! k = Some x → from_json x) → (∀ k x, m !! k = Some x → P x) → P (AMap m)).

(** Rule induction that reaches the elements of slices and maps. *)
Fixpoint from_json_nested_ind (x : any) (Hx : from_json x) : P x :=
  match Hx with
  | from_nil => Hnil
  | from_bool b => Hbool b
  | from_float lit z Hz => Hfloat lit z Hz
  | from_string s => Hstring s
  | from_slice l Hl => Hslice l Hl
      ((fix go l (Hl : Forall from_json l) : Forall P l :=
        match Hl with
        | List.Forall_nil _ => @List.Forall_nil _ P
        | List.Forall_cons _ x l Hx Hl => @List.Forall_cons _ P x l (from_json_nested_ind x Hx) (go l Hl)
        end) l Hl)
  | from_map m Hm => Hmap m Hm (fun k x E => from_json_nested_ind x (Hm k x E))
  end.
End from_json_rect.

Lemma map_fold_members (f : any → json) (m : gmap string any) :
  map_fold (fun k x l => (k, f x) :: l) [] m = (fun kv => (kv.1, f kv.2)) <$> map_to_list m.
Proof.
  rewrite map_fold_foldr. induction (map_to_list m) as [|[k x] l IH]; [done|]. cbn. by rewrite IH.
Qed.

Lemma foldl_insert_members (m : gmap string any) l : l ≡ₚ map_to_list m → foldl insert_member ∅ l = m.
Proof.
  intros Hl. assert (NoDup l.*1) as Hnd by (rewrite Hl; apply NoDup_fst_map_to_list).
  assert (∀ a, foldl insert_member a l = list_to_map l ∪ a) as E.
  { clear Hl. induction l as [|[k x] l IH]; intros a; cbn [foldl]; [by rewrite list_to_map_nil, (left_id_L ∅ (∪))|].
    rewrite fmap_cons in Hnd. apply NoDup_cons in Hnd as [Hk Hnd]. rewrite IH by done. unfold insert_member. cbn [fst snd].
    rewrite list_to_map_cons. rewrite <-insert_union_l, insert_union_r; [done|].
    by apply not_elem_of_list_to_map_1. }
  rewrite E, (right_id_L ∅ (∪)). rewrite (list_to_map_proper _ (map_to_list m)) by done.
  apply list_to_map_to_list.
Qed.

Lemma mapM_Forall_Some {A B} (f : A → option B) (g : A → B) l :
  Forall (fun x => f x = Some (g x)) l → mapM f l = Some (g <$> l).
Proof. induction 1 as [|x l Hx _ IH]; [done|]. cbn. by rewrite Hx, IH. Qed.

Lemma decode_encode_any `{!Float64Laws} x : from_json x → decode_any (encode_any x) = Some x.
Proof.
  induction 1 as [|b|lit z Hz|s|l _ IH|m _ IH] using from_json_nested_ind; try done.
  - cbn. by rewrite (parse_format_float lit).
  - cbn [encode_any decode_any]. fold (encode_any <$> l).
    assert (mapM decode_any (encode_any <$> l) = Some l) as ->; [|done].
    induction IH as [|x l Hx _ IH]; [done|]. cbn. by rewrite Hx, IH.
  - cbn [encode_any decode_any]. rewrite map_fold_members.
    set (kvs := (fun kv => (kv.1, encode_any kv.2)) <$> map_to_list m).
    assert (insertion_sort key_lt kvs ≡ₚ kvs) as Hp by apply insertion_sort_perm.
    apply Permutation_map_inv in Hp as (l & -> & Hl).
    assert (mapM (fun '(k, x) => pair k <$> decode_any x) (map (fun kv => (kv.1, encode_any kv.2)) l) = Some l) as ->.
    { assert (Forall (fun kv : string * any => decode_any (encode_any kv.2) = Some kv.2) l) as IHl.
      { rewrite <-Hl. apply Forall_forall. intros [k x] Hkx. apply (IH k). by apply elem_of_map_to_list. }
      clear Hl. induction IHl as [|[k x] l Hx _ IHl]; [done|]. cbn in Hx |- *. by rewrite Hx, IHl. }
    change (Some (AMap (foldl insert_member ∅ l)) = Some (AMap m)). by rewrite (foldl_insert_members m).
Qed.

Lemma encode_any_numbers `{!Float64Laws} x : from_json x → numbers_ok (encode_any x).
Proof.
  induction 1 as [|b|lit z Hz|s|l _ IH|m _ IH] using from_json_nested_ind; try done.
  - apply format_float_number.
  - cbn [encode_any numbers_ok]. apply numbers_ok_elements. induction IH; constructor; done.
  - change (numbers_ok (JObj (insertion_sort key_lt (map_fold (fun k x l => (k, encode_any x) :: l) [] m)))).
    cbn [numbers_ok]. apply numbers_ok_members. rewrite insertion_sort_perm, map_fold_members.
    apply Forall_fmap, Forall_forall. intros [k x] Hkx. apply (IH k). by apply elem_of_map_to_list.
Qed.

(** Whatever the decoder builds, it has built from JSON. *)
Lemma decode_any_from_json v x : decode_any v = Some x → from_json x.
Proof.
  revert x. induction v as [|b|lit|s|l IH|l IH] using json_nested_ind; cbn [decode_any]; intros x Hx.
  - injection Hx as <-. constructor.
  - injection Hx as <-. constructor.
  - destruct (parse_float lit) as [z|] eqn:E; [|done]. injection Hx as <-. by eapply from_float.
  - injection Hx as <-. constructor.
  - destruct (mapM decode_any l) as [xs|] eqn:E; [|done]. injection Hx as <-. constructor.
    apply mapM_Some in E. induction E as [|v x l xs Hv _ IHE]; [constructor|].
    apply Forall_cons in IH as [IHv IH]. constructor; auto.
  - destruct (mapM _ l) as [xs|] eqn:E; [|done]. injection Hx as <-. constructor. apply mapM_Some in E.
    assert (Forall (fun kv : string * any => from_json kv.2) xs) as Hxs.
    { induction E as [|[k v] kx l xs Hv _ IHE]; [constructor|]. apply Forall_cons in IH as [IHv IH].
      cbn in Hv, IHv. destruct (decode_any v) as [y|] eqn:Ev; [|done]. injection Hv as <-. constructor; auto. }
    clear E IH. intros k x. revert k x.
    apply (foldl_ind (fun m : gmap string any => ∀ k x, m !! k = Some x → from_json x)); [done|].
    intros m kv Hkv Hm k x. unfold insert_member. rewrite lookup_insert_Some. intros [[<- <-]|[_ E]]; [|by eapply Hm].
    rewrite Forall_forall in Hxs. by apply Hxs.
Qed.
End any.
