(* ===== verification/Sync.v ===== *)
(** * Sync: web/sync.go

    The client that polls peer instances into a cache, the endpoint that
    serves them, and the TLS configuration of both.  DNS, the peers' HTTP
    servers and certificate files are outside: the classes [Network] and
    [TLSFiles] state what the code calls. *)

From S2P Require Import Prelude GoStrings StableSort ApiTypes UrlResolver Links Collectors Dashboard.
From S2P Require Import Json Wire.

(** ** Options (web/options.go) *)
Record SyncTLSOptions := {
  stls_CA : string;
  stls_Cert : string;
  stls_Key : string;
  stls_AuthCert : string;
  stls_AuthKey : string
}.

Record SyncOptions := {
  so_BindAddress : string;
  so_URLs : list string;
  so_SRVRecords : list string;
  so_TLS : SyncTLSOptions
}.

(** ** The network: DNS and [httpClient.Do] on a GET of a URL *)
Record SRV := { srv_Target : string; srv_Port : Z }.

Record Network := {
  LookupSRV : string → result (list SRV);
  http_get : string → result (Z * list ascii)
}.

(** ** Peers *)

(** The closure [add] of [discoverPeers]. *)
Definition add_peer (st : gset string * list string) (u : string) : gset string * list string :=
  let u := TrimSpace u in
  if bool_decide (u = "") then st else
  if bool_decide (u ∈ st.1) then st else ({[u]} ∪ st.1, st.2 ++ [u]).

Definition lookupSRVPeers (net : Network) (record : string) : list string :=
  match LookupSRV net record with
  | Err _ => []
  | Ok addrs =>
    (fun addr => "https://" +:+ TrimSuffix (srv_Target addr) "." +:+ ":" +:+ itoa (srv_Port addr)) <$> addrs
  end.

Definition discoverPeers (options : SyncOptions) (net : Network) : list string :=
  let st := foldl add_peer (∅, []) (so_URLs options) in
  (foldl (fun st record => foldl add_peer st (lookupSRVPeers net record)) st (so_SRVRecords options)).2.

Section client.
Context `{Unicode}.

Definition fetchFromPeer (net : Network) (peerURL : string) : result DashboardResponse :=
  match http_get net (peerURL +:+ "/dashboard") with
  | Err err => Err err
  | Ok (status, body) =>
    if bool_decide (status ≠ 200%Z) then Err (new_error ("peer returned HTTP " +:+ itoa status)) else
    match parse body ≫= (fun p => decode_response p.1) with
    | Some resp => Ok resp
    | None => Err (new_error "invalid JSON")
    end
  end.

(** One iteration of the fetch loop. *)
Definition fetch_step (net : Network) (cache : gmap string DashboardResponse) (peer : string)
    : gmap string DashboardResponse :=
  match fetchFromPeer net peer with
  | Err _ => cache
  | Ok resp => <[peer := resp]> cache
  end.

Definition fetchAll `{MapRange} (options : SyncOptions) (net : Network)
    (cache : gmap string DashboardResponse) : gmap string DashboardResponse :=
  let peers := discoverPeers options net in
  let peerSet : gset string := list_to_set peers in
  let cache := foldl (fetch_step net) cache peers in
  foldl (fun cache entry => if bool_decide (entry.1 ∈ peerSet) then cache else delete entry.1 cache)
    cache (range [8] cache).

(** [Start]: a poll at once and one at every tick until the context ends; the
    list is what the network answers at each of them. *)
Definition Start `{MapRange} (options : SyncOptions) (ticks : list Network)
    : gmap string DashboardResponse :=
  foldl (fun cache net => fetchAll options net cache) ∅ ticks.
End client.

Definition GetRemoteData (cache : gmap string DashboardResponse) : gmap string DashboardResponse := cache.

(** ** The endpoint *)
Record http_response := { hr_Status : Z; hr_Body : list ascii }.

Definition newline : list ascii := [of_byte 10].

(** [http.Error]: the message on a line of its own. *)
Definition http_error (message : string) (status : Z) : http_response :=
  {| hr_Status := status; hr_Body := bytes message ++ newline |}.

(** The handler of [/dashboard]. *)
Definition serveSync `{Unicode, Apimachinery, MapRange, StableSort} (collector : dashboardCollector)
    (method : string) : http_response :=
  if bool_decide (method ≠ "GET") then http_error "Method Not Allowed" 405 else
  match collectDashboard collector [allLinkGroupsWildcard] true with
  | Err err => http_error (err_msg err) 500
  | Ok payload => {| hr_Status := 200; hr_Body := print (encode_response payload) ++ newline |}
  end.

(** ** TLS *)
Class TLSFiles := {
  Certificate : Type;
  CertPool : Type;
  ReadFile : string → result (list ascii);
  LoadX509KeyPair : string → string → result Certificate;
  AppendCertsFromPEM : list ascii → option CertPool
}.

Section tls.
Context `{TLSFiles}.

(** The fields of [tls.Config] the program sets; [RequireAndVerify] is
    [ClientAuth == tls.RequireAndVerifyClientCert]. *)
Record tls_config := {
  Certificates : list Certificate;
  RootCAs : option CertPool;
  ClientCAs : option CertPool;
  RequireAndVerify : bool
}.

Definition loadCertPool (path : string) : result CertPool :=
  match ReadFile path with
  | Err err => Err (wrap_error ("reading CA certificate from " +:+ path +:+ ": ") err)
  | Ok data =>
    match AppendCertsFromPEM data with
    | None => Err (new_error ("parsing CA certificate from " +:+ path))
    | Some pool => Ok pool
    end
  end.

Definition buildClientTLSConfig (ca certFile keyFile : string) : result tls_config :=
  pool ← (if bool_decide (ca ≠ "") then Some <$> loadCertPool ca else Ok None);
  certs ← (if bool_decide (certFile ≠ "") && bool_decide (keyFile ≠ "") then
      match LoadX509KeyPair certFile keyFile with
      | Err err => Err (wrap_error "loading sync client certificate: " err)
      | Ok cert => Ok [cert]
      end
    else Ok []);
  Ok {| Certificates := certs; RootCAs := pool; ClientCAs := None; RequireAndVerify := false |}.

(** The transport's [TLSClientConfig]; [None] is a nil pointer. *)
Definition buildSyncHTTPClient (opts : SyncTLSOptions) : result (option tls_config) :=
  let '(authCert, authKey) :=
    if bool_decide (stls_AuthCert opts = "") && bool_decide (stls_AuthKey opts = "")
    then (stls_Cert opts, stls_Key opts) else (stls_AuthCert opts, stls_AuthKey opts) in
  if bool_decide (stls_CA opts ≠ "") || bool_decide (authCert ≠ "") && bool_decide (authKey ≠ "")
  then Some <$> buildClientTLSConfig (stls_CA opts) authCert authKey
  else Ok None.

Definition BuildSyncServerTLSConfig (opts : SyncTLSOptions) : result (option tls_config) :=
  if bool_decide (stls_Cert opts = "") || bool_decide (stls_Key opts = "") then Ok None else
  match LoadX509KeyPair (stls_Cert opts) (stls_Key opts) with
  | Err err => Err (wrap_error "loading sync server certificate: " err)
  | Ok cert =>
    if bool_decide (stls_CA opts ≠ "") then
      pool ← loadCertPool (stls_CA opts);
      Ok (Some {| Certificates := [cert]; RootCAs := None; ClientCAs := Some pool; RequireAndVerify := true |})
    else
      Ok (Some {| Certificates := [cert]; RootCAs := None; ClientCAs := None; RequireAndVerify := false |})
  end.

(** Every replica polls, leader or not. *)
Definition SyncClient_NeedLeaderElection : bool := false.

(** [NewSyncClient]: the client starts with an empty cache. *)
Definition NewSyncClient (options : SyncOptions)
    : result (SyncOptions * option tls_config * gmap string DashboardResponse) :=
  tlsConfig ← buildSyncHTTPClient (so_TLS options);
  Ok (options, tlsConfig, ∅).
End tls.
