(* ===== verification/SyncProps.v ===== *)
(** * SyncProps: what peers exchange *)

From S2P Require Import Prelude GoStrings StableSort ApiTypes UrlResolver Links Collectors Dashboard.
From S2P Require Import RenderSpec Json JsonSpec Wire Sync Sample.

(** ** Peers *)

(** The URLs a poll considers, before they are trimmed and deduplicated. *)
Definition raw_peers (options : SyncOptions) (net : Network) : list string :=
  so_URLs options ++ concat (lookupSRVPeers net <$> so_SRVRecords options).

Lemma discoverPeers_groups options net : discoverPeers options net = add_groups (raw_peers options net).
Proof.
  unfold discoverPeers, add_groups, raw_peers. rewrite foldl_app.
  change add_group with add_peer. cbv zeta. f_equal.
  generalize (foldl add_peer (∅, []) (so_URLs options)). induction (so_SRVRecords options) as [|r l IH];
    intros st; [done|]. cbn [foldl]. rewrite fmap_cons. cbn [concat]. by rewrite foldl_app, <-IH.
Qed.

Section cache.
Context `{Unicode, MapRange}.
Implicit Types (cache : gmap string DashboardResponse).

Lemma fetch_loop_lookup net peers cache p :
  foldl (fetch_step net) cache peers !! p =
  if bool_decide (p ∈ peers) then
    match fetchFromPeer net p with Ok resp => Some resp | Err _ => cache !! p end
  else cache !! p.
Proof.
  revert cache. induction peers as [|q peers IH]; intros cache; [done|]. cbn [foldl]. rewrite IH.
  assert (fetch_step net cache q !! p = if bool_decide (p = q) then
    match fetchFromPeer net p with Ok resp => Some resp | Err _ => cache !! p end else cache !! p) as ->.
  { unfold fetch_step. destruct (decide (p = q)) as [->|Hne].
    - rewrite bool_decide_true by done. destruct (fetchFromPeer net q); [by rewrite lookup_insert_eq|done].
    - rewrite bool_decide_false by done. destruct (fetchFromPeer net q); [by rewrite lookup_insert_ne|done]. }
  clear IH. destruct (decide (p = q)) as [->|Hne]; [rewrite (bool_decide_true (q = q)) by done
    |rewrite (bool_decide_false (p = q)) by done];
    repeat case_bool_decide; try done; try set_solver; by destruct (fetchFromPeer net q).
Qed.

Lemma prune_lookup (keep : gset string) (l : list (string * DashboardResponse)) cache p :
  foldl (fun c e => if bool_decide (e.1 ∈ keep) then c else delete e.1 c) cache l !! p =
  if bool_decide (p ∈ l.*1 ∧ p ∉ keep) then None else cache !! p.
Proof.
  revert cache. induction l as [|[k r] l IH]; intros cache; [by rewrite bool_decide_false by set_solver|].
  cbn [foldl fst]. rewrite IH, fmap_cons. cbn [fst]. clear IH.
  destruct (decide (k ∈ keep)) as [Hk|Hk].
  - rewrite (bool_decide_true (k ∈ keep)) by done.
    repeat case_bool_decide; done || set_solver.
  - rewrite (bool_decide_false (k ∈ keep)) by done. destruct (decide (p = k)) as [->|Hne].
    + rewrite lookup_delete_eq. repeat case_bool_decide; done || set_solver.
    + rewrite lookup_delete_ne by done. repeat case_bool_decide; done || set_solver.
Qed.

Lemma fetchAll_at options net cache p :
  fetchAll options net cache !! p =
  if bool_decide (p ≠ "" ∧ p ∈ TrimSpace <$> raw_peers options net) then
    match fetchFromPeer net p with Ok resp => Some resp | Err _ => cache !! p end
  else None.
Proof.
  unfold fetchAll. cbv zeta. rewrite prune_lookup.
  assert (∀ q, q ∈ discoverPeers options net ↔ q ≠ "" ∧ q ∈ TrimSpace <$> raw_peers options net) as Hd.
  { intros q. rewrite discoverPeers_groups, list_elem_of_fmap. rewrite (proj2 (add_groups_spec _) q).
    naive_solver. }
  rewrite <-(bool_decide_ext _ _ (Hd p)).
  rewrite (bool_decide_ext _ (p ∈ (range [8] (foldl (fetch_step net) cache (discoverPeers options net))).*1
    ∧ p ∉ discoverPeers options net)) by (by rewrite elem_of_list_to_set).
  rewrite fetch_loop_lookup.
  destruct (decide (p ∈ discoverPeers options net)) as [Hp|Hp].
  - rewrite (bool_decide_true (p ∈ _)) by done. by rewrite bool_decide_false by tauto.
  - rewrite (bool_decide_false (p ∈ discoverPeers _ _)) by done. case_bool_decide as E; [done|].
    destruct (cache !! p) eqn:Hc; [|done]. destruct E. split; [|done].
    apply list_elem_of_fmap. exists (p, d). split; [done|]. apply elem_of_range.
    by rewrite fetch_loop_lookup, bool_decide_false.
Qed.

(** After a poll the cache holds exactly the peers now discovered (once
    each, trimmed): a peer that answered with its answer, one that failed with
    what was known before; peers that disappeared are forgotten. *)
Theorem fetchAll_lookup options net cache p :
  fetchAll options net cache !! p =
  if bool_decide (p ≠ "" ∧ p ∈ TrimSpace <$> raw_peers options net) then
    match fetchFromPeer net p with Ok resp => Some resp | Err _ => cache !! p end
  else None.
Proof. apply fetchAll_at. Qed.
End cache.

(** ** Nothing fetched is ever marked for replication *)

(** A response none of whose parts carries a replication flag. *)
Definition unflagged (resp : DashboardResponse) : Prop :=
  Forall (fun g => g_Replicate g = false) (r_LinkGroups resp) ∧
  Forall (fun g => Forall (fun l => l_Replicate l = false) (dg_Links g) ∧
                   Forall (fun t => t_Replicate t = false) (dg_Tiles g)) (r_Groups resp).

Section flags.
Context `{Unicode}.

(** [decodes_to P dec]: every value [dec] returns satisfies [P]. *)
Definition decodes_to {A} (P : A → Prop) (dec : json → option A) : Prop := ∀ v x, dec v = Some x → P x.

Lemma dec_struct_to {A} (P : A → Prop) zero dec :
  P zero → (∀ kvs x, dec kvs = Some x → P x) → decodes_to P (dec_struct zero dec).
Proof. intros Hz Hd v x. destruct v; simpl; try done; [by intros [= <-]|apply Hd]. Qed.

Lemma dec_list_to {A} (P : A → Prop) dec old v l :
  decodes_to P dec → dec_list dec old v = Some l → Forall P l.
Proof.
  intros Hd. destruct v; simpl; try done; [by intros [= <-]|]. intros Hl%mapM_Some.
  induction Hl as [|v x vs l Hx _ IH]; constructor; [by eapply Hd|done].
Qed.

Lemma get_to {A} (P : A → Prop) (dec : A → json → option A) zero names n kvs x :
  P zero → (∀ a v y, dec a v = Some y → P y) → get dec zero names n kvs = Some x → P x.
Proof.
  intros Hz Hd. unfold get.
  apply (foldl_ind (fun acc => acc = Some x → P x)); [by intros [= <-]|].
  intros acc v _ _. destruct acc as [a|]; [|done]. cbn. apply Hd.
Qed.

Lemma get_list_to {A} (P : A → Prop) (dec : json → option A) names n kvs l :
  decodes_to P dec → get (dec_list dec) [] names n kvs = Some l → Forall P l.
Proof. intros Hd. apply get_to; [constructor|]. intros a v y. by apply dec_list_to. Qed.

Ltac binds := repeat match goal with
  | |- _ ≫= _ = Some _ → _ => intros (? & ? & ?)%bind_Some
  | H : _ ≫= _ = Some _ |- _ => apply bind_Some in H as (? & ? & ?)
  | H : Some _ = Some _ |- _ => injection H as <-
  end.

Lemma decode_link_to : decodes_to (fun l => l_Replicate l = false) decode_link.
Proof. apply dec_struct_to; [done|]. intros kvs x. cbv zeta. intros Hx. binds. done. Qed.
Lemma decode_tile_to : decodes_to (fun t => t_Replicate t = false) decode_tile.
Proof. apply dec_struct_to; [done|]. intros kvs x. cbv zeta. intros Hx. binds. done. Qed.
Lemma decode_link_group_to : decodes_to (fun g => g_Replicate g = false) decode_link_group.
Proof. apply dec_struct_to; [done|]. intros kvs x. cbv zeta. intros Hx. binds. done. Qed.
Lemma decode_group_to : decodes_to (fun g => Forall (fun l => l_Replicate l = false) (dg_Links g) ∧
  Forall (fun t => t_Replicate t = false) (dg_Tiles g)) decode_group.
Proof.
  apply dec_struct_to; [done|]. intros kvs x. cbv zeta. intros Hx. binds.
  split; eapply get_list_to; [apply decode_link_to|done|apply decode_tile_to|done].
Qed.
Lemma decode_response_to : decodes_to unflagged decode_response.
Proof.
  apply dec_struct_to; [done|]. intros kvs x Hx. binds.
  split; eapply get_list_to; [apply decode_link_group_to|done|apply decode_group_to|done].
Qed.

Lemma fetch_unflagged net peer resp : fetchFromPeer net peer = Ok resp → unflagged resp.
Proof.
  unfold fetchFromPeer. destruct (http_get net _) as [[status body]|]; [|done].
  case_bool_decide; [done|]. destruct (parse body ≫= _) as [r|] eqn:E; [|done]. intros [= <-].
  apply bind_Some in E as (p & _ & Hp). by eapply decode_response_to.
Qed.
End flags.

(** The answer of an instance to a sync request, as a network would carry it. *)
Definition answers `{Unicode, Apimachinery, MapRange, StableSort} (net : Network) (peer : string)
    (c : dashboardCollector) : Prop :=
  http_get net (peer +:+ "/dashboard") = Ok (hr_Status (serveSync c "GET"), hr_Body (serveSync c "GET")).

Section properties.
Context `{Unicode, Apimachinery, MapRange, StableSort}.

Lemma fetch_answers net peer c :
  answers net peer c →
  (∀ resp, collectDashboard c [allLinkGroupsWildcard] true = Ok resp →
    utf8_json (encode_response resp) = true ∧
    Forall (fun g => in_int64 (g_Priority g)) (r_LinkGroups resp)) →
  match collectDashboard c [allLinkGroupsWildcard] true with
  | Ok resp => fetchFromPeer net peer = Ok (on_wire resp)
  | Err _ => fetchFromPeer net peer = Err (new_error "peer returned HTTP 500")
  end.
Proof.
  unfold answers, serveSync. change (bool_decide ("GET" ≠ "GET")) with false. cbv iota. intros Hget Hok.
  unfold fetchFromPeer. rewrite Hget. destruct (collectDashboard c _ true) as [resp|e]; cbn [hr_Status hr_Body].
  - destruct (Hok resp eq_refl) as [Hutf Hprio]. change (bool_decide (200%Z ≠ 200%Z)) with false. cbv iota.
    rewrite parse_print by (apply response_numbers_ok || done). cbn [mbind option_bind fst].
    by rewrite utf8_normalise, decode_encode_response.
  - reflexivity.
Qed.

(** C26: what an instance fetches from a peer is what the peer's sync endpoint
    collected, except for the flags that are not serialised; if the peer
    failed, fetching fails. *)
Theorem sync_end_to_end net peer c :
  answers net peer c →
  (∀ resp, collectDashboard c [allLinkGroupsWildcard] true = Ok resp →
    utf8_json (encode_response resp) = true ∧
    Forall (fun g => in_int64 (g_Priority g)) (r_LinkGroups resp)) →
  match collectDashboard c [allLinkGroupsWildcard] true with
  | Ok resp => fetchFromPeer net peer = Ok (on_wire resp)
  | Err _ => fetchFromPeer net peer = Err (new_error "peer returned HTTP 500")
  end.
Proof. apply fetch_answers. Qed.

(** Whatever peers answer, nothing that reaches the cache is marked for
    replication: a cached entry is never exported again, even by an instance
    that were to serve it. *)
Theorem cache_never_replicated options ticks peer resp :
  Start options ticks !! peer = Some resp → unflagged resp.
Proof.
  unfold Start. revert peer resp.
  apply (foldl_ind (fun cache : gmap string DashboardResponse => ∀ peer resp, cache !! peer = Some resp → unflagged resp)).
  - intros peer resp. by rewrite lookup_empty.
  - intros cache net _ IH peer resp. unfold fetchAll. cbv zeta. rewrite prune_lookup.
    case_bool_decide; [done|]. rewrite fetch_loop_lookup. case_bool_decide; [|apply IH].
    destruct (fetchFromPeer net peer) eqn:E; [|apply IH]. intros [= <-]. by eapply fetch_unflagged.
Qed.
End properties.

(** ** TLS *)
Section tls.
Context `{TLSFiles}.

(** The sync server speaks TLS exactly when certificate and key are both
    configured; it then demands a verified client certificate exactly when a
    CA is configured, against that CA. *)
Lemma sync_server_mtls opts :
  match BuildSyncServerTLSConfig opts with
  | Ok None => stls_Cert opts = "" ∨ stls_Key opts = ""
  | Ok (Some cfg) =>
    stls_Cert opts ≠ "" ∧ stls_Key opts ≠ "" ∧
    (∃ cert, LoadX509KeyPair (stls_Cert opts) (stls_Key opts) = Ok cert ∧ Certificates cfg = [cert]) ∧
    (RequireAndVerify cfg = true ↔ stls_CA opts ≠ "") ∧
    (stls_CA opts ≠ "" → ∃ pool, loadCertPool (stls_CA opts) = Ok pool ∧ ClientCAs cfg = Some pool)
  | Err _ => stls_Cert opts ≠ "" ∧ stls_Key opts ≠ ""
  end.
Proof.
  unfold BuildSyncServerTLSConfig.
  destruct (decide (stls_Cert opts = "")) as [->|Hc]; [by left|].
  destruct (decide (stls_Key opts = "")) as [->|Hk]; [rewrite bool_decide_false by done; by right|].
  rewrite !bool_decide_false by done. cbn [orb].
  destruct (LoadX509KeyPair _ _) as [cert|e]; [|done]. case_bool_decide as Hca.
  - destruct (loadCertPool _) as [pool|e]; cbn; [|done]. split_and!; naive_solver.
  - cbn. split_and!; naive_solver.
Qed.
End tls.

(** ** Witnesses *)

Definition sample_network : Network :=
  {| LookupSRV := fun _ => Err refused;
     http_get := fun url =>
       if bool_decide (url = "https://peer.example/dashboard")
       then Ok (hr_Status (serveSync sample "GET"), hr_Body (serveSync sample "GET"))
       else Err refused |}.

Definition sample_options : SyncOptions :=
  {| so_BindAddress := ":9443"; so_URLs := [" https://peer.example"; "https://down.example"; "https://peer.example"];
     so_SRVRecords := ["_cupboard-sync._tcp.example"];
     so_TLS := {| stls_CA := ""; stls_Cert := ""; stls_Key := ""; stls_AuthCert := ""; stls_AuthKey := "" |} |}.

Lemma sync_end_to_end_witness : fetchFromPeer sample_network "https://peer.example" = Ok (on_wire sample_sync).
Proof.
  pose proof (sync_end_to_end sample_network "https://peer.example" sample) as Hs.
  rewrite sample_sync_ok in Hs. apply Hs; [reflexivity|].
  intros resp [= <-]. split; [vm_compute; reflexivity|].
  apply Forall_forall. intros g Hg.
  assert (forallb (fun g => bool_decide (int64_min ≤ g_Priority g ≤ int64_max)%Z) (r_LinkGroups sample_sync) = true)
    as Hall by (vm_compute; reflexivity).
  rewrite forallb_forall in Hall. apply list_elem_of_In, Hall, bool_decide_eq_true in Hg. exact Hg.
Defined.

Lemma cache_never_replicated_witness :
  ∃ resp, Start sample_options [sample_network] !! "https://peer.example" = Some resp ∧ unflagged resp.
Proof.
  destruct (Start sample_options [sample_network] !! "https://peer.example") as [resp|] eqn:E.
  - exists resp. split; [done|]. by apply (cache_never_replicated sample_options [sample_network] "https://peer.example").
  - vm_compute in E. discriminate.
Defined.
