(* ===== verification/Federation.v ===== *)
(** * Federation: instances that poll each other

    The instances of a federation, each with its own cluster, settings and
    cache, as a transition system: a cluster or its settings change, an
    instance joins or leaves, an instance polls.  Whatever the order, a cached
    response is what its peer served earlier, a link with a peer as its source
    was collected, and marked for replication, by that very peer, and one
    undisturbed poll brings an instance up to date. *)

From S2P Require Import Prelude GoStrings StableSort ApiTypes UrlResolver Links Collectors Dashboard.
From S2P Require Import DashboardSpec MergeSpec RenderSpec Sample DashboardProps Json JsonSpec Wire Sync SyncProps.

(** ** Instances *)

(** [nd_collector] is the instance without its peers' data: its cluster, its
    settings and its foreign clusters. *)
Record node := {
  nd_collector : dashboardCollector;
  nd_options : SyncOptions;
  nd_cache : gmap string DashboardResponse
}.

(** The collector of the running instance, which reads the cache. *)
Definition running (n : node) : dashboardCollector :=
  with_others (nd_collector n) (Some (GetRemoteData (nd_cache n))) (dc_foreignClusters (nd_collector n)).

Definition with_cache (cache : gmap string DashboardResponse) (n : node) : node :=
  {| nd_collector := nd_collector n; nd_options := nd_options n; nd_cache := cache |}.

(** Instances by the URL of their sync endpoint. *)
Abbreviation federation := (gmap string node).

Section federation.
Context `{Unicode, Apimachinery, MapRange, StableSort}.
Implicit Types (fed : federation) (n m : node) (p q : string).

(** Texts are UTF-8 and priorities 64-bit integers, as they are in what the
    API server delivers. *)
Definition encodable (c : dashboardCollector) : Prop :=
  ∀ resp, collectDashboard c [allLinkGroupsWildcard] true = Ok resp →
    utf8_json (encode_response resp) = true ∧ Forall (fun g => in_int64 (g_Priority g)) (r_LinkGroups resp).

(** What answers at a sync URL, if anything does, is the instance there. *)
Definition honest fed (net : Network) : Prop :=
  ∀ q reply, http_get net (q +:+ "/dashboard") = Ok reply → ∃ m, fed !! q = Some m ∧ answers net q (running m).

(** Every instance answers. *)
Definition reliable fed (net : Network) : Prop := ∀ q m, fed !! q = Some m → answers net q (running m).

Definition poll (net : Network) n : node := with_cache (fetchAll (nd_options n) net (nd_cache n)) n.

Inductive step fed : federation → Prop :=
| step_change p n collector options : fed !! p = Some n → encodable collector →
    step fed (<[p := {| nd_collector := collector; nd_options := options; nd_cache := nd_cache n |}]> fed)
| step_join p n : nd_cache n = ∅ → encodable (nd_collector n) → step fed (<[p := n]> fed)
| step_leave p : step fed (delete p fed)
| step_poll p n net : fed !! p = Some n → honest fed net → step fed (<[p := poll net n]> fed).

(** The states a federation went through, the latest first. *)
Inductive history : list federation → Prop :=
| history_start : history [∅]
| history_step fed fed' past : history (fed :: past) → step fed fed' → history (fed' :: fed :: past).

(** ** Provenance *)

Definition serves m (resp : DashboardResponse) : Prop :=
  ∃ r0, collectDashboard (nd_collector m) [allLinkGroupsWildcard] true = Ok r0 ∧ resp = on_wire r0.

(** What an instance may have cached: of each peer, what it once served. *)
Definition once_served (past : list federation) q (resp : DashboardResponse) : Prop :=
  ∃ fed m, fed ∈ past ∧ fed !! q = Some m ∧ serves m resp.

Record sound (past : list federation) fed : Prop := {
  sound_encodable : ∀ p n, fed !! p = Some n → encodable (nd_collector n);
  sound_cache : ∀ p n q resp, fed !! p = Some n → nd_cache n !! q = Some resp → once_served past q resp
}.

Lemma once_served_mono past fed q resp : once_served past q resp → once_served (fed :: past) q resp.
Proof. intros (f & m & Hf & Hm & Hs). exists f, m. split; [by right|done]. Qed.

Lemma running_sync n us : collectDashboard (running n) us true = collectDashboard (nd_collector n) us true.
Proof. apply sync_others. Qed.

(** What an instance collects from its own cluster does not depend on its
    cache. *)
Lemma resource_running n source meta : local_resource (running n) source meta → local_resource (nd_collector n) source meta.
Proof. intros Hr. destruct Hr; by econstructor. Qed.

Lemma collected_running n k l : collected (running n) k l → collected (nd_collector n) k l.
Proof.
  intros Hc. destruct Hc as [loop link details|groups bookmarks b|items item loop details|source meta Hr].
  - by apply (collected_static (nd_collector n) loop link details).
  - by apply (collected_bookmark (nd_collector n) groups bookmarks b).
  - by apply (collected_forecastle (nd_collector n) items item loop details).
  - apply collected_resource; [by apply resource_running|done].
Qed.

(** A poll caches what peers serve now, or keeps what it had. *)
Lemma poll_cached fed net n q resp :
  (∀ p n, fed !! p = Some n → encodable (nd_collector n)) → honest fed net →
  nd_cache (poll net n) !! q = Some resp →
  nd_cache n !! q = Some resp ∨ ∃ m, fed !! q = Some m ∧ serves m resp.
Proof.
  intros Henc Hh. cbn [poll with_cache nd_cache]. rewrite fetchAll_at. case_bool_decide; [|done].
  destruct (fetchFromPeer net q) as [r|e] eqn:Hf; [|by left]. intros [= ->]. right.
  destruct (http_get net (q +:+ "/dashboard")) as [reply|e] eqn:Hg; [|unfold fetchFromPeer in Hf; by rewrite Hg in Hf].
  destruct (Hh q reply Hg) as (m & Hm & Ha). exists m. split; [done|].
  assert (encodable (running m)) as He.
  { intros r0. rewrite running_sync. by apply (Henc q). }
  pose proof (fetch_answers net q (running m) Ha He) as Hfetch. rewrite running_sync in Hfetch.
  destruct (collectDashboard _ _ true) as [r0|] eqn:Hc; [|congruence]. exists r0. split; [done|congruence].
Qed.

Lemma history_sound fed past : history (fed :: past) → sound (fed :: past) fed.
Proof.
  intros Hh. remember (fed :: past) as h eqn:E. revert fed past E.
  induction Hh as [|fed0 fed1 past0 Hh IH Hs]; intros fed past [= <- <-].
  { split; intros p n; by rewrite lookup_empty. }
  destruct (IH fed0 past0 eq_refl) as [Henc Hcache].
  assert (∀ q resp, once_served (fed0 :: past0) q resp → once_served (fed1 :: fed0 :: past0) q resp) as Hmono.
  { intros. by apply once_served_mono. }
  destruct Hs as [p n collector options Hp He|p n Hn He|p|p n net Hp Hnet].
  - split; [intros p' n'|intros p' n' q resp]; rewrite lookup_insert_Some.
    + intros [[<- <-]|[_ ?]]; [done|by eauto].
    + intros [[<- <-]|[_ ?]]; [|by eauto]. cbn. by eauto.
  - split; [intros p' n'|intros p' n' q resp]; rewrite lookup_insert_Some.
    + intros [[<- <-]|[_ ?]]; [done|by eauto].
    + intros [[<- <-]|[_ ?]]; [|by eauto]. by rewrite Hn, lookup_empty.
  - split; [intros p' n'|intros p' n' q resp]; rewrite lookup_delete_Some; intros [_ ?]; by eauto.
  - split; [intros p' n'|intros p' n' q resp]; rewrite lookup_insert_Some.
    + intros [[<- <-]|[_ ?]]; [|by eauto]. exact (Henc p n Hp).
    + intros [[<- <-]|[_ ?]]; [|by eauto]. intros Hq. apply Hmono.
      destruct (poll_cached _ _ _ _ _ Henc Hnet Hq) as [?|(m & Hm & Hsv)]; [by eapply Hcache|].
      exists fed0, m. split; [left|done].
Qed.

(** Caches tell the past.  In any history of a federation with a truthful
    network, whatever an instance has cached for a peer is the wire form of
    what the sync endpoint of that very peer collected at some time before,
    from its own cluster. *)
Theorem cached_was_served past fed p n q resp :
  history (fed :: past) → fed !! p = Some n → nd_cache n !! q = Some resp → once_served (fed :: past) q resp.
Proof. intros Hh. apply (sound_cache _ _ (history_sound _ _ Hh)). Qed.

(** A link some peer once had, marked for replication, in its own cluster. *)
Definition once_replicated (past : list federation) q (l : DashboardLink) : Prop :=
  ∃ fed m k l0, fed ∈ past ∧ fed !! q = Some m ∧ collected (nd_collector m) k l0 ∧ l_Replicate l0 = true ∧
    l = with_source ("sync:" +:+ q) (link_on_wire l0).

Lemma served_was_replicated past q resp g l : once_served past q resp → g ∈ r_Groups resp → l ∈ dg_Links g →
  once_replicated past q (with_source ("sync:" +:+ q) l).
Proof.
  intros (fed & m & Hf & Hm & r0 & Hr0 & ->) Hg Hl. cbn [on_wire r_Groups] in Hg.
  apply list_elem_of_fmap in Hg as (g0 & -> & Hg0). cbn [group_on_wire dg_Links] in Hl.
  apply list_elem_of_fmap in Hl as (l0 & -> & Hl0).
  destruct (served_link _ _ _ _ _ Hr0 Hg0 Hl0). by exists fed, m, (dg_LinkGroup g0), l0.
Qed.

Lemma from_peer_replicated past fed p n k l :
  history (fed :: past) → fed !! p = Some n → from_peer (running n) k l → ∃ q, once_replicated (fed :: past) q l.
Proof.
  intros Hh Hn (rd & q & resp & group & l0 & [= <-] & Hq & Hgr & _ & Hl0 & ->). exists q.
  eapply served_was_replicated; [|done|done]. by apply (sound_cache _ _ (history_sound _ _ Hh) p n).
Qed.

Lemma federated_link past fed p n us page g l :
  history (fed :: past) → fed !! p = Some n →
  collectDashboard (running n) us false = Ok page → g ∈ r_Groups page → l ∈ dg_Links g →
  collected (nd_collector n) (dg_LinkGroup g) l ∨ from_cluster (nd_collector n) (dg_LinkGroup g) l ∨
   ∃ q, once_replicated (fed :: past) q l.
Proof.
  intros Hh Hn Hpage Hg Hl. destruct (page_link_origin _ _ _ _ _ Hpage Hg Hl) as [Hc|[Hp|Hc]].
  - left. by apply collected_running.
  - right. right. by eapply from_peer_replicated.
  - right. left. destruct Hc as (cs & i & fc & l0 & ? & ? & ? & ? & ->). by exists cs, i, fc, l0.
Qed.

(** C4: no link travels more than one hop and none gets past its groups.
    Every link of a page in a federation was collected by this instance, from
    its cluster or a foreign one, or carries the name of a peer that once
    collected it, from its own cluster, and marked it for replication; either
    way its reader is in one of the groups the link had at its origin. *)
Theorem links_travel_one_hop past fed p n us page g l :
  history (fed :: past) → fed !! p = Some n →
  collectDashboard (running n) us false = Ok page → g ∈ r_Groups page → l ∈ dg_Links g →
  visible us l ∧
  (collected (nd_collector n) (dg_LinkGroup g) l ∨ from_cluster (nd_collector n) (dg_LinkGroup g) l ∨
   ∃ q, once_replicated (fed :: past) q l).
Proof. intros Hh Hn Hpage Hg Hl. split; [by eapply shown_visible|]. by eapply federated_link. Qed.

(** ** Convergence *)

(** Instances poll one after the other, over networks that answer. *)
Fixpoint poll_all fed (polls : list (string * Network)) : federation :=
  match polls with
  | [] => fed
  | (p, net) :: polls => poll_all (alter (poll net) p fed) polls
  end.

(** The same instances, whatever their caches. *)
Definition same_sites fed fed' : Prop :=
  ∀ p, (fun n => (nd_collector n, nd_options n)) <$> fed !! p = (fun n => (nd_collector n, nd_options n)) <$> fed' !! p.

Lemma poll_same_sites fed net p : same_sites fed (alter (poll net) p fed).
Proof.
  intros q. destruct (decide (p = q)) as [->|Hne]; [|by rewrite lookup_alter_ne].
  rewrite lookup_alter_eq. by destruct (fed !! q).
Qed.

Lemma serve_running m m' : nd_collector m = nd_collector m' → serveSync (running m) "GET" = serveSync (running m') "GET".
Proof. intros Hm. unfold serveSync. by rewrite !running_sync, Hm. Qed.

Lemma reliable_same fed fed' net : same_sites fed fed' → reliable fed net → reliable fed' net.
Proof.
  intros Hs Hr q m' Hm'. specialize (Hs q). rewrite Hm' in Hs. destruct (fed !! q) as [m|] eqn:Hm; [|done].
  injection Hs as Hc Ho. unfold answers. rewrite <-(serve_running m) by done. by apply Hr.
Qed.

(** What an up-to-date cache holds for a peer. *)
Definition up_to_date fed n q : Prop :=
  ∀ m r0, fed !! q = Some m → q ≠ "" → q ∈ TrimSpace <$> so_URLs (nd_options n) →
    collectDashboard (nd_collector m) [allLinkGroupsWildcard] true = Ok r0 → nd_cache n !! q = Some (on_wire r0).

Lemma poll_up_to_date fed net n q :
  (∀ p n, fed !! p = Some n → encodable (nd_collector n)) → reliable fed net → up_to_date fed (poll net n) q.
Proof.
  intros Henc Hr m r0 Hm Hne Hin Hc. cbn [poll with_cache nd_cache nd_options] in *. rewrite fetchAll_at.
  rewrite bool_decide_true by (split; [done|]; unfold raw_peers; rewrite fmap_app, elem_of_app; by left).
  assert (encodable (running m)) as He.
  { intros r. rewrite running_sync. by apply (Henc q). }
  pose proof (fetch_answers net q (running m) (Hr q m Hm) He) as Hf. rewrite running_sync, Hc in Hf. by rewrite Hf.
Qed.

Lemma same_sites_encodable fed fed' : same_sites fed fed' →
  (∀ p n, fed !! p = Some n → encodable (nd_collector n)) → ∀ p n, fed' !! p = Some n → encodable (nd_collector n).
Proof.
  intros Hs He p n' Hn'. specialize (Hs p). rewrite Hn' in Hs. destruct (fed !! p) as [n|] eqn:Hn; [|done].
  injection Hs as <- _. by apply (He p).
Qed.

Lemma up_to_date_same fed fed' n q : same_sites fed fed' → up_to_date fed n q → up_to_date fed' n q.
Proof.
  intros Hs Hu m' r0 Hm' Hne Hin Hc. specialize (Hs q). rewrite Hm' in Hs. destruct (fed !! q) as [m|] eqn:Hm; [|done].
  injection Hs as Hcm Ho. apply (Hu m r0); try done. by rewrite Hcm.
Qed.

Lemma poll_all_sites fed polls : same_sites fed (poll_all fed polls).
Proof.
  revert fed. induction polls as [|[p net] polls IH]; intros fed q; cbn [poll_all]; [done|].
  by rewrite <-(IH _ q), (poll_same_sites fed net p q).
Qed.

(** Later polls keep a cache up to date. *)
Lemma poll_all_up_to_date fed polls p n q :
  (∀ p n, fed !! p = Some n → encodable (nd_collector n)) → Forall (fun e => reliable fed e.2) polls →
  fed !! p = Some n → up_to_date fed n q ∨ p ∈ polls.*1 →
  ∃ n', poll_all fed polls !! p = Some n' ∧ up_to_date fed n' q.
Proof.
  revert fed n. induction polls as [|[p' net] polls IH]; intros fed n Henc Hrel Hn Hu; cbn [poll_all].
  { exists n. split; [done|]. destruct Hu as [?|Hu]; [done|]. by apply elem_of_nil in Hu. }
  apply Forall_cons in Hrel as [Hr Hrel]. cbn [snd] in Hr.
  pose proof (poll_same_sites fed net p') as Hs.
  assert (same_sites (alter (poll net) p' fed) fed) as Hs' by (intros k; by rewrite (Hs k)).
  destruct (IH (alter (poll net) p' fed) (if bool_decide (p = p') then poll net n else n)) as (n' & Hn' & Hu').
  - by eapply same_sites_encodable.
  - eapply Forall_impl; [done|]. intros e. by apply reliable_same.
  - case_bool_decide as Hp; [subst; by rewrite lookup_alter_eq, Hn|by rewrite lookup_alter_ne].
  - case_bool_decide as Hp; [left; eapply up_to_date_same; [done|]; by apply poll_up_to_date|].
    destruct Hu as [Hu|Hu]; [left; by eapply up_to_date_same|right].
    rewrite fmap_cons in Hu. apply elem_of_cons in Hu as [?|?]; [done|done].
  - exists n'. split; [done|]. by eapply up_to_date_same.
Qed.

(** C27: one round of polls is enough.  From any state a federation can reach,
    after polls in any order over networks that answer, every instance that
    polled has, for each peer it is configured with, exactly what that peer
    now collects: nothing has to travel through a third instance. *)
Theorem federation_converges past fed polls p n q m r0 :
  history (fed :: past) → Forall (fun e => reliable fed e.2) polls → p ∈ polls.*1 →
  fed !! p = Some n → fed !! q = Some m → q ≠ "" → q ∈ TrimSpace <$> so_URLs (nd_options n) →
  collectDashboard (nd_collector m) [allLinkGroupsWildcard] true = Ok r0 →
  ∃ n', poll_all fed polls !! p = Some n' ∧ nd_cache n' !! q = Some (on_wire r0).
Proof.
  intros Hh Hr Hp Hn Hm Hne Hq Hc. destruct (history_sound _ _ Hh) as [Henc _].
  destruct (poll_all_up_to_date fed polls p n q Henc Hr Hn (or_intror Hp)) as (n' & Hn' & Hu).
  exists n'. split; [done|]. apply (Hu m r0); try done.
  pose proof (poll_all_sites fed polls p) as Hs. rewrite Hn, Hn' in Hs. by injection Hs as _ <-.
Qed.
End federation.

(** ** A federation of two *)

Definition url_a : string := "https://a.example".
Definition url_b : string := "https://b.example".
Definition no_tls_options : SyncTLSOptions :=
  {| stls_CA := ""; stls_Cert := ""; stls_Key := ""; stls_AuthCert := ""; stls_AuthKey := "" |}.
Definition polling (urls : list string) : SyncOptions :=
  {| so_BindAddress := ":8083"; so_URLs := urls; so_SRVRecords := []; so_TLS := no_tls_options |}.

(** [a] has the sample cluster; [b] has an empty one and polls [a]. *)
Definition empty_reader : Reader :=
  {| list_BookmarkGroups := Ok []; list_Bookmarks := fun _ => Ok []; list_ForecastleApps := Ok [];
     list_InfoTiles := Ok []; list_Ingresses := fun _ => Ok []; list_Services := fun _ => Ok [];
     list_EndpointSlices := fun _ => Ok []; list_Unstructured := fun _ _ => Ok [];
     get_Ingress := fun _ => Err not_found; get_Service := fun _ => Err not_found;
     get_Unstructured := fun _ _ => Err not_found |}.
Definition node_a : node := {| nd_collector := sample; nd_options := polling []; nd_cache := ∅ |}.
Definition node_b : node :=
  {| nd_collector := newDashboardCollector empty_reader None "" [] [] None None;
     nd_options := polling [url_a]; nd_cache := ∅ |}.
Definition reply_of (n : node) : result (Z * list ascii) :=
  Ok (hr_Status (serveSync (running n) "GET"), hr_Body (serveSync (running n) "GET")).
Definition net_ab : Network :=
  {| LookupSRV := fun _ => Err refused;
     http_get := fun url =>
       if bool_decide (url = url_a +:+ "/dashboard") then reply_of node_a else
       if bool_decide (url = url_b +:+ "/dashboard") then reply_of node_b else Err refused |}.
Definition fed_ab : federation := <[url_b := node_b]> (<[url_a := node_a]> ∅).
Definition fed_polled : federation := <[url_b := poll net_ab node_b]> fed_ab.

Lemma encodable_a : encodable (nd_collector node_a).
Proof.
  intros resp Hr. assert (resp = sample_sync) as -> by (pose proof sample_sync_ok; cbn [nd_collector node_a] in Hr; congruence).
  split; [vm_compute; reflexivity|]. apply (bool_decide_eq_true_1 _). vm_compute. reflexivity.
Qed.

Lemma encodable_b : encodable (nd_collector node_b).
Proof.
  intros resp Hr. vm_compute in Hr. injection Hr as <-. split; [vm_compute; reflexivity|constructor].
Qed.

Lemma endpoint_url q u : q +:+ "/dashboard" = u +:+ "/dashboard" → q = u.
Proof. intros Hu. apply (f_equal bytes) in Hu. rewrite !bytes_app in Hu. apply app_inv_tail in Hu. by apply bytes_inj. Qed.

Lemma reliable_ab : reliable fed_ab net_ab.
Proof.
  intros q m. unfold fed_ab. rewrite !lookup_insert_Some, lookup_empty.
  intros [[<- <-]|[_ [[<- <-]|[_ ?]]]]; [|reflexivity|done]. reflexivity.
Qed.

Lemma honest_ab : honest fed_ab net_ab.
Proof.
  intros q reply Hq. cbn [net_ab http_get] in Hq. case_bool_decide as Ha.
  - apply endpoint_url in Ha as ->. exists node_a. split; [reflexivity|]. apply reliable_ab. reflexivity.
  - case_bool_decide as Hb; [|done]. apply endpoint_url in Hb as ->. exists node_b. split; [reflexivity|].
    apply reliable_ab. reflexivity.
Qed.

Lemma joined : history [fed_ab; <[url_a := node_a]> ∅; ∅].
Proof.
  apply history_step; [apply history_step; [apply history_start|]|].
  - apply step_join; [reflexivity|apply encodable_a].
  - apply step_join; [reflexivity|apply encodable_b].
Qed.

Lemma sample_history : history [fed_polled; fed_ab; <[url_a := node_a]> ∅; ∅].
Proof. apply history_step; [apply joined|]. apply step_poll; [reflexivity|apply honest_ab]. Qed.

Lemma polled_b : fed_polled !! url_b = Some (poll net_ab node_b).
Proof. apply lookup_insert_eq. Qed.

Lemma cached_was_served_witness : ∃ resp, nd_cache (poll net_ab node_b) !! url_a = Some resp ∧
  once_served [fed_polled; fed_ab; <[url_a := node_a]> ∅; ∅] url_a resp.
Proof.
  destruct (nd_cache (poll net_ab node_b) !! url_a) as [resp|] eqn:E; [|vm_compute in E; discriminate].
  exists resp. split; [reflexivity|]. exact (cached_was_served _ _ _ _ _ _ sample_history polled_b E).
Defined.

Lemma links_travel_one_hop_witness : ∃ page g l, collectDashboard (running (poll net_ab node_b)) [] false = Ok page ∧
  g ∈ r_Groups page ∧ l ∈ dg_Links g ∧ ∃ q, once_replicated [fed_polled; fed_ab; <[url_a := node_a]> ∅; ∅] q l.
Proof.
  destruct (collectDashboard (running (poll net_ab node_b)) [] false) as [page|] eqn:E; [|vm_compute in E; discriminate].
  destruct (pick page "tools" 0) as [[g l]|] eqn:Hp; [|vm_compute in E; injection E as <-; vm_compute in Hp; discriminate].
  destruct (pick_elem _ _ _ _ _ Hp) as (Hg & _ & Hl). exists page, g, l. split; [reflexivity|]. split; [exact Hg|]. split; [exact Hl|].
  destruct (links_travel_one_hop _ _ _ _ _ _ _ _ sample_history polled_b E Hg Hl) as [_ [Hc|[Hc|Hc]]]; [| |exact Hc]; exfalso.
  - destruct Hc as [? ? ? Hc|groups bookmarks b Hgr Hb Hc|? ? ? ? Hc|source meta Hc ?].
    + by apply elem_of_nil in Hc.
    + injection Hb as <-. by apply elem_of_nil in Hc.
    + discriminate Hc.
    + destruct Hc as [? ? Hs|? ? Hs|? ? Hs|? ? Hs|? ? Hs|? ? ? (? & ? & _ & _ & Hs)|? ? Hs Hx|? ? Hs Hx|? ? Hs];
        try discriminate Hs; injection Hs as <-; by apply elem_of_nil in Hx.
  - by destruct Hc as (cs & _ & _ & _ & ? & _).
Defined.

Lemma federation_converges_witness : ∃ n',
  poll_all fed_ab [(url_b, net_ab)] !! url_b = Some n' ∧ nd_cache n' !! url_a = Some (on_wire sample_sync).
Proof.
  apply (federation_converges _ _ _ url_b node_b url_a node_a sample_sync joined).
  - constructor; [apply reliable_ab|constructor].
  - left.
  - reflexivity.
  - reflexivity.
  - discriminate.
  - left.
  - exact sample_sync_ok.
Defined.
