(* ===== verification/FederationSpec.v ===== *)
(** * FederationSpec: a federation as a replicated store

    What a federation promises, without clusters, HTTP, JSON or DNS: every
    site exports one response, and has a view of the exports of the sites it
    follows; a pull takes an export as it is or keeps the view as it was, and
    forgets the sites no longer followed.  The instances that poll each other
    refine this store. *)

From S2P Require Import Prelude GoStrings StableSort ApiTypes UrlResolver Links Collectors Dashboard.
From S2P Require Import Sample DashboardProps Wire Sync SyncProps Federation.

(** ** The store *)
Record store := {
  exports : gmap string DashboardResponse;
  views : gmap string (gmap string DashboardResponse)
}.

Definition empty_store : store := {| exports := ∅; views := ∅ |}.

(** [v'] is the view after pulling the sites of [follow]. *)
Definition pulled (e v v' : gmap string DashboardResponse) (follow : gset string) : Prop :=
  ∀ q, if bool_decide (q ∈ follow) then v' !! q = v !! q ∨ v' !! q = e !! q ∧ is_Some (e !! q) else v' !! q = None.

Inductive store_step (s : store) : store → Prop :=
| store_publish p export : is_Some (views s !! p) →
    store_step s {| exports := partial_alter (fun _ => export) p (exports s); views := views s |}
| store_join p export :
    store_step s {| exports := partial_alter (fun _ => export) p (exports s); views := <[p := ∅]> (views s) |}
| store_leave p : store_step s {| exports := delete p (exports s); views := delete p (views s) |}
| store_pull p v v' follow : views s !! p = Some v → pulled (exports s) v v' follow →
    store_step s {| exports := exports s; views := <[p := v']> (views s) |}.

(** ** Refinement *)
Section refinement.
Context `{Unicode, Apimachinery, MapRange, StableSort}.
Implicit Types (fed : federation) (p q : string) (n m : node).

Definition export (c : dashboardCollector) : option DashboardResponse :=
  match collectDashboard c [allLinkGroupsWildcard] true with Ok resp => Some (on_wire resp) | Err _ => None end.

Definition abs (fed : federation) : store :=
  {| exports := omap (fun n => export (nd_collector n)) fed; views := nd_cache <$> fed |}.

Lemma abs_exports_insert fed p n :
  omap (fun n => export (nd_collector n)) (<[p := n]> fed) =
  partial_alter (fun _ => export (nd_collector n)) p (omap (fun n => export (nd_collector n)) fed).
Proof.
  apply map_eq. intros q. rewrite lookup_omap. destruct (decide (p = q)) as [->|Hne].
  - by rewrite lookup_insert_eq, lookup_partial_alter_eq.
  - by rewrite lookup_insert_ne, lookup_partial_alter_ne, lookup_omap.
Qed.

Lemma same_export (m : gmap string DashboardResponse) p export : m !! p = export → partial_alter (fun _ => export) p m = m.
Proof.
  intros <-. apply map_eq. intros q. destruct (decide (p = q)) as [->|Hne];
    [by rewrite lookup_partial_alter_eq|by rewrite lookup_partial_alter_ne].
Qed.

Lemma serves_export m resp : serves m resp ↔ export (nd_collector m) = Some resp.
Proof.
  unfold serves, export. destruct (collectDashboard _ _ _) as [r0|e]; split.
  - by intros (? & [= <-] & ->).
  - intros [= <-]. by exists r0.
  - by intros (? & [=] & _).
  - done.
Qed.

Lemma poll_pulled fed p n net :
  (∀ p n, fed !! p = Some n → encodable (nd_collector n)) → fed !! p = Some n → honest fed net →
  pulled (exports (abs fed)) (nd_cache n) (nd_cache (poll net n))
    (list_to_set (filter (fun q => q ≠ "") (TrimSpace <$> raw_peers (nd_options n) net))).
Proof.
  intros Henc Hn Hh q. destruct (nd_cache (poll net n) !! q) as [resp|] eqn:Hq.
  - assert (q ≠ "" ∧ q ∈ TrimSpace <$> raw_peers (nd_options n) net) as Hin.
    { cbn [poll with_cache nd_cache] in Hq. rewrite fetchAll_at in Hq. by case_bool_decide. }
    rewrite bool_decide_true by (by rewrite elem_of_list_to_set, list_elem_of_filter).
    destruct (poll_cached _ _ _ _ _ Henc Hh Hq) as [->|(m & Hm & Hs)]; [by left|]. right.
    apply serves_export in Hs. cbn [abs exports]. rewrite lookup_omap, Hm. cbn. rewrite Hs. by split.
  - case_bool_decide as Hin; [|done]. left. symmetry.
    rewrite elem_of_list_to_set, list_elem_of_filter in Hin. cbn [poll with_cache nd_cache] in Hq.
    rewrite fetchAll_at, bool_decide_true in Hq by done. by destruct (fetchFromPeer net q).
Qed.

Lemma step_refines fed fed' :
  (∀ p n, fed !! p = Some n → encodable (nd_collector n)) → step fed fed' → store_step (abs fed) (abs fed').
Proof.
  intros Henc Hs. destruct Hs as [p n collector options Hp _|p n Hn _|p|p n net Hp Hh]; unfold abs at 2.
  - rewrite abs_exports_insert, fmap_insert. cbn [nd_cache nd_collector].
    rewrite (insert_id (nd_cache <$> fed)) by (by rewrite lookup_fmap, Hp).
    apply (store_publish (abs fed)). cbn. rewrite lookup_fmap, Hp. by eexists.
  - rewrite abs_exports_insert, fmap_insert, Hn. apply (store_join (abs fed)).
  - rewrite omap_delete, fmap_delete. apply (store_leave (abs fed)).
  - rewrite abs_exports_insert, fmap_insert. cbn [poll with_cache nd_collector].
    rewrite same_export by (by rewrite lookup_omap, Hp).
    eapply (store_pull (abs fed)); [cbn; by rewrite lookup_fmap, Hp|exact (poll_pulled fed p n net Henc Hp Hh)].
Qed.

(** C28: a federation is a replicated store.  Every step an instance or its
    cluster makes is a step of the store (its export changes, it joins or
    leaves, or it pulls), so every state a federation can reach is a state
    the store can reach. *)
Theorem federation_refines_store past fed : history (fed :: past) → rtc store_step empty_store (abs fed).
Proof.
  intros Hh. remember (fed :: past) as h eqn:E. revert fed past E.
  induction Hh as [|fed0 fed1 past0 Hh IH Hs]; intros fed past [= <- <-]; [apply rtc_refl|].
  eapply rtc_r; [by eapply IH|]. apply step_refines; [|done]. exact (sound_encodable _ _ (history_sound _ _ Hh)).
Qed.
End refinement.

Lemma federation_refines_store_witness :
  rtc store_step empty_store (abs fed_polled) ∧ is_Some (views (abs fed_polled) !! url_b ≫= (.!! url_a)).
Proof.
  split; [exact (federation_refines_store _ _ sample_history)|].
  cbn [abs views]. rewrite lookup_fmap, polled_b. cbn.
  destruct cached_was_served_witness as (resp & Hr & _). exists resp. exact Hr.
Defined.
