(* ===== verification/Typing.v ===== *)
(** * Typing: the shape of what is shown

    A response is well formed: its groups are listed once, refer to the link
    groups it lists, and hold links whose fields have the form the front end
    relies on.  Every page and every sync reply of a federation is, whatever
    its instances went through. *)

From S2P Require Import Prelude GoStrings StableSort ApiTypes UrlResolver Links Collectors Dashboard.
From S2P Require Import DashboardSpec MergeSpec RenderSpec Sample DashboardProps Json Wire Sync SyncProps Federation.

(** ** Links *)

(** Groups are trimmed, not empty, and listed once. *)
Definition normal_groups (groups : list string) : Prop :=
  NoDup groups ∧ Forall (fun g => g ≠ "" ∧ trimmed g = true) groups.

Definition local_sources : list string :=
  ["static"; "bookmark"; "forecastleapp"; "ingress"; "httproute"; "grpcroute"; "tlsroute"; "tcproute";
   "ingressroute"; "service"; "endpointslice"; "dnsendpoint"].

(** Local sources, stamped with the peer or with the foreign cluster. *)
Inductive source : string → Prop :=
| source_local s : s ∈ local_sources → source s
| source_peer q : source ("sync:" +:+ q)
| source_foreign name s : s ∈ local_sources → source (("foreign:" +:+ name) +:+ ":" +:+ s).

(** The fields the program leaves empty, a target, and normal groups. *)
Record shaped (l : DashboardLink) : Prop := {
  shaped_link_group : l_LinkGroup l = "";
  shaped_metadata : l_Metadata l = "";
  shaped_target : l_Target l ≠ "";
  shaped_groups : normal_groups (l_Groups l)
}.

Definition local_link (l : DashboardLink) : Prop := shaped l ∧ l_Source l ∈ local_sources.
Definition typed_link (l : DashboardLink) : Prop := shaped l ∧ source (l_Source l).

(** ** Responses *)
Record typed (localOnly : bool) (resp : DashboardResponse) : Prop := {
  typed_link_groups : NoDup (g_Name <$> r_LinkGroups resp);
  typed_once : NoDup (dg_LinkGroup <$> r_Groups resp);
  typed_group : ∀ g, g ∈ r_Groups resp → ∃ d, d ∈ r_LinkGroups resp ∧
    dg_LinkGroup g = g_Name d ∧ dg_Name g = g_DisplayName d ∧ dg_Source g = g_Source d ∧
    (dg_Links g ≠ [] ∨ dg_Tiles g ≠ [] ∨ localOnly = true ∧ g_Replicate d = true);
  typed_links : ∀ g l, g ∈ r_Groups resp → l ∈ dg_Links g → typed_link l
}.

Lemma normal_normalized raw : normal_groups (normalizedGroups raw).
Proof.
  destruct (add_groups_spec (raw_groups raw)) as [Hn Hs]. split; [done|]. apply Forall_forall.
  intros g (Hne & r & _ & ->)%Hs. split; [done|apply trimmed_TrimSpace].
Qed.

Lemma normal_nil : normal_groups [].
Proof. split; constructor. Qed.

Lemma defaultTarget_ne raw : defaultTarget raw ≠ "".
Proof. unfold defaultTarget. destruct (is_blank raw) eqn:E; [done|]. intros ->. done. Qed.

#[export] Hint Resolve normal_normalized normal_nil defaultTarget_ne : cupboard.

Lemma meta_link_shaped meta src : rm_Target meta ≠ "" → shaped (link_of_meta meta src).
Proof. intros. split; cbn; auto with cupboard. Qed.

Lemma shaped_with_source src l : shaped l → shaped (with_source src l).
Proof. intros []. by split. Qed.
Lemma shaped_on_wire l : shaped l → shaped (link_on_wire l).
Proof. intros []. by split. Qed.

Section local.
Context `{Unicode, Apimachinery, MapRange}.

Lemma forecastle_link_shaped r item : shaped (forecastle_link r item).
Proof.
  split; cbn [forecastle_link l_LinkGroup l_Metadata l_Target l_Groups]; auto with cupboard.
  cbv zeta. destruct (is_blank _) eqn:E; [done|by apply not_blank_ne].
Qed.

Lemma resource_local c src meta : local_resource c src meta → rm_Target meta ≠ "" ∧ src ∈ local_sources.
Proof.
  intros Hr. assert (∀ src, bool_decide (src ∈ local_sources) = true → src ∈ local_sources) as Hin.
  { intros s. apply bool_decide_eq_true. }
  destruct Hr; (split; [apply defaultTarget_ne|by apply Hin]).
Qed.

Lemma collected_local c k l : collected c k l → local_link l.
Proof.
  assert (∀ src, bool_decide (src ∈ local_sources) = true → src ∈ local_sources) as Hin.
  { intros s. apply bool_decide_eq_true. }
  intros Hc. destruct Hc as [| | |src meta Hr _].
  - split; [split; cbn; auto with cupboard|by apply Hin].
  - split; [|by apply Hin]. split; cbn; auto with cupboard.
    unfold or_else. by case_bool_decide.
  - split; [apply forecastle_link_shaped|by apply Hin].
  - destruct (resource_local _ _ _ Hr) as [Ht Hs]. split; [by apply meta_link_shaped|done].
Qed.

(** *** Foreign clusters *)
Abbreviation Q := (fun (_ : string) l => local_link l).

Lemma resource_sound src meta : bool_decide (src ∈ local_sources) = true → rm_Target meta ≠ "" →
  StepSound Q (fun st => add_resource src meta st).
Proof.
  intros Hs Ht. apply add_resource_sound. intros _. split; [by apply meta_link_shaped|].
  by apply bool_decide_eq_true in Hs.
Qed.

Lemma unstructured_sound r gvk src (meta : Unstructured → resourceMeta) :
  bool_decide (src ∈ local_sources) = true → (∀ x, rm_Target (meta x) ≠ "") →
  Sound Q (collect_unstructured r gvk (fun st x => add_resource src (meta x) st)).
Proof.
  intros Hs Ht. unfold collect_unstructured. destruct (list_Unstructured _ _ _); [|apply _].
  apply sound_for_each. intros x _. by apply resource_sound.
Qed.

Lemma foreign_sound loop r d : Sound Q (collectForeignLinks loop r d).
Proof.
  unfold collectForeignLinks.
  apply sound_seq.
  { unfold collectIngresses. apply sound_logged. destruct (list_Ingresses _ _); [|apply _].
    apply sound_for_each. intros x _. apply resource_sound; [done|apply defaultTarget_ne]. }
  apply sound_seq.
  { unfold collectServices. apply sound_logged. destruct (list_Services _ _); [|apply _].
    apply sound_for_each. intros x _. apply resource_sound; [done|apply defaultTarget_ne]. }
  do 4 (apply sound_seq;
    [apply sound_when; intros _; apply sound_logged, unstructured_sound; [done|intros x; apply defaultTarget_ne]|]).
  apply sound_seq.
  { apply sound_first_available. intros gv _ _. apply sound_logged, unstructured_sound; [done|intros x; apply defaultTarget_ne]. }
  apply sound_when. intros _. apply sound_logged. unfold collectForecastleApps.
  destruct (list_ForecastleApps _); [|apply _]. apply sound_for_each_i. intros i item _ st Hst.
  unfold forecastle_step. cbv zeta. destruct (other_instance _ _); [done|]. destruct (_ || _); [done|].
  apply add_link_sound; [|done]. split; [apply forecastle_link_shaped|by apply (bool_decide_eq_true_1 _)].
Qed.

Lemma foreign_link_local i fc k l : l ∈ links_at (foreign_temp i fc) k → local_link l.
Proof.
  apply (foreign_sound [3; i] (ci_Client fc) (Some (ci_Discovery fc)) empty_dash).
  intros k' l' Hl. by apply elem_of_nil in Hl.
Qed.

Lemma from_cluster_typed c k l : from_cluster c k l → typed_link l.
Proof.
  intros (cs & i & fc & l0 & _ & _ & [Hs Hsrc]%foreign_link_local & _ & ->).
  split; [by apply shaped_with_source|]. by apply source_foreign.
Qed.

Lemma local_typed l : local_link l → typed_link l.
Proof. intros [? ?]. split; [done|by apply source_local]. Qed.

(** *** Groups of a response *)
Context `{StableSort}.

Lemma rendered_group st us lo g : g ∈ r_Groups (render st us lo) →
  ∃ d, d ∈ r_LinkGroups (render st us lo) ∧ render_group st us lo d = Some g.
Proof. cbn [render r_Groups r_LinkGroups]. intros (d & ? & ?)%list_elem_of_omap. by exists d. Qed.

Lemma omap_fmap_sublist {A B C} (f : A → option B) (h : A → C) (h' : B → C) (l : list A) :
  (∀ x y, f x = Some y → h' y = h x) → h' <$> omap f l `sublist_of` h <$> l.
Proof.
  intros Hh. induction l as [|x l IH]; [done|]. rewrite omap_cons, fmap_cons.
  destruct (f x) as [y|] eqn:E; [|by apply sublist_cons]. rewrite fmap_cons, (Hh _ _ E). by apply sublist_skip.
Qed.

Lemma render_group_shape st us lo d g : render_group st us lo d = Some g →
  dg_LinkGroup g = g_Name d ∧ dg_Name g = g_DisplayName d ∧ dg_Source g = g_Source d ∧
  (dg_Links g ≠ [] ∨ dg_Tiles g ≠ [] ∨ lo = true ∧ g_Replicate d = true).
Proof.
  unfold render_group. cbv zeta. set (links := filterLinksForGroups _ _). set (tiles := default _ _).
  destruct (_ && _ && _) eqn:E; [done|]. intros [= <-]. cbn. do 3 (split; [done|]).
  assert (∀ {A} less (l : list A), l ≠ [] → SliceStable less l ≠ []) as Hne.
  { intros A less l Hl Hs. apply Hl. apply Permutation_nil_r. rewrite <-Hs. symmetry. apply SliceStable_perm. }
  apply andb_false_iff in E as [[E|E]%andb_false_iff|E].
  - left. apply Hne. by apply bool_decide_eq_false in E.
  - right. left. apply Hne. by apply bool_decide_eq_false in E.
  - right. right. destruct lo, (g_Replicate d); done.
Qed.

Lemma response_groups c us lo resp : collectDashboard c us lo = Ok resp →
  NoDup (g_Name <$> r_LinkGroups resp) ∧ NoDup (dg_LinkGroup <$> r_Groups resp) ∧
  ∀ g, g ∈ r_Groups resp → ∃ d, d ∈ r_LinkGroups resp ∧
    dg_LinkGroup g = g_Name d ∧ dg_Name g = g_DisplayName d ∧ dg_Source g = g_Source d ∧
    (dg_Links g ≠ [] ∨ dg_Tiles g ≠ [] ∨ lo = true ∧ g_Replicate d = true).
Proof.
  intros (st & E & ->)%collectDashboard_Ok. apply collect_local_wf in E.
  assert (NoDup (g_Name <$> r_LinkGroups (render (final_state c lo st) us lo))) as Hn.
  { by apply sortLinkGroups_names, final_state_wf. }
  split; [done|]. split.
  - eapply sublist_NoDup; [exact Hn|]. apply omap_fmap_sublist. by intros d g []%render_group_shape.
  - intros g (d & Hd & Hg)%rendered_group. exists d. split; [done|]. by eapply render_group_shape.
Qed.
End local.

(** ** Federations *)
Section federated.
Context `{Unicode, Apimachinery, MapRange, StableSort}.

Lemma once_replicated_typed past q l : once_replicated past q l → typed_link l.
Proof.
  intros (fed & m & k & l0 & _ & _ & [Hs _]%collected_local & _ & ->).
  split; [by apply shaped_with_source, shaped_on_wire|]. apply source_peer.
Qed.

(** C5: what is shown is well formed.  In any history of a federation, every
    page of a browser and every reply to a peer lists each link group and each
    group once, every group with the name and the source of a link group it
    lists, none empty (a replicated group of a sync reply excepted), and links
    that have a target, groups that are trimmed, not empty and not repeated,
    and a source of one of the documented forms. *)
Theorem responses_typed past fed p n us localOnly resp :
  history (fed :: past) → fed !! p = Some n →
  collectDashboard (running n) us localOnly = Ok resp → typed localOnly resp.
Proof.
  intros Hh Hn Hr. destruct (response_groups _ _ _ _ Hr) as (? & ? & ?). split; [done..|].
  intros g l Hg Hl. destruct localOnly.
  - destruct (served_link _ _ _ _ _ Hr Hg Hl) as [Hc _]. by eapply local_typed, collected_local.
  - destruct (federated_link _ _ _ _ _ _ _ _ Hh Hn Hr Hg Hl) as [Hc|[Hc|[q Hc]]].
    + by eapply local_typed, collected_local.
    + by eapply from_cluster_typed.
    + by eapply once_replicated_typed.
Qed.
End federated.

Lemma responses_typed_witness : ∃ page, collectDashboard (running (poll net_ab node_b)) [] false = Ok page ∧
  r_Groups page ≠ [] ∧ typed false page.
Proof.
  destruct (collectDashboard (running (poll net_ab node_b)) [] false) as [page|] eqn:E; [|vm_compute in E; discriminate].
  exists page. split; [reflexivity|]. split; [|exact (responses_typed _ _ _ _ _ _ _ sample_history polled_b E)].
  vm_compute in E. injection E as <-. discriminate.
Defined.
