(* ===== verification/Notifier.v ===== *)
(** * Notifier: web/notifier.go

    The broadcaster that tells browsers to reload.  Its goroutine ([Start])
    runs beside the callers of [Notify], [register] and [unregister]; every
    critical section and channel operation is one event, so a list of events
    is an interleaving.  Choices the program does not make (the order of a
    snapshot, whether a write fails) are part of the event. *)

From S2P Require Import Prelude.

(** A WebSocket connection. *)
Definition conn : Type := nat.

(** [websocket.TextMessage] carrying "ping", and a WebSocket ping frame. *)
Inductive message := TextPing | WSPing.
#[export] Instance message_eq_dec : EqDecision message.
Proof. solve_decision. Defined.

(** Where the goroutine of [Start] is: in its [select], between the check
    for clients and the snapshot, inside the loop over a snapshot, returned. *)
Inductive program_counter :=
| Selecting
| Snapshotting (m : message)
| Writing (m : message) (todo : list conn)
| Returned.
#[export] Instance program_counter_eq_dec : EqDecision program_counter.
Proof. solve_decision. Defined.

(** [notify] is the buffered channel of capacity one: full or empty; [closed]
    collects the connections on which [Close] was called. *)
Record DashboardNotifier := {
  clients : gset conn;
  notify : bool;
  pending : bool;
  pc : program_counter;
  closed : gset conn
}.
#[export] Instance DashboardNotifier_eq_dec : EqDecision DashboardNotifier.
Proof. solve_decision. Defined.

Definition NewDashboardNotifier : DashboardNotifier :=
  {| clients := ∅; notify := false; pending := false; pc := Selecting; closed := ∅ |}.

(** Every replica notifies its own clients, leader or not. *)
Definition DashboardNotifier_NeedLeaderElection : bool := false.

Definition at_pc (p : program_counter) (n : DashboardNotifier) : DashboardNotifier :=
  {| clients := clients n; notify := notify n; pending := pending n; pc := p; closed := closed n |}.
Definition with_clients (c : gset conn) (n : DashboardNotifier) : DashboardNotifier :=
  {| clients := c; notify := notify n; pending := pending n; pc := pc n; closed := closed n |}.
Definition close_conns (c : gset conn) (n : DashboardNotifier) : DashboardNotifier :=
  {| clients := clients n; notify := notify n; pending := pending n; pc := pc n; closed := c ∪ closed n |}.

(** ** Operations *)

Definition Notify (n : DashboardNotifier) : DashboardNotifier :=
  {| clients := clients n; notify := true; pending := pending n; pc := pc n; closed := closed n |}.
Definition register (c : conn) (n : DashboardNotifier) : DashboardNotifier := with_clients ({[c]} ∪ clients n) n.
Definition unregister (c : conn) (n : DashboardNotifier) : DashboardNotifier := with_clients (clients n ∖ {[c]}) n.
Definition closeAll (n : DashboardNotifier) : DashboardNotifier := with_clients ∅ (close_conns (clients n) n).

Inductive event :=
| ENotify
| ERegister (c : conn)
| EUnregister (c : conn)
| EReceive                       (* case <-n.notify *)
| ELimiter                       (* case <-limiter.C *)
| EPinger                        (* case <-pinger.C *)
| ESnapshot (l : list conn)      (* n.snapshot() returned l *)
| EWrite (c : conn) (ok : bool)  (* conn.WriteMessage *)
| EDone.                         (* case <-ctx.Done() *)
#[export] Instance event_eq_dec : EqDecision event.
Proof. solve_decision. Defined.

(** The loop over a snapshot returns to the [select] when nothing is left. *)
Definition writing (m : message) (todo : list conn) : program_counter :=
  match todo with [] => Selecting | _ => Writing m todo end.

(** One event, when the program can make it. *)
Definition step (n : DashboardNotifier) (e : event) : option DashboardNotifier :=
  match e with
  | ENotify => Some (Notify n)
  | ERegister c => Some (register c n)
  | EUnregister c => Some (unregister c n)
  | EReceive =>
    if bool_decide (pc n = Selecting) && notify n
    then Some {| clients := clients n; notify := false; pending := true; pc := pc n; closed := closed n |}
    else None
  | ELimiter =>
    if bool_decide (pc n = Selecting) then
      if negb (pending n) then Some n else
      Some {| clients := clients n; notify := notify n; pending := false;
              pc := if bool_decide (clients n ≠ ∅) then Snapshotting TextPing else Selecting;
              closed := closed n |}
    else None
  | EPinger => if bool_decide (pc n = Selecting) then Some (at_pc (Snapshotting WSPing) n) else None
  | ESnapshot l =>
    match pc n with
    | Snapshotting m =>
      if bool_decide (l ≡ₚ elements (clients n)) then Some (at_pc (writing m l) n) else None
    | _ => None
    end
  | EWrite c ok =>
    match pc n with
    | Writing m (c' :: todo) =>
      if bool_decide (c = c') then
        let n := at_pc (writing m todo) n in
        Some (if ok then n else unregister c (close_conns {[c]} n))
      else None
    | _ => None
    end
  | EDone => if bool_decide (pc n = Selecting) then Some (at_pc Returned (closeAll n)) else None
  end.

(** A run of the program from [n]. *)
Fixpoint run (n : DashboardNotifier) (trace : list event) : option DashboardNotifier :=
  match trace with
  | [] => Some n
  | e :: trace => match step n e with Some n => run n trace | None => None end
  end.

(** [reaches trace n]: the trace is possible and ends in [n]. *)
Inductive reaches : list event → DashboardNotifier → Prop :=
| reaches_new : reaches [] NewDashboardNotifier
| reaches_step trace n e n' : reaches trace n → step n e = Some n' → reaches (trace ++ [e]) n'.

(** ** What a trace says *)

(** How often an event that satisfies [f] occurs. *)
Definition count (f : event → bool) (trace : list event) : nat := length (List.filter f trace).
Definition is_notify (e : event) : bool := bool_decide (e = ENotify).
Definition is_tick (e : event) : bool := bool_decide (e = ELimiter).

(** The event starts a broadcast of "ping" from state [n]. *)
Definition starts_broadcast (n : DashboardNotifier) (e : event) : bool :=
  bool_decide (e = ELimiter) && pending n && bool_decide (clients n ≠ ∅).

(** Broadcasts started along a run from [n]. *)
Fixpoint broadcasts (n : DashboardNotifier) (trace : list event) : nat :=
  match trace with
  | [] => 0
  | e :: trace =>
    (if starts_broadcast n e then 1 else 0) +
    match step n e with Some n => broadcasts n trace | None => 0 end
  end.

(** The connections written to, in order, and those a loop has still to
    write to. *)
Definition writes (trace : list event) : list conn :=
  omap (fun e => match e with EWrite c _ => Some c | _ => None end) trace.
Definition todo (n : DashboardNotifier) : list conn :=
  match pc n with Writing _ l => l | _ => [] end.
Definition is_snapshot (e : event) : bool := match e with ESnapshot _ => true | _ => false end.

(** The events of one uninterrupted broadcast over the snapshot [l]. *)
Definition broadcast (l : list conn) (outcome : conn → bool) : list event :=
  ESnapshot l :: ((fun c => EWrite c (outcome c)) <$> l).
