(* ===== verification/NotifierProps.v ===== *)
(** * NotifierProps: no notification is lost, none is sent too often

    Theorems about every interleaving of the broadcaster with its callers. *)

From S2P Require Import Prelude Notifier.

Lemma run_app n t1 t2 : run n (t1 ++ t2) = match run n t1 with Some m => run m t2 | None => None end.
Proof. revert n. induction t1 as [|e t1 IH]; intros n; [done|]. simpl. by destruct (step n e). Qed.

Lemma reaches_run trace n : reaches trace n ↔ run NewDashboardNotifier trace = Some n.
Proof.
  split.
  - induction 1 as [|trace n e n' _ IH Hs]; [done|]. rewrite run_app, IH. simpl. by rewrite Hs.
  - revert n. induction trace as [|e trace IH] using rev_ind; intros n.
    + intros [= <-]. constructor.
    + rewrite run_app. destruct (run _ trace) as [m|] eqn:E; [|done]. simpl.
      destruct (step m e) as [m'|] eqn:Hs; [|done]. intros [= <-]. econstructor; [by apply IH|done].
Qed.

Lemma reaches_snoc trace e n : reaches (trace ++ [e]) n → ∃ m, reaches trace m ∧ step m e = Some n.
Proof.
  rewrite reaches_run, run_app. destruct (run _ trace) as [m|] eqn:E; [|done].
  simpl. destruct (step m e) eqn:Hs; [|done]. intros [= <-]. exists m. by rewrite reaches_run.
Qed.

(** Case analysis on an event that happened. *)
Ltac step_cases H :=
  unfold step in H; repeat case_match; simplify_eq; bool_to_prop.

Lemma broadcasts_snoc n t e m : run n t = Some m →
  broadcasts n (t ++ [e]) = broadcasts n t + (if starts_broadcast m e then 1 else 0).
Proof.
  revert n. induction t as [|e' t IH]; intros n; simpl.
  - intros [= ->]. destruct (step m e); lia.
  - destruct (step n e') as [n'|]; [|done]. intros Hr. rewrite (IH n' Hr). lia.
Qed.

Lemma count_snoc f t e : count f (t ++ [e]) = count f t + (if f e then 1 else 0).
Proof. unfold count. rewrite List.filter_app, length_app. simpl. by destruct (f e). Qed.

(** ** Coalescing *)

Definition flag (b : bool) : nat := if b then 1 else 0.

Lemma budget trace n : reaches trace n →
  broadcasts NewDashboardNotifier trace + flag (notify n) + flag (pending n) ≤ count is_notify trace ∧
  broadcasts NewDashboardNotifier trace ≤ count is_tick trace.
Proof.
  induction 1 as [|trace n e n' Hr [IH1 IH2] Hs]; [done|].
  apply reaches_run in Hr. rewrite (broadcasts_snoc _ _ _ n Hr), !count_snoc.
  assert ((if starts_broadcast n e then 1 else 0) + flag (notify n') + flag (pending n') ≤
    flag (notify n) + flag (pending n) + (if is_notify e then 1 else 0) ∧
    (if starts_broadcast n e then 1 else 0) ≤ (if is_tick e then 1 else 0)) as [H1 H2]; [|lia].
  unfold starts_broadcast, is_notify, is_tick. destruct n as [cl no pe p cd].
  destruct e; unfold step in Hs; simpl in Hs |- *; destruct no, pe; repeat case_bool_decide; simplify_eq/=;
    repeat case_match; simplify_eq/=; lia.
Qed.

(** Bursts are coalesced and broadcasts rate-limited: there are never
    more broadcasts than notifications, nor than ticks of the limiter (one a
    second). *)
Theorem notifications_coalesced trace n : reaches trace n →
  broadcasts NewDashboardNotifier trace ≤ count is_notify trace ∧
  broadcasts NewDashboardNotifier trace ≤ count is_tick trace.
Proof. intros [? ?]%budget. lia. Qed.

(** ** No lost notification *)

Lemma flags_kept n e n' : step n e = Some n' → notify n || pending n = true →
  notify n' || pending n' = true ∨ (e = ELimiter ∧ pending n = true).
Proof.
  intros Hs Hf. destruct e; step_cases Hs; simpl; auto using orb_true_r.
Qed.

Lemma notification_ticked t1 t2 n : reaches (t1 ++ ENotify :: t2) n →
  notify n || pending n = true ∨
  ∃ ta tb m, t2 = ta ++ ELimiter :: tb ∧ reaches (t1 ++ ENotify :: ta) m ∧ pending m = true.
Proof.
  revert n. induction t2 as [|e t2 IH] using rev_ind; intros n Hr.
  - apply reaches_snoc in Hr as (m & _ & Hs). injection Hs as <-. by left.
  - change (ENotify :: t2 ++ [e]) with ((ENotify :: t2) ++ [e]) in Hr. rewrite app_assoc in Hr.
    apply reaches_snoc in Hr as (m & Hr & Hs). destruct (IH m Hr) as [Hf|(ta & tb & m' & -> & Hm' & Hp)].
    + destruct (flags_kept _ _ _ Hs Hf) as [?|[-> Hp]]; [by left|]. right. by exists t2, [], m.
    + right. exists ta, (tb ++ [e]), m'. by rewrite <-app_assoc.
Qed.

(** Along the events [t] from [m], the loop of a "ping" broadcast writes to
    [c]. *)
Definition pinged (m : DashboardNotifier) (t : list event) (c : conn) : Prop :=
  ∃ td ok te k l, t = td ++ EWrite c ok :: te ∧ run m td = Some k ∧ pc k = Writing TextPing (c :: l).

(** The broadcast under way in [n] is still to write to [c]. *)
Definition to_be_pinged (n : DashboardNotifier) (c : conn) : Prop :=
  (pc n = Snapshotting TextPing ∧ c ∈ clients n) ∨ ∃ l, pc n = Writing TextPing l ∧ c ∈ l.

Lemma pinged_app m t e c : pinged m t c → pinged m (t ++ [e]) c.
Proof. intros (td & ok & te & k & l & -> & Hk & Hp). exists td, ok, (te ++ [e]), k, l. by rewrite <-app_assoc. Qed.

Lemma ping_step n e n' c : step n e = Some n' → to_be_pinged n c →
  to_be_pinged n' c ∨ e = EUnregister c ∨ ∃ ok l, e = EWrite c ok ∧ pc n = Writing TextPing (c :: l).
Proof.
  intros Hs [[Hpc Hc]|(l & Hpc & Hc)]; destruct n as [cl no pe p cd]; simpl in *; subst p;
    destruct e as [|c'|c'| | | |l'|c' ok|]; unfold step in Hs; simpl in Hs; try done.
  - injection Hs as <-. left. by left.
  - injection Hs as <-. left. left. split; [done|]. simpl. set_solver.
  - injection Hs as <-. destruct (decide (c = c')) as [->|]; [by right; left|]. left. left. split; [done|]. simpl. set_solver.
  - case_bool_decide as Hl; [|done]. injection Hs as <-. left. right. exists l'.
    assert (c ∈ l') as Hin by by rewrite Hl, elem_of_elements. split; [|done]. simpl. by destruct l'; [apply not_elem_of_nil in Hin|].
  - injection Hs as <-. left. right. by exists l.
  - injection Hs as <-. left. right. by exists l.
  - injection Hs as <-. left. right. by exists l.
  - destruct l as [|d l]; [done|]. case_bool_decide; [|done]. subst d.
    apply elem_of_cons in Hc as [->|Hc]; [right; right; by exists ok, l|]. left. right. exists l.
    split; [|done]. assert (writing TextPing l = Writing TextPing l) as <- by (by destruct l; [apply not_elem_of_nil in Hc|]).
    by destruct ok; injection Hs as <-.
Qed.

(** A tick that finds a notification pending tells every client it finds. *)
Lemma tick_tells m m' t n c : step m ELimiter = Some m' → pending m = true → c ∈ clients m →
  run m' t = Some n → pinged m' t c ∨ EUnregister c ∈ t ∨ to_be_pinged n c.
Proof.
  intros Hs Hp Hc. revert n. induction t as [|e t IH] using rev_ind; intros n Hr.
  - injection Hr as <-. right. right. left. unfold step in Hs. case_bool_decide; [|done]. rewrite Hp in Hs.
    injection Hs as <-. simpl. by rewrite bool_decide_true by set_solver.
  - rewrite run_app in Hr. destruct (run m' t) as [k|] eqn:Hk; [|done]. simpl in Hr.
    destruct (step k e) as [k'|] eqn:He; [|done]. injection Hr as <-.
    destruct (IH k eq_refl) as [?|[?|Ht]]; [left; by apply pinged_app|right; left; set_solver|].
    destruct (ping_step _ _ _ _ He Ht) as [?|[->|(ok & l & -> & Hl)]]; [by right; right|right; left; set_solver|].
    left. by exists t, ok, [], k, l.
Qed.

(** C29: no notification is lost.  After [Notify], in every interleaving,
    either the notification is still in the channel or pending, or a tick of
    the limiter found it pending and started a broadcast of "ping": every
    client registered at that tick has been written to by the loop of that
    broadcast, or is still to be, or unregistered itself meanwhile.  A tick
    that finds no client has nobody to tell. *)
Theorem notification_not_lost t1 t2 n : reaches (t1 ++ ENotify :: t2) n →
  notify n || pending n = true ∨
  ∃ ta tb m m', t2 = ta ++ ELimiter :: tb ∧ reaches (t1 ++ ENotify :: ta) m ∧ pending m = true ∧
    step m ELimiter = Some m' ∧ pending m' = false ∧
    ∀ c, c ∈ clients m → pinged m' tb c ∨ EUnregister c ∈ tb ∨ to_be_pinged n c.
Proof.
  intros Hr. destruct (notification_ticked _ _ _ Hr) as [?|(ta & tb & m & -> & Hm & Hp)]; [by left|]. right.
  apply reaches_run in Hr. change (ENotify :: ta ++ ELimiter :: tb) with ((ENotify :: ta) ++ ELimiter :: tb) in Hr.
  rewrite app_assoc, run_app in Hr. pose proof Hm as Hm'. apply reaches_run in Hm'. rewrite Hm' in Hr.
  cbn [run] in Hr. destruct (step m ELimiter) as [m'|] eqn:Hs; [|done]. exists ta, tb, m, m'. split_and!; try done.
  - unfold step in Hs. case_bool_decide; [|done]. rewrite Hp in Hs. by injection Hs as <-.
  - intros c Hc. by eapply tick_tells.
Qed.

(** ** Broadcasts reach their snapshot *)

Lemma writes_snoc t e : writes (t ++ [e]) = writes t ++ match e with EWrite c _ => [c] | _ => [] end.
Proof. unfold writes. rewrite omap_app. by destruct e. Qed.

(** Outside [ESnapshot], an event takes from the list still to be written
    exactly what it writes. *)
Lemma todo_step n e n' : step n e = Some n' → is_snapshot e = false →
  match e with EWrite c _ => [c] | _ => [] end ++ todo n' = todo n.
Proof.
  intros Hs Hn. destruct n as [cl no pe p cd]. unfold todo.
  destruct e as [| | | | | | |c ok|]; unfold step in Hs; simpl in *.
  8: { destruct p as [| |m [|c' l]|]; try done. case_bool_decide; [|done]. subst.
    destruct ok; injection Hs as <-; simpl; by destruct l. }
  all: repeat case_match; simplify_eq/=; bool_to_prop; by subst.
Qed.

(** Between one snapshot and the next, the connections written to are a
    prefix of the snapshot, and what is missing is still to be written: no
    connection of a snapshot is skipped or written to twice, whatever joins or
    leaves meanwhile. *)
Theorem snapshot_delivered t1 l t2 n : reaches (t1 ++ ESnapshot l :: t2) n →
  forallb (fun e => negb (is_snapshot e)) t2 = true → writes t2 ++ todo n = l.
Proof.
  revert n. induction t2 as [|e t2 IH] using rev_ind; intros n Hr Hno.
  - apply reaches_snoc in Hr as (m & _ & Hs). step_cases Hs. unfold todo. simpl. by destruct l.
  - rewrite forallb_app in Hno. apply andb_true_iff in Hno as [Hno He]. simpl in He.
    change (ESnapshot l :: t2 ++ [e]) with ((ESnapshot l :: t2) ++ [e]) in Hr. rewrite app_assoc in Hr.
    apply reaches_snoc in Hr as (m & Hr & Hs). rewrite writes_snoc, <-app_assoc.
    rewrite (todo_step _ _ _ Hs) by (by destruct (is_snapshot e)). by apply IH.
Qed.

(** ** An uninterrupted broadcast *)

Lemma run_writes m l outcome n : pc n = writing m l → NoDup l →
  run n ((fun c => EWrite c (outcome c)) <$> l) =
  Some (at_pc Selecting {|
    clients := clients n ∖ list_to_set (filter (fun c => outcome c = false) l);
    notify := notify n; pending := pending n; pc := pc n;
    closed := list_to_set (filter (fun c => outcome c = false) l) ∪ closed n |}).
Proof.
  revert n. induction l as [|c l IH]; intros n Hpc Hn.
  - simpl in *. f_equal. destruct n as [cl no pe p cd]. unfold at_pc. simpl in *. subst. f_equal; set_solver.
  - apply NoDup_cons in Hn as [Hc Hn]. cbn [writing] in Hpc. rewrite fmap_cons. cbn [run step].
    rewrite Hpc, bool_decide_true by done. destruct (outcome c) eqn:Ho.
    + rewrite IH by done. rewrite filter_cons_False by (by rewrite Ho). done.
    + rewrite IH by done. rewrite filter_cons_True by done. unfold at_pc, unregister, close_conns, with_clients.
      simpl. do 2 f_equal; set_solver.
Qed.

(** A notification that finds clients reaches all of them at the next
    tick: the limiter starts a broadcast over every client, and the loop ends
    back in the [select] with exactly the clients whose write succeeded, the
    others closed. *)
Theorem tick_broadcasts n l outcome :
  pc n = Selecting → pending n = true → clients n ≠ ∅ → l ≡ₚ elements (clients n) →
  run n (ELimiter :: broadcast l outcome) = Some {|
    clients := filter (fun c => outcome c = true) (clients n);
    notify := notify n; pending := false; pc := Selecting;
    closed := filter (fun c => outcome c = false) (clients n) ∪ closed n |}.
Proof.
  intros Hpc Hp Hc Hl. unfold broadcast. cbn [run step].
  rewrite bool_decide_true, Hp by done. cbn [negb]. rewrite (bool_decide_true (clients n ≠ ∅)) by done.
  cbn [run step pc clients]. rewrite bool_decide_true by done.
  rewrite (run_writes TextPing) by (done || (rewrite Hl; apply NoDup_elements)).
  unfold at_pc. simpl.
  assert (∀ c, c ∈ l ↔ c ∈ clients n) as Hin by (intros c; by rewrite Hl, elem_of_elements).
  assert (list_to_set (filter (fun c => outcome c = false) l) =@{gset conn}
    filter (fun c => outcome c = false) (clients n)) as ->.
  { apply set_eq. intros c. rewrite elem_of_list_to_set, list_elem_of_filter, elem_of_filter, Hin. done. }
  do 2 f_equal. apply set_eq. intros c. rewrite elem_of_difference, !elem_of_filter.
  destruct (outcome c); naive_solver.
Qed.

(** ** Shutdown *)

Lemma returned_stays n e n' : step n e = Some n' → pc n = Returned → pc n' = Returned.
Proof. intros Hs Hpc. destruct e; step_cases Hs; simpl; congruence. Qed.

(** When the context ends every client is closed and dropped, and nothing
    is written afterwards. *)
Theorem shutdown_closes_all t1 t2 n : reaches (t1 ++ EDone :: t2) n →
  pc n = Returned ∧ writes t2 = [] ∧
  ∀ m, reaches t1 m → ∀ m', step m EDone = Some m' → clients m' = ∅ ∧ clients m ⊆ closed m'.
Proof.
  intros Hr. split_and!.
  - revert n Hr. induction t2 as [|e t2 IH] using rev_ind; intros n Hr.
    + apply reaches_snoc in Hr as (m & _ & Hs). by step_cases Hs.
    + change (EDone :: t2 ++ [e]) with ((EDone :: t2) ++ [e]) in Hr. rewrite app_assoc in Hr.
      apply reaches_snoc in Hr as (m & Hr & Hs). eapply returned_stays; [done|by apply IH].
  - enough (pc n = Returned ∧ writes t2 = []) as [_ ?] by done.
    revert n Hr. induction t2 as [|e t2 IH] using rev_ind; intros n Hr.
    + apply reaches_snoc in Hr as (m & _ & Hs). split; [by step_cases Hs|done].
    + change (EDone :: t2 ++ [e]) with ((EDone :: t2) ++ [e]) in Hr. rewrite app_assoc in Hr.
      apply reaches_snoc in Hr as (m & Hr & Hs). destruct (IH m Hr) as [Hpc Hw].
      split; [by eapply returned_stays|]. rewrite writes_snoc, Hw. destruct e; try done.
      unfold step in Hs. by rewrite Hpc in Hs.
  - intros m _ m' Hs. unfold step in Hs. case_bool_decide; [|done]. injection Hs as <-. simpl. set_solver.
Qed.

(** A connection registered after shutdown is neither closed nor
    written to again. *)
Theorem late_registration_leaks : ∃ n,
  reaches [EDone; ERegister 1] n ∧ pc n = Returned ∧ clients n = {[1]} ∧ closed n = ∅.
Proof. eexists. rewrite reaches_run. by vm_compute. Qed.

(** ** Witnesses *)

Definition two_clients : list event := [ERegister 1; ERegister 2; ENotify; EReceive].
Definition after (trace : list event) : DashboardNotifier :=
  default NewDashboardNotifier (run NewDashboardNotifier trace).
Definition busy_trace : list event :=
  two_clients ++ [ENotify; ENotify; ELimiter; ESnapshot (elements (clients (after two_clients)));
    ERegister 3; EWrite 2 false].

Lemma busy_trace_reaches : reaches busy_trace (after busy_trace).
Proof. apply reaches_run. vm_compute. reflexivity. Qed.

Lemma notifications_coalesced_witness :
  broadcasts NewDashboardNotifier busy_trace = 1 ∧
  broadcasts NewDashboardNotifier busy_trace ≤ count is_notify busy_trace ∧
  broadcasts NewDashboardNotifier busy_trace ≤ count is_tick busy_trace.
Proof.
  split; [vm_compute; reflexivity|]. apply (notifications_coalesced busy_trace (after busy_trace)), busy_trace_reaches.
Defined.

(** The broadcast has written to client 2 and is still to write to client 1. *)
Definition told_trace : list event :=
  two_clients ++ [ELimiter; ESnapshot (elements (clients (after two_clients))); ERegister 3; EWrite 2 false].

Lemma notification_not_lost_witness :
  notify (after told_trace) = false ∧ pending (after told_trace) = false ∧
  (notify (after told_trace) || pending (after told_trace) = true ∨
  ∃ ta tb m m', drop 3 told_trace = ta ++ ELimiter :: tb ∧
    reaches ([ERegister 1; ERegister 2] ++ ENotify :: ta) m ∧ pending m = true ∧
    step m ELimiter = Some m' ∧ pending m' = false ∧
    ∀ c, c ∈ clients m → pinged m' tb c ∨ EUnregister c ∈ tb ∨ to_be_pinged (after told_trace) c).
Proof.
  split; [vm_compute; reflexivity|]. split; [vm_compute; reflexivity|].
  apply (notification_not_lost [ERegister 1; ERegister 2] (drop 3 told_trace)), reaches_run. vm_compute. reflexivity.
Defined.

Lemma snapshot_delivered_witness :
  writes [ERegister 3; EWrite 2 false] ++ todo (after busy_trace) = elements (clients (after two_clients)).
Proof.
  apply (snapshot_delivered (two_clients ++ [ENotify; ENotify; ELimiter])
    (elements (clients (after two_clients))) [ERegister 3; EWrite 2 false]); [|reflexivity].
  apply busy_trace_reaches.
Defined.

Lemma tick_broadcasts_witness :
  run (after two_clients) (ELimiter :: broadcast [2; 1] (fun c => bool_decide (c = 2))) = Some {|
    clients := filter (fun c => bool_decide (c = 2) = true) (clients (after two_clients));
    notify := notify (after two_clients); pending := false; pc := Selecting;
    closed := filter (fun c => bool_decide (c = 2) = false) (clients (after two_clients)) ∪ closed (after two_clients) |}.
Proof.
  apply (tick_broadcasts (after two_clients) [2; 1] (fun c => bool_decide (c = 2)));
    [reflexivity|reflexivity|by vm_compute|].
  apply (bool_decide_unpack _). vm_compute. exact I.
Defined.

Lemma shutdown_closes_all_witness :
  pc (after (two_clients ++ [EDone; ENotify])) = Returned ∧ writes [ENotify] = [] ∧
  ∀ m, reaches two_clients m → ∀ m', step m EDone = Some m' → clients m' = ∅ ∧ clients m ⊆ closed m'.
Proof.
  apply (shutdown_closes_all two_clients [ENotify]). apply reaches_run. vm_compute. reflexivity.
Defined.
