(* ===== verification/Url.v ===== *)
(** * Url: the part of net/url the program uses

    Parsing ([Parse], [ParseRequestURI]), printing ([URL.String]) and query
    strings.  Webhooks, controllers, the WebSocket origin check and the
    authentication service share it.  The text of the error for a host in
    brackets that is not an IPv6 address is shortened. *)

From S2P Require Import Prelude GoStrings.

(** ** Characters *)
Definition is_alpha (c : ascii) : bool := in_range 97 122 c || in_range 65 90 c.
Definition is_digit (c : ascii) : bool := in_range 48 57 c.
Definition is_alnum (c : ascii) : bool := is_alpha c || is_digit c.
Definition is_hex (c : ascii) : bool := is_digit c || in_range 97 102 c || in_range 65 70 c.
Definition unhex (c : ascii) : N :=
  (if is_digit c then byte c - 48
   else if in_range 97 102 c then byte c - 87 else byte c - 55)%N.
Definition one_of (set : string) (c : ascii) : bool := bool_decide (c ∈ bytes set).

(** ** Escapes *)

(** [encoding]: the component a text belongs to. *)
Inductive encoding :=
| encodePath
| encodeHost
| encodeZone
| encodeUserPassword
| encodeQueryComponent
| encodeFragment.
#[export] Instance encoding_eq_dec : EqDecision encoding.
Proof. solve_decision. Defined.

Definition host_mode (mode : encoding) : bool := bool_decide (mode = encodeHost ∨ mode = encodeZone).

Definition shouldEscape (mode : encoding) (c : ascii) : bool :=
  if is_alnum c then false else
  if host_mode mode && one_of "!$&'()*+,;=:[]<>" c then false else
  if host_mode mode && bool_decide (c = double_quote) then false else
  if one_of "-_.~" c then false else
  if one_of "$&+,/:;=?@" c then
    match mode with
    | encodePath => one_of "?" c
    | encodeUserPassword => one_of "@/?:" c
    | encodeQueryComponent => true
    | encodeFragment => false
    | encodeHost | encodeZone => true
    end
  else if bool_decide (mode = encodeFragment) && one_of "!()*" c then false
  else true.

Definition upper_hex (n : N) : ascii := of_byte (if n <? 10 then 48 + n else 55 + n)%N.
Definition percent : ascii := "%"%char.

Definition escape_char (mode : encoding) (c : ascii) : list ascii :=
  if shouldEscape mode c then
    if bool_decide (mode = encodeQueryComponent) && bool_decide (c = " "%char) then ["+"%char]
    else [percent; upper_hex (N.shiftr (byte c) 4); upper_hex (N.land (byte c) 15)]
  else [c].

Definition url_escape (mode : encoding) (s : string) : string := str (concat (escape_char mode <$> bytes s)).

Section url.
Context `{Unicode}.

Definition EscapeError (s : list ascii) : error := new_error ("invalid URL escape " +:+ quote (str s)).
Definition InvalidHostError (c : ascii) : error :=
  new_error ("invalid character " +:+ quote (str [c]) +:+ " in host name").

(** The checks of [unescape] on the escape [%ab], by mode. *)
Definition escape_refused (mode : encoding) (a b : ascii) : bool :=
  let v := of_byte (16 * unhex a + unhex b) in
  let is25 := bool_decide (a = "2"%char ∧ b = "5"%char) in
  match mode with
  | encodeHost => (unhex a <? 8)%N && negb is25
  | encodeZone => negb is25 && negb (bool_decide (v = " "%char)) && shouldEscape encodeHost v
  | _ => false
  end.

(** [unescape]; [Go]'s two passes are one. *)
Fixpoint unescape (mode : encoding) (l : list ascii) : result (list ascii) :=
  match l with
  | [] => Ok []
  | c :: l' =>
    if bool_decide (c = percent) then
      match l' with
      | a :: b :: l'' =>
        if negb (is_hex a && is_hex b) || escape_refused mode a b then Err (EscapeError (take 3 l))
        else rest ← unescape mode l''; Ok (of_byte (16 * unhex a + unhex b) :: rest)
      | _ => Err (EscapeError l)
      end
    else if bool_decide (c = "+"%char) && bool_decide (mode = encodeQueryComponent) then
      rest ← unescape mode l'; Ok (" "%char :: rest)
    else if bool_decide (c ≠ "+"%char) && host_mode mode && (byte c <? 128)%N && shouldEscape mode c then
      Err (InvalidHostError c)
    else rest ← unescape mode l'; Ok (c :: rest)
  end.

Definition unescape_str (mode : encoding) (s : string) : result string := str <$> unescape mode (bytes s).

(** ** Printing *)

(** [validEncoded] *)
Definition validEncoded (mode : encoding) (s : string) : bool :=
  forallb (fun c => one_of "!$&'()*+,;=:@[]%" c || negb (shouldEscape mode c)) (bytes s).

(** [EscapedPath] and [EscapedFragment]: the raw form when it still encodes
    the decoded one. *)
Definition escaped (mode : encoding) (decoded raw : string) : string :=
  let default_escape :=
    if bool_decide (decoded = "*") && bool_decide (mode = encodePath) then "*" else url_escape mode decoded in
  if bool_decide (raw ≠ "") && validEncoded mode raw then
    match unescape_str mode raw with
    | Ok p => if bool_decide (p = decoded) then raw else default_escape
    | Err _ => default_escape
    end
  else default_escape.

(** ** Query strings *)

(** [url.Values] *)
Abbreviation Values := (gmap string (list string)).

Definition Add (q : Values) (key value : string) : Values := <[key := default [] (q !! key) ++ [value]]> q.

(** One setting of a query string; [None] is one that [Query] skips. *)
Definition parse_setting (setting : string) : option (string * string) :=
  if Contains setting ";" || bool_decide (setting = "") then None else
  let '(key, value, _) := Cut setting "=" in
  match unescape_str encodeQueryComponent key, unescape_str encodeQueryComponent value with
  | Ok key, Ok value => Some (key, value)
  | _, _ => None
  end.

(** [ParseQuery], its error ignored as [URL.Query] does. *)
Definition ParseQuery (query : string) : Values :=
  foldl (fun q kv => Add q kv.1 kv.2) ∅ (omap parse_setting (Split query "&")).

(** [Values.Encode]: sorted by key. *)
Definition sorted_keys (q : Values) : list string := merge_sort String.le (map_to_list q).*1.
Definition encode_setting (kv : string * string) : string :=
  url_escape encodeQueryComponent kv.1 +:+ "=" +:+ url_escape encodeQueryComponent kv.2.
Definition settings_of (q : Values) : list (string * string) :=
  concat ((fun k => (fun v => (k, v)) <$> default [] (q !! k)) <$> sorted_keys q).
Definition Encode (q : Values) : string := Join (encode_setting <$> settings_of q) "&".

(** ** IPv6 literals ([netip.ParseAddr], whether it gives an IPv6 address) *)

Definition valid_octet (w : list ascii) : bool :=
  match w with
  | [] => false
  | [a] => is_digit a
  | a :: _ => forallb is_digit w && negb (bool_decide (a = "0"%char)) && bool_decide (length w ≤ 3)
      && (foldl (fun n c => 10 * n + (byte c - 48)) 0 w <=? 255)%N
  end.
Definition valid_ipv4 (l : list ascii) : bool :=
  let parts := split_bytes "." l in
  bool_decide (length parts = 4) && forallb valid_octet parts.

(** The fields from the [n]-th byte of the address on; [ellipsis] is whether
    a double colon has been seen. *)
Fixpoint ipv6_fields (fuel n : nat) (ellipsis : bool) (l : list ascii) : bool :=
  match fuel with
  | 0 => false
  | S fuel =>
    if bool_decide (16 ≤ n) then false else
    let digits := take (length l - length (drop_while is_hex l)) l in
    let rest := drop (length digits) l in
    if bool_decide (digits = []) || bool_decide (4 < length digits) then false else
    match rest with
    | [] => if ellipsis then bool_decide (n + 2 < 16) else bool_decide (n + 2 = 16)
    | c :: rest' =>
      if bool_decide (c = "."%char) then
        (if ellipsis then bool_decide (n < 12) else bool_decide (n = 12)) && valid_ipv4 l
      else if bool_decide (c = ":"%char) then
        match rest' with
        | [] => false
        | d :: rest'' =>
          if bool_decide (d = ":"%char) then
            if ellipsis then false else
            match rest'' with [] => bool_decide (n + 2 < 16) | _ => ipv6_fields fuel (n + 2) true rest'' end
          else if bool_decide (n + 2 = 16) then false
          else ipv6_fields fuel (n + 2) ellipsis rest'
        end
      else false
    end
  end.

Definition valid_ipv6 (s : string) : bool :=
  let '(addr, zone, zoned) := Cut s "%" in
  if zoned && bool_decide (zone = "") then false else
  match bytes addr with
  | ":"%char :: ":"%char :: [] => true
  | ":"%char :: ":"%char :: l => ipv6_fields 9 0 true l
  | l => ipv6_fields 9 0 false l
  end.

(** ** Hosts and authorities *)

Definition LastCut (s : string) (c : ascii) : option (string * string) :=
  match index_of [c] (reverse (bytes s)) with
  | None => None
  | Some n =>
    let k := length (bytes s) - S n in
    Some (str (take k (bytes s)), str (drop (S k) (bytes s)))
  end.

Definition validOptionalPort (port : string) : bool :=
  match bytes port with
  | [] => true
  | c :: l => bool_decide (c = ":"%char) && forallb is_digit l
  end.

Definition invalid_port (port : string) : result string :=
  Err (new_error ("invalid port " +:+ quote port +:+ " after host")).

Definition parseHost (scheme host : string) : result string :=
  match LastCut host "[" with
  | Some (before, inside) =>
    if bool_decide (before ≠ "") then Err (new_error "invalid IP-literal") else
    match LastCut host "]" with
    | None => Err (new_error "missing ']' in host")
    | Some (_, colonPort) =>
      if negb (validOptionalPort colonPort) then invalid_port colonPort else
      port ← unescape_str encodeHost colonPort;
      let hostname := str (take (length (bytes inside) - S (length (bytes colonPort))) (bytes inside)) in
      name ← match index_of (bytes "%25") (bytes hostname) with
        | Some i =>
          hostPart ← unescape_str encodeHost (str (take i (bytes hostname)));
          zonePart ← unescape_str encodeZone (str (drop i (bytes hostname)));
          Ok (hostPart +:+ zonePart)
        | None => unescape_str encodeHost hostname
        end;
      if valid_ipv6 name then Ok ("[" +:+ name +:+ "]" +:+ port) else Err (new_error "invalid host")
    end
  | None =>
    match Cut host ":" with
    | (_, after, true) =>
      let postgres := bool_decide (scheme = "postgresql" ∨ scheme = "postgres") in
      let port := match LastCut host ":" with
        | Some (_, last) => if postgres then last else after
        | None => after
        end in
      if validOptionalPort (":" +:+ port) then unescape_str encodeHost host else invalid_port (":" +:+ port)
    | _ => unescape_str encodeHost host
    end
  end.

Definition validUserinfo (s : string) : bool :=
  forallb (fun c => is_alnum c || one_of "-._:~!$&'()*+,;=%@" c) (bytes s).

(** [*url.Userinfo]: the user name and the password when there is one. *)
Definition Userinfo : Type := string * option string.

Definition parseAuthority (scheme authority : string) : result (option Userinfo * string) :=
  match LastCut authority "@" with
  | None => host ← parseHost scheme authority; Ok (None, host)
  | Some (userinfo, hostpart) =>
    host ← parseHost scheme hostpart;
    if negb (validUserinfo userinfo) then Err (new_error "net/url: invalid userinfo") else
    match Cut userinfo ":" with
    | (username, password, true) =>
      username ← unescape_str encodeUserPassword username;
      password ← unescape_str encodeUserPassword password;
      Ok (Some (username, Some password), host)
    | _ =>
      username ← unescape_str encodeUserPassword userinfo;
      Ok (Some (username, None), host)
    end
  end.

(** ** URLs *)
Record URL := {
  Scheme : string;
  Opaque : string;
  User : option Userinfo;
  Host : string;
  Path : string;
  RawPath : string;
  OmitHost : bool;
  ForceQuery : bool;
  RawQuery : string;
  Fragment : string;
  RawFragment : string
}.

(** [URL.Hostname] *)
Definition Hostname (u : URL) : string :=
  let host := match LastCut (Host u) ":" with
    | Some (h, port) => if validOptionalPort (":" +:+ port) then h else Host u
    | None => Host u
    end in
  match bytes host with
  | "["%char :: l =>
    match reverse l with "]"%char :: l => str (reverse l) | _ => host end
  | _ => host
  end.

Definition userinfo_string (u : Userinfo) : string :=
  url_escape encodeUserPassword u.1 +:+
  match u.2 with Some p => ":" +:+ url_escape encodeUserPassword p | None => "" end.

Definition with_query (query : string) (u : URL) : URL :=
  {| Scheme := Scheme u; Opaque := Opaque u; User := User u; Host := Host u; Path := Path u;
     RawPath := RawPath u; OmitHost := OmitHost u; ForceQuery := ForceQuery u; RawQuery := query;
     Fragment := Fragment u; RawFragment := RawFragment u |}.

(** [URL.String] *)
Definition url_string (u : URL) : string :=
  let scheme := if bool_decide (Scheme u ≠ "") then Scheme u +:+ ":" else "" in
  let body :=
    if bool_decide (Opaque u ≠ "") then scheme +:+ Opaque u else
    let no_user := bool_decide (User u = None) in
    let authority :=
      if bool_decide (Scheme u ≠ "") || bool_decide (Host u ≠ "") || negb no_user then
        if OmitHost u && bool_decide (Host u = "") && no_user then ""
        else
          (if bool_decide (Host u ≠ "") || bool_decide (Path u ≠ "") || negb no_user then "//" else "") +:+
          match User u with Some ui => userinfo_string ui +:+ "@" | None => "" end +:+
          url_escape encodeHost (Host u)
      else "" in
    let path := escaped encodePath (Path u) (RawPath u) in
    let slash := if bool_decide (path ≠ "") && negb (HasPrefix path "/") && bool_decide (Host u ≠ "")
      then "/" else "" in
    let before := scheme +:+ authority +:+ slash in
    let dot := if bool_decide (before = "") && Contains (Cut path "/").1.1 ":" then "./" else "" in
    before +:+ dot +:+ path in
  body +:+
  (if ForceQuery u || bool_decide (RawQuery u ≠ "") then "?" +:+ RawQuery u else "") +:+
  (if bool_decide (Fragment u ≠ "") then "#" +:+ escaped encodeFragment (Fragment u) (RawFragment u) else "").

(** [getScheme]: the scheme before the first colon, and the rest. *)
Fixpoint getScheme (first : bool) (seen l whole : list ascii) : result (list ascii * list ascii) :=
  match l with
  | [] => Ok ([], whole)
  | c :: l =>
    if is_alpha c then getScheme false (seen ++ [c]) l whole
    else if is_digit c || one_of "+-." c then
      if first then Ok ([], whole) else getScheme false (seen ++ [c]) l whole
    else if bool_decide (c = ":"%char) then
      if first then Err (new_error "missing protocol scheme") else Ok (seen, l)
    else Ok ([], whole)
  end.

Definition has_ctl (s : string) : bool := existsb (fun c => (byte c <? 32)%N || (byte c =? 127)%N) (bytes s).

Definition ascii_lower_str (l : list ascii) : string := str ((fun c => of_byte (ascii_lower (byte c))) <$> l).

(** The query of what follows the scheme: the rest, [RawQuery], [ForceQuery]. *)
Definition split_query (rest : string) : string * string * bool :=
  let '(before, query, found) := Cut rest "?" in
  (before, query, found && bool_decide (query = "")).

(** [parse(rawURL, viaRequest)] *)
Definition parse_url (rawURL : string) (viaRequest : bool) : result URL :=
  let empty := {| Scheme := ""; Opaque := ""; User := None; Host := ""; Path := ""; RawPath := "";
    OmitHost := false; ForceQuery := false; RawQuery := ""; Fragment := ""; RawFragment := "" |} in
  if has_ctl rawURL then Err (new_error "net/url: invalid control character in URL") else
  if bool_decide (rawURL = "") && viaRequest then Err (new_error "empty url") else
  if bool_decide (rawURL = "*") then
    Ok {| Scheme := ""; Opaque := ""; User := None; Host := ""; Path := "*"; RawPath := "";
      OmitHost := false; ForceQuery := false; RawQuery := ""; Fragment := ""; RawFragment := "" |}
  else
  sr ← getScheme true [] (bytes rawURL) (bytes rawURL);
  let scheme := ascii_lower_str sr.1 in
  let '(rest, query, force) := split_query (str sr.2) in
  let url user host path raw omit opaque :=
    {| Scheme := scheme; Opaque := opaque; User := user; Host := host; Path := path; RawPath := raw;
       OmitHost := omit; ForceQuery := force; RawQuery := query; Fragment := ""; RawFragment := "" |} in
  let rooted := HasPrefix rest "/" in
  if negb rooted && bool_decide (scheme ≠ "") then Ok (url None "" "" "" false rest) else
  if negb rooted && viaRequest then Err (new_error "invalid URI for request") else
  if negb rooted && Contains (Cut rest "/").1.1 ":" then
    Err (new_error "first path segment in URL cannot contain colon")
  else
  let with_path user host rest omit :=
    path ← unescape_str encodePath rest;
    Ok (url user host path (if bool_decide (url_escape encodePath path = rest) then "" else rest) omit "") in
  if (bool_decide (scheme ≠ "") || negb viaRequest && negb (HasPrefix rest "///")) && HasPrefix rest "//" then
    let body := slice_from rest 2 in
    let authority := (Cut body "/").1.1 in
    let rest := slice_from body (Z.of_nat (String.length authority)) in
    uh ← parseAuthority scheme authority;
    with_path uh.1 uh.2 rest false
  else with_path None "" rest (bool_decide (scheme ≠ "") && HasPrefix rest "/").

(** [&Error{op, url, err}] *)
Definition url_error (rawURL : string) (e : error) : error :=
  wrap_error ("parse " +:+ quote rawURL +:+ ": ") e.

Definition ParseRequestURI (rawURL : string) : result URL :=
  match parse_url rawURL true with Ok u => Ok u | Err e => Err (url_error rawURL e) end.

Definition Parse (rawURL : string) : result URL :=
  let '(u, frag, _) := Cut rawURL "#" in
  match parse_url u false with
  | Err e => Err (url_error u e)
  | Ok url =>
    if bool_decide (frag = "") then Ok url else
    match unescape_str encodeFragment frag with
    | Err e => Err (url_error rawURL e)
    | Ok fragment =>
      Ok {| Scheme := Scheme url; Opaque := Opaque url; User := User url; Host := Host url;
            Path := Path url; RawPath := RawPath url; OmitHost := OmitHost url;
            ForceQuery := ForceQuery url; RawQuery := RawQuery url; Fragment := fragment;
            RawFragment := if bool_decide (url_escape encodeFragment fragment = frag) then "" else frag |}
    end
  end.

(** ** Query strings survive encoding *)

Abbreviation qc := encodeQueryComponent.

Lemma escape_char_cases c :
  (∃ a, escape_char qc c = [a] ∧ a ≠ percent ∧
    c = (if bool_decide (a = "+"%char) then " "%char else a)) ∨
  (∃ a b, escape_char qc c = [percent; a; b] ∧ is_hex a && is_hex b = true ∧
    c = of_byte (16 * unhex a + unhex b)).
Proof.
  pose (check c := match escape_char qc c with
    | [a] => negb (bool_decide (a = percent)) && bool_decide (c = (if bool_decide (a = "+"%char) then " "%char else a))
    | [p; a; b] => bool_decide (p = percent) && (is_hex a && is_hex b) && bool_decide (c = of_byte (16 * unhex a + unhex b))
    | _ => false
    end).
  assert (check c = true) as Hc by (apply forall_byte; by vm_compute). unfold check in Hc.
  destruct (escape_char qc c) as [|a [|b [|d [|]]]]; try done; bool_to_prop.
  - left. by exists a.
  - right. exists b, d. subst a. split_and!; [done|by apply andb_true_iff|done].
Qed.

Lemma unescape_escape s : unescape_str qc (url_escape qc s) = Ok s.
Proof.
  unfold unescape_str, url_escape. rewrite bytes_str.
  enough (∀ l, unescape qc (concat (escape_char qc <$> l)) = Ok l) as -> by (cbn; by rewrite str_bytes).
  induction l as [|c l IH]; [done|]. rewrite fmap_cons. cbn [concat].
  destruct (escape_char_cases c) as [(a & -> & Ha & Hc)|(a & b & -> & Hab & Hc)]; cbn [app unescape].
  - rewrite (bool_decide_false (a = percent)) by done. rewrite (bool_decide_true (qc = qc)) by done.
    rewrite andb_true_r. change (host_mode qc) with false. rewrite andb_false_r, IH.
    rewrite Hc. by case_bool_decide.
  - rewrite bool_decide_true by done. rewrite Hab. cbn [escape_refused negb orb]. rewrite IH. by rewrite Hc.
Qed.

Lemma escape_safe s c : c ∈ bytes (url_escape qc s) → c ≠ "&"%char ∧ c ≠ ";"%char ∧ c ≠ "="%char.
Proof.
  unfold url_escape. rewrite bytes_str, list_elem_of_In, in_concat. intros (w & Hw & Hc).
  apply list_elem_of_In, list_elem_of_fmap in Hw as (x & -> & _). apply list_elem_of_In in Hc.
  pose (check x := forallb (fun c => negb (bool_decide (c = "&"%char) || bool_decide (c = ";"%char)
    || bool_decide (c = "="%char))) (escape_char qc x)).
  assert (check x = true) as Hx by (apply forall_byte; by vm_compute). unfold check in Hx.
  rewrite forallb_forall in Hx. specialize (Hx c). rewrite <-list_elem_of_In in Hx. specialize (Hx Hc).
  apply negb_true_iff in Hx. bool_to_prop. done.
Qed.

Lemma encode_setting_safe kv c :
  c ∈ bytes (encode_setting kv) → c ≠ "&"%char ∧ c ≠ ";"%char.
Proof.
  unfold encode_setting. rewrite !bytes_app, !elem_of_app.
  intros [Hc|[Hc|Hc]]; [apply escape_safe in Hc; naive_solver| |apply escape_safe in Hc; naive_solver].
  apply list_elem_of_singleton in Hc as ->. done.
Qed.

Lemma parse_encode_setting kv : parse_setting (encode_setting kv) = Some kv.
Proof.
  unfold parse_setting.
  assert (Contains (encode_setting kv) ";" = false) as ->.
  { unfold Contains. destruct (index_of _ _) as [n|] eqn:E; [|done]. exfalso.
    apply index_of_Some in E as (p & t & Hs & _). destruct (encode_setting_safe kv ";"%char) as [_ ?]; [|done].
    rewrite Hs. set_solver. }
  cbn [orb]. rewrite bool_decide_false.
  2: { intros E. apply (f_equal bytes) in E. unfold encode_setting in E. rewrite !bytes_app in E.
       by destruct (bytes (url_escape qc kv.1)). }
  assert (Cut (encode_setting kv) "=" = (url_escape qc kv.1, url_escape qc kv.2, true)) as ->.
  { apply Cut_char. split; [done|]. intros Hin. by apply escape_safe in Hin as (_ & _ & ?). }
  rewrite !unescape_escape. by destruct kv.
Qed.

Lemma parse_settings l : omap parse_setting (Split (Join (encode_setting <$> l) "&") "&") = l.
Proof.
  destruct l as [|kv l]; [done|]. rewrite Split_Join; [| |done].
  2: { apply Forall_fmap, Forall_forall. intros x _ Hin. by apply encode_setting_safe in Hin as [? _]. }
  induction (kv :: l) as [|x k IH]; [done|]. rewrite fmap_cons. cbn [omap list_omap].
  by rewrite parse_encode_setting, IH.
Qed.

(** The values a list of settings gives a key. *)
Definition values_for (k : string) (l : list (string * string)) : list string :=
  (filter (fun kv => kv.1 = k) l).*2.

Lemma foldl_Add q l k :
  foldl (fun q kv => Add q kv.1 kv.2) q l !! k =
  if bool_decide (values_for k l = []) then q !! k else Some (default [] (q !! k) ++ values_for k l).
Proof.
  revert q. induction l as [|[k' v] l IH]; intros q; [done|]. cbn [foldl fst snd]. rewrite IH.
  unfold values_for. rewrite filter_cons. cbn [fst].
  destruct (decide (k' = k)) as [->|Hk].
  - unfold Add. rewrite fmap_cons. cbn [snd].
    rewrite lookup_insert_eq, (bool_decide_false (_ :: _ = [])) by done.
    fold (values_for k l). case_bool_decide as E; [by rewrite E|]. cbn. by rewrite <-app_assoc.
  - unfold Add. by rewrite lookup_insert_ne by done.
Qed.

Lemma values_for_settings q k : values_for k (settings_of q) = default [] (q !! k).
Proof.
  unfold settings_of, values_for.
  assert (NoDup (sorted_keys q)) as Hnd.
  { unfold sorted_keys. rewrite merge_sort_Permutation. apply NoDup_fst_map_to_list. }
  assert (∀ k, q !! k = None ∨ k ∈ sorted_keys q) as Hk.
  { intros k'. unfold sorted_keys. rewrite merge_sort_Permutation.
    destruct (q !! k') as [vs|] eqn:E; [right|by left]. apply list_elem_of_fmap. exists (k', vs).
    split; [done|]. by apply elem_of_map_to_list. }
  assert (∀ l, NoDup l → (filter (fun kv : string * string => kv.1 = k)
    (concat ((fun k => (fun v => (k, v)) <$> default [] (q !! k)) <$> l))).*2 =
    if decide (k ∈ l) then default [] (q !! k) else []) as Hl.
  { assert (∀ k' (vs : list string), (filter (fun kv : string * string => kv.1 = k)
      ((fun v => (k', v)) <$> vs)).*2 = if decide (k' = k) then vs else []) as Hone.
    { intros k' vs. destruct (decide (k' = k)); induction vs as [|v vs IH]; try done;
        rewrite fmap_cons, filter_cons; cbn [fst]; [rewrite decide_True by done|rewrite decide_False by done];
        rewrite ?fmap_cons; by rewrite ?IH. }
    induction 1 as [|k' l Hk' Hnd' IH]; [by rewrite decide_False by apply not_elem_of_nil|].
    rewrite fmap_cons. cbn [concat]. rewrite filter_app, fmap_app, IH, Hone.
    destruct (decide (k' = k)) as [->|Hne].
    - rewrite (decide_False (P := k ∈ l)) by done. rewrite decide_True by left. by rewrite app_nil_r.
    - destruct (decide (k ∈ l)); [rewrite decide_True by (by right); done|].
      rewrite decide_False; [done|]. rewrite elem_of_cons. intros [?|?]; congruence. }
  rewrite (Hl _ Hnd). destruct (Hk k) as [->|Hin]; [by destruct (decide _)|by rewrite decide_True].
Qed.

(** Reading back an encoded query gives the same settings. *)
Lemma ParseQuery_Encode q : map_Forall (fun _ vs => vs ≠ []) q → ParseQuery (Encode q) = q.
Proof.
  intros Hq. unfold ParseQuery, Encode. rewrite parse_settings. apply map_eq. intros k.
  rewrite foldl_Add, values_for_settings, lookup_empty. destruct (q !! k) as [vs|] eqn:E; cbn [default from_option id].
  - rewrite bool_decide_false by (by apply (Hq k)). done.
  - done.
Qed.

Lemma ParseQuery_nonempty query : map_Forall (fun _ vs => vs ≠ []) (ParseQuery query).
Proof.
  unfold ParseQuery. apply (foldl_ind (map_Forall (fun _ vs => vs ≠ []))).
  - apply map_Forall_empty.
  - intros q kv _ Hq. unfold Add. apply map_Forall_insert_2; [by destruct (default _ _)|done].
Qed.
End url.
