(* ===== verification/Path.v ===== *)
(** * Path: package path, and the path cleaning of net/http *)

From S2P Require Import Prelude GoStrings.

(** [path.Clean]: the segments that remain, last first. *)
Fixpoint clean_segments (rooted : bool) (out : list string) (segments : list string) : list string :=
  match segments with
  | [] => out
  | s :: segments =>
    if bool_decide (s = "") || bool_decide (s = ".") then clean_segments rooted out segments
    else if bool_decide (s = "..") then
      match out with
      | top :: out' =>
        if bool_decide (top = "..") then clean_segments rooted (s :: out) segments
        else clean_segments rooted out' segments
      | [] => clean_segments rooted (if rooted then [] else [s]) segments
      end
    else clean_segments rooted (s :: out) segments
  end.

Definition path_Clean (p : string) : string :=
  let rooted := HasPrefix p "/" in
  let segments := reverse (clean_segments rooted [] (Split p "/"%char)) in
  match rooted, segments with
  | false, [] => "."
  | _, _ => (if rooted then "/" else "") +:+ Join segments "/"%char
  end.

(** [path.Join]: empty elements are skipped. *)
Definition path_Join (elems : list string) : string :=
  match List.filter (fun e => negb (bool_decide (e = ""))) elems with
  | [] => ""
  | elems => path_Clean (Join elems "/"%char)
  end.

(** [cleanPath] of net/http: the trailing slash is kept. *)
Definition mux_clean (p : string) : string :=
  let p := if HasPrefix p "/" then p else "/" +:+ p in
  let np := path_Clean p in
  if bool_decide (bytes "/" `suffix_of` bytes p) && bool_decide (np ≠ "/") then np +:+ "/" else np.

(** ** Clean paths *)

(** A segment [path.Clean] keeps. *)
Definition good_segment (s : string) : Prop := s ≠ "" ∧ s ≠ "." ∧ s ≠ "..".

Lemma clean_segments_good rooted out l : Forall good_segment l →
  clean_segments rooted out l = reverse l ++ out.
Proof.
  intros Hl. revert out. induction Hl as [|s l (H1 & H2 & H3) _ IH]; intros out; [done|].
  cbn [clean_segments]. rewrite !bool_decide_false by done. cbn [orb]. rewrite IH, reverse_cons. by rewrite <-app_assoc.
Qed.

(** A relative path of good segments is clean. *)
Lemma path_Clean_good l : Forall good_segment l → Forall (fun s => "/"%char ∉ bytes s) l → l ≠ [] →
  path_Clean (Join l "/"%char) = Join l "/"%char.
Proof.
  intros Hg Hs Hl. unfold path_Clean. rewrite Split_Join by done. rewrite clean_segments_good by done.
  rewrite app_nil_r, reverse_involutive.
  assert (HasPrefix (Join l "/"%char) "/" = false) as ->; [|by destruct l].
  unfold HasPrefix. apply bool_decide_eq_false. intros [k Hk]. destruct l as [|s l]; [done|].
  apply Forall_cons in Hg as [(Hne & _) _]. apply Forall_cons in Hs as [Hs _].
  assert (∃ rest, bytes (Join (s :: l) "/"%char) = bytes s ++ rest) as [rest Hr].
  { destruct l; [exists []; by rewrite app_nil_r|]. rewrite Join_cons, bytes_app. by eexists. }
  rewrite Hr in Hk. destruct (bytes s) as [|a w] eqn:E.
  - apply Hne, bytes_inj. by rewrite E.
  - injection Hk as -> _. apply Hs. left.
Qed.
