(* ===== verification/Flags.v ===== *)
(** * Flags: Go's package flag

    The command line of the program: declared flags, [flag.Parse] on the
    arguments and the variables afterwards.  A flag keeps the text of its last
    occurrence; [flag.Visit] visits the flags that occur. *)

From S2P Require Import Prelude GoStrings.

(** A declared flag; [fd_Check] is the error its [Set] returns. *)
Record flag_decl := {
  fd_Name : string;
  fd_IsBool : bool;
  fd_Check : string → option error
}.

(** [strconv.ParseBool] *)
Definition ParseBool (s : string) : option bool :=
  if bool_decide (s ∈ ["1"; "t"; "T"; "true"; "TRUE"; "True"]) then Some true else
  if bool_decide (s ∈ ["0"; "f"; "F"; "false"; "FALSE"; "False"]) then Some false else None.

Definition StringVar (name : string) : flag_decl :=
  {| fd_Name := name; fd_IsBool := false; fd_Check := fun _ => None |}.
Definition BoolVar (name : string) : flag_decl :=
  {| fd_Name := name; fd_IsBool := true;
     fd_Check := fun s => match ParseBool s with Some _ => None | None => Some (new_error "parse error") end |}.

(** The flags that were given, with their last value. *)
Abbreviation flag_set := (gmap string string).

Inductive flag_outcome :=
| Parsed (actual : flag_set)
| Help
| BadFlag (message : string).

Definition hyphen : ascii := "-"%char.
Definition equals : ascii := "="%char.

(** What [parseOne] makes of an argument. *)
Inductive flag_word :=
| NotFlag
| BadSyntax
| FlagWord (name : string) (value : option string).

Definition split_flag (name : list ascii) : flag_word :=
  match name with
  | [] => BadSyntax
  | a :: _ =>
    if bool_decide (a = hyphen) || bool_decide (a = equals) then BadSyntax else
    match Cut (str name) "=" with
    | (name, value, true) => FlagWord name (Some value)
    | (_, _, false) => FlagWord (str name) None
    end
  end.

Definition flag_of_word (s : string) : flag_word :=
  match bytes s with
  | a :: b :: l =>
    if bool_decide (a ≠ hyphen) then NotFlag else
    if bool_decide (b = hyphen) then (if bool_decide (l = []) then NotFlag else split_flag l)
    else split_flag (b :: l)
  | _ => NotFlag
  end.

Definition lookup_flag (formal : list flag_decl) (name : string) : option flag_decl :=
  find_map (fun d => if bool_decide (fd_Name d = name) then Some d else None) formal.

(** [FlagSet.Parse]: up to the first argument that is no flag. *)
Fixpoint parse_flags `{Unicode} (formal : list flag_decl) (args : list string) (actual : flag_set) : flag_outcome :=
  match args with
  | [] => Parsed actual
  | s :: args =>
    match flag_of_word s with
    | NotFlag => Parsed actual
    | BadSyntax => BadFlag ("bad flag syntax: " +:+ s)
    | FlagWord name value =>
      match lookup_flag formal name with
      | None =>
        if bool_decide (name = "help") || bool_decide (name = "h") then Help
        else BadFlag ("flag provided but not defined: -" +:+ name)
      | Some d =>
        let value := if fd_IsBool d then Some (default "true" value) else value in
        match value, args with
        | Some v, args =>
          match fd_Check d v with
          | Some err =>
            BadFlag ((if fd_IsBool d then "invalid boolean value " +:+ quote v +:+ " for -"
                      else "invalid value " +:+ quote v +:+ " for flag -") +:+ name +:+ ": " +:+ err_msg err)
          | None => parse_flags formal args (<[name := v]> actual)
          end
        | None, [] => BadFlag ("flag needs an argument: -" +:+ name)
        | None, v :: args =>
          match fd_Check d v with
          | Some err => BadFlag ("invalid value " +:+ quote v +:+ " for flag -" +:+ name +:+ ": " +:+ err_msg err)
          | None => parse_flags formal args (<[name := v]> actual)
          end
        end
      end
    end
  end.

(** The variables after [flag.Parse]. *)
Definition string_var (actual : flag_set) (name dflt : string) : string := default dflt (actual !! name).
Definition bool_var (actual : flag_set) (name : string) (dflt : bool) : bool :=
  match actual !! name with Some v => default dflt (ParseBool v) | None => dflt end.

(** ** Settings given as --name=value *)

(** The flag is declared, its name is one word and the value is accepted. *)
Definition acceptable (formal : list flag_decl) (given : string * string) : Prop :=
  ∃ d, lookup_flag formal given.1 = Some d ∧ fd_Check d given.2 = None ∧
    given.1 ≠ "" ∧ head (bytes given.1) ≠ Some hyphen ∧ equals ∉ bytes given.1.

#[export] Instance acceptable_dec formal given : Decision (acceptable formal given).
Proof.
  destruct (lookup_flag formal given.1) as [d|] eqn:Hd.
  - destruct (decide (fd_Check d given.2 = None ∧ given.1 ≠ "" ∧
      head (bytes given.1) ≠ Some hyphen ∧ equals ∉ bytes given.1)) as [Hy|Hn].
    + left. by exists d.
    + right. intros (d' & Hd' & H'). apply Hn. by simplify_eq.
  - right. intros (d' & Hd' & _). by simplify_eq.
Defined.

Definition long_flag (given : string * string) : string := "--" +:+ given.1 +:+ "=" +:+ given.2.

(** The last setting of a name. *)
Definition last_given (given : list (string * string)) (name : string) : option string :=
  find_map (fun g => if bool_decide (g.1 = name) then Some g.2 else None) (reverse given).

Lemma index_of_equals (l k : list ascii) :
  equals ∉ l → index_of [equals] (l ++ equals :: k) = Some (length l).
Proof.
  induction l as [|a l IH]; intros Hl; cbn [app index_of].
  - rewrite bool_decide_true; [done|]. by exists k.
  - apply not_elem_of_cons in Hl as [Ha Hl].
    rewrite bool_decide_false; [by rewrite (IH Hl)|]. intros [t [= ->]]. by apply Ha.
Qed.

Lemma flag_of_long name value :
  name ≠ "" → head (bytes name) ≠ Some hyphen → equals ∉ bytes name →
  flag_of_word (long_flag (name, value)) = FlagWord name (Some value).
Proof.
  intros Hne Hdash Heq. unfold long_flag, flag_of_word. cbn [fst snd].
  rewrite !bytes_app. change (bytes "--") with [hyphen; hyphen]. cbn [app].
  rewrite bool_decide_false by (intros H; by apply H). rewrite bool_decide_true by done.
  assert (bytes name ≠ []) as Hne'.
  { intros Hb. apply Hne. by rewrite <-(str_bytes name), Hb. }
  destruct (bytes name) as [|a l] eqn:Hb; [done|]. cbn [app].
  rewrite bool_decide_false by done. unfold split_flag.
  rewrite bool_decide_false by (intros ->; by apply Hdash).
  rewrite bool_decide_false by (intros ->; apply Heq; left). cbn [orb].
  unfold Cut. rewrite bytes_str. change (bytes "=") with [equals].
  change (a :: l ++ [equals] ++ bytes value) with ((a :: l) ++ equals :: bytes value).
  rewrite (index_of_equals (a :: l)) by done.
  rewrite take_app_length, drop_app, drop_ge by (change (String.length "=") with 1; lia).
  change (String.length "=") with 1. replace (length (a :: l) + 1 - length (a :: l)) with 1 by lia.
  change (drop 1 (equals :: bytes value)) with (bytes value). cbn [app]. by rewrite <-Hb, !str_bytes.
Qed.

(** Parsing the settings keeps the last of each name. *)
Lemma parse_long `{Unicode} formal given actual :
  Forall (acceptable formal) given →
  parse_flags formal (long_flag <$> given) actual =
    Parsed (foldl (fun m g => <[g.1 := g.2]> m) actual given).
Proof.
  intros Hg. revert actual. induction Hg as [|[name value] given (d & Hd & Hc & Hne & Hdash & Heq) _ IH];
    intros actual; [done|]. cbn [fst snd] in *.
  change (long_flag <$> (name, value) :: given) with (long_flag (name, value) :: (long_flag <$> given)).
  cbn [parse_flags]. rewrite flag_of_long by done. rewrite Hd.
  destruct (fd_IsBool d); cbn [default]; cbn; rewrite Hc; apply IH.
Qed.

Lemma given_lookup given (actual : flag_set) name :
  foldl (fun m g => <[g.1 := g.2]> m) actual given !! name =
    match last_given given name with Some v => Some v | None => actual !! name end.
Proof.
  unfold last_given. revert actual. induction given as [|g given IH]; intros actual; [done|].
  cbn [foldl]. rewrite IH, reverse_cons.
  rewrite find_map_app. cbn [find_map].
  destruct (find_map _ (reverse given)) as [v|]; [done|].
  case_bool_decide as Hn; [rewrite <-Hn; by rewrite lookup_insert_eq|by rewrite lookup_insert_ne].
Qed.

Example parse_mixed :
  parse_flags (H := unicode_ascii) [StringVar "web-bind-address"; BoolVar "leader-elect"]
    ["-leader-elect"; "--web-bind-address"; ":80"; "-web-bind-address=:90"; "--"; "-x"] ∅ =
  Parsed {["leader-elect" := "true"; "web-bind-address" := ":90"]}.
Proof. vm_compute. reflexivity. Qed.
