(* ===== verification/Http.v ===== *)
(** * Http: requests, replies and the parts of net/http the program uses

    [client.Do] is an argument of the code that calls it: what the network
    answers to a request.  Header names of a request are kept as given;
    canonical forms are the transport's. *)

From S2P Require Import Prelude GoStrings Url.

Record http_request := {
  rq_Method : string;
  rq_URL : string;
  rq_Header : list (string * string);
  rq_Body : string
}.
#[export] Instance http_request_eq_dec : EqDecision http_request.
Proof. solve_decision. Defined.

(** Status, the Content-Type header and what reading the body gives. *)
Record http_reply := {
  rp_Status : Z;
  rp_ContentType : string;
  rp_Body : result (list ascii)
}.

Definition HTTPDo : Type := http_request → result http_reply.

Definition MethodGet : string := "GET".
Definition MethodHead : string := "HEAD".
Definition MethodPost : string := "POST".
Definition MethodDelete : string := "DELETE".

Definition StatusOK : Z := 200.
Definition StatusNoContent : Z := 204.
Definition StatusMovedPermanently : Z := 301.
Definition StatusBadRequest : Z := 400.
Definition StatusUnauthorized : Z := 401.
Definition StatusNotFound : Z := 404.
Definition StatusMethodNotAllowed : Z := 405.
Definition StatusInternalServerError : Z := 500.
Definition StatusBadGateway : Z := 502.
Definition StatusServiceUnavailable : Z := 503.

(** [http.StatusText] *)
Definition status_texts : list (Z * string) :=
  [(100, "Continue"); (101, "Switching Protocols"); (102, "Processing"); (103, "Early Hints");
   (200, "OK"); (201, "Created"); (202, "Accepted"); (203, "Non-Authoritative Information");
   (204, "No Content"); (205, "Reset Content"); (206, "Partial Content"); (207, "Multi-Status");
   (208, "Already Reported"); (226, "IM Used");
   (300, "Multiple Choices"); (301, "Moved Permanently"); (302, "Found"); (303, "See Other");
   (304, "Not Modified"); (305, "Use Proxy"); (307, "Temporary Redirect"); (308, "Permanent Redirect");
   (400, "Bad Request"); (401, "Unauthorized"); (402, "Payment Required"); (403, "Forbidden");
   (404, "Not Found"); (405, "Method Not Allowed"); (406, "Not Acceptable");
   (407, "Proxy Authentication Required"); (408, "Request Timeout"); (409, "Conflict"); (410, "Gone");
   (411, "Length Required"); (412, "Precondition Failed"); (413, "Request Entity Too Large");
   (414, "Request URI Too Long"); (415, "Unsupported Media Type");
   (416, "Requested Range Not Satisfiable"); (417, "Expectation Failed"); (418, "I'm a teapot");
   (421, "Misdirected Request"); (422, "Unprocessable Entity"); (423, "Locked");
   (424, "Failed Dependency"); (425, "Too Early"); (426, "Upgrade Required");
   (428, "Precondition Required"); (429, "Too Many Requests");
   (431, "Request Header Fields Too Large"); (451, "Unavailable For Legal Reasons");
   (500, "Internal Server Error"); (501, "Not Implemented"); (502, "Bad Gateway");
   (503, "Service Unavailable"); (504, "Gateway Timeout"); (505, "HTTP Version Not Supported");
   (506, "Variant Also Negotiates"); (507, "Insufficient Storage"); (508, "Loop Detected");
   (510, "Not Extended"); (511, "Network Authentication Required")]%Z.

Definition StatusText (code : Z) : string :=
  default "" (find_map (fun e => if (e.1 =? code)%Z then Some e.2 else None) status_texts).

(** [validMethod]: a token. *)
Definition token_char (c : ascii) : bool := is_alnum c || one_of "!#$%&'*+-.^_`|~" c.
Definition valid_method (m : string) : bool :=
  bool_decide (m ≠ "") && forallb token_char (bytes m).

(** [http.NewRequestWithContext] *)
Definition NewRequest `{Unicode} (method url body : string) : result http_request :=
  let method := if bool_decide (method = "") then MethodGet else method in
  if negb (valid_method method) then Err (new_error ("net/http: invalid method " +:+ quote method)) else
  match Parse url with
  | Err err => Err err
  | Ok _ => Ok {| rq_Method := method; rq_URL := url; rq_Header := []; rq_Body := body |}
  end.

Definition add_header (name value : string) (r : http_request) : http_request :=
  {| rq_Method := rq_Method r; rq_URL := rq_URL r; rq_Header := rq_Header r ++ [(name, value)];
     rq_Body := rq_Body r |}.

(** ** Clocks: nanoseconds, and [time.Time.Sub], which saturates *)
Definition Second : Z := 1000000000.
Definition Minute : Z := 60 * Second.
Definition Hour : Z := 60 * Minute.
Definition time_sub (t u : Z) : Z := Z.max int64_min (Z.min int64_max (t - u)).

Lemma time_sub_exact t u : in_int64 (t - u) → time_sub t u = (t - u)%Z.
Proof. unfold time_sub, in_int64. lia. Qed.
