(* ===== verification/Updates.v ===== *)
(** * Updates: the connections of /api/dashboard/updates

    The handler registers an upgraded connection with the notifier and starts
    a goroutine that reads from it until a read fails: when the browser is
    gone, when the connection was closed, or when no pong came for 70 seconds.
    The goroutine then unregisters and closes it.  The notifier and the
    goroutines of all connections make one system; an event carries its
    time. *)

From S2P Require Import Prelude Http Notifier NotifierProps.

(** A goroutine in its read loop, with the read deadline; between the failed
    read and the end of its deferred function, before and after
    [unregister]. *)
Inductive reader :=
| Reading (deadline : Z)
| Unregistering
| Closing.
#[export] Instance reader_eq_dec : EqDecision reader.
Proof. solve_decision. Defined.

Definition pongWait : Z := 70 * Second.

(** [finished] are the connections whose goroutine ended. *)
Record hub := {
  notifier : DashboardNotifier;
  readers : gmap conn reader;
  finished : gset conn;
  clock : Z
}.

Definition new_hub (start : Z) : hub :=
  {| notifier := NewDashboardNotifier; readers := ∅; finished := ∅; clock := start |}.

(** After the upgrade the handler registers the connection and starts the
    goroutine, whose first call sets the read deadline; nothing on this way can
    fail or block, and it is one event. *)
Inductive hub_event :=
| HUpgrade (c : conn)        (* Upgrade succeeded: register, start the goroutine *)
| HPong (c : conn)           (* the pong handler ran inside ReadMessage *)
| HMessage (c : conn)        (* ReadMessage returned a message *)
| HReadError (c : conn)      (* ReadMessage failed *)
| HUnregister (c : conn)     (* notifier.unregister(conn) *)
| HClose (c : conn)          (* conn.Close(), the goroutine ends *)
| HNotifier (e : event).     (* Notify, or the notifier's own goroutine *)

Definition with_reader (c : conn) (r : reader) (n : DashboardNotifier) (t : Z) (h : hub) : hub :=
  {| notifier := n; readers := <[c := r]> (readers h); finished := finished h; clock := t |}.

(** A blocked read returns at its deadline: time does not pass it. *)
Definition overdue (t : Z) (r : reader) : bool :=
  match r with Reading d => (d <? t)%Z | _ => false end.
Definition no_read_overdue (t : Z) (h : hub) : bool :=
  bool_decide (map_Forall (fun (_ : conn) r => overdue t r = false) (readers h)).

(** Only the goroutines of connections register and unregister. *)
Definition own_event (e : event) : bool :=
  match e with ERegister _ | EUnregister _ => false | _ => true end.

Definition hub_step (h : hub) (te : Z * hub_event) : option hub :=
  let '(t, e) := te in
  if negb ((clock h <=? t)%Z && no_read_overdue t h) then None else
  match e with
  | HUpgrade c =>
    if bool_decide (c ∈ finished h) || bool_decide (is_Some (readers h !! c)) then None
    else Some (with_reader c (Reading (t + pongWait)) (register c (notifier h)) t h)
  | HPong c =>
    match readers h !! c with
    | Some (Reading _) => Some (with_reader c (Reading (t + pongWait)) (notifier h) t h)
    | _ => None
    end
  | HMessage c =>
    match readers h !! c with
    | Some (Reading d) => Some (with_reader c (Reading d) (notifier h) t h)
    | _ => None
    end
  | HReadError c =>
    match readers h !! c with
    | Some (Reading _) => Some (with_reader c Unregistering (notifier h) t h)
    | _ => None
    end
  | HUnregister c =>
    match readers h !! c with
    | Some Unregistering => Some (with_reader c Closing (unregister c (notifier h)) t h)
    | _ => None
    end
  | HClose c =>
    match readers h !! c with
    | Some Closing =>
      Some {| notifier := close_conns {[c]} (notifier h); readers := delete c (readers h);
              finished := {[c]} ∪ finished h; clock := t |}
    | _ => None
    end
  | HNotifier e =>
    if own_event e then
      match step (notifier h) e with
      | Some n => Some {| notifier := n; readers := readers h; finished := finished h; clock := t |}
      | None => None
      end
    else None
  end.

Inductive hub_reaches (start : Z) : list (Z * hub_event) → hub → Prop :=
| hub_new : hub_reaches start [] (new_hub start)
| hub_snoc trace h te h' : hub_reaches start trace h → hub_step h te = Some h' → hub_reaches start (trace ++ [te]) h'.

(** When the browser behind a connection was last heard of. *)
Definition is_contact (c : conn) (e : hub_event) : bool :=
  match e with HUpgrade c' | HPong c' => bool_decide (c' = c) | _ => false end.
Definition contact (c : conn) (acc : option Z) (te : Z * hub_event) : option Z :=
  if is_contact c te.2 then Some te.1 else acc.
Definition last_contact (c : conn) (trace : list (Z * hub_event)) : option Z := foldl (contact c) None trace.

(** ** Invariants *)

Lemma own_event_clients n e n' : own_event e = true → step n e = Some n' →
  clients n' ⊆ clients n ∧ closed n ⊆ closed n'.
Proof.
  intros He Hs. destruct e; try done; unfold step in Hs; repeat case_match; simplify_eq/=; set_solver.
Qed.

Record hub_inv (trace : list (Z * hub_event)) (h : hub) : Prop := {
  inv_clients : ∀ c, c ∈ clients (notifier h) → ∃ r, readers h !! c = Some r ∧ r ≠ Closing;
  inv_reading : ∀ c d, readers h !! c = Some (Reading d) →
    last_contact c trace = Some (d - pongWait)%Z ∧ (clock h <= d)%Z;
  inv_finished : ∀ c, c ∈ finished h → readers h !! c = None ∧ c ∈ closed (notifier h)
}.

Lemma last_contact_snoc c trace te :
  last_contact c (trace ++ [te]) = if is_contact c te.2 then Some te.1 else last_contact c trace.
Proof. unfold last_contact. by rewrite foldl_app. Qed.

(** The read deadlines of the connections an event does not concern. *)
Lemma reading_kept trace h t c d :
  hub_inv trace h → no_read_overdue t h = true → readers h !! c = Some (Reading d) →
  last_contact c trace = Some (d - pongWait)%Z ∧ (t <= d)%Z.
Proof.
  intros Hi Ho Hr. split; [by apply (inv_reading _ _ Hi)|].
  apply bool_decide_eq_true in Ho. specialize (Ho _ _ Hr). cbn in Ho. by apply Z.ltb_ge in Ho.
Qed.

(** A goroutine that moves keeps the invariant. *)
Lemma with_reader_inv trace h t e c r n :
  hub_inv trace h → no_read_overdue t h = true → c ∉ finished h →
  (∀ c', is_contact c' e = true → c' = c) →
  clients n ⊆ {[c]} ∪ clients (notifier h) → (c ∈ clients n → r ≠ Closing) → closed (notifier h) ⊆ closed n →
  (∀ d, r = Reading d → last_contact c (trace ++ [(t, e)]) = Some (d - pongWait)%Z ∧ (t <= d)%Z) →
  hub_inv (trace ++ [(t, e)]) (with_reader c r n t h).
Proof.
  intros Hi Ho Hf He Hsub Hr Hcl Hd. split; cbn [with_reader notifier readers finished clock].
  - intros c' Hc'. destruct (decide (c = c')) as [<-|Hne]; [exists r; rewrite lookup_insert_eq; auto|].
    rewrite lookup_insert_ne by done. apply (inv_clients _ _ Hi). set_solver.
  - intros c' d. rewrite lookup_insert_Some. intros [[<- ->]|[Hne Hrd]]; [auto|].
    destruct (reading_kept _ _ _ _ _ Hi Ho Hrd) as [Hl Ht]. rewrite last_contact_snoc.
    destruct (is_contact c' _) eqn:E; [by apply He in E|]. auto.
  - intros c' Hc'. rewrite lookup_insert_ne by (by intros ->). destruct (inv_finished _ _ Hi c' Hc'). set_solver.
Qed.

(** A goroutine that runs has not finished. *)
Lemma running_reader trace h c r : hub_inv trace h → readers h !! c = Some r → c ∉ finished h.
Proof. intros Hi Hr Hf. destruct (inv_finished _ _ Hi c Hf). congruence. Qed.

Lemma contact_now c trace t e : is_contact c e = true →
  ∀ d, Reading (t + pongWait) = Reading d → last_contact c (trace ++ [(t, e)]) = Some (d - pongWait)%Z ∧ (t <= d)%Z.
Proof.
  intros He d [= <-]. rewrite last_contact_snoc. cbn [fst snd]. rewrite He.
  split; [f_equal; lia|unfold pongWait, Second; lia].
Qed.

Lemma contact_only (c c' : conn) : bool_decide (c = c') = true → c' = c.
Proof. by intros <-%bool_decide_eq_true. Qed.

Lemma contact_self (c : conn) : bool_decide (c = c) = true.
Proof. by apply bool_decide_eq_true. Qed.

Lemma hub_close_inv trace h t c : hub_inv trace h → no_read_overdue t h = true → readers h !! c = Some Closing →
  hub_inv (trace ++ [(t, HClose c)])
    {| notifier := close_conns {[c]} (notifier h); readers := delete c (readers h);
       finished := {[c]} ∪ finished h; clock := t |}.
Proof.
  intros Hi Ho Hr0. split; cbn [notifier readers finished clock close_conns clients closed].
  - intros c' Hc'. destruct (inv_clients _ _ Hi c' Hc') as (r & Hr & Hne). exists r.
    rewrite lookup_delete_ne; [done|]. by intros ->; simplify_eq.
  - intros c' d. rewrite last_contact_snoc, lookup_delete_Some. intros [_ Hr]. by apply (reading_kept _ _ _ _ _ Hi Ho).
  - intros c' [->%elem_of_singleton|Hc']%elem_of_union; [split; [apply lookup_delete_eq|set_solver]|].
    destruct (inv_finished _ _ Hi c' Hc') as [Hn Hcl]. split; [rewrite lookup_delete_None; by right|set_solver].
Qed.

Lemma hub_step_inv trace h te h' : hub_inv trace h → hub_step h te = Some h' → hub_inv (trace ++ [te]) h'.
Proof.
  intros Hi Hs. destruct te as [t e]. unfold hub_step in Hs. case_match eqn:Hg; [done|].
  apply negb_false_iff, andb_true_iff in Hg as [_ Ho].
  destruct e as [c|c|c|c|c|c|e].
  1: case_match eqn:Hg; [done|]; apply orb_false_iff in Hg as [Hnf%bool_decide_eq_false _]; injection Hs as <-;
    apply with_reader_inv; try done; [apply contact_only|apply contact_now, contact_self].
  6: { destruct (own_event e) eqn:He; [|done]. destruct (step (notifier h) e) as [n|] eqn:Hn; [|done]. injection Hs as <-.
    destruct (own_event_clients _ _ _ He Hn) as [Hsub Hcl]. split; cbn [notifier readers finished clock].
    - intros c' Hc'. apply (inv_clients _ _ Hi). set_solver.
    - intros c' d. rewrite last_contact_snoc. apply (reading_kept _ _ _ _ _ Hi Ho).
    - intros c' Hc'. destruct (inv_finished _ _ Hi c' Hc'). split; [done|set_solver]. }
  all: destruct (readers h !! c) as [[d0| |]|] eqn:Hr0; simplify_eq; try by apply hub_close_inv.
  all: pose proof (running_reader _ _ _ _ Hi Hr0) as Hnf; apply with_reader_inv; try done; cbn; try set_solver.
  - apply contact_only.
  - apply contact_now, contact_self.
  - intros d [= <-]. rewrite last_contact_snoc. by apply (reading_kept _ _ _ _ _ Hi Ho).
Qed.

Lemma hub_invariant start trace h : hub_reaches start trace h → hub_inv trace h.
Proof.
  induction 1 as [|trace h te h' _ IH Hs]; [|by eapply hub_step_inv].
  split; cbn; [set_solver|by intros c d; rewrite lookup_empty|set_solver].
Qed.

(** C30: connections do not leak.  Whatever the interleaving of the notifier
    with the goroutines of its connections, a registered connection has a
    goroutine that will unregister it; while that goroutine reads, the browser
    was heard of in the last seventy seconds; and a connection whose goroutine
    has ended is closed and no longer registered. *)
Theorem connections_do_not_leak start trace h c :
  hub_reaches start trace h →
  (c ∈ clients (notifier h) →
     readers h !! c = Some Unregistering ∨
     ∃ d t, readers h !! c = Some (Reading d) ∧ last_contact c trace = Some t ∧ d = (t + pongWait)%Z ∧
       (clock h <= t + pongWait)%Z) ∧
  (c ∈ finished h → (c ∉ clients (notifier h)) ∧ c ∈ closed (notifier h)).
Proof.
  intros Hi%hub_invariant. split.
  - intros Hc. destruct (inv_clients _ _ Hi c Hc) as ([d| |] & Hr & Hne); [|by left|done]. right.
    destruct (inv_reading _ _ Hi c d Hr) as [Hl Hd]. exists d, (d - pongWait)%Z. split_and!; [done|done|lia|lia].
  - intros Hf. destruct (inv_finished _ _ Hi c Hf) as [Hn Hcl]. split; [|done].
    intros Hc. destruct (inv_clients _ _ Hi c Hc) as (r & Hr & _). congruence.
Qed.

(** A connection registered after shutdown is not closed by [closeAll]; its
    goroutine drops it when the read deadline passes. *)
Definition late_connection : list (Z * hub_event) :=
  [(1, HNotifier EDone); (2, HUpgrade 1%nat); (2 + pongWait, HReadError 1%nat); (2 + pongWait, HUnregister 1%nat);
   (2 + pongWait, HClose 1%nat)]%Z.

Fixpoint hub_run (h : hub) (trace : list (Z * hub_event)) : option hub :=
  match trace with
  | [] => Some h
  | te :: trace => match hub_step h te with Some h => hub_run h trace | None => None end
  end.

Lemma hub_run_reaches start trace0 trace h h' :
  hub_reaches start trace0 h → hub_run h trace = Some h' → hub_reaches start (trace0 ++ trace) h'.
Proof.
  revert trace0 h. induction trace as [|te trace IH]; intros trace0 h Hr; cbn.
  - intros [= ->]. by rewrite app_nil_r.
  - destruct (hub_step h te) as [h1|] eqn:E; [|done]. intros Hrun.
    rewrite cons_middle, app_assoc. eapply IH; [by eapply hub_snoc|done].
Qed.

Lemma connections_do_not_leak_witness : ∃ h, hub_reaches 0 late_connection h ∧
  1 ∈ finished h ∧ (1 ∉ clients (notifier h)) ∧ 1 ∈ closed (notifier h).
Proof.
  destruct (hub_run (new_hub 0) late_connection) as [h|] eqn:E; [|vm_compute in E; discriminate].
  assert (hub_reaches 0 late_connection h) as Hr by exact (hub_run_reaches 0 [] late_connection _ _ (hub_new 0) E).
  assert (1 ∈ finished h) as Hf.
  { vm_compute in E. injection E as <-. apply (bool_decide_eq_true_1 _). vm_compute. reflexivity. }
  exists h. split; [done|]. split; [done|]. apply (connections_do_not_leak 0 late_connection h 1 Hr). exact Hf.
Defined.
