(* ===== verification/Controllers.v ===== *)
(** * Controllers: internal/controller/dashboard

    The reconcilers of Bookmarks, BookmarkGroups and InfoTiles.  A reconcile
    reads an object, computes a status and writes it; what the API server, the
    network and the clock answer during one call is its world.  A reconcile
    gives the object it wrote with [Status().Update], if it did, and the
    result controller-runtime acts on.  The engine of the processor templates
    (text/template with sprig) is the class [Templates]. *)

From S2P Require Import Prelude GoStrings ApiTypes UrlResolver Links Collectors Json Url Http Any.

(** [ctrl.Result]; zero means no requeue. *)
Record ctrl_result := { RequeueAfter : Z }.
Definition no_requeue : ctrl_result := {| RequeueAfter := 0 |}.

(** What one reconcile of an object of type [A] gets from the API server. *)
Record ApiWorld (A : Type) := {
  w_Get : NamespacedName → result A;
  w_StatusUpdate : A → result unit;
  w_Reader : Reader
}.
Arguments w_Get {A} _ _.
Arguments w_StatusUpdate {A} _ _.
Arguments w_Reader {A} _.

(** The first steps every reconciler shares: [Get], with an object that is
    gone ending the reconcile without an error. *)
Definition with_object {A W} (w : ApiWorld A) (req : NamespacedName) (none : W)
    (k : A → W * result ctrl_result) : W * result ctrl_result :=
  match w_Get w req with
  | Ok obj => k obj
  | Err err => (none, if IsNotFound err then Ok no_requeue else Err err)
  end.

(** [Status().Update], then the result. *)
Definition update_status {A} (w : ApiWorld A) (obj : A) (res : ctrl_result) : option A * result ctrl_result :=
  (Some obj, match w_StatusUpdate w obj with Ok _ => Ok res | Err err => Err err end).

(** [if err != nil { return ..., fmt.Errorf(prefix + "%w", err) }] *)
Definition wrapping {A} (prefix : string) (r : result A) : result A :=
  match r with Ok a => Ok a | Err err => Err (wrap_error prefix err) end.

(** ** Bookmarks *)
Section bookmark.
Context `{Unicode}.

Definition urlCheckInterval : Z := 5 * Minute.

(** The readings of the clock, in order. *)
Record BookmarkClock := { at_since : Z; at_checked : Z; at_synced : Z }.

Definition resolveURLFromSource (c : Reader) (namespace : string) (source : option URLSource) : result string :=
  match source with
  | None => Ok ""
  | Some source =>
    match IngressRef source with
    | None => Ok ""
    | Some ref =>
      match get_Ingress c {| nn_Namespace := namespace; nn_Name := lor_Name ref |} with
      | Err err => Err (wrap_error ("ingressRef " +:+ quote (lor_Name ref) +:+ ": ") err)
      | Ok ingress =>
        match find_map https_of_host (ing_RuleHosts ingress) with
        | Some url => Ok url
        | None => Err (new_error ("ingressRef " +:+ quote (lor_Name ref) +:+ " has no host rules"))
        end
      end
    end
  end.

Definition urlCheckError (statusCode : Z) : error :=
  new_error ("URL returned HTTP " +:+ StatusText statusCode).

(** The HEAD request, and the GET request when it fails or is not allowed. *)
Definition check_url (Do : HTTPDo) (rawURL : string) : result unit :=
  req ← NewRequest MethodHead rawURL "";
  let retry :=
    req ← NewRequest MethodGet rawURL "";
    Do req in
  resp ← match Do req with
    | Err _ => retry
    | Ok resp => if bool_decide (rp_Status resp = StatusMethodNotAllowed) then retry else Ok resp
    end;
  if (StatusBadRequest <=? rp_Status resp)%Z then Err (urlCheckError (rp_Status resp)) else Ok tt.

(** [resolveAndCheckURL]; the URL it also returns is only logged. *)
Definition resolveAndCheckURL (c : Reader) (Do : HTTPDo) (bookmark : Bookmark) : result bool :=
  let spec := b_Spec bookmark in
  if negb (is_blank (bs_URL spec)) then (fun _ => true) <$> check_url Do (bs_URL spec) else
  match bs_URLFrom spec with
  | None => Ok false
  | Some source =>
    rawURL ← resolveURLFromSource c (om_Namespace (b_meta bookmark)) (Some source);
    (fun _ => true) <$> check_url Do rawURL
  end.

Definition with_bookmark_status (st : BookmarkStatus) (b : Bookmark) : Bookmark :=
  {| b_meta := b_meta b; b_Spec := b_Spec b; b_Status := st |}.

Definition needs_url_check (now : Z) (b : Bookmark) : bool :=
  match bst_LastURLCheckAt (b_Status b) with
  | None => true
  | Some t => (urlCheckInterval <=? time_sub now t)%Z
  end.

(** The status after a check. *)
Definition checked_status (now : Z) (outcome : result bool) (st : BookmarkStatus) : BookmarkStatus :=
  match outcome with
  | Err err =>
    {| bst_URLReachable := Some false; bst_LastURLCheckAt := Some now;
       bst_URLCheckError := err_msg err; bst_LastSyncedAt := bst_LastSyncedAt st |}
  | Ok reachable =>
    {| bst_URLReachable := Some reachable; bst_LastURLCheckAt := Some now;
       bst_URLCheckError := ""; bst_LastSyncedAt := bst_LastSyncedAt st |}
  end.

Definition synced_status (now : Z) (st : BookmarkStatus) : BookmarkStatus :=
  {| bst_URLReachable := bst_URLReachable st; bst_LastURLCheckAt := bst_LastURLCheckAt st;
     bst_URLCheckError := bst_URLCheckError st; bst_LastSyncedAt := Some now |}.

Definition ReconcileBookmark (w : ApiWorld Bookmark) (Do : HTTPDo) (clock : BookmarkClock) (req : NamespacedName)
    : option Bookmark * result ctrl_result :=
  with_object w req None (fun bookmark =>
    let st := b_Status bookmark in
    let st := if needs_url_check (at_since clock) bookmark
      then checked_status (at_checked clock) (resolveAndCheckURL (w_Reader w) Do bookmark) st else st in
    update_status w (with_bookmark_status (synced_status (at_synced clock) st) bookmark)
      {| RequeueAfter := urlCheckInterval |}).
End bookmark.

(** ** Bookmark groups *)

(** The loop that counts; the counter is an [int32]. *)
Definition count_bookmarks (group : string) (bookmarks : list Bookmark) : Z :=
  foldl (fun n b => if bool_decide (bs_Group (b_Spec b) = group) then wrap32 (n + 1) else n) 0%Z bookmarks.

Definition ReconcileBookmarkGroup (w : ApiWorld BookmarkGroup) (now : Z) (req : NamespacedName)
    : option BookmarkGroup * result ctrl_result :=
  with_object w req None (fun group =>
    match list_Bookmarks (w_Reader w) (Some (om_Namespace (bg_meta group))) with
    | Err err => (None, Err err)
    | Ok bookmarkList =>
      update_status w
        {| bg_meta := bg_meta group; bg_Spec := bg_Spec group;
           bg_Status := {| bgst_BookmarkCount := count_bookmarks (om_Name (bg_meta group)) bookmarkList;
                           bgst_LastSyncedAt := Some now |} |} no_requeue
    end).

(** ** Info tiles *)

(** [processorContext]: the response a template sees. *)
Record processorResponse := { pr_Code : Z; pr_Body : string; pr_Data : any }.
Definition zero_response : processorResponse := {| pr_Code := 0; pr_Body := ""; pr_Data := ANil |}.

Class Templates := {
  Template : Set;
  ParseTemplate : string → result Template;
  Execute : Template → processorResponse → result string
}.

Section tile.
Context `{Unicode, Float64Text, Templates}.

Definition defaultInfoTileInterval : Z := 60 * Second.

Definition tile_url (req : InfoTileHTTPRequest) : result string :=
  match hr_QueryParams req with
  | [] => Ok (hr_URL req)
  | params =>
    match Parse (hr_URL req) with
    | Err err => Err (wrap_error ("parse URL " +:+ quote (hr_URL req) +:+ ": ") err)
    | Ok parsed =>
      let q := foldl (fun q p => Add q (qp_Name p) (qp_Value p)) (ParseQuery (RawQuery parsed)) params in
      Ok (url_string (with_query (Encode q) parsed))
    end
  end.

(** The request [doHTTPRequest] sends. *)
Definition tile_request (req : InfoTileHTTPRequest) : result http_request :=
  rawURL ← tile_url req;
  httpReq ← wrapping "build request: " (NewRequest (ToUpper (hr_Method req)) rawURL (hr_Body req));
  Ok (foldl (fun r h => add_header (hd_Name h) (hd_Value h) r) httpReq (hr_Headers req)).

Definition doHTTPRequest (Do : HTTPDo) (req : InfoTileHTTPRequest) : result processorResponse :=
  httpReq ← tile_request req;
  resp ← wrapping "do request: " (Do httpReq);
  rawBody ← wrapping "read response body: " (rp_Body resp);
  let data := if Contains (rp_ContentType resp) "application/json"
    then default ANil (parse_all rawBody ≫= decode_any) else ANil in
  Ok {| pr_Code := rp_Status resp; pr_Body := str rawBody; pr_Data := data |}.

Definition renderContent (Do : HTTPDo) (tile : InfoTile) : result string :=
  response ← match its_HTTPRequest (it_Spec tile) with
    | None => Ok zero_response
    | Some req => wrapping "http request: " (doHTTPRequest Do req)
    end;
  if bool_decide (its_Processor (it_Spec tile) = "") then Ok (pr_Body response) else
  tmpl ← wrapping "parse processor template: " (ParseTemplate (its_Processor (it_Spec tile)));
  wrapping "execute processor template: " (Execute tmpl response).

Definition with_tile_status (st : InfoTileStatus) (t : InfoTile) : InfoTile :=
  {| it_meta := it_meta t; it_Spec := it_Spec t; it_Status := st |}.

(** The status after a fetch, and whether [Notify] is called. *)
Definition fetched_status (now : Z) (fetched : result string) (st : InfoTileStatus) : InfoTileStatus * bool :=
  match fetched with
  | Err err =>
    ({| itst_Content := itst_Content st; itst_LastFetchedAt := Some now; itst_LastError := err_msg err |}, false)
  | Ok content =>
    if bool_decide (itst_Content st ≠ content)
    then ({| itst_Content := content; itst_LastFetchedAt := Some now; itst_LastError := "" |}, true)
    else ({| itst_Content := itst_Content st; itst_LastFetchedAt := Some now; itst_LastError := "" |}, false)
  end.

Definition tile_interval (spec : InfoTileSpec) : Z :=
  match its_Interval spec with
  | Some d => if (0 <? d)%Z then d else defaultInfoTileInterval
  | None => defaultInfoTileInterval
  end.

(** The tile written, whether the dashboard was notified, and the result. *)
Definition ReconcileInfoTile (w : ApiWorld InfoTile) (Do : HTTPDo) (now : Z) (req : NamespacedName)
    : option InfoTile * bool * result ctrl_result :=
  with_object w req (None, false) (fun tile =>
    let '(st, notified) := fetched_status now (renderContent Do tile) (it_Status tile) in
    let '(written, res) := update_status w (with_tile_status st tile)
      {| RequeueAfter := tile_interval (it_Spec tile) |} in
    (written, notified, res)).
End tile.
