(* ===== verification/ControllerProps.v ===== *)
(** * ControllerProps: what the reconcilers write

    A bookmark's status says what a probe of its URL found and is never older
    than the check interval; a group's count is exact; a tile shows the last
    content that was rendered and stored, and browsers are told of all its
    changes; query parameters reach the URL that is requested. *)

From S2P Require Import Prelude GoStrings ApiTypes UrlResolver Links Collectors Url Http Any Controllers.

(** ** Common steps *)
Section common.
Context {A W : Type} (w : ApiWorld A) (req : NamespacedName) (none : W) (k : A → W * result ctrl_result).

Lemma with_object_gone err : w_Get w req = Err err → IsNotFound err = true →
  with_object w req none k = (none, Ok no_requeue).
Proof. unfold with_object. by intros -> ->. Qed.

Lemma with_object_failed err : w_Get w req = Err err → IsNotFound err = false →
  with_object w req none k = (none, Err err).
Proof. unfold with_object. by intros -> ->. Qed.

Lemma with_object_found obj : w_Get w req = Ok obj → with_object w req none k = k obj.
Proof. unfold with_object. by intros ->. Qed.
End common.

(** ** Bookmarks *)
Section bookmark.
Context `{Unicode}.

(** The URL answers: HEAD with a status below 400, or GET when HEAD fails or
    is not allowed. *)
Inductive answers (Do : HTTPDo) (url : string) : Prop :=
| answers_head head resp :
    NewRequest MethodHead url "" = Ok head → Do head = Ok resp →
    rp_Status resp ≠ StatusMethodNotAllowed → (rp_Status resp < 400)%Z → answers Do url
| answers_get head get resp :
    NewRequest MethodHead url "" = Ok head → NewRequest MethodGet url "" = Ok get →
    (∀ r, Do head = Ok r → rp_Status r = StatusMethodNotAllowed) →
    Do get = Ok resp → (rp_Status resp < 400)%Z → answers Do url.

Lemma check_url_ok Do url : check_url Do url = Ok tt ↔ answers Do url.
Proof.
  unfold check_url. split.
  - destruct (NewRequest MethodHead url "") as [head|] eqn:Hh; [|done]. cbn [mbind result_bind].
    destruct (Do head) as [r|e] eqn:Hd; [case_bool_decide as H405|].
    2: { cbn. destruct (Z.leb_spec StatusBadRequest (rp_Status r)); [done|]. intros _. by eapply answers_head. }
    all: destruct (NewRequest MethodGet url "") as [get|] eqn:Hg; [|done]; cbn.
    all: destruct (Do get) as [r'|] eqn:Hd'; [|done]; cbn.
    all: destruct (Z.leb_spec StatusBadRequest (rp_Status r')); [done|]; intros _.
    all: eapply answers_get; try done; rewrite Hd; naive_solver.
  - intros [head resp Hh Hd H405 Hlt|head get resp Hh Hg H405 Hd Hlt]; rewrite Hh; cbn [mbind result_bind].
    + rewrite Hd, bool_decide_false by done. cbn.
      by rewrite (proj2 (Z.leb_gt StatusBadRequest _)) by done.
    + rewrite Hg. cbn [mbind result_bind]. rewrite Hd. destruct (Do head) as [r|e] eqn:Hr; cbn.
      * rewrite bool_decide_true by (by apply H405). cbn. by rewrite (proj2 (Z.leb_gt StatusBadRequest _)) by done.
      * by rewrite (proj2 (Z.leb_gt StatusBadRequest _)) by done.
Qed.

(** The URL of a bookmark: its own, or the first host of the Ingress it
    refers to.  References of the other kinds are not resolved by the
    reconciler, and have none here. *)
Inductive bookmark_url (c : Reader) (b : Bookmark) : string → Prop :=
| url_of_spec : is_blank (bs_URL (b_Spec b)) = false → bookmark_url c b (bs_URL (b_Spec b))
| url_of_ingress src ref ing h :
    is_blank (bs_URL (b_Spec b)) = true → bs_URLFrom (b_Spec b) = Some src → IngressRef src = Some ref →
    get_Ingress c {| nn_Namespace := om_Namespace (b_meta b); nn_Name := lor_Name ref |} = Ok ing →
    first_host (ing_RuleHosts ing) h → bookmark_url c b ("https://" +:+ h).

(** An HTTP client refuses a request without a URL, as net/http does. *)
Definition refuses_no_url (Do : HTTPDo) : Prop := ∀ req, rq_URL req = "" → ∃ e, Do req = Err e.

Lemma no_url_unanswered Do : refuses_no_url Do → ¬ answers Do "".
Proof.
  intros Hno Ha. assert (∀ method req, NewRequest method "" "" = Ok req → ∃ e, Do req = Err e) as Hreq.
  { intros method req. unfold NewRequest. destruct (negb _); [done|]. destruct (Parse ""); [|done].
    intros [= <-]. by apply Hno. }
  destruct Ha as [head resp Hh Hd|head get resp _ Hg _ Hd].
  - destruct (Hreq _ _ Hh). congruence.
  - destruct (Hreq _ _ Hg). congruence.
Qed.

Lemma resolved_ingress c b src ref url :
  is_blank (bs_URL (b_Spec b)) = true → bs_URLFrom (b_Spec b) = Some src → IngressRef src = Some ref →
  resolveURLFromSource c (om_Namespace (b_meta b)) (Some src) = Ok url ↔ bookmark_url c b url.
Proof.
  intros Hb Hs Hr. unfold resolveURLFromSource. rewrite Hr. split.
  - destruct (get_Ingress _ _) as [ing|] eqn:Hi; [|done]. destruct (find_map _ _) as [u|] eqn:Hf; [|done].
    intros [= <-]. apply find_https_host in Hf as (h & Hh & ->). by eapply url_of_ingress.
  - destruct 1 as [Hn|src' ref' ing h _ Hs' Hr' Hi Hh]; [congruence|]. simplify_eq. rewrite Hi.
    assert (find_map https_of_host (ing_RuleHosts ing) = Some ("https://" +:+ h)) as ->; [|done].
    apply find_https_host. eauto.
Qed.

Lemma resolveAndCheckURL_ok c Do b : refuses_no_url Do →
  resolveAndCheckURL c Do b = Ok true ↔ ∃ url, bookmark_url c b url ∧ answers Do url.
Proof.
  intros Hno. setoid_rewrite <-check_url_ok. unfold resolveAndCheckURL.
  destruct (is_blank (bs_URL (b_Spec b))) eqn:Hb; cbn [negb].
  - destruct (bs_URLFrom (b_Spec b)) as [src|] eqn:Hs.
    2:{ split; [done|]. intros (url & Hp & _). destruct Hp; congruence. }
    destruct (IngressRef src) as [ref|] eqn:Hr.
    + setoid_rewrite <-(resolved_ingress c b src ref _ Hb Hs Hr).
      destruct (resolveURLFromSource _ _ _) as [url|]; cbn [mbind result_bind]; [|naive_solver].
      split.
      * intros Hc. exists url. split; [done|]. by destruct (check_url Do url) as [[]|].
      * intros (url' & [= <-] & ->). done.
    + unfold resolveURLFromSource. rewrite Hr. cbn [mbind result_bind]. pose proof (no_url_unanswered Do Hno) as Hn.
      rewrite <-check_url_ok in Hn. destruct (check_url Do "") as [[]|]; [done|]. split; [done|].
      intros (url & Hp & _). destruct Hp; congruence.
  - destruct (check_url Do _) as [[]|] eqn:E; cbn.
    + split; [|done]. intros _. eexists. split; [by constructor|done].
    + split; [done|]. intros (url & Hp & Hc). destruct Hp; congruence.
Qed.

Lemma checked_reachable now outcome st b :
  confirmed_reachable (with_bookmark_status (checked_status now outcome st) b) = true ↔ outcome = Ok true.
Proof. unfold confirmed_reachable. destruct outcome as [[]|]; cbn; naive_solver. Qed.

(** A check: the bookmark as it was read, the cluster and the network then, and
    the time stamped on it. *)
Record url_check := { ck_Bookmark : Bookmark; ck_Reader : Reader; ck_Do : HTTPDo; ck_At : Z }.

(** What the API server keeps of a time: whole seconds. *)
Definition stored_time (t : Z) : Z := (t / Second * Second)%Z.
Definition stored_bookmark (b : Bookmark) : Bookmark :=
  let st := b_Status b in
  with_bookmark_status {| bst_URLReachable := bst_URLReachable st;
    bst_LastURLCheckAt := stored_time <$> bst_LastURLCheckAt st; bst_URLCheckError := bst_URLCheckError st;
    bst_LastSyncedAt := stored_time <$> bst_LastSyncedAt st |} b.

(** The status is what one of the checks found. *)
Definition found_by (checks : list url_check) (b : Bookmark) : Prop :=
  ∀ t, bst_LastURLCheckAt (b_Status b) = Some t → ∃ k, k ∈ checks ∧ (t = ck_At k ∨ t = stored_time (ck_At k)) ∧
    (confirmed_reachable b = true ↔ ∃ url, bookmark_url (ck_Reader k) (ck_Bookmark k) url ∧ answers (ck_Do k) url).

Definition new_check (w : ApiWorld Bookmark) (Do : HTTPDo) (clock : BookmarkClock) (b : Bookmark) : url_check :=
  {| ck_Bookmark := b; ck_Reader := w_Reader w; ck_Do := Do; ck_At := at_checked clock |}.

(** A bookmark in the API server and the checks of it so far: created without
    a status, edited at will, its status written by reconciles that read it. *)
Inductive bookmark_history : list url_check → Bookmark → Prop :=
| bookmark_created b : bst_LastURLCheckAt (b_Status b) = None → bookmark_history [] b
| bookmark_edited checks b b' : bookmark_history checks b → b_Status b' = b_Status b → bookmark_history checks b'
| bookmark_written checks b w Do clock req b' res :
    bookmark_history checks b → w_Get w req = Ok b → refuses_no_url Do →
    ReconcileBookmark w Do clock req = (Some b', Ok res) →
    bookmark_history (new_check w Do clock b :: checks) (stored_bookmark b').

(** The bookmark a reconcile writes. *)
Definition reconciled (w : ApiWorld Bookmark) (Do : HTTPDo) (clock : BookmarkClock) (b : Bookmark) : Bookmark :=
  let st := if needs_url_check (at_since clock) b
    then checked_status (at_checked clock) (resolveAndCheckURL (w_Reader w) Do b) (b_Status b) else b_Status b in
  with_bookmark_status (synced_status (at_synced clock) st) b.

Lemma ReconcileBookmark_found w Do clock req b : w_Get w req = Ok b →
  ReconcileBookmark w Do clock req = update_status w (reconciled w Do clock b) {| RequeueAfter := urlCheckInterval |}.
Proof. intros Hg. unfold ReconcileBookmark. by rewrite (with_object_found _ _ _ _ _ Hg). Qed.

Lemma reconciled_due w Do clock b : refuses_no_url Do → needs_url_check (at_since clock) b = true →
  bst_LastURLCheckAt (b_Status (reconciled w Do clock b)) = Some (at_checked clock) ∧
  (confirmed_reachable (reconciled w Do clock b) = true ↔ ∃ url, bookmark_url (w_Reader w) b url ∧ answers Do url).
Proof.
  intros Hno Hd. unfold reconciled. rewrite Hd. split; [by destruct (resolveAndCheckURL _ _ _)|].
  by rewrite <-resolveAndCheckURL_ok, <-(checked_reachable (at_checked clock) _ (b_Status b) b).
Qed.

Lemma reconciled_kept w Do clock b : needs_url_check (at_since clock) b = false →
  bst_LastURLCheckAt (b_Status (reconciled w Do clock b)) = bst_LastURLCheckAt (b_Status b) ∧
  confirmed_reachable (reconciled w Do clock b) = confirmed_reachable b.
Proof. intros Hd. unfold reconciled. by rewrite Hd. Qed.

Lemma reconciled_found checks w Do clock b : refuses_no_url Do → found_by checks b →
  found_by (new_check w Do clock b :: checks) (reconciled w Do clock b).
Proof.
  intros Hno Hf t Ht. destruct (needs_url_check (at_since clock) b) eqn:Hd.
  - destruct (reconciled_due w Do clock b Hno Hd) as [E Hr]. rewrite E in Ht. injection Ht as <-.
    eexists. split; [by left|]. split; [by left|done].
  - destruct (reconciled_kept w Do clock b Hd) as [E Hr]. rewrite E in Ht.
    destruct (Hf t Ht) as (k & Hk & Hrange & Hc). exists k. split; [by right|]. split; [done|]. by rewrite Hr.
Qed.

Lemma stored_time_idemp t : stored_time (stored_time t) = stored_time t.
Proof. unfold stored_time. by rewrite Z.div_mul. Qed.

Lemma stored_found checks b : found_by checks b → found_by checks (stored_bookmark b).
Proof.
  intros Hf t. cbn. destruct (bst_LastURLCheckAt (b_Status b)) as [t0|] eqn:Ht; [|done]. intros [= <-].
  destruct (Hf t0 Ht) as (k & Hk & Hat & Hc). exists k. split; [done|]. split; [|done].
  right. destruct Hat as [->| ->]; [done|apply stored_time_idemp].
Qed.

Lemma history_found checks b : bookmark_history checks b → found_by checks b.
Proof.
  induction 1 as [b Hn|checks b b' _ IH Hst|checks b w Do clock req b' res _ IH Hg Hno Hr].
  - intros t. by rewrite Hn.
  - unfold found_by, confirmed_reachable in *. by rewrite Hst.
  - rewrite (ReconcileBookmark_found _ _ _ _ _ Hg) in Hr. unfold update_status in Hr. injection Hr as <- _.
    by apply stored_found, reconciled_found.
Qed.

(** C38: reconciling a bookmark writes back its status alone, and whatever was
    edited before, the reachability in the status is what one check found of
    the URL the bookmark had when it was checked: the dashboard will list the
    bookmark exactly if that URL answered.  The check is less than five minutes
    old.  When the last one is due it is made now; else flag and time are kept,
    also when the URL has been edited since.  A bookmark has a URL by its spec
    or by the Ingress it refers to; the reconciler resolves no other
    references, and never confirms them.  The next reconcile is asked for in
    five minutes. *)
Theorem bookmark_reconciled checks w Do clock req b :
  bookmark_history checks b → w_Get w req = Ok b → refuses_no_url Do →
  (at_since clock ≤ at_checked clock)%Z →
  (∀ t, bst_LastURLCheckAt (b_Status b) = Some t → in_int64 (at_since clock - t)) →
  ∃ b' k t, ReconcileBookmark w Do clock req = update_status w b' {| RequeueAfter := urlCheckInterval |} ∧
    b_meta b' = b_meta b ∧ b_Spec b' = b_Spec b ∧
    k ∈ new_check w Do clock b :: checks ∧
    (confirmed_reachable b' = true ↔ ∃ url, bookmark_url (ck_Reader k) (ck_Bookmark k) url ∧ answers (ck_Do k) url) ∧
    bst_LastURLCheckAt (b_Status b') = Some t ∧ (t = ck_At k ∨ t = stored_time (ck_At k)) ∧
    (at_since clock - t < 5 * Minute)%Z ∧
    (if needs_url_check (at_since clock) b then k = new_check w Do clock b
     else confirmed_reachable b' = confirmed_reachable b ∧ bst_LastURLCheckAt (b_Status b) = Some t).
Proof.
  intros Hh Hg Hno Hclock Hrange. exists (reconciled w Do clock b). destruct (needs_url_check _ b) eqn:Hd.
  - destruct (reconciled_due w Do clock b Hno Hd) as [E Hr]. exists (new_check w Do clock b), (at_checked clock).
    split_and!; try done; [by apply ReconcileBookmark_found|by left|by left|unfold Minute, Second; lia].
  - destruct (reconciled_kept w Do clock b Hd) as [E Hr]. pose proof Hd as Hd'. unfold needs_url_check in Hd'.
    destruct (bst_LastURLCheckAt (b_Status b)) as [t|] eqn:Ht; [|done].
    destruct (history_found _ _ Hh t Ht) as (k & Hk & Hat & Hc). exists k, t.
    rewrite time_sub_exact in Hd' by auto. apply Z.leb_gt in Hd'.
    split_and!; try done; [by apply ReconcileBookmark_found|by right|by rewrite Hr].
Qed.
End bookmark.

(** ** Bookmark groups *)

Definition in_group (group : string) (b : Bookmark) : bool := bool_decide (bs_Group (b_Spec b) = group).

Lemma count_bookmarks_exact group bs : (Z.of_nat (length bs) ≤ 2147483647)%Z →
  count_bookmarks group bs = Z.of_nat (length (List.filter (in_group group) bs)).
Proof.
  intros Hlen. unfold count_bookmarks.
  assert (∀ n, (0 ≤ n)%Z → (n + Z.of_nat (length bs) ≤ 2147483647)%Z →
    foldl (fun n b => if bool_decide (bs_Group (b_Spec b) = group) then wrap32 (n + 1) else n) n bs =
    (n + Z.of_nat (length (List.filter (in_group group) bs)))%Z) as E.
  { clear Hlen. induction bs as [|b bs IH]; intros n Hn Hle; cbn [foldl List.filter length] in *; [lia|].
    unfold in_group at 1. case_bool_decide; rewrite ?wrap32_id by lia; rewrite IH by lia; cbn [length]; lia. }
  rewrite E by lia. lia.
Qed.

(** A group's status is written exactly when the group and the bookmarks
    of its namespace can be read, and counts the bookmarks that name it; a
    group that is gone is no error, any other failure is reported and leaves
    the status. *)
Theorem group_counted w now req : (∀ ns bs, list_Bookmarks (w_Reader w) ns = Ok bs → (Z.of_nat (length bs) ≤ 2147483647)%Z) →
  match w_Get w req with
  | Err err => ReconcileBookmarkGroup w now req = (None, if IsNotFound err then Ok no_requeue else Err err)
  | Ok g =>
    match list_Bookmarks (w_Reader w) (Some (om_Namespace (bg_meta g))) with
    | Err err => ReconcileBookmarkGroup w now req = (None, Err err)
    | Ok bs => ∃ g', ReconcileBookmarkGroup w now req = update_status w g' no_requeue ∧
        bg_meta g' = bg_meta g ∧ bg_Spec g' = bg_Spec g ∧ bgst_LastSyncedAt (bg_Status g') = Some now ∧
        bgst_BookmarkCount (bg_Status g') = Z.of_nat (length (List.filter (in_group (om_Name (bg_meta g))) bs))
    end
  end.
Proof.
  intros Hlen. unfold ReconcileBookmarkGroup, with_object. destruct (w_Get w req) as [g|]; [|done].
  destruct (list_Bookmarks _ _) as [bs|] eqn:Hl; [|done]. eexists. split; [reflexivity|]. repeat split.
  cbn. apply count_bookmarks_exact. by eapply Hlen.
Qed.

(** ** Info tiles *)

(** A cluster without objects; a tile's reconcile reads none. *)
Definition no_objects : Reader :=
  {| list_BookmarkGroups := Ok []; list_Bookmarks := fun _ => Ok []; list_ForecastleApps := Ok [];
     list_InfoTiles := Ok []; list_Ingresses := fun _ => Ok []; list_Services := fun _ => Ok [];
     list_EndpointSlices := fun _ => Ok []; list_Unstructured := fun _ _ => Ok [];
     get_Ingress := fun _ => Err (Error KNotFound "ingress not found");
     get_Service := fun _ => Err (Error KNotFound "service not found");
     get_Unstructured := fun _ _ => Err (Error KNotFound "object not found") |}.

Section tile.
Context `{Unicode, Float64Text, Templates}.

(** What a reconcile reads: the tile the API server holds, an older version
    from the cache, or an error. *)
Inductive reading := Current | Stale (old : InfoTile) | Unread (err : error).

(** What happens to a tile: its spec is edited, or it is reconciled, with the
    API server's answer to the update of a current tile. *)
Inductive tile_event :=
| TileEdit (spec : InfoTileSpec)
| TileAttempt (read : reading) (Do : HTTPDo) (now : Z) (update : result unit).

Definition conflict : error := new_error "the object has been modified".

(** The world of one reconcile.  An update of a stale tile is refused. *)
Definition tile_world (tile : InfoTile) (read : reading) (update : result unit) : ApiWorld InfoTile :=
  {| w_Get := fun _ => match read with Current => Ok tile | Stale old => Ok old | Unread err => Err err end;
     w_StatusUpdate := fun _ => match read with Stale _ => Err conflict | _ => update end;
     w_Reader := no_objects |}.

Definition with_spec (spec : InfoTileSpec) (tile : InfoTile) : InfoTile :=
  {| it_meta := it_meta tile; it_Spec := spec; it_Status := it_Status tile |}.

(** The tile in the API server, and the notifications so far; a notification
    goes out before the update and stays when that fails. *)
Definition tile_step (st : InfoTile * nat) (e : tile_event) : InfoTile * nat :=
  match e with
  | TileEdit spec => (with_spec spec st.1, st.2)
  | TileAttempt read Do now update =>
    let '(written, notified, res) :=
      ReconcileInfoTile (tile_world st.1 read update) Do now {| nn_Namespace := ""; nn_Name := "" |} in
    (match written, res with Some tile, Ok _ => tile | _, _ => st.1 end, st.2 + if notified then 1 else 0)
  end.

(** The contents rendered from the tile's spec at the time by attempts that
    read the current tile and whose update was taken, in order. *)
Fixpoint accepted (tile : InfoTile) (events : list tile_event) : list string :=
  match events with
  | [] => []
  | TileEdit spec :: events => accepted (with_spec spec tile) events
  | TileAttempt Current Do _ (Ok _) :: events =>
    match renderContent Do tile with Ok content => [content] | Err _ => [] end ++ accepted tile events
  | TileAttempt _ _ _ _ :: events => accepted tile events
  end.

(** An attempt that read a tile and whose update was refused. *)
Definition refused_update (e : tile_event) : bool :=
  match e with
  | TileAttempt Current _ _ (Err _) | TileAttempt (Stale _) _ _ _ => true
  | _ => false
  end.

(** How often a sequence of contents changes. *)
Fixpoint changes (content : string) (contents : list string) : nat :=
  match contents with
  | [] => 0
  | c :: contents => (if bool_decide (content = c) then 0 else 1) + changes c contents
  end.

Lemma accepted_status st tile events : accepted (with_tile_status st tile) events = accepted tile events.
Proof.
  revert tile. induction events as [|[spec|read Do now update] events IH]; intros tile; [done| |].
  - apply (IH (with_spec spec tile)).
  - cbn. destruct read; [|apply IH..]. destruct update; [|apply IH]. f_equal. apply IH.
Qed.

Lemma tile_step_current tile n Do now update :
  tile_step (tile, n) (TileAttempt Current Do now update) =
  let '(st, notified) := fetched_status now (renderContent Do tile) (it_Status tile) in
  (match update with Ok _ => with_tile_status st tile | Err _ => tile end, n + if notified then 1 else 0).
Proof.
  unfold tile_step, ReconcileInfoTile, with_object, update_status. cbn [tile_world w_Get w_StatusUpdate fst snd].
  destruct (fetched_status _ _ _). by destruct update.
Qed.

Lemma tile_step_stale tile n old Do now update :
  tile_step (tile, n) (TileAttempt (Stale old) Do now update) =
  (tile, n + if (fetched_status now (renderContent Do old) (it_Status old)).2 then 1 else 0).
Proof.
  unfold tile_step, ReconcileInfoTile, with_object, update_status. cbn [tile_world w_Get w_StatusUpdate fst snd].
  by destruct (fetched_status _ _ _).
Qed.

Lemma tile_step_unread tile n err Do now update : tile_step (tile, n) (TileAttempt (Unread err) Do now update) = (tile, n).
Proof. unfold tile_step, ReconcileInfoTile, with_object. cbn. by rewrite Nat.add_0_r. Qed.

(** An attempt whose update is taken stores what it rendered, and notifies
    exactly of a change. *)
Lemma fetched_stored now fetched st :
  let '(st', notified) := fetched_status now fetched st in
  match fetched with
  | Ok content => itst_Content st' = content ∧ notified = negb (bool_decide (itst_Content st = content))
  | Err _ => itst_Content st' = itst_Content st ∧ notified = false
  end.
Proof.
  unfold fetched_status. destruct fetched as [content|err]; [|done]. case_bool_decide as Hc.
  - by rewrite bool_decide_false.
  - by rewrite bool_decide_true.
Qed.

Lemma tile_events_from tile n events :
  let '(tile', n') := foldl tile_step (tile, n) events in
  let extra := length (List.filter refused_update events) in
  itst_Content (it_Status tile') = default (itst_Content (it_Status tile)) (last (accepted tile events)) ∧
  n + changes (itst_Content (it_Status tile)) (accepted tile events) ≤ n' ∧
  n' ≤ n + changes (itst_Content (it_Status tile)) (accepted tile events) + extra.
Proof.
  revert tile n. induction events as [|[spec|read Do now update] events IH]; intros tile n; cbn [foldl].
  { cbn. split_and!; [done|lia|lia]. }
  { apply (IH (with_spec spec tile) n). }
  destruct read as [|old|err].
  - rewrite tile_step_current. pose proof (fetched_stored now (renderContent Do tile) (it_Status tile)) as Hst.
    destruct (fetched_status _ _ _) as [st notified]. destruct update as [[]|uerr].
    + specialize (IH (with_tile_status st tile) (n + if notified then 1 else 0)).
      destruct (foldl _ _ _) as [tile' n']. rewrite accepted_status in IH. cbn [with_tile_status it_Status] in IH.
      cbv zeta in *. cbn [accepted List.filter refused_update]. destruct IH as (Hc & Hlo & Hhi).
      destruct (renderContent Do tile) as [content|e]; destruct Hst as [E ->]; rewrite E in *.
      * cbn [app changes]. rewrite last_cons. case_bool_decide; cbn [negb] in *;
          (split_and!; [by destruct (last _)|lia|lia]).
      * cbn [app]. split_and!; [done|lia|lia].
    + specialize (IH tile (n + if notified then 1 else 0)). destruct (foldl _ _ _) as [tile' n']. cbv zeta in *.
      cbn [accepted List.filter refused_update length]. destruct IH as (Hc & Hlo & Hhi).
      split_and!; [done|destruct notified; lia|destruct notified; lia].
  - rewrite tile_step_stale. destruct (fetched_status _ _ _).2; [specialize (IH tile (n + 1))|specialize (IH tile (n + 0))];
      destruct (foldl _ _ _) as [tile' n']; cbv zeta in *; cbn [accepted List.filter refused_update length];
      destruct IH as (Hc & Hlo & Hhi); (split_and!; [done|lia|lia]).
  - rewrite tile_step_unread. specialize (IH tile n). destruct (foldl _ _ _) as [tile' n']. cbv zeta in *.
    by cbn [accepted List.filter refused_update].
Qed.

(** C39: through any edits, stale reads, failed reads, failed fetches and
    refused updates, a tile in the API server shows the last content that was
    rendered from the current tile and whose update was taken.  There are at
    least as many notifications as changes of the stored content and, as a
    notification precedes the update, at most one more for each update that was
    refused: exactly one for every change if none was. *)
Theorem tile_content tile events :
  let '(tile', notifications) := foldl tile_step (tile, 0) events in
  itst_Content (it_Status tile') = default (itst_Content (it_Status tile)) (last (accepted tile events)) ∧
  changes (itst_Content (it_Status tile)) (accepted tile events) ≤ notifications ≤
    changes (itst_Content (it_Status tile)) (accepted tile events) + length (List.filter refused_update events).
Proof.
  pose proof (tile_events_from tile 0 events). destruct (foldl _ _ _). naive_solver.
Qed.

(** ** Query parameters *)

(** The values a list of parameters gives a name. *)
Definition params_for (k : string) (params : list InfoTileQueryParam) : list string :=
  qp_Value <$> List.filter (fun p => bool_decide (qp_Name p = k)) params.

Lemma foldl_params (q : gmap string (list string)) params k :
  default [] (foldl (fun q p => Add q (qp_Name p) (qp_Value p)) q params !! k) =
  default [] (q !! k) ++ params_for k params.
Proof.
  revert q. induction params as [|p params IH]; intros q; cbn [foldl]; [by rewrite app_nil_r|].
  rewrite IH. unfold params_for. cbn [List.filter]. unfold Add. case_bool_decide as Hk.
  - rewrite Hk, lookup_insert_eq. cbn. by rewrite <-app_assoc.
  - by rewrite lookup_insert_ne by done.
Qed.

Lemma foldl_params_nonempty (q : gmap string (list string)) params : map_Forall (fun _ vs => vs ≠ []) q →
  map_Forall (fun _ vs => vs ≠ []) (foldl (fun q p => Add q (qp_Name p) (qp_Value p)) q params).
Proof.
  intros Hq. apply (foldl_ind (map_Forall (fun _ vs => vs ≠ []))); [done|].
  intros q' p _ Hq'. unfold Add. apply map_Forall_insert_2; [by destruct (default _ _)|done].
Qed.

Lemma foldl_add_header_url headers r :
  rq_URL (foldl (fun r h => add_header (hd_Name h) (hd_Value h) r) r headers) = rq_URL r.
Proof. revert r. induction headers as [|h headers IH]; intros r; [done|]. cbn. by rewrite IH. Qed.

(** A tile's request goes to its URL with the parameters added to the
    query, each name's values after those the URL already had; all of them
    are recovered from the text of the query, whatever bytes they hold. *)
Theorem tile_query req r : tile_request req = Ok r → hr_QueryParams req ≠ [] →
  ∃ u query, Parse (hr_URL req) = Ok u ∧ rq_URL r = url_string (with_query query u) ∧
    ∀ k, default [] (ParseQuery query !! k) =
      default [] (ParseQuery (RawQuery u) !! k) ++ params_for k (hr_QueryParams req).
Proof.
  unfold tile_request, tile_url. intros Hr Hp. destruct (hr_QueryParams req) as [|p params] eqn:Hps; [done|].
  destruct (Parse (hr_URL req)) as [u|]; [|done]. cbn [mbind result_bind] in Hr.
  exists u, (Encode (foldl (fun q p => Add q (qp_Name p) (qp_Value p)) (ParseQuery (RawQuery u)) (p :: params))).
  split; [done|]. split.
  - unfold NewRequest, wrapping in Hr. case_all; done || (rewrite foldl_add_header_url; reflexivity).
  - intros k. rewrite ParseQuery_Encode; [apply foldl_params|].
    apply (foldl_params_nonempty _ (p :: params)), ParseQuery_nonempty.
Qed.
End tile.

(** ** Witnesses *)

Definition wiki_bookmark : Bookmark :=
  {| b_meta := {| om_Name := "wiki"; om_Namespace := "default"; om_Annotations := ∅ |};
     b_Spec := {| bs_Group := "team"; bs_Name := "Wiki"; bs_URL := "https://wiki.example.com/"; bs_URLFrom := None;
       bs_Target := ""; bs_Icon := ""; bs_NetworkRestricted := false; bs_Replicate := false;
       bs_Groups := []; bs_Properties := ∅ |};
     b_Status := {| bst_URLReachable := Some false; bst_LastURLCheckAt := Some 0%Z; bst_URLCheckError := "down";
       bst_LastSyncedAt := None |} |}.

Definition holds {A} (obj : A) (c : Reader) : ApiWorld A :=
  {| w_Get := fun _ => Ok obj; w_StatusUpdate := fun _ => Ok tt; w_Reader := c |}.
Definition any_name : NamespacedName := {| nn_Namespace := "default"; nn_Name := "wiki" |}.

(** A server that allows GET only. *)
Definition get_only : HTTPDo := fun r =>
  if bool_decide (rq_URL r = "") then Err (new_error "unsupported protocol scheme") else
  Ok {| rp_Status := if bool_decide (rq_Method r = "GET") then 200 else 405; rp_ContentType := "text/plain";
        rp_Body := Ok (bytes "hello") |}.

Lemma get_only_refuses : refuses_no_url get_only.
Proof. intros req Hr. unfold get_only. rewrite bool_decide_true by done. by eexists. Qed.

Definition new_wiki : Bookmark :=
  with_bookmark_status {| bst_URLReachable := None; bst_LastURLCheckAt := None; bst_URLCheckError := "";
    bst_LastSyncedAt := None |} wiki_bookmark.
Definition clock_at (t : Z) : BookmarkClock := {| at_since := t; at_checked := t + 1; at_synced := t + 2 |}.

(** The bookmark after a first check, and after an edit of its URL. *)
Definition checked_wiki : Bookmark :=
  stored_bookmark (@reconciled unicode_ascii (holds new_wiki no_objects) get_only (clock_at Minute) new_wiki).
Definition edited_wiki : Bookmark :=
  {| b_meta := b_meta checked_wiki; b_Status := b_Status checked_wiki;
     b_Spec := {| bs_Group := "team"; bs_Name := "Wiki"; bs_URL := ""; bs_URLFrom := None;
       bs_Target := ""; bs_Icon := ""; bs_NetworkRestricted := false; bs_Replicate := false;
       bs_Groups := []; bs_Properties := ∅ |} |}.

Lemma edited_history : @bookmark_history unicode_ascii
  [new_check (holds new_wiki no_objects) get_only (clock_at Minute) new_wiki] edited_wiki.
Proof.
  apply (bookmark_edited _ checked_wiki); [|done]. eapply (bookmark_written [] new_wiki _ _ _ any_name);
    [by apply bookmark_created|reflexivity|apply get_only_refuses|]. by rewrite (ReconcileBookmark_found _ _ _ _ new_wiki).
Qed.

(** Two minutes after its URL was removed the bookmark is still listed; five
    minutes later it is not. *)
Lemma bookmark_reconciled_witness :
  (∃ b', @ReconcileBookmark unicode_ascii (holds edited_wiki no_objects) get_only (clock_at (3 * Minute)) any_name =
      update_status (holds edited_wiki no_objects) b' {| RequeueAfter := urlCheckInterval |} ∧
    confirmed_reachable b' = true) ∧
  ∃ b', @ReconcileBookmark unicode_ascii (holds edited_wiki no_objects) get_only (clock_at (7 * Minute)) any_name =
      update_status (holds edited_wiki no_objects) b' {| RequeueAfter := urlCheckInterval |} ∧
    confirmed_reachable b' = false.
Proof.
  split.
  - destruct (@bookmark_reconciled unicode_ascii _ (holds edited_wiki no_objects) get_only (clock_at (3 * Minute))
      any_name edited_wiki edited_history) as (b' & k & t & E & _ & _ & _ & _ & _ & _ & _ & Hd);
      [reflexivity|apply get_only_refuses|cbn; lia|intros t [= <-]; vm_compute; split; discriminate|].
    exists b'. split; [exact E|]. destruct Hd as [Hd _]. rewrite Hd. vm_compute. reflexivity.
  - destruct (@bookmark_reconciled unicode_ascii _ (holds edited_wiki no_objects) get_only (clock_at (7 * Minute))
      any_name edited_wiki edited_history) as (b' & k & t & E & _ & _ & _ & Hc & _ & _ & _ & Hd);
      [reflexivity|apply get_only_refuses|cbn; lia|intros t [= <-]; vm_compute; split; discriminate|].
    exists b'. split; [exact E|]. apply not_true_iff_false. rewrite Hc. cbn in Hd. rewrite Hd.
    intros (url & Hu & _). destruct Hu as [Hb|]; [vm_compute in Hb; discriminate Hb|discriminate].
Defined.

Definition team_group : BookmarkGroup :=
  {| bg_meta := {| om_Name := "team"; om_Namespace := "default"; om_Annotations := ∅ |};
     bg_Spec := {| bgs_Name := "Team"; bgs_Properties := ∅; bgs_Replicate := false |};
     bg_Status := {| bgst_BookmarkCount := 0; bgst_LastSyncedAt := None |} |}.
Definition two_bookmarks : Reader :=
  {| list_BookmarkGroups := Ok []; list_Bookmarks := fun _ => Ok [wiki_bookmark; wiki_bookmark];
     list_ForecastleApps := Ok []; list_InfoTiles := Ok []; list_Ingresses := fun _ => Ok [];
     list_Services := fun _ => Ok []; list_EndpointSlices := fun _ => Ok []; list_Unstructured := fun _ _ => Ok [];
     get_Ingress := get_Ingress no_objects; get_Service := get_Service no_objects;
     get_Unstructured := get_Unstructured no_objects |}.

Lemma group_counted_witness :
  ∃ g', ReconcileBookmarkGroup (holds team_group two_bookmarks) 7 any_name =
      update_status (holds team_group two_bookmarks) g' no_requeue ∧
    bgst_BookmarkCount (bg_Status g') = 2%Z.
Proof.
  pose proof (group_counted (holds team_group two_bookmarks) 7 any_name) as G.
  destruct G as (g' & E & _ & _ & _ & Hc).
  - intros ns bs [= <-]. cbn. lia.
  - exists g'. split; [exact E|]. rewrite Hc. vm_compute. reflexivity.
Defined.

Definition weather : InfoTileHTTPRequest :=
  {| hr_Method := ""; hr_URL := "http://api/weather?unit=c"; hr_Headers := []; hr_Body := "";
     hr_QueryParams := [{| qp_Name := "city"; qp_Value := "A&B=" |}; {| qp_Name := "unit"; qp_Value := "k" |}] |}.

(** A notification for a content that was not stored, and one more when it
    is. *)
Definition weather_tile : InfoTile :=
  {| it_meta := {| om_Name := "weather"; om_Namespace := "default"; om_Annotations := ∅ |};
     it_Spec := {| its_Name := "Weather"; its_Group := ""; its_Icon := ""; its_URL := ""; its_Target := "";
       its_Source := ""; its_Interval := None; its_Replicate := false; its_HTTPRequest := Some weather;
       its_Processor := "" |};
     it_Status := {| itst_Content := ""; itst_LastFetchedAt := None; itst_LastError := "" |} |}.
Definition no_templates : Templates :=
  {| Template := unit; ParseTemplate := fun _ => Err (new_error "no templates"); Execute := fun _ _ => Ok "" |}.

Theorem refused_update_notifies_twice :
  let events := [TileAttempt Current get_only 0 (Err conflict); TileAttempt Current get_only 1 (Ok tt)] in
  let '(tile, notifications) := foldl (@tile_step unicode_ascii float_bits no_templates) (weather_tile, 0) events in
  itst_Content (it_Status tile) = "hello" ∧ notifications = 2 ∧
  @accepted unicode_ascii float_bits no_templates weather_tile events = ["hello"].
Proof. vm_compute. split_and!; reflexivity. Qed.

Lemma tile_query_witness :
  ∃ r u query, @tile_request unicode_ascii weather = Ok r ∧
    rq_URL r = @url_string unicode_ascii (with_query query u) ∧
    default [] (@ParseQuery unicode_ascii query !! "unit") = ["c"; "k"] ∧ default [] (@ParseQuery unicode_ascii query !! "city") = ["A&B="].
Proof.
  destruct (@tile_request unicode_ascii weather) as [r|] eqn:E; [|vm_compute in E; discriminate E].
  destruct (@tile_query unicode_ascii weather r) as (u & query & Hu & Hr & Hq); [exact E|discriminate|].
  exists r, u, query. split; [reflexivity|]. split; [exact Hr|]. rewrite !Hq. vm_compute in Hu. injection Hu as <-.
  split; vm_compute; reflexivity.
Defined.
