(* ===== verification/Webhook.v ===== *)
(** * Webhook: the validating webhooks of internal/webhook/dashboard/v1alpha1

    [ValidateCreate], [ValidateUpdate] and [ValidateDelete] of Bookmarks and
    BookmarkGroups.  The error value is built by apimachinery; the class
    [ApiErrors] is its constructor. *)

From S2P Require Import Prelude GoStrings ApiTypes UrlResolver Links Collectors Url.

(** [apierrors.NewInvalid] on a group kind, a name and one
    [field.Invalid(spec, value, msg)]. *)
Class ApiErrors := {
  NewInvalid : GroupVersionKind → string → BookmarkSpec → string → error
}.

Definition dashboard_group : string := "dashboard.netztronaut.de".

Section webhook.
Context `{Unicode, ApiErrors}.

Definition validateHTTPURL (rawURL : string) : option error :=
  match ParseRequestURI rawURL with
  | Err err => Some (wrap_error "invalid URL: " err)
  | Ok parsed =>
    if bool_decide (Scheme parsed ≠ "http") && bool_decide (Scheme parsed ≠ "https")
    then Some (new_error "scheme must be http or https") else None
  end.

Definition validateTarget (target : string) : option error :=
  if bool_decide (target = "")
     || bool_decide (target = BookmarkLinkTargetSelf)
     || bool_decide (target = BookmarkLinkTargetBlank)
     || bool_decide (target = BookmarkLinkTargetParent)
     || bool_decide (target = BookmarkLinkTargetTop)
  then None else Some (new_error ("unsupported target " +:+ quote target)).

Definition bookmarkValidationError (obj : Bookmark) (msg : string) : error :=
  NewInvalid (GVK dashboard_group "" "Bookmark") (om_Name (b_meta obj)) (b_Spec obj) msg.

Definition validateBookmark (bookmark : Bookmark) : option error :=
  let hasURL := negb (is_blank (bs_URL (b_Spec bookmark))) in
  let hasURLFrom := bool_decide (is_Some (bs_URLFrom (b_Spec bookmark))) in
  let invalid msg := Some (bookmarkValidationError bookmark msg) in
  if hasURL && hasURLFrom then invalid "spec.url and spec.urlFrom are mutually exclusive" else
  if negb hasURL && negb hasURLFrom then invalid "one of spec.url or spec.urlFrom must be set" else
  match (if hasURL then validateHTTPURL (bs_URL (b_Spec bookmark)) else None) with
  | Some err => invalid ("spec.url: " +:+ err_msg err)
  | None =>
    match validateTarget (bs_Target (b_Spec bookmark)) with
    | Some err => invalid ("spec.target: " +:+ err_msg err)
    | None => None
    end
  end.

(** The validator: [None] admits the object. *)
Definition ValidateCreate (obj : Bookmark) : option error := validateBookmark obj.
Definition ValidateUpdate (oldObj newObj : Bookmark) : option error := validateBookmark newObj.
Definition ValidateDelete (obj : Bookmark) : option error := None.

Definition validateBookmarkGroup (group : BookmarkGroup) : option error := None.
Definition ValidateCreateGroup (obj : BookmarkGroup) : option error := validateBookmarkGroup obj.
Definition ValidateUpdateGroup (oldObj newObj : BookmarkGroup) : option error := validateBookmarkGroup newObj.
Definition ValidateDeleteGroup (obj : BookmarkGroup) : option error := None.

(** ** What is admitted *)

Definition allowed_targets : list string :=
  ["" ; BookmarkLinkTargetSelf; BookmarkLinkTargetBlank; BookmarkLinkTargetParent; BookmarkLinkTargetTop].

Definition http_url (rawURL : string) : Prop :=
  ∃ u, ParseRequestURI rawURL = Ok u ∧ (Scheme u = "http" ∨ Scheme u = "https").

(** Exactly one of a URL, which is an http or https one, and a reference. *)
Definition admissible (b : Bookmark) : Prop :=
  match bs_URLFrom (b_Spec b) with
  | Some _ => is_blank (bs_URL (b_Spec b)) = true
  | None => is_blank (bs_URL (b_Spec b)) = false ∧ http_url (bs_URL (b_Spec b))
  end ∧ bs_Target (b_Spec b) ∈ allowed_targets.

Lemma validateHTTPURL_ok rawURL : validateHTTPURL rawURL = None ↔ http_url rawURL.
Proof.
  unfold validateHTTPURL, http_url. destruct (ParseRequestURI rawURL) as [u|e]; [|naive_solver].
  repeat case_bool_decide; cbn; naive_solver.
Qed.

Lemma validateTarget_ok target : validateTarget target = None ↔ target ∈ allowed_targets.
Proof.
  unfold validateTarget, allowed_targets. rewrite !elem_of_cons, elem_of_nil.
  repeat case_bool_decide; cbn; naive_solver.
Qed.

Lemma validateBookmark_ok b : validateBookmark b = None ↔ admissible b.
Proof.
  unfold validateBookmark, admissible. cbv zeta.
  destruct (bs_URLFrom (b_Spec b)) as [src|]; [rewrite bool_decide_true by done|rewrite bool_decide_false by (by intros [])].
  all: destruct (is_blank (bs_URL (b_Spec b))) eqn:Hb; cbn [negb andb].
  - pose proof (validateTarget_ok (bs_Target (b_Spec b))). destruct (validateTarget _); naive_solver.
  - naive_solver.
  - naive_solver.
  - pose proof (validateHTTPURL_ok (bs_URL (b_Spec b))).
    pose proof (validateTarget_ok (bs_Target (b_Spec b))).
    destruct (validateHTTPURL _), (validateTarget _); naive_solver.
Qed.

(** The webhook admits a bookmark, at creation and at update, exactly
    when it has either a reference or an http(s) URL and a target of the list;
    deleting one is always admitted. *)
Theorem bookmark_admitted old b :
  (ValidateCreate b = None ↔ admissible b) ∧
  (ValidateUpdate old b = None ↔ admissible b) ∧ ValidateDelete b = None.
Proof.
  pose proof (validateBookmark_ok b). done.
Qed.

(** ** The scheme of an admitted URL *)

(** The parser takes a scheme off the front of the text. *)
Lemma getScheme_spec first seen l whole s rest :
  getScheme first seen l whole = Ok (s, rest) → whole = seen ++ l → s ≠ [] → whole = s ++ [":"%char] ++ rest.
Proof.
  revert first seen. induction l as [|c l IH]; intros first seen; cbn [getScheme].
  - by intros [= <- <-].
  - intros Hg Hw Hs. destruct (is_alpha c) eqn:Ha.
    { eapply IH; [exact Hg| |done]. by rewrite <-app_assoc. }
    destruct (is_digit c || one_of "+-." c) eqn:Hd.
    { destruct first; [by injection Hg as <- <-|]. eapply IH; [exact Hg| |done]. by rewrite <-app_assoc. }
    case_bool_decide as Hc; [|by injection Hg as <- <-]. destruct first; [done|].
    injection Hg as <- <-. by rewrite Hw, Hc.
Qed.

(** [w] spells [name] up to ASCII case. *)
Definition spells (name : string) (w : list ascii) : Prop := ascii_lower_str w = name.

Lemma parse_url_scheme raw via u : parse_url raw via = Ok u → Scheme u ≠ "" →
  has_ctl raw = false ∧ ∃ w rest, bytes raw = w ++ [":"%char] ++ rest ∧ spells (Scheme u) w.
Proof.
  unfold parse_url. cbv zeta. destruct (has_ctl raw); [done|]. destruct (bool_decide (raw = "") && via); [done|].
  case_bool_decide; [by intros [= <-]|].
  destruct (getScheme true [] (bytes raw) (bytes raw)) as [[w rest]|e] eqn:Hg; [|done].
  cbn [mbind result_bind fst snd]. destruct (split_query (str rest)) as [[rest' query] force].
  intros Hu Hs. split; [done|]. exists w, rest.
  enough (Scheme u = ascii_lower_str w) as E.
  { split; [|by unfold spells]. eapply getScheme_spec; [exact Hg|done|].
    intros ->. by rewrite E in Hs. }
  revert Hu. clear. generalize (Cut rest' "/"). intros cut Hu.
  repeat case_match; try done; repeat match goal with
  | H : Ok _ = Ok _ |- _ => injection H as <-; done
  | H : (_ ≫= _) = Ok _ |- _ => 
    let x := fresh in let E := fresh in
    match type of H with (?r ≫= _) = _ => destruct r as [x|x] eqn:E; [cbn [mbind result_bind] in H|done] end
  end.
Qed.

(** A text that spells a name starting with an ASCII letter starts with no
    white space. *)
Lemma spells_front w k : spells "http" w ∨ spells "https" w →
  space_front space2 space3 (w ++ k) = false.
Proof.
  intros Hw. assert (∃ a w', w = a :: w' ∧ (a = "h"%char ∨ a = "H"%char)) as (a & w' & -> & Ha).
  { assert (∃ a w' r, w = a :: w' ∧ String (of_byte (ascii_lower (byte a))) r = String "h" r) as (a & w' & r & -> & Ha).
    { destruct w as [|a w']; [by destruct Hw|]. exists a, w', "". split; [done|].
      f_equal. by destruct Hw as [[= ->]|[= ->]]. }
    exists a, w'. split; [done|]. apply (f_equal (fun s => hd "x"%char (bytes s))) in Ha. cbn in Ha.
    pose (P a := negb (bool_decide (of_byte (ascii_lower (byte a)) = "h"%char)) ||
      bool_decide (a = "h"%char) || bool_decide (a = "H"%char)).
    assert (P a = true) as HP by (apply forall_byte; by vm_compute). unfold P in HP.
    rewrite Ha in HP. rewrite bool_decide_true in HP by done. cbn [negb orb] in HP.
    apply orb_true_iff in HP as [HP|HP]; apply bool_decide_eq_true in HP; auto. }
  cbn [app space_front]. destruct (w' ++ k) as [|b [|c l]]; by destruct Ha as [-> | ->].
Qed.

(** C37: every link the dashboard makes of a bookmark the webhook admits has
    no URL at all or an http(s) one: the text starts, up to case, with [http:]
    or [https:], and holds no control character. *)
Theorem admitted_link_scheme b groupReplicate :
  ValidateCreate b = None →
  l_URL (bookmark_link groupReplicate b) = "" ∨
  has_ctl (bs_URL (b_Spec b)) = false ∧
  ∃ w rest, bytes (l_URL (bookmark_link groupReplicate b)) = w ++ ":"%char :: rest ∧
    (spells "http" w ∨ spells "https" w).
Proof.
  intros Hv. apply validateBookmark_ok in Hv as [Hv _]. cbn [bookmark_link l_URL].
  destruct (bs_URLFrom (b_Spec b)); [left; by apply bool_decide_eq_true in Hv|right].
  destruct Hv as [_ (u & Hu & Hs)]. unfold ParseRequestURI in Hu.
  destruct (parse_url _ true) as [u'|] eqn:Hp; [injection Hu as ->|done].
  apply parse_url_scheme in Hp as [Hctl (w & rest & Hb & Hw)]; [|by destruct Hs as [-> | ->]].
  split; [done|].
  assert (spells "http" w ∨ spells "https" w) as Hsp by (destruct Hs as [<-|<-]; auto).
  destruct (TrimSpace_keeps _ _ _ _ Hb) as [rest' Hr]; [|done..|by exists w, rest'].
  rewrite Hb. by apply spells_front.
Qed.
End webhook.

(** ** Witnesses *)
Definition sample_errors : ApiErrors :=
  {| NewInvalid := fun _ name _ msg => new_error (name +:+ ": " +:+ msg) |}.

Definition bookmark_with (url target : string) (from : option URLSource) : Bookmark :=
  {| b_meta := {| om_Name := "wiki"; om_Namespace := "default"; om_Annotations := ∅ |};
     b_Spec := {| bs_Group := "team"; bs_Name := "Wiki"; bs_URL := url; bs_URLFrom := from;
       bs_Target := target; bs_Icon := ""; bs_NetworkRestricted := false; bs_Replicate := false;
       bs_Groups := []; bs_Properties := ∅ |};
     b_Status := {| bst_URLReachable := None; bst_LastURLCheckAt := None; bst_URLCheckError := "";
       bst_LastSyncedAt := None |} |}.

(** The webhook on concrete bookmarks: an admitted URL, and refusals. *)
Example admits_https : @ValidateCreate unicode_ascii sample_errors
  (bookmark_with "HTTPS://wiki.example.com:8443/a?b#c " "_blank" None) = None.
Proof. vm_compute. reflexivity. Qed.
Example refuses_javascript : @ValidateCreate unicode_ascii sample_errors
  (bookmark_with "javascript:alert(1)" "" None) =
  Some (new_error "wiki: spec.url: scheme must be http or https").
Proof. vm_compute. reflexivity. Qed.
Example refuses_target : @ValidateCreate unicode_ascii sample_errors
  (bookmark_with "http://wiki/" "frame" None) =
  Some (new_error ("wiki: spec.target: unsupported target " +:+ @quote unicode_ascii "frame")).
Proof. vm_compute. reflexivity. Qed.

Lemma admitted_link_scheme_witness :
  ∃ w rest, bytes (l_URL (bookmark_link ∅ (bookmark_with "HTTPS://wiki.example.com/a " "" None))) =
    w ++ ":"%char :: rest ∧ (spells "http" w ∨ spells "https" w).
Proof.
  destruct (@admitted_link_scheme unicode_ascii sample_errors
    (bookmark_with "HTTPS://wiki.example.com/a " "" None) ∅) as [E|[_ E]].
  - vm_compute. reflexivity.
  - vm_compute in E. discriminate E.
  - exact E.
Defined.
