(* ===== verification/Base64.v ===== *)
(** * Base64: [base64.RawURLEncoding]

    The URL alphabet without padding.  As in the Go package the decoder skips
    carriage returns and line feeds and ignores the unused bits of the last
    character. *)

From S2P Require Import Prelude GoStrings.

Definition b64_char (n : N) : ascii :=
  of_byte (if n <? 26 then 65 + n else if n <? 52 then 71 + n else if n <? 62 then n - 4
           else if n =? 62 then 45 else 95)%N.

Definition b64_value (c : ascii) : option N :=
  (if in_range 65 90 c then Some (byte c - 65)
   else if in_range 97 122 c then Some (byte c - 71)
   else if in_range 48 57 c then Some (byte c + 4)
   else if byte c =? 45 then Some 62
   else if byte c =? 95 then Some 63
   else None)%N.

(** Three bytes are four characters. *)
Fixpoint b64_encode (l : list ascii) : list ascii :=
  match l with
  | [] => []
  | [a] => [b64_char (byte a / 4); b64_char (byte a mod 4 * 16)]
  | [a; b] =>
    [b64_char (byte a / 4); b64_char (byte a mod 4 * 16 + byte b / 16); b64_char (byte b mod 16 * 4)]
  | a :: b :: c :: l =>
    b64_char (byte a / 4) :: b64_char (byte a mod 4 * 16 + byte b / 16) ::
    b64_char (byte b mod 16 * 4 + byte c / 64) :: b64_char (byte c mod 64) :: b64_encode l
  end%N.

Definition b64_byte1 (w x : N) : ascii := of_byte (w * 4 + x / 16)%N.
Definition b64_byte2 (x y : N) : ascii := of_byte (x mod 16 * 16 + y / 4)%N.
Definition b64_byte3 (y z : N) : ascii := of_byte (y mod 4 * 64 + z)%N.

Fixpoint b64_quanta (l : list N) : option (list ascii) :=
  match l with
  | [] => Some []
  | [_] => None
  | [w; x] => Some [b64_byte1 w x]
  | [w; x; y] => Some [b64_byte1 w x; b64_byte2 x y]
  | w :: x :: y :: z :: l =>
    rest ← b64_quanta l; Some (b64_byte1 w x :: b64_byte2 x y :: b64_byte3 y z :: rest)
  end.

Definition b64_decode (l : list ascii) : option (list ascii) :=
  mapM b64_value (List.filter (fun c => negb ((byte c =? 10) || (byte c =? 13))%N) l) ≫= b64_quanta.

Definition EncodeToString (l : list ascii) : string := str (b64_encode l).
Definition DecodeString (s : string) : result (list ascii) :=
  match b64_decode (bytes s) with Some l => Ok l | None => Err (new_error "illegal base64 data") end.

(** ** Round trip *)

(** Induction by quanta. *)
Lemma three_ind {A} (P : list A → Prop) :
  P [] → (∀ a, P [a]) → (∀ a b, P [a; b]) → (∀ a b c l, P l → P (a :: b :: c :: l)) → ∀ l, P l.
Proof.
  intros H0 H1 H2 H3 l. remember (length l) as n eqn:Hn. revert l Hn.
  induction (lt_wf n) as [n _ IH]; intros l ->. destruct l as [|a [|b [|c l]]]; auto.
  apply H3. apply (IH (length l)); cbn; lia || done.
Qed.

(** The character of a value is in the alphabet, and no line break. *)
Definition b64_good (n : N) : bool :=
  bool_decide (b64_value (b64_char n) = Some n) &&
  negb ((byte (b64_char n) =? 10) || (byte (b64_char n) =? 13))%N &&
  negb (bool_decide (b64_char n = "."%char)).

Lemma b64_char_good n : (n < 64)%N → b64_good n = true.
Proof.
  intros Hn. assert (forallb (fun k => b64_good (N.of_nat k)) (seq 0 64) = true) as Hall by (by vm_compute).
  rewrite forallb_forall in Hall. rewrite <-(N2Nat.id n). apply Hall, in_seq. lia.
Qed.

Lemma byte_lt (a : ascii) : (byte a < 256)%N.
Proof. apply N_ascii_bounded. Qed.

Lemma of_byte_byte a : of_byte (byte a) = a.
Proof. apply ascii_N_embedding. Qed.

(** The values the encoder writes characters for. *)
Fixpoint sextets (l : list ascii) : list N :=
  match l with
  | [] => []
  | [a] => [byte a / 4; byte a mod 4 * 16]
  | [a; b] => [byte a / 4; byte a mod 4 * 16 + byte b / 16; byte b mod 16 * 4]
  | a :: b :: c :: l =>
    byte a / 4 :: (byte a mod 4 * 16 + byte b / 16) ::
    (byte b mod 16 * 4 + byte c / 64) :: byte c mod 64 :: sextets l
  end%N.

Lemma b64_encode_sextets l : b64_encode l = b64_char <$> sextets l.
Proof.
  induction l as [|a|a b|a b c l IH] using three_ind; try done. cbn [b64_encode sextets].
  by rewrite IH.
Qed.

Ltac byte_bounds :=
  repeat match goal with
  | |- context [byte ?a] => lazymatch goal with
    | _ : (byte a < 256)%N |- _ => fail
    | _ => pose proof (byte_lt a)
    end
  end.

Lemma sextets_range l : Forall (fun n => (n < 64)%N) (sextets l).
Proof.
  induction l as [|a|a b|a b c l IH] using three_ind; cbn [sextets]; repeat apply Forall_cons_2; try done;
    byte_bounds; try (apply N.Div0.div_lt_upper_bound; lia); zify; Z.to_euclidean_division_equations; lia.
Qed.

Lemma b64_quanta_sextets l : b64_quanta (sextets l) = Some l.
Proof.
  assert (∀ a n, n = byte a → of_byte n = a) as Hb by (intros a n ->; apply of_byte_byte).
  induction l as [|a|a b|a b c l IH] using three_ind; cbn [sextets b64_quanta]; try done;
    rewrite ?IH; cbn [mbind option_bind]; unfold b64_byte1, b64_byte2, b64_byte3;
    byte_bounds; repeat (f_equal; try (apply Hb)); zify; Z.to_euclidean_division_equations; lia.
Qed.

Lemma filter_all {A} (P : A → bool) l : Forall (fun x => P x = true) l → List.filter P l = l.
Proof. induction 1 as [|x l Hx _ IH]; [done|]. cbn. by rewrite Hx, IH. Qed.

(** Decoding what was encoded gives it back. *)
Lemma b64_decode_encode l : b64_decode (b64_encode l) = Some l.
Proof.
  unfold b64_decode. rewrite b64_encode_sextets.
  assert (Forall (fun n => b64_good n = true) (sextets l)) as Hg.
  { eapply Forall_impl; [apply sextets_range|]. intros n. apply b64_char_good. }
  rewrite filter_all.
  - assert (mapM b64_value (b64_char <$> sextets l) = Some (sextets l)) as ->.
    { clear -Hg. induction Hg as [|n k Hn _ IH]; [done|]. cbn. unfold b64_good in Hn. bool_to_prop.
      match goal with H : b64_value _ = _ |- _ => rewrite H end. cbn. by rewrite IH. }
    apply b64_quanta_sextets.
  - apply Forall_fmap. eapply Forall_impl; [exact Hg|]. intros n Hn. unfold b64_good in Hn.
    apply andb_true_iff in Hn as [Hn _]. by apply andb_true_iff in Hn as [_ Hn].
Qed.

Lemma DecodeString_EncodeToString l : DecodeString (EncodeToString l) = Ok l.
Proof. unfold DecodeString, EncodeToString. by rewrite bytes_str, b64_decode_encode. Qed.

(** The text has no dot. *)
Lemma EncodeToString_no_dot l : "."%char ∉ bytes (EncodeToString l).
Proof.
  unfold EncodeToString. rewrite bytes_str, b64_encode_sextets. intros (n & E & Hn)%list_elem_of_fmap.
  pose proof (sextets_range l) as Hr. rewrite Forall_forall in Hr. specialize (Hr n Hn).
  apply b64_char_good in Hr. unfold b64_good in Hr. bool_to_prop. congruence.
Qed.
