(* ===== verification/Sha256.v ===== *)
(** * Sha256: SHA-256 and HMAC (crypto/sha256, crypto/hmac)

    FIPS 180-4 and FIPS 198-1 on lists of bytes, executable; the examples are
    their published test vectors. *)

From S2P Require Import Prelude GoStrings.

Section sha256.
Local Open Scope N_scope.

(** ** 32-bit words *)
Definition word (n : N) : N := N.land n 4294967295.
Definition add32 (a b : N) : N := word (a + b).
Definition rotr (n : N) (x : N) : N := N.lor (N.shiftr x n) (word (N.shiftl x (32 - n))).
Definition not32 (x : N) : N := N.lxor x 4294967295.
Definition xor3 (a b c : N) : N := N.lxor a (N.lxor b c).

Definition Sigma0 (x : N) : N := xor3 (rotr 2 x) (rotr 13 x) (rotr 22 x).
Definition Sigma1 (x : N) : N := xor3 (rotr 6 x) (rotr 11 x) (rotr 25 x).
Definition sigma0 (x : N) : N := xor3 (rotr 7 x) (rotr 18 x) (N.shiftr x 3).
Definition sigma1 (x : N) : N := xor3 (rotr 17 x) (rotr 19 x) (N.shiftr x 10).
Definition Ch (x y z : N) : N := N.lxor (N.land x y) (N.land (not32 x) z).
Definition Maj (x y z : N) : N := xor3 (N.land x y) (N.land x z) (N.land y z).

Definition round_constants : list N :=
  [1116352408; 1899447441; 3049323471; 3921009573; 961987163; 1508970993; 2453635748; 2870763221;
   3624381080; 310598401; 607225278; 1426881987; 1925078388; 2162078206; 2614888103; 3248222580;
   3835390401; 4022224774; 264347078; 604807628; 770255983; 1249150122; 1555081692; 1996064986;
   2554220882; 2821834349; 2952996808; 3210313671; 3336571891; 3584528711; 113926993; 338241895;
   666307205; 773529912; 1294757372; 1396182291; 1695183700; 1986661051; 2177026350; 2456956037;
   2730485921; 2820302411; 3259730800; 3345764771; 3516065817; 3600352804; 4094571909; 275423344;
   430227734; 506948616; 659060556; 883997877; 958139571; 1322822218; 1537002063; 1747873779;
   1955562222; 2024104815; 2227730452; 2361852424; 2428436474; 2756734187; 3204031479; 3329325298].

Definition initial_hash : list N :=
  [1779033703; 3144134277; 1013904242; 2773480762; 1359893119; 2600822924; 528734635; 1541459225].

(** ** Padding and blocks *)
Definition be_bytes (count : nat) (n : N) : list ascii :=
  (fun i => of_byte (N.land (N.shiftr n (8 * N.of_nat i)) 255)) <$> reverse (seq 0 count).

Definition pad (l : list ascii) : list ascii :=
  let zeros := Nat.modulo (119 - Nat.modulo (length l) 64) 64 in
  l ++ of_byte 128 :: replicate zeros (of_byte 0) ++ be_bytes 8 (8 * N.of_nat (length l)).

Fixpoint words (l : list ascii) : list N :=
  match l with
  | a :: b :: c :: d :: l => (byte a * 16777216 + byte b * 65536 + byte c * 256 + byte d) :: words l
  | _ => []
  end.

(** ** The compression function *)

(** The message schedule, last word first; the window holds 16 words. *)
Fixpoint schedule (n : nat) (rev_w : list N) : list N :=
  match n with
  | O => rev_w
  | S n =>
    let w i := nth (i - 1)%nat rev_w 0 in
    schedule n (add32 (add32 (sigma1 (w 2%nat)) (w 7%nat)) (add32 (sigma0 (w 15%nat)) (w 16%nat)) :: rev_w)
  end.

Definition sha_round (h : list N) (kw : N * N) : list N :=
  match h with
  | [a; b; c; d; e; f; g; i] =>
    let t1 := add32 (add32 (add32 i (Sigma1 e)) (Ch e f g)) (add32 kw.1 kw.2) in
    let t2 := add32 (Sigma0 a) (Maj a b c) in
    [add32 t1 t2; a; b; c; add32 d t1; e; f; g]
  | _ => h
  end.

Definition compress (h : list N) (block : list N) : list N :=
  let w := reverse (schedule 48 (reverse block)) in
  zip_with add32 h (foldl sha_round h (zip round_constants w)).

Fixpoint blocks (n : nat) (l : list N) : list (list N) :=
  match n with
  | O => []
  | S n => take 16 l :: blocks n (drop 16 l)
  end.

Definition sha256 (l : list ascii) : list ascii :=
  let w := words (pad l) in
  concat (be_bytes 4 <$> foldl compress initial_hash (blocks (length w / 16)%nat w)).

(** ** HMAC *)
Definition xor_pad (p : N) (key : list ascii) : list ascii :=
  (fun a => of_byte (N.lxor (byte a) p)) <$> (key ++ replicate (64 - length key)%nat (of_byte 0)).

Definition hmac_sha256 (key message : list ascii) : list ascii :=
  let key := if (64 <? length key)%nat then sha256 key else key in
  sha256 (xor_pad 92 key ++ sha256 (xor_pad 54 key ++ message)).
End sha256.

Definition hex (l : list ascii) : string :=
  str (concat ((fun a => hex_digits 2 (byte a)) <$> l)).

Example sha256_empty : hex (sha256 []) = "e3b0c44298fc1c149afbf4c8996fb92427ae41e4649b934ca495991b7852b855".
Proof. vm_compute. reflexivity. Qed.
Example sha256_abc : hex (sha256 (bytes "abc")) = "ba7816bf8f01cfea414140de5dae2223b00361a396177a9cb410ff61f20015ad".
Proof. vm_compute. reflexivity. Qed.
Example sha256_two_blocks : hex (sha256 (bytes "abcdbcdecdefdefgefghfghighijhijkijkljklmklmnlmnomnopnopq"))
  = "248d6a61d20638b8e5c026930c3e6039a33ce45964ff2167f6ecedd419db06c1".
Proof. vm_compute. reflexivity. Qed.
Example hmac_rfc4231_2 : hex (hmac_sha256 (bytes "Jefe") (bytes "what do ya want for nothing?"))
  = "5bdcc146bf60754e6a042426089575c75a003f089d2739839dec58b964ec3843".
Proof. vm_compute. reflexivity. Qed.
