(* ===== verification/Auth.v ===== *)
(** * Auth: web/auth.go

    Sessions in signed cookies, bearer tokens checked against the identity
    provider, the caches of its user info endpoint and of its reachability,
    and the configuration handed to browsers.  The service's settings are a
    record, its caches another one threaded through the calls; the identity
    provider is the argument [Do].  The caches' critical sections are short
    and independent, so a call is modelled as one step. *)

From S2P Require Import Prelude GoStrings ApiTypes Links Json Wire Any Url Http Base64 Sha256.

(** ** Requests and replies *)

(** [http.Request]; [r_Header] gives the first value of a header. *)
Record request := {
  r_Method : string;
  r_Path : string;
  r_Host : string;
  r_TLS : bool;
  r_Header : gmap string string;
  r_Cookies : list (string * string)
}.

(** [r.Header.Get] *)
Definition header (r : request) (name : string) : string := default "" (r_Header r !! name).

(** [r.Cookie]: the first cookie of that name. *)
Definition cookie (r : request) (name : string) : result string :=
  match find_map (fun c => if bool_decide (c.1 = name) then Some c.2 else None) (r_Cookies r) with
  | Some v => Ok v
  | None => Err (new_error "http: named cookie not present")
  end.

(** [http.Cookie]; all cookies of the program are SameSite=Lax. *)
Record http_cookie := {
  ck_Name : string;
  ck_Value : string;
  ck_Path : string;
  ck_MaxAge : Z;
  ck_HttpOnly : bool
}.

(** ** Options and state *)
Record AuthOptions := {
  ao_Enabled : bool;
  ao_CookieSecret : string;
  ao_IssuerURL : string;
  ao_ClientID : string;
  ao_RedirectPath : string;
  ao_Scopes : string;
  ao_UserInfoEndpointURL : string
}.

Record authService := {
  a_enabled : bool;
  a_cookieName : string;
  a_secret : list ascii;
  a_issuerURL : string;
  a_clientID : string;
  a_redirectPath : string;
  a_scopes : string;
  a_userInfoEndpointOverride : string
}.

(** The fields under the mutex; [None] is the zero time. *)
Record authCache := {
  ac_UserInfoEP : string;
  ac_IssuerReachable : bool;
  ac_IssuerCheckedAt : option Z;
  ac_IssuerForURL : string;
  ac_DiscoveryForURL : string
}.

Definition sessionCookieName : string := "cupboard_userinfo".
Definition sessionTTL : Z := 24 * Hour.
Definition issuerCheckTTL : Z := 30 * Second.

(** [firstNonEmptyString]: the same as [firstNonEmpty] of web/dashboard.go. *)
Definition firstNonEmptyString (values : list string) : string :=
  default "" (find_map (fun value => if is_blank value then None else Some value) values).

Definition newAuthService (options : AuthOptions) : authService * authCache :=
  let secret := TrimSpace (ao_CookieSecret options) in
  let secret := if is_blank secret then "local-dev-cookie-secret-change-me" else secret in
  ({| a_enabled := ao_Enabled options; a_cookieName := sessionCookieName; a_secret := bytes secret;
      a_issuerURL := TrimSpace (ao_IssuerURL options); a_clientID := TrimSpace (ao_ClientID options);
      a_redirectPath := firstNonEmptyString [ao_RedirectPath options; "/auth/callback"];
      a_scopes := firstNonEmptyString [ao_Scopes options; "openid profile email"];
      a_userInfoEndpointOverride := TrimSpace (ao_UserInfoEndpointURL options) |},
   {| ac_UserInfoEP := ""; ac_IssuerReachable := false; ac_IssuerCheckedAt := None;
      ac_IssuerForURL := ""; ac_DiscoveryForURL := "" |}).

(** ** Sessions *)
Abbreviation userinfo := (option (gmap string any)).

Record sessionPayload := {
  sp_ExpiresAt : Z;
  sp_UserInfo : userinfo;
  sp_Groups : list string
}.

Record authSession := { s_UserInfo : userinfo; s_Groups : list string }.

Definition userGroupsFromUserInfo (userInfo : userinfo) : list string :=
  match userInfo with
  | None => []
  | Some userInfo => normalizedGroups (any_at userInfo "groups")
  end.

Definition newAuthSession (userInfo : userinfo) : authSession :=
  {| s_UserInfo := userInfo; s_Groups := userGroupsFromUserInfo userInfo |}.

(** ** Signed cookies *)
Definition dot : ascii := "."%char.

Definition signCookie (payload secret : list ascii) : string :=
  let payloadEncoded := EncodeToString payload in
  let signature := EncodeToString (hmac_sha256 secret (bytes payloadEncoded)) in
  payloadEncoded +:+ "." +:+ signature.

Definition verifySignedCookie (value : string) (secret : list ascii) : result (list ascii) :=
  match SplitN2 value "." with
  | [part0; part1] =>
    let expected := hmac_sha256 secret (bytes part0) in
    provided ← DecodeString part1;
    if negb (bool_decide (expected = provided)) then Err (new_error "invalid cookie signature") else
    DecodeString part0
  | _ => Err (new_error "invalid cookie format")
  end.

Section auth.
Context `{Unicode, Float64Text}.

(** *** JSON of payloads and sessions *)
Definition payload_fields (p : sessionPayload) : fields :=
  [("expiresAt", Some (JNum (bytes (itoa (sp_ExpiresAt p))))); ("userInfo", Some (encode_any_map (sp_UserInfo p)));
   ("groups", omit_strings (sp_Groups p))].
Definition payload_names : list string := ["expiresAt"; "userInfo"; "groups"].
Definition encode_payload (p : sessionPayload) : json := JObj (present (payload_fields p)).
Definition decode_payload : json → option sessionPayload :=
  dec_struct {| sp_ExpiresAt := 0; sp_UserInfo := None; sp_Groups := [] |}
    (fun kvs =>
      expiresAt ← get dec_int 0%Z payload_names "expiresAt" kvs;
      userInfo ← get dec_any_map None payload_names "userInfo" kvs;
      groups ← get (dec_list (dec_string "")) [] payload_names "groups" kvs;
      Some {| sp_ExpiresAt := expiresAt; sp_UserInfo := userInfo; sp_Groups := groups |}).

Definition encode_session (s : authSession) : json :=
  JObj (present [("userInfo", Some (encode_any_map (s_UserInfo s))); ("groups", omit_strings (s_Groups s))]).

(** [t.Unix()] for a time after 1970. *)
Definition unix (t : Z) : Z := (t / Second)%Z.

Definition setSessionCookie (a : authService) (now : Z) (session : authSession) : http_cookie :=
  let payload := {| sp_ExpiresAt := unix (now + sessionTTL); sp_UserInfo := s_UserInfo session;
                    sp_Groups := s_Groups session |} in
  {| ck_Name := a_cookieName a; ck_Value := signCookie (print (encode_payload payload)) (a_secret a);
     ck_Path := "/"; ck_MaxAge := sessionTTL / Second; ck_HttpOnly := true |}.

Definition clearSessionCookie (a : authService) : http_cookie :=
  {| ck_Name := a_cookieName a; ck_Value := ""; ck_Path := "/"; ck_MaxAge := -1; ck_HttpOnly := true |}.

Definition userInfoFromCookie (a : authService) (now : Z) (r : request) : result authSession :=
  value ← cookie r (a_cookieName a);
  payloadJSON ← verifySignedCookie value (a_secret a);
  match parse_all payloadJSON ≫= decode_payload with
  | None => Err (new_error "invalid session payload")
  | Some payload =>
    if (sp_ExpiresAt payload <? unix now)%Z then Err (new_error "session cookie expired") else
    let groups := match sp_Groups payload with [] => userGroupsFromUserInfo (sp_UserInfo payload) | g => g end in
    Ok {| s_UserInfo := sp_UserInfo payload; s_Groups := groups |}
  end.

(** ** Bearer tokens *)
Definition bearerTokenFromRequest (r : request) : string :=
  let authHeader := TrimSpace (header r "Authorization") in
  if bool_decide (authHeader = "") then "" else
  match SplitN2 authHeader " " with
  | [scheme; token] => if EqualFold scheme "Bearer" then TrimSpace token else ""
  | _ => ""
  end.

Definition with_endpoint (ep : string) (c : authCache) : authCache :=
  {| ac_UserInfoEP := ep; ac_IssuerReachable := ac_IssuerReachable c; ac_IssuerCheckedAt := ac_IssuerCheckedAt c;
     ac_IssuerForURL := ac_IssuerForURL c; ac_DiscoveryForURL := ac_DiscoveryForURL c |}.

Definition well_known : string := "/.well-known/openid-configuration".
Definition slash : ascii := "/"%char.

(** The endpoint named by the provider's discovery document. *)
Definition discover_endpoint (Do : HTTPDo) (issuerURL : string) : result string :=
  req ← NewRequest MethodGet (TrimRight issuerURL slash +:+ well_known) "";
  resp ← Do req;
  if (StatusBadRequest <=? rp_Status resp)%Z
  then Err (new_error ("oidc discovery failed with " +:+ itoa (rp_Status resp))) else
  body ← rp_Body resp;
  match parse body ≫= fun p =>
    dec_struct "" (fun kvs => get dec_string "" ["userinfo_endpoint"] "userinfo_endpoint" kvs) p.1 with
  | None => Err (new_error "invalid discovery document")
  | Some ep => if is_blank ep then Err (new_error "userinfo_endpoint missing from OIDC discovery") else Ok ep
  end.

Definition userInfoEndpoint (a : authService) (Do : HTTPDo) (c : authCache) : result string * authCache :=
  if bool_decide (ac_UserInfoEP c ≠ "") then (Ok (ac_UserInfoEP c), c) else
  if bool_decide (a_userInfoEndpointOverride a ≠ "")
  then (Ok (a_userInfoEndpointOverride a), with_endpoint (a_userInfoEndpointOverride a) c) else
  if bool_decide (a_issuerURL a = "")
  then (Err (new_error "OIDC_USERINFO_ENDPOINT or OIDC_ISSUER_URL must be configured"), c) else
  match discover_endpoint Do (a_issuerURL a) with
  | Err err => (Err err, c)
  | Ok ep => (Ok ep, with_endpoint ep c)
  end.

(** The user info the endpoint gives for a token. *)
Definition ask_userinfo (Do : HTTPDo) (endpoint token : string) : result userinfo :=
  req ← NewRequest MethodGet endpoint "";
  resp ← Do (add_header "Authorization" ("Bearer " +:+ token) req);
  if (StatusBadRequest <=? rp_Status resp)%Z then
    let body := match rp_Body resp with Ok b => str b | Err _ => "" end in
    Err (new_error ("userinfo request failed with " +:+ itoa (rp_Status resp) +:+ ": " +:+ TrimSpace body))
  else
  body ← rp_Body resp;
  match parse body ≫= fun p => dec_any_map None p.1 with
  | None => Err (new_error "invalid userinfo")
  | Some userInfo => Ok userInfo
  end.

Definition fetchUserInfo (a : authService) (Do : HTTPDo) (c : authCache) (token : string)
    : result userinfo * authCache :=
  match userInfoEndpoint a Do c with
  | (Err err, c) => (Err err, c)
  | (Ok endpoint, c) => (ask_userinfo Do endpoint token, c)
  end.

Definition anonymous : authSession := {| s_UserInfo := Some {["sub" := AString "anonymous"]}; s_Groups := [] |}.

(** The session, the cookies set and the caches. *)
Definition authenticateRequest (a : authService) (Do : HTTPDo) (now : Z) (r : request) (c : authCache)
    : result authSession * list http_cookie * authCache :=
  if negb (a_enabled a) then (Ok anonymous, [], c) else
  let token := bearerTokenFromRequest r in
  if bool_decide (token ≠ "") then
    match fetchUserInfo a Do c token with
    | (Err err, c) => (Err err, [], c)
    | (Ok userInfo, c) =>
      let session := newAuthSession userInfo in
      (Ok session, [setSessionCookie a now session], c)
    end
  else (userInfoFromCookie a now r, [], c).

(** ** The issuer *)
Definition oidcDiscoveryURL (issuerURL : string) : string :=
  if is_blank issuerURL then "" else TrimRight issuerURL slash +:+ well_known.

Definition isReachable (Do : HTTPDo) (rawURL : string) : bool :=
  if is_blank rawURL then false else
  match NewRequest MethodGet rawURL "" with
  | Err _ => false
  | Ok req =>
    match Do req with
    | Err _ => false
    | Ok resp => (StatusOK <=? rp_Status resp)%Z && (rp_Status resp <? StatusBadRequest)%Z
    end
  end.

Definition recently_checked (now : Z) (c : authCache) : bool :=
  match ac_IssuerCheckedAt c with
  | None => false
  | Some t => (time_sub now t <=? issuerCheckTTL)%Z
  end.

Definition issuerAndDiscoveryReachable (Do : HTTPDo) (now : Z) (issuerURL discoveryURL : string) (c : authCache)
    : bool * authCache :=
  if bool_decide (ac_IssuerForURL c = issuerURL) && bool_decide (ac_DiscoveryForURL c = discoveryURL)
     && recently_checked now c
  then (ac_IssuerReachable c, c)
  else
    let reachable := isReachable Do issuerURL && isReachable Do discoveryURL in
    (reachable, {| ac_UserInfoEP := ac_UserInfoEP c; ac_IssuerReachable := reachable;
                   ac_IssuerCheckedAt := Some now; ac_IssuerForURL := issuerURL;
                   ac_DiscoveryForURL := discoveryURL |}).

(** The part before the first comma, trimmed. *)
Definition first_of_list (value : string) : string :=
  match SplitN2 (TrimSpace value) "," with part :: _ => TrimSpace part | [] => TrimSpace value end.

Definition requestBaseURL (r : request) : string :=
  let scheme := first_of_list (header r "X-Forwarded-Proto") in
  let scheme := if bool_decide (scheme = "") then (if r_TLS r then "https" else "http") else scheme in
  let host := first_of_list (header r "X-Forwarded-Host") in
  let host := if bool_decide (host = "") then r_Host r else host in
  scheme +:+ "://" +:+ host.

Record authConfigResponse := {
  cf_Enabled : bool;
  cf_IssuerURL : string;
  cf_OpenIDConfigurationURL : string;
  cf_ClientID : string;
  cf_RedirectPath : string;
  cf_Scopes : string
}.

Definition authConfig (a : authService) (Do : HTTPDo) (now : Z) (requestIssuerURL : string) (c : authCache)
    : authConfigResponse * authCache :=
  if negb (a_enabled a) then
    ({| cf_Enabled := false; cf_IssuerURL := ""; cf_OpenIDConfigurationURL := ""; cf_ClientID := "";
        cf_RedirectPath := ""; cf_Scopes := "" |}, c)
  else
    let issuerURL := a_issuerURL a in
    let discoveryURL := oidcDiscoveryURL issuerURL in
    let '(reachable, c) :=
      if bool_decide (issuerURL ≠ "") && bool_decide (discoveryURL ≠ "")
      then issuerAndDiscoveryReachable Do now issuerURL discoveryURL c else (false, c) in
    ({| cf_Enabled := a_enabled a;
        cf_IssuerURL := if reachable then requestIssuerURL else issuerURL;
        cf_OpenIDConfigurationURL :=
          if reachable then TrimRight requestIssuerURL slash +:+ well_known else discoveryURL;
        cf_ClientID := a_clientID a; cf_RedirectPath := a_redirectPath a; cf_Scopes := a_scopes a |}, c).

(** ** The discovery proxy *)

(** [ModifyResponse]: the document with its issuer replaced; [None] is the
    panic of an assignment to a nil map, for the document [null]. *)
Definition rewrite_discovery (requestIssuerURL : string) (body : list ascii) : option (list ascii) :=
  match parse_all body ≫= dec_any_map None with
  | None => Some body
  | Some None => None
  | Some (Some payload) => Some (print (encode_any (AMap (<["issuer" := AString requestIssuerURL]> payload))))
  end.

(** What [serveOpenIDConfiguration] does: a reply of its own, or a request
    passed on to the given URL with the body rewritten for an issuer. *)
Inductive discovery_outcome :=
| DiscoveryNotFound
| DiscoveryError (message : string) (status : Z)
| DiscoveryProxy (target : URL) (issuer : string).

Definition serveOpenIDConfiguration (a : authService) (Do : HTTPDo) (now : Z) (r : request) (c : authCache)
    : discovery_outcome * authCache :=
  if negb (a_enabled a) then (DiscoveryNotFound, c) else
  if bool_decide (a_issuerURL a = "")
  then (DiscoveryError "OIDC_ISSUER_URL must be configured" StatusServiceUnavailable, c) else
  let discoveryURL := oidcDiscoveryURL (a_issuerURL a) in
  match issuerAndDiscoveryReachable Do now (a_issuerURL a) discoveryURL c with
  | (false, c) => (DiscoveryNotFound, c)
  | (true, c) =>
    match Parse discoveryURL with
    | Err err => (DiscoveryError (err_msg err) StatusInternalServerError, c)
    | Ok targetURL => (DiscoveryProxy targetURL (requestBaseURL r), c)
    end
  end.
End auth.
