(* ===== verification/AuthProps.v ===== *)
(** * AuthProps: who is authenticated

    A session put in a cookie is read back unchanged until it expires; a
    request is authenticated only by a bearer token the identity provider
    accepts or by a cookie that carries the server's own signature; what
    browsers are told about the provider is at most thirty seconds old. *)

From S2P Require Import Prelude GoStrings ApiTypes Links Json JsonSpec Wire Any Url Http Base64 Sha256 Auth.

(** ** Signed cookies *)

Lemma SplitN2_dot p s : "."%char ∉ bytes p → SplitN2 (p +:+ "." +:+ s) "." = [p; s].
Proof.
  intros Hp. unfold SplitN2. assert (Cut (p +:+ "." +:+ s) "." = (p, s, true)) as ->; [|done].
  by apply Cut_char.
Qed.

Lemma SplitN2_two value p s : SplitN2 value "." = [p; s] → value = (p +:+ "." +:+ s) ∧ "."%char ∉ bytes p.
Proof.
  unfold SplitN2. destruct (Cut value ".") as [[a b] [|]] eqn:E; [|done]. intros [= <- <-]. by apply Cut_char.
Qed.

(** The text carries a payload and the signature of its encoding. *)
Definition signed (secret : list ascii) (value : string) (payload : list ascii) : Prop :=
  ∃ text signature, value = (text +:+ "." +:+ signature) ∧ ("."%char ∉ bytes text) ∧
    DecodeString signature = Ok (hmac_sha256 secret (bytes text)) ∧ DecodeString text = Ok payload.

Lemma verifySignedCookie_ok value secret payload :
  verifySignedCookie value secret = Ok payload ↔ signed secret value payload.
Proof.
  unfold verifySignedCookie, signed. split.
  - destruct (SplitN2 value ".") as [|p [|s [|]]] eqn:E; try done. apply SplitN2_two in E as [-> Hp].
    destruct (DecodeString s) as [provided|] eqn:Hs; [|done]. cbn [mbind result_bind].
    case_bool_decide as Hm; [|done]. cbn [negb]. intros Hd. exists p, s. by rewrite Hs, Hm.
  - intros (p & s & -> & Hp & Hs & Hd). rewrite SplitN2_dot, Hs by done. cbn [mbind result_bind].
    by rewrite bool_decide_true.
Qed.

Lemma signCookie_signed payload secret : signed secret (signCookie payload secret) payload.
Proof.
  unfold signCookie. eexists _, _. split; [reflexivity|]. split; [apply EncodeToString_no_dot|].
  split; apply DecodeString_EncodeToString.
Qed.

Section auth.
Context `{Unicode, Float64Text}.

(** ** Sessions *)

(** User info the decoder can have built. *)
Definition decoded_userinfo (ui : userinfo) : Prop :=
  match ui with None => True | Some m => from_json (AMap m) end.

Lemma dec_encode_any_map `{!Float64Laws} ui : decoded_userinfo ui → dec_any_map None (encode_any_map ui) = Some ui.
Proof.
  destruct ui as [m|]; [|done]. intros Hm. cbn [encode_any_map]. pose proof (decode_encode_any _ Hm) as Hd.
  unfold dec_any_map. rewrite Hd. cbn [encode_any default from_option]. by rewrite (right_id_L ∅ (∪)).
Qed.

Lemma decode_encode_payload `{!Float64Laws} p : in_int64 (sp_ExpiresAt p) → decoded_userinfo (sp_UserInfo p) →
  decode_payload (encode_payload p) = Some p.
Proof.
  intros Hi Hu. unfold decode_payload, encode_payload, payload_fields, payload_names. struct_roundtrip.
  cbn [dec_int]. rewrite parse_int_itoa by done. cbn [mbind option_bind].
  rewrite dec_encode_any_map by done. cbn [mbind option_bind]. by destruct p.
Qed.

Lemma payload_numbers_ok `{!Float64Laws} p : decoded_userinfo (sp_UserInfo p) → numbers_ok (encode_payload p).
Proof.
  intros Hu. unfold encode_payload, payload_fields. apply numbers_ok_fields.
  repeat apply Forall_cons_2; cbn [snd]; [apply itoa_number| | |constructor].
  - destruct (sp_UserInfo p); [by apply encode_any_numbers|done].
  - unfold omit_strings. case_bool_decide; [done|]. by apply numbers_ok_array.
Qed.

(** What a session cookie set at [now] holds. *)
Definition payload_at (now : Z) (s : authSession) : sessionPayload :=
  {| sp_ExpiresAt := unix (now + sessionTTL); sp_UserInfo := s_UserInfo s; sp_Groups := s_Groups s |}.

Lemma unix_expiry t : unix (t + sessionTTL) = (unix t + 86400)%Z.
Proof. unfold unix, sessionTTL, Hour, Minute, Second. by rewrite <-Z.div_add. Qed.

(** C12: the session a user info makes is read back from its cookie, groups
    included, for twenty-four hours, and refused as expired from the next
    second on. *)
Theorem session_roundtrip `{!Float64Laws} a ui set_at read_at r :
  let s := newAuthSession ui in
  decoded_userinfo ui → utf8_json (encode_payload (payload_at set_at s)) = true →
  in_int64 (unix set_at + 86400) →
  cookie r (a_cookieName a) = Ok (ck_Value (setSessionCookie a set_at s)) →
  userInfoFromCookie a read_at r =
    if (unix read_at <=? unix set_at + 86400)%Z then Ok s else Err (new_error "session cookie expired").
Proof.
  intros s Hu Hutf Hi Hc. unfold userInfoFromCookie. rewrite Hc. cbn [mbind result_bind].
  change (ck_Value (setSessionCookie a set_at s)) with
    (signCookie (print (encode_payload (payload_at set_at s))) (a_secret a)).
  rewrite (proj2 (verifySignedCookie_ok _ _ _) (signCookie_signed _ _)). cbn [mbind result_bind].
  rewrite parse_all_print by by apply payload_numbers_ok. rewrite utf8_normalise by done.
  cbn [mbind option_bind].
  rewrite decode_encode_payload; [|cbn; by rewrite unix_expiry|done]. cbn [payload_at sp_ExpiresAt sp_UserInfo sp_Groups].
  rewrite unix_expiry. rewrite Z.ltb_antisym. destruct (Z.leb _ _); [|done]. cbn [negb]. f_equal.
  unfold s, newAuthSession. cbn [s_UserInfo s_Groups]. by destruct (userGroupsFromUserInfo ui).
Qed.

(** ** Who is let in *)

(** The discovery document of an issuer names the user info endpoint. *)
Definition discovery_names (Do : HTTPDo) (issuerURL endpoint : string) : Prop :=
  ∃ req resp body v rest,
    NewRequest MethodGet (TrimRight issuerURL slash +:+ well_known) "" = Ok req ∧ Do req = Ok resp ∧
    (rp_Status resp < 400)%Z ∧ rp_Body resp = Ok body ∧ parse body = Some (v, rest) ∧
    dec_struct "" (fun kvs => get dec_string "" ["userinfo_endpoint"] "userinfo_endpoint" kvs) v = Some endpoint ∧
    is_blank endpoint = false.

(** The user info endpoint of the identity provider: the configured one, else
    what the configured issuer's discovery document named in one of the
    networks the service has seen. *)
Inductive provider_endpoint (a : authService) (seen : list HTTPDo) : string → Prop :=
| endpoint_configured :
    a_userInfoEndpointOverride a ≠ "" → provider_endpoint a seen (a_userInfoEndpointOverride a)
| endpoint_discovered Do endpoint :
    a_userInfoEndpointOverride a = "" → a_issuerURL a ≠ "" → Do ∈ seen →
    discovery_names Do (a_issuerURL a) endpoint → provider_endpoint a seen endpoint.

(** Somebody vouches for a session: an endpoint in [endpoints], asked with the
    token of the request, or a signed cookie that has not expired. *)
Inductive vouched (endpoints : string → Prop) (a : authService) (Do : HTTPDo) (now : Z) (r : request)
    : authSession → Prop :=
| vouched_provider endpoint req resp body rest v ui :
    bearerTokenFromRequest r ≠ "" → endpoints endpoint →
    NewRequest MethodGet endpoint "" = Ok req →
    Do (add_header "Authorization" ("Bearer " +:+ bearerTokenFromRequest r) req) = Ok resp →
    (rp_Status resp < 400)%Z → rp_Body resp = Ok body →
    parse body = Some (v, rest) → dec_any_map None v = Some ui →
    vouched endpoints a Do now r (newAuthSession ui)
| vouched_cookie value payload v p :
    cookie r (a_cookieName a) = Ok value → signed (a_secret a) value payload →
    parse_all payload = Some v → decode_payload v = Some p → (unix now ≤ sp_ExpiresAt p)%Z →
    vouched endpoints a Do now r {| s_UserInfo := sp_UserInfo p;
      s_Groups := if bool_decide (sp_Groups p = []) then userGroupsFromUserInfo (sp_UserInfo p) else sp_Groups p |}.

(** What a service has cached is an endpoint of its provider. *)
Definition remembers (a : authService) (seen : list HTTPDo) (c : authCache) : Prop :=
  ac_UserInfoEP c = "" ∨ provider_endpoint a seen (ac_UserInfoEP c).

(** The endpoint a service with this cache asks. *)
Definition asked_endpoint (a : authService) (Do : HTTPDo) (c : authCache) (endpoint : string) : Prop :=
  (ac_UserInfoEP c ≠ "" ∧ endpoint = ac_UserInfoEP c) ∨ (ac_UserInfoEP c = "" ∧ provider_endpoint a [Do] endpoint).

Lemma discover_endpoint_ok Do issuerURL endpoint :
  discover_endpoint Do issuerURL = Ok endpoint → discovery_names Do issuerURL endpoint.
Proof.
  unfold discover_endpoint, discovery_names. destruct (NewRequest _ _ _) as [req|]; [|done]. cbn [mbind result_bind].
  destruct (Do req) as [resp|] eqn:Hd; [|done]. cbn [mbind result_bind].
  destruct (Z.leb_spec StatusBadRequest (rp_Status resp)) as [|Hlt]; [done|].
  destruct (rp_Body resp) as [body|] eqn:Hb; [|done]. cbn [mbind result_bind].
  destruct (parse body) as [[v rest]|] eqn:Hp; [|done]. cbn [mbind option_bind fst].
  destruct (dec_struct _ _ v) as [ep|] eqn:Hv; [|done]. destruct (is_blank ep) eqn:He; [done|].
  intros [= <-]. unfold StatusBadRequest in Hlt. exists req, resp, body, v, rest. by split_and!.
Qed.

Lemma provider_endpoint_mono a seen seen' endpoint :
  seen ⊆ seen' → provider_endpoint a seen endpoint → provider_endpoint a seen' endpoint.
Proof. intros Hs [|Do ep]; [by constructor|]. eapply endpoint_discovered; eauto. Qed.

Lemma remembers_mono a seen seen' c : seen ⊆ seen' → remembers a seen c → remembers a seen' c.
Proof. intros Hs [?|?]; [by left|right; by eapply provider_endpoint_mono]. Qed.

Lemma vouched_mono (E E' : string → Prop) a Do now r s :
  (∀ endpoint, E endpoint → E' endpoint) → vouched E a Do now r s → vouched E' a Do now r s.
Proof. intros HE [|]; [eapply vouched_provider|eapply vouched_cookie]; eauto. Qed.

(** The cache only ever holds an endpoint of the provider, and only such an
    endpoint is asked. *)
Lemma userInfoEndpoint_asked a Do c endpoint c' :
  userInfoEndpoint a Do c = (Ok endpoint, c') → asked_endpoint a Do c endpoint.
Proof.
  unfold userInfoEndpoint, asked_endpoint. case_bool_decide as Hc; [intros [= <- <-]; by left|].
  case_bool_decide as Ho.
  - intros [= <- <-]. right. split; [done|by constructor].
  - case_bool_decide as Hi; [done|]. destruct (discover_endpoint _ _) as [ep|] eqn:Hd; [|done].
    intros [= <- <-]. right. split; [done|]. eapply endpoint_discovered; [done|done|by left|by apply discover_endpoint_ok].
Qed.

Lemma asked_endpoint_provider a seen Do c endpoint :
  remembers a seen c → asked_endpoint a Do c endpoint → provider_endpoint a (Do :: seen) endpoint.
Proof.
  intros Hr [[Hc ->]|[_ Hp]].
  - destruct Hr as [?|Hr]; [done|]. by eapply provider_endpoint_mono; [|exact Hr]; set_solver.
  - by eapply provider_endpoint_mono; [|exact Hp]; set_solver.
Qed.

Lemma userInfoEndpoint_remembers a seen Do c :
  remembers a seen c → remembers a (Do :: seen) (userInfoEndpoint a Do c).2.
Proof.
  intros Hr. assert (remembers a (Do :: seen) c) as Hr' by (by eapply remembers_mono; [|exact Hr]; set_solver).
  destruct (userInfoEndpoint a Do c) as [[ep|] c'] eqn:E; cbn.
  - pose proof (asked_endpoint_provider _ _ _ _ _ Hr (userInfoEndpoint_asked _ _ _ _ _ E)) as Hp. revert E.
    unfold userInfoEndpoint. repeat case_bool_decide; try done; try (by intros [= <- <-]).
    + intros [= <- <-]. by right.
    + destruct (discover_endpoint _ _); [|done]. intros [= <- <-]. by right.
  - revert E. unfold userInfoEndpoint. repeat case_bool_decide; try done; try (by intros [= <- <-]).
    destruct (discover_endpoint _ _); [done|]. by intros [= <- <-].
Qed.

Lemma ask_userinfo_ok Do endpoint token ui : ask_userinfo Do endpoint token = Ok ui →
  ∃ req resp body rest v, NewRequest MethodGet endpoint "" = Ok req ∧
    Do (add_header "Authorization" ("Bearer " +:+ token) req) = Ok resp ∧
    (rp_Status resp < 400)%Z ∧ rp_Body resp = Ok body ∧ parse body = Some (v, rest) ∧ dec_any_map None v = Some ui.
Proof.
  unfold ask_userinfo. destruct (NewRequest _ _ _) as [req|]; [|done]. cbn [mbind result_bind].
  destruct (Do _) as [resp|] eqn:Hd; [|done]. cbn [mbind result_bind].
  destruct (Z.leb_spec StatusBadRequest (rp_Status resp)) as [|Hlt]; [done|].
  destruct (rp_Body resp) as [body|] eqn:Hb; [|done]. cbn [mbind result_bind].
  destruct (parse body) as [[v rest]|] eqn:Hp; [|done]. cbn [mbind option_bind fst].
  destruct (dec_any_map None v) as [ui'|] eqn:Hv; [|done]. intros [= ->]. unfold StatusBadRequest in Hlt.
  exists req, resp, body, rest, v. split_and!; done || lia.
Qed.

Lemma userInfoFromCookie_ok a now r s :
  userInfoFromCookie a now r = Ok s →
  ∃ value payload v p, cookie r (a_cookieName a) = Ok value ∧ signed (a_secret a) value payload ∧
    parse_all payload = Some v ∧ decode_payload v = Some p ∧ (unix now ≤ sp_ExpiresAt p)%Z ∧
    s = {| s_UserInfo := sp_UserInfo p; s_Groups :=
      if bool_decide (sp_Groups p = []) then userGroupsFromUserInfo (sp_UserInfo p) else sp_Groups p |}.
Proof.
  unfold userInfoFromCookie. destruct (cookie r _) as [value|]; [|done]. cbn [mbind result_bind].
  destruct (verifySignedCookie value _) as [payload|] eqn:Hv; [|done]. apply verifySignedCookie_ok in Hv.
  cbn [mbind result_bind]. destruct (parse_all payload) as [v|] eqn:Hp; [|done]. cbn [mbind option_bind].
  destruct (decode_payload v) as [p|] eqn:Hd; [|done]. destruct (Z.ltb_spec (sp_ExpiresAt p) (unix now)); [done|].
  intros [= <-]. exists value, payload, v, p. split_and!; try done. by destruct (sp_Groups p).
Qed.

Lemma cookie_vouched E a Do now r s : userInfoFromCookie a now r = Ok s → vouched E a Do now r s.
Proof.
  intros (value & payload & v & p & ? & ? & ? & ? & ? & ->)%userInfoFromCookie_ok. by eapply vouched_cookie.
Qed.

Lemma fetched_vouched a Do now r c ui c' : bearerTokenFromRequest r ≠ "" →
  fetchUserInfo a Do c (bearerTokenFromRequest r) = (Ok ui, c') →
  vouched (asked_endpoint a Do c) a Do now r (newAuthSession ui).
Proof.
  intros Ht. unfold fetchUserInfo. destruct (userInfoEndpoint a Do c) as [[endpoint|] c1] eqn:He; [|done].
  intros [= (req & resp & body & rest & v & ? & ? & ? & ? & ? & ?)%ask_userinfo_ok _].
  eapply vouched_provider; [done|by eapply userInfoEndpoint_asked|done..].
Qed.

Lemma authenticateRequest_ok a Do now r c s cookies c' :
  a_enabled a = true → authenticateRequest a Do now r c = (Ok s, cookies, c') →
  vouched (asked_endpoint a Do c) a Do now r s ∧ Forall (fun ck => ck = setSessionCookie a now s) cookies.
Proof.
  intros He. unfold authenticateRequest. rewrite He. cbn [negb]. case_bool_decide as Ht.
  - destruct (fetchUserInfo a Do c _) as [[ui|] c1] eqn:Hf; [|done]. intros [= <- <- <-].
    split; [by eapply fetched_vouched|by repeat constructor].
  - intros [= Hs <- <-]. split; [by apply cookie_vouched|constructor].
Qed.

(** *** The caches of a service over its life *)

Lemma fetchUserInfo_remembers a seen Do c token : remembers a seen c → remembers a (Do :: seen) (fetchUserInfo a Do c token).2.
Proof.
  intros Hr%(userInfoEndpoint_remembers _ _ Do). unfold fetchUserInfo. by destruct (userInfoEndpoint a Do c) as [[]].
Qed.

Lemma authenticateRequest_remembers a seen Do now r c :
  remembers a seen c → remembers a (Do :: seen) (authenticateRequest a Do now r c).2.
Proof.
  intros Hr. assert (remembers a (Do :: seen) c) as Hr' by (by eapply remembers_mono; [|exact Hr]; set_solver).
  unfold authenticateRequest. destruct (negb _); [done|]. case_bool_decide; [|done].
  apply (fetchUserInfo_remembers _ _ Do _ (bearerTokenFromRequest r)) in Hr. by destruct (fetchUserInfo _ _ _ _) as [[]].
Qed.

Lemma reachable_keeps_endpoint Do now issuerURL discoveryURL c :
  ac_UserInfoEP (issuerAndDiscoveryReachable Do now issuerURL discoveryURL c).2 = ac_UserInfoEP c.
Proof. unfold issuerAndDiscoveryReachable. by case_match. Qed.

Lemma authConfig_keeps_endpoint a Do now requestIssuerURL c :
  ac_UserInfoEP (authConfig a Do now requestIssuerURL c).2 = ac_UserInfoEP c.
Proof.
  unfold authConfig. destruct (negb _); [done|]. cbv zeta.
  pose proof (reachable_keeps_endpoint Do now (a_issuerURL a) (oidcDiscoveryURL (a_issuerURL a)) c) as E.
  destruct (_ && _); [|done]. by destruct (issuerAndDiscoveryReachable _ _ _ _ _).
Qed.

Lemma discovery_keeps_endpoint a Do now r c : ac_UserInfoEP (serveOpenIDConfiguration a Do now r c).2 = ac_UserInfoEP c.
Proof.
  unfold serveOpenIDConfiguration. destruct (negb _); [done|]. case_bool_decide; [done|]. cbv zeta.
  pose proof (reachable_keeps_endpoint Do now (a_issuerURL a) (oidcDiscoveryURL (a_issuerURL a)) c) as E.
  destruct (issuerAndDiscoveryReachable _ _ _ _ _) as [[] c']; [|done]. by destruct (Parse _).
Qed.

(** The service after any calls; the list holds the networks they saw. *)
Inductive used (a : authService) : list HTTPDo → authCache → Prop :=
| used_new options : a = (newAuthService options).1 → used a [] (newAuthService options).2
| used_authenticate seen c Do now r : used a seen c → used a (Do :: seen) (authenticateRequest a Do now r c).2
| used_fetch seen c Do token : used a seen c → used a (Do :: seen) (fetchUserInfo a Do c token).2
| used_config seen c Do now requestIssuerURL :
    used a seen c → used a (Do :: seen) (authConfig a Do now requestIssuerURL c).2
| used_discovery seen c Do now r : used a seen c → used a (Do :: seen) (serveOpenIDConfiguration a Do now r c).2.

Lemma used_remembers a seen c : used a seen c → remembers a seen c.
Proof.
  induction 1 as [options _|seen c Do now r _ IH|seen c Do token _ IH|seen c Do now issuer _ IH|seen c Do now r _ IH].
  - by left.
  - by apply authenticateRequest_remembers.
  - by apply fetchUserInfo_remembers.
  - unfold remembers. rewrite authConfig_keeps_endpoint. by eapply remembers_mono; [|exact IH]; set_solver.
  - unfold remembers. rewrite discovery_keeps_endpoint. by eapply remembers_mono; [|exact IH]; set_solver.
Qed.

(** C11: with authentication enabled, and whatever the service was asked
    before, a request gets a session only when the user info endpoint of the
    configured identity provider accepts its bearer token, or when it carries a
    cookie with the server's signature that has not expired; the session is
    the one they vouch for, and a cookie set with it holds that session.  The
    provider's endpoint is the configured one, else the one the configured
    issuer's discovery document named. *)
Theorem authenticated_vouched a seen Do now r c s cookies c' :
  a_enabled a = true → used a seen c → authenticateRequest a Do now r c = (Ok s, cookies, c') →
  vouched (provider_endpoint a (Do :: seen)) a Do now r s ∧ Forall (fun ck => ck = setSessionCookie a now s) cookies.
Proof.
  intros He Hu%used_remembers [Hv Hc]%authenticateRequest_ok; [|done]. split; [|done].
  eapply vouched_mono; [|exact Hv]. intros ep. by apply asked_endpoint_provider.
Qed.

(** ** The reachability cache *)

(** [reached probes c]: the cache after any calls of a service; the list holds
    the network and the time of every reachability check asked for. *)
Inductive reached : list (HTTPDo * Z) → authCache → Prop :=
| reached_new options : reached [] (newAuthService options).2
| reached_check probes c Do now issuerURL discoveryURL :
    reached probes c →
    reached ((Do, now) :: probes) (issuerAndDiscoveryReachable Do now issuerURL discoveryURL c).2
| reached_endpoint probes c a Do : reached probes c → reached probes (userInfoEndpoint a Do c).2.

(** A cached answer was observed, at the time it is stamped with. *)
Definition observed (probes : list (HTTPDo * Z)) (c : authCache) : Prop :=
  ∀ t, ac_IssuerCheckedAt c = Some t → ∃ Do, (Do, t) ∈ probes ∧
    ac_IssuerReachable c = isReachable Do (ac_IssuerForURL c) && isReachable Do (ac_DiscoveryForURL c).

Lemma reached_observed probes c : reached probes c → observed probes c.
Proof.
  induction 1 as [options|probes c Do now i d _ IH|probes c a Do _ IH]; unfold observed in *.
  - done.
  - unfold issuerAndDiscoveryReachable. case_match; cbn [snd].
    + intros t (Do' & Hin & E)%IH. exists Do'. split; [by right|done].
    + cbn. intros t [= <-]. exists Do. split; [left|done].
  - unfold userInfoEndpoint. repeat case_match; cbn; apply IH.
Qed.

(** What the service says about the issuer was observed by one of its
    checks at most thirty seconds ago. *)
Theorem issuer_answer_fresh probes c Do now issuerURL discoveryURL :
  reached probes c →
  (∀ p, p ∈ probes → in_int64 (now - p.2)) →
  ∃ Do' t, (Do', t) ∈ (Do, now) :: probes ∧ (now - t ≤ 30 * Second)%Z ∧
    (issuerAndDiscoveryReachable Do now issuerURL discoveryURL c).1 =
    isReachable Do' issuerURL && isReachable Do' discoveryURL.
Proof.
  intros Hr Hrange. apply reached_observed in Hr. unfold issuerAndDiscoveryReachable.
  destruct (_ && _ && recently_checked now c) eqn:E; cbn [fst].
  - bool_to_prop. unfold recently_checked in *. destruct (ac_IssuerCheckedAt c) as [t|] eqn:Ht; [|done].
    destruct (Hr t Ht) as (Do' & Hin & Hreach).
    match goal with Hc : (time_sub _ _ <=? _)%Z = true |- _ => apply Z.leb_le in Hc;
      rewrite time_sub_exact in Hc by apply (Hrange _ Hin) end.
    exists Do', t. split; [by right|]. split; [unfold issuerCheckTTL in *; lia|]. congruence.
  - exists Do, now. split; [left|]. split; [unfold Second; lia|done].
Qed.
End auth.

(** ** Witnesses *)

Definition sample_options : AuthOptions :=
  {| ao_Enabled := true; ao_CookieSecret := " s3cret "; ao_IssuerURL := "https://id.example/"; ao_ClientID := "cupboard";
     ao_RedirectPath := ""; ao_Scopes := ""; ao_UserInfoEndpointURL := "https://id.example/userinfo" |}.
Definition sample_service : authService := (newAuthService sample_options).1.
Definition sample_cache : authCache := (newAuthService sample_options).2.

Definition alice : userinfo :=
  Some (<["sub" := AString "alice"]> (<["groups" := ASlice [AString "devs"; AString " admins"]]> ∅)).

Lemma alice_decoded : @decoded_userinfo float_bits alice.
Proof.
  constructor. intros k x. rewrite !lookup_insert_Some, lookup_empty.
  intros [[_ <-]|[_ [[_ <-]|[_ ?]]]]; [constructor| |done]. repeat constructor.
Qed.

(** 2026-01-01 in nanoseconds. *)
Definition new_year : Z := 1767225600 * Second.

Definition with_cookie (value : string) : request :=
  {| r_Method := "GET"; r_Path := "/"; r_Host := "cupboard.example"; r_TLS := true; r_Header := ∅;
     r_Cookies := [("theme", "dark"); (sessionCookieName, value)] |}.
Definition alice_cookie : string :=
  ck_Value (@setSessionCookie float_bits sample_service new_year (newAuthSession alice)).

Lemma session_roundtrip_witness :
  @userInfoFromCookie unicode_ascii float_bits sample_service (new_year + 3600 * Second) (with_cookie alice_cookie)
    = Ok (newAuthSession alice) ∧ s_Groups (newAuthSession alice) = ["devs"; "admins"].
Proof.
  split; [|vm_compute; reflexivity].
  rewrite (@session_roundtrip unicode_ascii float_bits float_bits_laws sample_service alice new_year).
  - vm_compute. reflexivity.
  - exact alice_decoded.
  - vm_compute. reflexivity.
  - vm_compute. split; discriminate.
  - vm_compute. reflexivity.
Defined.

(** A provider that knows one token. *)
Definition provider : HTTPDo := fun req =>
  if bool_decide (rq_URL req = "https://id.example/userinfo" ∧ rq_Header req = [("Authorization", "Bearer t0ken")])
  then Ok {| rp_Status := 200; rp_ContentType := "application/json";
             rp_Body := Ok (print (JObj [("sub", JStr "bob"); ("groups", JArr [JStr "devs"])])) |}
  else Ok {| rp_Status := 401; rp_ContentType := "text/plain"; rp_Body := Ok (bytes "no") |}.

Definition with_token (token : string) : request :=
  {| r_Method := "GET"; r_Path := "/"; r_Host := "cupboard.example"; r_TLS := true;
     r_Header := {["Authorization" := "bearer " +:+ token]}; r_Cookies := [] |}.

(** A service that knows its provider by the issuer only, and a provider that
    serves a discovery document and user infos. *)
Definition discovering_service : authService :=
  (newAuthService {| ao_Enabled := true; ao_CookieSecret := "s3cret"; ao_IssuerURL := "https://id.example/";
    ao_ClientID := "cupboard"; ao_RedirectPath := ""; ao_Scopes := ""; ao_UserInfoEndpointURL := "" |}).1.

Definition full_provider : HTTPDo := fun req =>
  if bool_decide (rq_URL req = "https://id.example/.well-known/openid-configuration")
  then Ok {| rp_Status := 200; rp_ContentType := "application/json";
             rp_Body := Ok (print (JObj [("userinfo_endpoint", JStr "https://id.example/userinfo")])) |}
  else provider req.

Lemma discovering_used : @used unicode_ascii float_bits discovering_service [] sample_cache.
Proof. by apply (@used_new unicode_ascii float_bits discovering_service {| ao_Enabled := true; ao_CookieSecret := "s3cret"; ao_IssuerURL := "https://id.example/";
    ao_ClientID := "cupboard"; ao_RedirectPath := ""; ao_Scopes := ""; ao_UserInfoEndpointURL := "" |}). Qed.

Lemma authenticated_vouched_witness :
  ∃ s cookies c', @authenticateRequest unicode_ascii float_bits discovering_service full_provider new_year
      (with_token "t0ken") sample_cache = (Ok s, cookies, c') ∧
    s_Groups s = ["devs"] ∧
    @vouched unicode_ascii float_bits (@provider_endpoint unicode_ascii discovering_service [full_provider])
      discovering_service full_provider new_year (with_token "t0ken") s.
Proof.
  destruct (@authenticateRequest unicode_ascii float_bits discovering_service full_provider new_year
    (with_token "t0ken") sample_cache) as [[[s|e] cookies] c'] eqn:E; [|vm_compute in E; discriminate E].
  destruct (@authenticated_vouched unicode_ascii float_bits discovering_service [] full_provider new_year
    (with_token "t0ken") sample_cache s cookies c') as [Hv _]; [reflexivity|exact discovering_used|exact E|].
  exists s, cookies, c'. split; [reflexivity|]. split; [|exact Hv].
  apply (f_equal (fun x => match x.1.1 with Ok s => s_Groups s | Err _ => [] end)) in E. cbn [fst] in E.
  rewrite <-E. vm_compute. reflexivity.
Defined.

(** The provider is up once, then down. *)
Definition up : HTTPDo := fun _ => Ok {| rp_Status := 200; rp_ContentType := ""; rp_Body := Ok [] |}.
Definition down : HTTPDo := fun _ => Err (new_error "connection refused").

Lemma issuer_answer_fresh_witness :
  let c := (@issuerAndDiscoveryReachable unicode_ascii up new_year "https://id/" "https://id/d" sample_cache).2 in
  (@issuerAndDiscoveryReachable unicode_ascii down (new_year + 20 * Second) "https://id/" "https://id/d" c).1 = true ∧
  ∃ Do' t, (Do', t) ∈ [(down, (new_year + 20 * Second)%Z); (up, new_year)] ∧
    (new_year + 20 * Second - t ≤ 30 * Second)%Z ∧
    (@issuerAndDiscoveryReachable unicode_ascii down (new_year + 20 * Second) "https://id/" "https://id/d" c).1 =
    @isReachable unicode_ascii Do' "https://id/" && @isReachable unicode_ascii Do' "https://id/d".
Proof.
  split; [vm_compute; reflexivity|].
  apply (@issuer_answer_fresh unicode_ascii [(up, new_year)]).
  - apply (reached_check [] sample_cache up new_year). apply (reached_new sample_options).
  - intros p ->%list_elem_of_singleton. vm_compute. split; discriminate.
Defined.
