(* ===== verification/AuthCache.v ===== *)
(** * AuthCache: concurrent reachability checks

    [issuerAndDiscoveryReachable] holds the mutex twice: to look at the cache
    and, after the network answered, to fill it.  Requests interleave between
    the two.  A call is the time it began and what it asks for; its network is
    its own, since the request's context may end. *)

From S2P Require Import Prelude GoStrings ApiTypes Links Sample Url Http Auth AuthProps.

(** ** The two critical sections *)

(** A call, named by a number: the time it read and the URLs. *)
Record check := {
  ch_Now : Z;
  ch_IssuerURL : string;
  ch_DiscoveryURL : string
}.
#[export] Instance check_eq_dec : EqDecision check.
Proof. solve_decision. Defined.

Definition cached_answer (k : check) (c : authCache) : option bool :=
  if bool_decide (ac_IssuerForURL c = ch_IssuerURL k) && bool_decide (ac_DiscoveryForURL c = ch_DiscoveryURL k)
     && recently_checked (ch_Now k) c
  then Some (ac_IssuerReachable c) else None.

Definition store_answer (k : check) (reachable : bool) (c : authCache) : authCache :=
  {| ac_UserInfoEP := ac_UserInfoEP c; ac_IssuerReachable := reachable;
     ac_IssuerCheckedAt := Some (ch_Now k); ac_IssuerForURL := ch_IssuerURL k;
     ac_DiscoveryForURL := ch_DiscoveryURL k |}.

Section checks.
Context `{Unicode}.

Definition probe (Do : HTTPDo) (k : check) : bool :=
  isReachable Do (ch_IssuerURL k) && isReachable Do (ch_DiscoveryURL k).

(** One call alone is its two sections and the probe between them. *)
Lemma check_sequential Do now issuerURL discoveryURL c :
  issuerAndDiscoveryReachable Do now issuerURL discoveryURL c =
  let k := {| ch_Now := now; ch_IssuerURL := issuerURL; ch_DiscoveryURL := discoveryURL |} in
  match cached_answer k c with
  | Some reachable => (reachable, c)
  | None => (probe Do k, store_answer k (probe Do k) c)
  end.
Proof. unfold issuerAndDiscoveryReachable, cached_answer. cbn. by destruct (_ && _). Qed.

(** ** The interleavings *)
Record calls := {
  cache : authCache;
  begun : gmap nat check;      (* every call so far *)
  waiting : gset nat           (* calls between their sections *)
}.

Inductive call_event :=
| CBegin (id : nat) (k : check)      (* the first section *)
| CFinish (id : nat) (Do : HTTPDo)   (* the probe and the second section *)
| CEndpoint (ep : string).           (* another method fills its cache *)

(** The state after an event and the answer it gives, if it gives one. *)
Definition call_step (s : calls) (e : call_event) : option (calls * option bool) :=
  match e with
  | CBegin id k =>
    match begun s !! id with
    | Some _ => None
    | None =>
      match cached_answer k (cache s) with
      | Some reachable =>
        Some ({| cache := cache s; begun := <[id := k]> (begun s); waiting := waiting s |}, Some reachable)
      | None =>
        Some ({| cache := cache s; begun := <[id := k]> (begun s); waiting := {[id]} ∪ waiting s |}, None)
      end
    end
  | CFinish id Do =>
    match begun s !! id with
    | Some k =>
      if bool_decide (id ∈ waiting s) then
        Some ({| cache := store_answer k (probe Do k) (cache s); begun := begun s; waiting := waiting s ∖ {[id]} |},
              Some (probe Do k))
      else None
    | None => None
    end
  | CEndpoint ep =>
    Some ({| cache := with_endpoint ep (cache s); begun := begun s; waiting := waiting s |}, None)
  end.

Inductive calls_reach : list call_event → calls → Prop :=
| calls_start options : calls_reach [] {| cache := (newAuthService options).2; begun := ∅; waiting := ∅ |}
| calls_event trace s e s' answer :
    calls_reach trace s → call_step s e = Some (s', answer) → calls_reach (trace ++ [e]) s'.

(** The cached answer is that of a call that has finished. *)
Definition stored (trace : list call_event) (s : calls) : Prop :=
  ∀ t, ac_IssuerCheckedAt (cache s) = Some t → ∃ id k Do,
    begun s !! id = Some k ∧ CFinish id Do ∈ trace ∧ ch_Now k = t ∧
    ac_IssuerForURL (cache s) = ch_IssuerURL k ∧ ac_DiscoveryForURL (cache s) = ch_DiscoveryURL k ∧
    ac_IssuerReachable (cache s) = probe Do k.

Definition all_begun (trace : list call_event) (s : calls) : Prop :=
  ∀ id k, begun s !! id = Some k → CBegin id k ∈ trace.

Lemma calls_stored trace s : calls_reach trace s → stored trace s ∧ all_begun trace s.
Proof.
  unfold stored, all_begun. induction 1 as [options|trace s e s' answer _ [IH IHb] Hs].
  { split; [done|]. intros id k. cbn. by rewrite lookup_empty. }
  assert (∀ e', e' ∈ trace → e' ∈ trace ++ [e]) as Hin by (intros; apply elem_of_app; by left).
  assert (e ∈ trace ++ [e]) as Hlast by (apply elem_of_app; right; left).
  assert (∀ id k, begun s !! id = Some k → CBegin id k ∈ trace ++ [e]) as IHb' by eauto.
  destruct e as [id k|id Do|ep]; cbn in Hs.
  - destruct (begun s !! id) as [k0|] eqn:Hn; [done|].
    assert (cache s' = cache s ∧ begun s' = <[id := k]> (begun s)) as [-> ->] by (destruct (cached_answer k (cache s)); by simplify_eq).
    split.
    + intros t (id' & k' & Do & Hb & ? & ?)%IH. exists id', k', Do. rewrite lookup_insert_ne by (by intros ->; rewrite Hn in Hb). auto.
    + intros id' k'. rewrite lookup_insert_Some. intros [[<- <-]|[_ ?]]; auto.
  - destruct (begun s !! id) as [k|] eqn:Hb; [|done]. case_bool_decide; [|done]. injection Hs as <- <-. split; [|done].
    cbn. intros t [= <-]. by exists id, k, Do.
  - injection Hs as <- <-. split; [|done]. cbn. intros t (id & k & Do & ? & ? & ?)%IH. exists id, k, Do. auto.
Qed.

(** C36: whatever calls run at the same time, an answer about the issuer was
    observed by a call, this one or another that had finished, for the same
    URLs, and that call began at most thirty seconds before this one. *)
Theorem answers_fresh trace s e s' reachable :
  calls_reach trace s → call_step s e = Some (s', Some reachable) →
  (∀ id1 k1 id2 k2, CBegin id1 k1 ∈ trace ++ [e] → CBegin id2 k2 ∈ trace ++ [e] → in_int64 (ch_Now k1 - ch_Now k2)) →
  ∃ id k id' k' Do, CBegin id k ∈ trace ++ [e] ∧ CBegin id' k' ∈ trace ++ [e] ∧ CFinish id' Do ∈ trace ++ [e] ∧
    (e = CBegin id k ∨ e = CFinish id Do) ∧
    ch_IssuerURL k' = ch_IssuerURL k ∧ ch_DiscoveryURL k' = ch_DiscoveryURL k ∧
    (ch_Now k - ch_Now k' ≤ 30 * Second)%Z ∧ reachable = probe Do k'.
Proof.
  intros Hr Hs Ht. pose proof (calls_stored _ _ Hr) as [Hst Hb].
  assert (∀ e', e' ∈ trace → e' ∈ trace ++ [e]) as Hin by (intros; apply elem_of_app; by left).
  assert (e ∈ trace ++ [e]) as Hlast by (apply elem_of_app; right; left).
  destruct e as [id k|id Do|ep]; cbn in Hs; [| |done].
  - destruct (begun s !! id) as [k0|] eqn:Hn; [done|]. destruct (cached_answer k (cache s)) as [b|] eqn:Hc; simplify_eq.
    unfold cached_answer in Hc. destruct (_ && _ && _) eqn:E; [|done]. injection Hc as <-. bool_to_prop.
    unfold recently_checked in *. destruct (ac_IssuerCheckedAt (cache s)) as [t|] eqn:Hat; [|done].
    destruct (Hst t Hat) as (id' & k' & Do & Hbk & Hf & <- & Hi & Hd & ->).
    match goal with Hle : (time_sub _ _ <=? _)%Z = true |- _ => apply Z.leb_le in Hle;
      rewrite time_sub_exact in Hle by (by eapply (Ht id k id' k'); auto) end.
    exists id, k, id', k', Do. split_and!; auto; try congruence.
  - destruct (begun s !! id) as [k|] eqn:Hbk; [|done]. case_bool_decide; [|done]. injection Hs as <- <-.
    exists id, k, id, k, Do. split_and!; auto. unfold Second. lia.
Qed.

(** A call whose request is cancelled during the probe stores that the issuer
    is unreachable, and others are told so for thirty seconds. *)
Definition cancelled : HTTPDo := fun _ => Err (new_error "context canceled").

Theorem cancelled_check_is_believed (options : AuthOptions) t issuerURL discoveryURL :
  in_int64 (t + 29 * Second - t) →
  let k := {| ch_Now := t; ch_IssuerURL := issuerURL; ch_DiscoveryURL := discoveryURL |} in
  let later := {| ch_Now := t + 29 * Second; ch_IssuerURL := issuerURL; ch_DiscoveryURL := discoveryURL |} in
  ∃ s s', calls_reach [CBegin 1 k; CFinish 1 cancelled] s ∧ call_step s (CBegin 2 later) = Some (s', Some false).
Proof.
  intros Hi k later.
  set (s0 := {| cache := (newAuthService options).2; begun := ∅; waiting := ∅ |}).
  assert (cached_answer k (cache s0) = None) as H0.
  { unfold cached_answer. cbn. by rewrite andb_false_r. }
  set (s1 := {| cache := cache s0; begun := <[1 := k]> ∅; waiting := {[1]} ∪ ∅ |}).
  assert (probe cancelled k = false) as Hp.
  { unfold probe, isReachable. destruct (is_blank _); [done|]. destruct (NewRequest _ _ _); done. }
  set (s2 := {| cache := store_answer k (probe cancelled k) (cache s1); begun := begun s1; waiting := waiting s1 ∖ {[1]} |}).
  assert (calls_reach [CBegin 1 k] s1) as H1.
  { apply (calls_event [] s0 _ s1 None); [apply calls_start|]. cbn [call_step s0 begun]. rewrite lookup_empty.
    change (cached_answer k (newAuthService options).2) with (cached_answer k (cache s0)). by rewrite H0. }
  assert (calls_reach [CBegin 1 k; CFinish 1 cancelled] s2) as H2.
  { apply (calls_event [CBegin 1 k] s1 _ s2 (Some (probe cancelled k))); [done|]. cbn [call_step s1 begun waiting].
    rewrite lookup_insert_eq. rewrite bool_decide_true by set_solver. done. }
  eexists s2, _. split; [exact H2|]. cbn [call_step s2 begun s1]. rewrite lookup_insert_ne, lookup_empty by done.
  unfold cached_answer. cbn [cache s2 store_answer ac_IssuerForURL ac_DiscoveryForURL ac_IssuerReachable
    ch_IssuerURL ch_DiscoveryURL k later]. rewrite !bool_decide_true by done. cbn [andb].
  unfold recently_checked. cbn [ac_IssuerCheckedAt store_answer ch_Now k]. cbn [ch_Now later k]. rewrite time_sub_exact by done.
  rewrite (proj2 (Z.leb_le _ _)) by (unfold issuerCheckTTL, Second; lia). by rewrite Hp.
Qed.
End checks.

(** ** Witness *)
Definition check_at (t : Z) : check :=
  {| ch_Now := t; ch_IssuerURL := "https://id.example/"; ch_DiscoveryURL := "https://id.example/.well-known/openid-configuration" |}.
Definition fresh_calls : calls := {| cache := sample_cache; begun := ∅; waiting := ∅ |}.

(** Two calls overlap, and a third finds the answer of one of them. *)
Definition overlapping : list call_event :=
  [CBegin 1 (check_at 0); CBegin 2 (check_at 1); CFinish 2 provider; CFinish 1 cancelled].

Fixpoint calls_run (s : calls) (trace : list call_event) : option calls :=
  match trace with
  | [] => Some s
  | e :: trace => match call_step s e with Some (s, _) => calls_run s trace | None => None end
  end.

Lemma calls_run_reach trace0 trace s s' : calls_reach trace0 s → calls_run s trace = Some s' → calls_reach (trace0 ++ trace) s'.
Proof.
  revert trace0 s. induction trace as [|e trace IH]; intros trace0 s Hr; cbn.
  - intros [= ->]. by rewrite app_nil_r.
  - destruct (call_step s e) as [[s1 answer]|] eqn:E; [|done]. intros Hrun.
    rewrite cons_middle, app_assoc. eapply IH; [by eapply calls_event|done].
Qed.

Lemma answers_fresh_witness : ∃ s s' reachable,
  calls_reach overlapping s ∧ call_step s (CBegin 3 (check_at 29)) = Some (s', Some reachable) ∧
  ∃ k' Do, (29 - ch_Now k' ≤ 30 * Second)%Z ∧ reachable = probe Do k'.
Proof.
  destruct (calls_run fresh_calls overlapping) as [s|] eqn:E; [|vm_compute in E; discriminate].
  assert (calls_reach overlapping s) as Hr by exact (calls_run_reach [] overlapping fresh_calls s (calls_start sample_options) E).
  destruct (call_step s (CBegin 3 (check_at 29))) as [[s' [reachable|]]|] eqn:Hs;
    [|vm_compute in E; injection E as <-; vm_compute in Hs; discriminate..].
  exists s, s', reachable. split; [done|]. split; [done|].
  destruct (answers_fresh overlapping s (CBegin 3 (check_at 29)) s' reachable Hr Hs)
    as (id & k & id' & k' & Do & Hk & Hk' & _ & [He|He] & _ & _ & Ht & Hp); [|exists k', Do|discriminate He].
  - intros id1 k1 id2 k2 H1 H2. cbn in H1, H2. rewrite !elem_of_cons, elem_of_nil in H1, H2.
    unfold in_int64, int64_min, int64_max. naive_solver lia.
  - injection He as <- <-. split; [exact Ht|exact Hp].
Defined.
