(* ===== verification/Templates.v ===== *)
(** * Templates: web/templates.go

    Where the files of a page template set are looked up, and the functions
    the templates call.  html/template is the class [PageTemplates]; a file
    system is a function from names to contents. *)

From S2P Require Import Prelude GoStrings Url Path.

(** ** Template functions *)
Section funcs.
Context `{Unicode}.

Definition isFontAwesomeKey (value : string) : bool := HasPrefix (TrimSpace value) "fa-".
Definition lower (value : string) : string := ToLower (TrimSpace value).

Definition urlHost (value : string) : string :=
  let raw := TrimSpace value in
  if bool_decide (raw = "") then "" else
  match Parse raw with
  | Err _ => raw
  | Ok parsed =>
    if bool_decide (Host parsed = "") then raw else
    let host := TrimPrefix (Hostname parsed) "www." in
    if bool_decide (host = "") then Host parsed else host
  end.

Definition initial (value : string) : string :=
  let trimmed := TrimSpace value in
  match runes trimmed with
  | [] => "?"
  | r :: _ => if (r =? rune_error)%N then "?" else ToUpper (str (encode_rune r))
  end.

(** [iconNamePattern] *)
Definition icon_name (name : string) : bool :=
  bool_decide (name ≠ "") && forallb (fun c => in_range 97 122 c || in_range 48 57 c || bool_decide (c = "-"%char)) (bytes name).

Definition iconAssetURL (value : string) : string :=
  let '(prefix, name, found) := Cut (TrimSpace value) ":" in
  if negb found || negb (icon_name name) then "" else
  if bool_decide (prefix = "lucide") then "/static/icons/lucide/" +:+ name +:+ ".svg"
  else if bool_decide (prefix = "tabler") then "/static/icons/tabler/" +:+ name +:+ ".svg"
  else if bool_decide (prefix = "hero") then "/static/icons/heroicons/24/outline/" +:+ name +:+ ".svg"
  else "".

(** ** Template files *)
Definition pageTemplateFileNames : list string := ["page"; "header"; "footer"; "content"; "group"; "link"; "tile"].

Definition FS : Type := string → result (list ascii).

Definition bad_segment (part : string) : bool :=
  bool_decide (part = "") || bool_decide (part = ".") || bool_decide (part = "..").

Definition pageTemplatePath (set name : string) : result string :=
  if Contains set (str [backslash])
  then Err (new_error ("template set " +:+ quote set +:+ " must use slash-separated paths")) else
  if existsb bad_segment (Split set "/"%char)
  then Err (new_error ("template set " +:+ quote set +:+ " contains an invalid path segment")) else
  let templatePath := path_Join ["templates"; set; name +:+ ".tmpl"] in
  if negb (HasPrefix templatePath "templates/")
  then Err (new_error ("template path " +:+ quote templatePath +:+ " escapes templates directory"))
  else Ok templatePath.

(** The loop over the candidates: a source, its files, the path in it. *)
Fixpoint read_first (candidates : list (string * FS * string)) : option (result (list ascii)) :=
  match candidates with
  | [] => None
  | (source, fsys, path) :: candidates =>
    match fsys path with
    | Ok contents => Some (Ok contents)
    | Err err =>
      if bool_decide (err_class err = KNotExist) then read_first candidates
      else Some (Err (wrap_error ("read " +:+ source +:+ " template " +:+ quote path +:+ ": ") err))
    end
  end.

Definition readPageTemplateFile (filesystem embedded : FS) (set name : string) : result (list ascii) :=
  selectedPath ← pageTemplatePath set name;
  defaultPath ← pageTemplatePath "default" name;
  let candidates :=
    [("filesystem", filesystem, selectedPath); ("embedded selected set", embedded, selectedPath)] ++
    if bool_decide (selectedPath ≠ defaultPath) then [("embedded default set", embedded, defaultPath)] else [] in
  match read_first candidates with
  | Some r => r
  | None => Err (new_error ("template " +:+ quote name +:+ " not found in filesystem set " +:+ quote set +:+
      ", embedded set " +:+ quote set +:+ ", or embedded default set"))
  end.

Class PageTemplates := {
  PageTemplate : Set;
  new_page : PageTemplate;
  parse_as : PageTemplate → string → list ascii → result PageTemplate
}.

Context `{PageTemplates}.

(** The loop of [loadPageTemplate]: the file [page] is the root template, the
    others are named with an underscore. *)
Fixpoint load_files (filesystem embedded : FS) (set : string) (names : list string) (parsed : PageTemplate)
    : result PageTemplate :=
  match names with
  | [] => Ok parsed
  | name :: names =>
    match readPageTemplateFile filesystem embedded set name with
    | Err err => Err err
    | Ok contents =>
      let target := if bool_decide (name = "page") then "page" else "_" +:+ name in
      match parse_as parsed target contents with
      | Err err => Err (wrap_error ("parse template " +:+ quote name +:+ " from set " +:+ quote set +:+ ": ") err)
      | Ok parsed => load_files filesystem embedded set names parsed
      end
    end
  end.

(** [loadPageTemplate]: the template and its set. *)
Definition loadPageTemplate (filesystem embedded : FS) (set : string) : result (PageTemplate * string) :=
  let selectedSet := TrimSpace set in
  let selectedSet := if bool_decide (selectedSet = "") then "default" else selectedSet in
  parsed ← load_files filesystem embedded selectedSet pageTemplateFileNames new_page;
  Ok (parsed, selectedSet).
End funcs.

(** ** Confinement *)
Section confinement.
Context `{Unicode}.

(** A set named by proper segments. *)
Definition proper_set (set : string) : Prop :=
  (backslash ∉ bytes set) ∧ Forall good_segment (Split set "/"%char).

Definition template_file (set name : string) : string := "templates/" +:+ set +:+ "/" +:+ name +:+ ".tmpl".

Lemma Contains_byte s c : Contains s (str [c]) = true ↔ c ∈ bytes s.
Proof.
  unfold Contains. rewrite bytes_str. destruct (index_of [c] (bytes s)) as [n|] eqn:E; split; try done.
  - intros _. apply index_of_Some in E as (p & t & -> & _). set_solver.
  - intros (p & t & Hs)%list_elem_of_split. rewrite index_of_None in E. by destruct (E p t).
Qed.

Lemma bad_segment_good s : bad_segment s = false ↔ good_segment s.
Proof.
  unfold bad_segment, good_segment. rewrite !orb_false_iff, !bool_decide_eq_false. tauto.
Qed.

Lemma bad_segments_none l : existsb bad_segment l = false ↔ Forall good_segment l.
Proof.
  induction l as [|s l IH]; [by split; [constructor|]|]. cbn [existsb].
  by rewrite orb_false_iff, Forall_cons, IH, bad_segment_good.
Qed.

Lemma Join_app l k c : l ≠ [] → k ≠ [] → Join (l ++ k) c = Join l c +:+ String c "" +:+ Join k c.
Proof.
  induction l as [|s l IH]; [done|]. intros _ Hk. destruct l as [|t l].
  - cbn [app]. destruct k; [done|]. apply Join_cons.
  - cbn [app]. rewrite !Join_cons. cbn [app] in IH. rewrite IH by done.
    apply bytes_inj. rewrite !bytes_app. by rewrite <-!app_assoc.
Qed.

Lemma template_path_clean set name : proper_set set → good_segment (name +:+ ".tmpl") → "/"%char ∉ bytes name →
  path_Join ["templates"; set; name +:+ ".tmpl"] = template_file set name.
Proof.
  intros [_ Hset] Hname Hslash. destruct (Join_Split set "/"%char) as [Hj Hf].
  assert (Split set "/"%char ≠ []) as Hne.
  { unfold Split. intros E. apply (split_bytes_nonempty "/"%char (bytes set)). by destruct (split_bytes _ _). }
  assert (set ≠ "") as Hse.
  { intros ->. apply Forall_cons in Hset as [[? _] _]. done. }
  assert (name +:+ ".tmpl" ≠ "") as Hnm by apply Hname.
  unfold path_Join. cbn [List.filter]. rewrite !bool_decide_false by done. cbn [negb].
  assert (Join ["templates"; set; name +:+ ".tmpl"] "/" =
    Join (["templates"] ++ Split set "/" ++ [name +:+ ".tmpl"]) "/") as ->.
  { rewrite !Join_app by (done || by destruct (Split set "/")). by rewrite Hj. }
  rewrite path_Clean_good.
  - rewrite !Join_app by (done || by destruct (Split set "/")). rewrite Hj. done.
  - repeat apply Forall_app_2; [by repeat constructor|done|by constructor].
  - repeat apply Forall_app_2; [|done|].
    + constructor; [|constructor]. apply (bool_decide_unpack _). by vm_compute.
    + constructor; [|constructor]. rewrite bytes_app, elem_of_app. intros [?|Hin]; [done|].
      revert Hin. apply (bool_decide_unpack _). by vm_compute.
  - done.
Qed.

Lemma pageTemplatePath_ok set name p : good_segment (name +:+ ".tmpl") → "/"%char ∉ bytes name →
  pageTemplatePath set name = Ok p ↔ proper_set set ∧ p = template_file set name.
Proof.
  intros Hname Hslash. unfold pageTemplatePath.
  destruct (Contains set (str [backslash])) eqn:Hb.
  { apply Contains_byte in Hb. unfold proper_set. naive_solver. }
  destruct (existsb bad_segment _) eqn:Hs.
  { split; [done|]. intros [[_ Hg] _]. apply bad_segments_none in Hg. congruence. }
  assert (proper_set set) as Hp.
  { split; [|by apply bad_segments_none]. intros Hin. apply Contains_byte in Hin. congruence. }
  rewrite template_path_clean by done.
  assert (HasPrefix (template_file set name) "templates/" = true) as ->.
  { unfold HasPrefix, template_file. apply bool_decide_eq_true. rewrite bytes_app. by eexists. }
  cbn [negb]. naive_solver.
Qed.

Lemma template_names name : name ∈ pageTemplateFileNames → good_segment (name +:+ ".tmpl") ∧ "/"%char ∉ bytes name.
Proof.
  unfold pageTemplateFileNames. rewrite !elem_of_cons, elem_of_nil.
  intros [->|[->|[->|[->|[->|[->|[->|[]]]]]]]]; by apply (bool_decide_unpack _); vm_compute.
Qed.

(** What is found at a path: its contents, nothing, or a failure. *)
Definition absent (fsys : FS) (path : string) : Prop := ∃ err, fsys path = Err err ∧ err_class err = KNotExist.

(** C40: a template file is read from the operator's directory, or else from
    the embedded set of that name, or else from the embedded default set; the
    name of a set cannot lead out of the templates directory, and a set named
    otherwise is refused. *)
Theorem template_confined filesystem embedded set name contents :
  name ∈ pageTemplateFileNames →
  readPageTemplateFile filesystem embedded set name = Ok contents ↔
  proper_set set ∧
  (filesystem (template_file set name) = Ok contents ∨
   absent filesystem (template_file set name) ∧ embedded (template_file set name) = Ok contents ∨
   absent filesystem (template_file set name) ∧ absent embedded (template_file set name) ∧
     embedded (template_file "default" name) = Ok contents).
Proof.
  intros [Hg Hs]%template_names. unfold readPageTemplateFile.
  assert (pageTemplatePath "default" name = Ok (template_file "default" name)) as Hd.
  { apply pageTemplatePath_ok; [done..|]. split; [|done]. by apply (bool_decide_unpack _); vm_compute. }
  destruct (pageTemplatePath set name) as [p|e] eqn:Hp.
  2: { split; [done|]. intros [Hset _].
    assert (pageTemplatePath set name = Ok (template_file set name)) by (by apply pageTemplatePath_ok). congruence. }
  apply pageTemplatePath_ok in Hp as [Hset ->]; [|done..]. rewrite Hd. cbn [mbind result_bind]. unfold absent.
  destruct (filesystem (template_file set name)) as [o|e] eqn:Hf; cbn [read_first app]; rewrite Hf.
  { naive_solver. }
  case_bool_decide as He; [|naive_solver].
  destruct (embedded (template_file set name)) as [o|e'] eqn:Hm.
  { naive_solver. }
  case_bool_decide as He'; [|naive_solver].
  case_bool_decide as Hne; cbn [read_first].
  - destruct (embedded (template_file "default" name)) as [o|e2] eqn:Hdef; [naive_solver|].
    case_bool_decide; naive_solver.
  - rewrite <-Hne, Hm. naive_solver.
Qed.
End confinement.

(** ** Witness *)
Definition dark_files : FS := fun path =>
  if bool_decide (path = "templates/team/dark/page.tmpl") then Ok (bytes "dark page") else Err (Error KNotExist "file does not exist").
Definition no_files : FS := fun _ => Err (Error KNotExist "file does not exist").

Lemma template_confined_witness :
  @readPageTemplateFile unicode_ascii no_files dark_files "team/dark" "page" = Ok (bytes "dark page").
Proof.
  apply (@template_confined unicode_ascii).
  - left.
  - split; [by apply (bool_decide_unpack _); vm_compute|]. right. left.
    split; [eexists; split; reflexivity|vm_compute; reflexivity].
Defined.

Example set_escapes : @readPageTemplateFile unicode_ascii dark_files dark_files "../secrets" "page" =
  Err (new_error ("template set " +:+ @quote unicode_ascii "../secrets" +:+ " contains an invalid path segment")).
Proof. vm_compute. reflexivity. Qed.
