(* ===== verification/Handler.v ===== *)
(** * Handler: web/handler.go

    The routes of the web server and the handler of each.  A handler takes the
    request, the network and the clock and threads the caches of the
    authentication service; its outcome says what is sent.  The embedded
    files, the page template and the WebSocket upgrade are outside: the class
    [Site] gives the first two, an outcome stands for the last. *)

From S2P Require Import Prelude GoStrings StableSort ApiTypes UrlResolver Links Collectors Dashboard.
From S2P Require Import Json Wire Any Sync Url Http Path Auth Templates.

(** ** Routes *)
Inductive endpoint :=
| EStatic
| EFavicon
| EDiscovery
| EOpenAPI
| EDocs
| ESession
| EDashboard
| EUpdates
| ERoot
| ERedirect (location : string).

(** The patterns registered with the [http.ServeMux], longest match first. *)
Definition patterns : list (string * endpoint) :=
  [("/favicon.ico", EFavicon); ("/.well-known/openid-configuration", EDiscovery);
   ("/api/openapi.json", EOpenAPI); ("/api/docs", EDocs); ("/api/session", ESession);
   ("/api/dashboard", EDashboard); ("/api/dashboard/updates", EUpdates)].

(** The mux: a path that is not clean, or that lacks the slash of [/static/],
    is redirected. *)
Definition route (p : string) : endpoint :=
  if bool_decide (mux_clean p ≠ p) then ERedirect (mux_clean p) else
  match find_map (fun e => if bool_decide (e.1 = p) then Some e.2 else None) patterns with
  | Some e => e
  | None =>
    if bool_decide (p = "/static") then ERedirect "/static/" else
    if HasPrefix p "/static/" then EStatic else ERoot
  end.

(** ** Outcomes *)
Inductive outcome :=
| Reply (status : Z) (contentType : string) (body : list ascii)
| Redirect (location : string)
| ServeFile (name : string)
| Proxy (target : URL) (issuer : string)
| Upgrade (origin_ok : bool).

(** The outcome, the cookies set and the caches afterwards. *)
Definition served : Type := outcome * list http_cookie * authCache.

Definition json_type : string := "application/json".
Definition html_type : string := "text/html; charset=utf-8".

(** [http.Error] *)
Definition Error_reply (message : string) (status : Z) : outcome :=
  Reply status "text/plain; charset=utf-8" (bytes message ++ newline).
Definition status_reply (status : Z) : outcome := Error_reply (StatusText status) status.
Definition NotFound : outcome := Error_reply "404 page not found" StatusNotFound.
(** [json.NewEncoder(w).Encode(v)] *)
Definition json_reply (v : json) : outcome := Reply StatusOK json_type (print v ++ newline).

Definition method_not_allowed (r : request) : bool := bool_decide (r_Method r ≠ MethodGet).

(** ** The page *)
Record PageOptions := {
  po_TemplateSet : string;
  po_Title : string;
  po_FaviconURL : string;
  po_ContentLayout : string
}.

Record pageTemplateData := {
  pd_Title : string;
  pd_FaviconURL : string;
  pd_ContentLayout : string;
  pd_Groups : list DashboardGroup
}.

(** The embedded files and the parsed page template. *)
Class Site := {
  StatAsset : string → result unit;
  ReadAsset : string → result (list ascii);
  ExecutePage : pageTemplateData → result (list ascii)
}.

Definition head_close : list ascii := bytes "</head>".

Definition config_fields (c : authConfigResponse) : fields :=
  [("enabled", Some (JBool (cf_Enabled c))); ("issuerUrl", omit_string (cf_IssuerURL c));
   ("openidConfigurationUrl", omit_string (cf_OpenIDConfigurationURL c));
   ("clientId", omit_string (cf_ClientID c)); ("redirectPath", omit_string (cf_RedirectPath c));
   ("scopes", omit_string (cf_Scopes c))].
Definition encode_config (c : authConfigResponse) : json := JObj (present (config_fields c)).

Definition injection (config : authConfigResponse) : list ascii :=
  newline ++ bytes "    <script>window.config = " ++ print (encode_config config) ++ bytes ";</script>".

Definition injectAuthConfig (index : list ascii) (config : authConfigResponse) : result (list ascii) :=
  match index_of head_close index with
  | None => Err (new_error "index.html is missing </head>")
  | Some i =>
    Ok (take i index ++ (injection config ++ head_close) ++ drop (i + length head_close) index)
  end.

Section handler.
Context `{Unicode, Apimachinery, MapRange, StableSort, Float64Text, Site}.

(** [Handler]: what [NewHandler] captures. *)
Record Handler := {
  h_auth : authService;
  h_collector : dashboardCollector;
  h_page : PageOptions
}.

(** [CheckOrigin] of the upgrader (web/notifier.go). *)
Definition CheckOrigin (r : request) : bool :=
  let origin := header r "Origin" in
  if bool_decide (origin = "") then true else
  match Parse origin with
  | Err _ => false
  | Ok u => EqualFold (Host u) (r_Host r)
  end.

(** ** The handlers *)

Definition serveFavicon (r : request) : outcome :=
  if method_not_allowed r then status_reply StatusMethodNotAllowed else Redirect "/static/logo.svg".

Definition serveDiscovery (h : Handler) (Do : HTTPDo) (now : Z) (r : request) (c : authCache) : served :=
  if method_not_allowed r then (status_reply StatusMethodNotAllowed, [], c) else
  let '(o, c) := serveOpenIDConfiguration (h_auth h) Do now r c in
  (match o with
   | DiscoveryNotFound => NotFound
   | DiscoveryError message status => Error_reply message status
   | DiscoveryProxy target issuer => Proxy target issuer
   end, [], c).

Definition obj (members : list (string * any)) : any := AMap (list_to_map members).

Definition openAPISpec : any :=
  let bearer := ASlice [obj [("bearerAuth", AStrings [])]] in
  obj [
    ("openapi", AString "3.0.3");
    ("info", obj [("title", AString "cupboard API"); ("version", AString "v1")]);
    ("components", obj [("securitySchemes", obj [("bearerAuth",
      obj [("type", AString "http"); ("scheme", AString "bearer")])])]);
    ("paths", obj [
      ("/api/session", obj [
        ("get", obj [("summary", AString "Get session userinfo from cookie")]);
        ("post", obj [("summary", AString "Create backend session from bearer token"); ("security", bearer)]);
        ("delete", obj [("summary", AString "Clear backend session cookie")])]);
      ("/api/dashboard", obj [
        ("get", obj [("summary", AString "Get grouped dashboard links"); ("security", bearer)])])])].

Definition serveOpenAPI (r : request) : outcome :=
  if method_not_allowed r then status_reply StatusMethodNotAllowed else json_reply (encode_any openAPISpec).

(** The page of [/api/docs]; a back quote stands for a double quote. *)
Definition docs_html : list ascii :=
  (fun a => if bool_decide (a = "`"%char) then double_quote else a) <$> bytes
"<!doctype html>
<html>
  <head>
    <meta charset=`utf-8` />
    <title>cupboard API docs</title>
    <link rel=`stylesheet` href=`https://unpkg.com/swagger-ui-dist@5/swagger-ui.css` />
  </head>
  <body>
    <div id=`swagger-ui`></div>
    <script src=`https://unpkg.com/swagger-ui-dist@5/swagger-ui-bundle.js`></script>
    <script>
      window.ui = SwaggerUIBundle({ url: '/api/openapi.json', dom_id: '#swagger-ui' })
    </script>
  </body>
</html>".

Definition serveDocs (r : request) : outcome :=
  if method_not_allowed r then status_reply StatusMethodNotAllowed else Reply StatusOK html_type docs_html.

Definition anonymous_session : any :=
  obj [("userInfo", obj [("sub", AString "anonymous")]); ("groups", AStrings [])].

Definition serveSession (h : Handler) (Do : HTTPDo) (now : Z) (r : request) (c : authCache) : served :=
  let auth := h_auth h in
  if negb (a_enabled auth) then (json_reply (encode_any anonymous_session), [], c) else
  if bool_decide (r_Method r = MethodGet) then
    match userInfoFromCookie auth now r with
    | Err _ => (status_reply StatusUnauthorized, [], c)
    | Ok session => (json_reply (encode_session session), [], c)
    end
  else if bool_decide (r_Method r = MethodPost) then
    let token := bearerTokenFromRequest r in
    if bool_decide (token = "") then (Error_reply "missing bearer token" StatusUnauthorized, [], c) else
    match fetchUserInfo auth Do c token with
    | (Err err, c) => (Error_reply (err_msg err) StatusUnauthorized, [], c)
    | (Ok userInfo, c) =>
      let session := newAuthSession userInfo in
      (json_reply (encode_session session), [setSessionCookie auth now session], c)
    end
  else if bool_decide (r_Method r = MethodDelete) then
    (Reply StatusNoContent "" [], [clearSessionCookie auth], c)
  else (status_reply StatusMethodNotAllowed, [], c).

(** The groups of the session in the request's context. *)
Definition context_groups (session : option authSession) : list string :=
  match session with Some s => s_Groups s | None => [] end.

Definition dashboardHandler (h : Handler) (r : request) (session : option authSession) : outcome :=
  if method_not_allowed r then status_reply StatusMethodNotAllowed else
  match collectDashboard (h_collector h) (context_groups session) false with
  | Err collectErr => Error_reply (err_msg collectErr) StatusInternalServerError
  | Ok payload => json_reply (encode_response payload)
  end.

(** [requireAuthentication] *)
Definition requireAuthentication (h : Handler) (Do : HTTPDo) (now : Z) (r : request) (c : authCache)
    (next : option authSession → outcome) : served :=
  match authenticateRequest (h_auth h) Do now r c with
  | (Err _, cookies, c) => (status_reply StatusUnauthorized, cookies, c)
  | (Ok session, cookies, c) => (next (Some session), cookies, c)
  end.

Definition serveDashboard (h : Handler) (Do : HTTPDo) (now : Z) (r : request) (c : authCache) : served :=
  if a_enabled (h_auth h) then requireAuthentication h Do now r c (dashboardHandler h r)
  else (dashboardHandler h r None, [], c).

Definition serveUpdates (h : Handler) (Do : HTTPDo) (now : Z) (r : request) (c : authCache) : served :=
  if method_not_allowed r then (status_reply StatusMethodNotAllowed, [], c) else
  if a_enabled (h_auth h) then
    requireAuthentication h Do now r c (fun _ => Upgrade (CheckOrigin r))
  else (Upgrade (CheckOrigin r), [], c).

Definition frontendIndexHandler (h : Handler) (Do : HTTPDo) (now : Z) (r : request) (c : authCache) : served :=
  if method_not_allowed r then (status_reply StatusMethodNotAllowed, [], c) else
  match ReadAsset "index.html" with
  | Err readErr => (Error_reply (err_msg readErr) StatusInternalServerError, [], c)
  | Ok index =>
    let '(config, c) := authConfig (h_auth h) Do now (requestBaseURL r) c in
    (match injectAuthConfig index config with
     | Err injectErr => Error_reply (err_msg injectErr) StatusInternalServerError
     | Ok index => Reply StatusOK html_type index
     end, [], c)
  end.

(** The page for a session; a failed collection leaves it empty. *)
Definition renderPage (h : Handler) (session : option authSession) : outcome :=
  let groups := match collectDashboard (h_collector h) (context_groups session) false with
    | Ok dashboard => r_Groups dashboard
    | Err _ => []
    end in
  let data := {| pd_Title := firstNonEmptyString [po_Title (h_page h); "cupboard"];
                 pd_FaviconURL := po_FaviconURL (h_page h);
                 pd_ContentLayout := firstNonEmptyString [po_ContentLayout (h_page h); "list"];
                 pd_Groups := groups |} in
  match ExecutePage data with
  | Err err => Error_reply (err_msg err) StatusInternalServerError
  | Ok body => Reply StatusOK html_type body
  end.

Definition pageTemplateHandler (h : Handler) (Do : HTTPDo) (now : Z) (r : request) (c : authCache) : served :=
  if method_not_allowed r then (status_reply StatusMethodNotAllowed, [], c) else
  if a_enabled (h_auth h) then
    match userInfoFromCookie (h_auth h) now r with
    | Err _ => frontendIndexHandler h Do now r c
    | Ok session => (renderPage h (Some session), [], c)
    end
  else (renderPage h None, [], c).

Definition serveRoot (h : Handler) (Do : HTTPDo) (now : Z) (r : request) (c : authCache) : served :=
  let cleanPath := path_Clean (r_Path r) in
  if bool_decide (cleanPath = ".") || bool_decide (cleanPath = "/") then pageTemplateHandler h Do now r c else
  let assetPath := TrimPrefix cleanPath "/" in
  if bool_decide (assetPath = "index.html") then frontendIndexHandler h Do now r c else
  match StatAsset assetPath with
  | Ok _ => (ServeFile assetPath, [], c)
  | Err statErr =>
    if bool_decide (err_class statErr = KNotExist) then frontendIndexHandler h Do now r c
    else (status_reply StatusInternalServerError, [], c)
  end.

(** [ServeHTTP] of the mux. *)
Definition ServeHTTP (h : Handler) (Do : HTTPDo) (now : Z) (r : request) (c : authCache)
    : served :=
  match route (r_Path r) with
  | EStatic => (ServeFile (TrimPrefix (r_Path r) "/"), [], c)
  | EFavicon => (serveFavicon r, [], c)
  | EDiscovery => serveDiscovery h Do now r c
  | EOpenAPI => (serveOpenAPI r, [], c)
  | EDocs => (serveDocs r, [], c)
  | ESession => serveSession h Do now r c
  | EDashboard => serveDashboard h Do now r c
  | EUpdates => serveUpdates h Do now r c
  | ERoot => serveRoot h Do now r c
  | ERedirect location => (Redirect location, [], c)
  end.
End handler.

(** ** NewHandler *)

(** [Options] (web/options.go) *)
Record Options := {
  o_Auth : AuthOptions;
  o_Instance : string;
  o_LinkGroups : list LinkGroup;
  o_StaticLinks : list StaticLink;
  o_Page : PageOptions
}.

(** What [NewHandler] builds.  The collector holds pointers to the sync client
    and to the cluster manager; a request reads both when it runs, so the
    handler is a function of the two snapshots. *)
Record site_handler `{Unicode, PageTemplates} := {
  sh_handler : option (gmap string DashboardResponse) → option (list ClusterInfo) → Handler;
  sh_cache : authCache;
  sh_page : PageTemplate * string;
  sh_missing : list (GroupVersion * string)
}.

Definition NewHandler `{Unicode, PageTemplates} (filesystem embedded : FS) (k8sClient : Reader)
    (discovery : option Discovery) (options : Options) : result site_handler :=
  let '(auth, cache) := newAuthService (o_Auth options) in
  let collector syncClient foreignClusters :=
    newDashboardCollector k8sClient discovery (o_Instance options) (o_LinkGroups options)
      (o_StaticLinks options) syncClient foreignClusters in
  pageTemplate ← loadPageTemplate filesystem embedded (po_TemplateSet (o_Page options));
  Ok {| sh_handler := fun syncClient foreignClusters =>
          {| h_auth := auth; h_collector := collector syncClient foreignClusters; h_page := o_Page options |};
        sh_cache := cache; sh_page := pageTemplate;
        sh_missing := logMissingOptionalResources (collector None None) |}.

(** [readRootAsset]: a file beside the executable before an embedded one. *)
Definition readRootAsset (filesystem embedded : string → result (list ascii)) (name : string) : result (list ascii) :=
  if Contains name "/" || Contains name (str [backslash]) || bool_decide (name = ".") || bool_decide (name = "..")
  then Err (new_error "invalid argument") else
  match filesystem name with
  | Ok contents => Ok contents
  | Err err => if bool_decide (err_class err = KNotExist) then embedded name else Err err
  end.
