(* ===== verification/HandlerProps.v ===== *)
(** * HandlerProps: what the web server gives to whom

    With authentication enabled a request nobody vouches for learns nothing of
    the cluster; a dashboard reply is the dashboard of a vouched session's
    groups; the script that carries the configuration cannot be left. *)

From S2P Require Import Prelude GoStrings StableSort ApiTypes UrlResolver Links Collectors Dashboard.
From S2P Require Import DashboardSpec MergeSpec RenderSpec Sample DashboardProps.
From S2P Require Import Json JsonSpec Wire Any Sync Url Http Base64 Sha256 Auth AuthProps Handler.

Section handler.
Context `{Unicode, Apimachinery, MapRange, StableSort, Float64Text, Site}.

(** ** Unauthenticated requests *)

(** The same server over another cluster. *)
Definition over (collector : dashboardCollector) (h : Handler) : Handler :=
  {| h_auth := h_auth h; h_collector := collector; h_page := h_page h |}.

(** Neither a signed cookie nor the provider, on any endpoint it has had,
    vouches for the request. *)
Definition nobody (a : authService) (seen : list HTTPDo) (Do : HTTPDo) (now : Z) (r : request) : Prop :=
  ∀ s, ¬ vouched (provider_endpoint a seen) a Do now r s.

(** The caches of a server after any requests, on any state of its cluster;
    the list holds the networks the requests saw. *)
Inductive serving (a : authService) : list HTTPDo → authCache → Prop :=
| serving_new options : a = (newAuthService options).1 → serving a [] (newAuthService options).2
| serving_request seen c h Do now r :
    serving a seen c → h_auth h = a → serving a (Do :: seen) (ServeHTTP h Do now r c).2.

(** A step of the server leaves the cached endpoint alone, or is a call of the
    authentication service. *)
Definition kept (a : authService) (Do : HTTPDo) (c c' : authCache) : Prop :=
  ∀ seen, remembers a seen c → remembers a (Do :: seen) c'.

Lemma kept_endpoint a Do c c' : ac_UserInfoEP c' = ac_UserInfoEP c → kept a Do c c'.
Proof. intros E seen Hr. unfold remembers. rewrite E. by eapply remembers_mono; [|exact Hr]; set_solver. Qed.

Lemma kept_refl a Do c : kept a Do c c.
Proof. by apply kept_endpoint. Qed.
#[local] Hint Resolve kept_refl : core.

Lemma required_kept h Do now r c next : kept (h_auth h) Do c (requireAuthentication h Do now r c next).2.
Proof.
  intros seen Hr%(authenticateRequest_remembers _ _ Do now r). revert Hr. unfold requireAuthentication.
  by destruct (authenticateRequest _ _ _ _ _) as [[[] ?] ?].
Qed.

Lemma index_kept h Do now r c : kept (h_auth h) Do c (frontendIndexHandler h Do now r c).2.
Proof.
  apply kept_endpoint. unfold frontendIndexHandler. destruct (method_not_allowed r); [done|].
  destruct (ReadAsset _); [|done]. rewrite <-(authConfig_keeps_endpoint (h_auth h) Do now (requestBaseURL r) c).
  by destruct (authConfig _ _ _ _ _).
Qed.

Lemma session_kept h Do now r c : kept (h_auth h) Do c (serveSession h Do now r c).2.
Proof.
  unfold serveSession. destruct (negb _); [done|]. case_bool_decide; [by destruct (userInfoFromCookie _ _ _)|].
  case_bool_decide; [|by case_bool_decide]. case_bool_decide; [done|].
  intros seen Hr%(fetchUserInfo_remembers _ _ Do _ (bearerTokenFromRequest r)). revert Hr.
  by destruct (fetchUserInfo _ _ _ _) as [[] ?].
Qed.

Lemma root_kept h Do now r c : kept (h_auth h) Do c (serveRoot h Do now r c).2.
Proof.
  unfold serveRoot. cbv zeta. destruct (_ || _).
  { unfold pageTemplateHandler. destruct (method_not_allowed r); [done|]. destruct (a_enabled _); [|done].
    destruct (userInfoFromCookie _ _ _); [done|apply index_kept]. }
  case_bool_decide; [apply index_kept|]. destruct (StatAsset _); [done|]. case_bool_decide; [apply index_kept|done].
Qed.

Lemma ServeHTTP_kept h Do now r c : kept (h_auth h) Do c (ServeHTTP h Do now r c).2.
Proof.
  unfold ServeHTTP. destruct (route _); try done.
  - apply kept_endpoint. unfold serveDiscovery. destruct (method_not_allowed r); [done|].
    rewrite <-(discovery_keeps_endpoint (h_auth h) Do now r c). by destruct (serveOpenIDConfiguration _ _ _ _ _).
  - apply session_kept.
  - unfold serveDashboard. destruct (a_enabled _); [apply required_kept|done].
  - unfold serveUpdates. destruct (method_not_allowed r); [done|]. destruct (a_enabled _); [apply required_kept|done].
  - apply root_kept.
Qed.

Lemma serving_remembers a seen c : serving a seen c → remembers a seen c.
Proof. induction 1 as [options _|seen c h Do now r _ IH <-]; [by left|by apply ServeHTTP_kept]. Qed.

Lemma nobody_authenticated a seen Do now r c : a_enabled a = true → remembers a seen c → nobody a (Do :: seen) Do now r →
  ∃ e, (authenticateRequest a Do now r c).1 = (Err e, []).
Proof.
  intros He Hr Hn. destruct (authenticateRequest a Do now r c) as [[[s|e] cookies] c'] eqn:E.
  - apply authenticateRequest_ok in E as [Hv _]; [|done]. destruct (Hn s).
    eapply vouched_mono; [|exact Hv]. intros ep. by apply asked_endpoint_provider.
  - exists e. cbn. revert E. unfold authenticateRequest. rewrite He. cbn [negb].
    case_bool_decide; [destruct (fetchUserInfo _ _ _ _) as [[]]; [done|]|]; by intros [= _ <- _].
Qed.

Lemma nobody_cookie a seen Do now r : nobody a seen Do now r → ∃ e, userInfoFromCookie a now r = Err e.
Proof.
  intros Hn. destruct (userInfoFromCookie a now r) as [s|e] eqn:E; [|by exists e].
  destruct (Hn s). by apply cookie_vouched.
Qed.

Lemma nobody_required h seen Do now r c next : a_enabled (h_auth h) = true →
  remembers (h_auth h) seen c → nobody (h_auth h) (Do :: seen) Do now r →
  (requireAuthentication h Do now r c next).1 = (status_reply StatusUnauthorized, []) ∧
  (requireAuthentication h Do now r c next).2 = (authenticateRequest (h_auth h) Do now r c).2.
Proof.
  intros He Hr Hn. unfold requireAuthentication. destruct (nobody_authenticated _ _ _ _ _ c He Hr Hn) as [e Hauth].
  destruct (authenticateRequest _ _ _ _ _) as [[res cookies] c']. cbn in Hauth. by injection Hauth as -> ->.
Qed.

Lemma index_over h collector Do now r c :
  frontendIndexHandler (over collector h) Do now r c = frontendIndexHandler h Do now r c.
Proof. done. Qed.

Lemma nobody_page h collector seen Do now r c : a_enabled (h_auth h) = true → nobody (h_auth h) seen Do now r →
  pageTemplateHandler (over collector h) Do now r c = pageTemplateHandler h Do now r c.
Proof.
  intros He Hn. unfold pageTemplateHandler. destruct (method_not_allowed r); [done|]. cbn [over h_auth].
  rewrite He. by destruct (nobody_cookie _ _ _ _ _ Hn) as [e ->].
Qed.

Lemma nobody_learns h collector seen Do now r c :
  a_enabled (h_auth h) = true → serving (h_auth h) seen c → nobody (h_auth h) (Do :: seen) Do now r →
  ServeHTTP (over collector h) Do now r c = ServeHTTP h Do now r c.
Proof.
  intros He Hs%serving_remembers Hn. unfold ServeHTTP. destruct (route (r_Path r)); try done.
  - unfold serveDashboard. cbn [over h_auth]. rewrite He.
    destruct (nobody_required h seen Do now r c (dashboardHandler h r)) as [E1 E2]; [done..|].
    destruct (nobody_required (over collector h) seen Do now r c (dashboardHandler (over collector h) r)) as [F1 F2]; [done..|].
    by rewrite (surjective_pairing (requireAuthentication h _ _ _ _ _)),
      (surjective_pairing (requireAuthentication (over collector h) _ _ _ _ _)), E1, E2, F1, F2.
  - unfold serveRoot. cbv zeta. destruct (_ || _); [by eapply nobody_page|]. done.
Qed.

(** The dashboard and its updates refuse the request, without a cookie. *)
Definition refused_paths : list string := ["/api/dashboard"; "/api/dashboard/updates"].

Lemma nobody_refused h seen Do now r c : a_enabled (h_auth h) = true → serving (h_auth h) seen c →
  nobody (h_auth h) (Do :: seen) Do now r → r_Method r = MethodGet → r_Path r ∈ refused_paths →
  (ServeHTTP h Do now r c).1 = (status_reply StatusUnauthorized, []).
Proof.
  intros He Hs%serving_remembers Hn Hm Hp. unfold ServeHTTP.
  apply elem_of_cons in Hp as [->|[->|[]%not_elem_of_nil]%elem_of_cons].
  - assert (route "/api/dashboard" = EDashboard) as -> by by vm_compute.
    unfold serveDashboard. rewrite He. by eapply nobody_required.
  - assert (route "/api/dashboard/updates" = EUpdates) as -> by by vm_compute.
    unfold serveUpdates, method_not_allowed. rewrite Hm, bool_decide_false by tauto. rewrite He. by eapply nobody_required.
Qed.

(** C8: with authentication enabled, and whatever the server was asked before,
    a request that carries neither a signed cookie that has not expired nor a
    bearer token the provider's user info endpoint accepts gets the same
    answer, on every path and with every method, whatever the cluster, its
    peers and the foreign clusters hold; a GET of the dashboard or of its
    updates is answered with 401 and sets no cookie. *)
Theorem unauthenticated_learns_nothing h collector seen Do now r c :
  a_enabled (h_auth h) = true → serving (h_auth h) seen c → nobody (h_auth h) (Do :: seen) Do now r →
  ServeHTTP (over collector h) Do now r c = ServeHTTP h Do now r c ∧
  (r_Method r = MethodGet → r_Path r ∈ refused_paths →
   (ServeHTTP h Do now r c).1 = (status_reply StatusUnauthorized, [])).
Proof. intros He Hs Hn. split; [by eapply nobody_learns|by eapply nobody_refused]. Qed.

(** ** Authenticated requests *)

Definition dashboard_path (r : request) : Prop := r_Path r = "/api/dashboard".

Lemma route_dashboard r : dashboard_path r → route (r_Path r) = EDashboard.
Proof. intros ->. by vm_compute. Qed.

(** C9: a reply of the dashboard endpoint that is not an error is the JSON of
    the dashboard collected for the groups of a session vouched for by a signed
    cookie or by the user info endpoint asked with the request's token, and
    shows only links this session may see.  The endpoint asked is the cached
    one, else the provider's; after any requests the cached one is the
    provider's too. *)
Theorem dashboard_reply h Do now r c ctype body cookies c' :
  a_enabled (h_auth h) = true → dashboard_path r →
  ServeHTTP h Do now r c = (Reply StatusOK ctype body, cookies, c') →
  ∃ s resp, vouched (asked_endpoint (h_auth h) Do c) (h_auth h) Do now r s ∧
    (∀ seen, serving (h_auth h) seen c → vouched (provider_endpoint (h_auth h) (Do :: seen)) (h_auth h) Do now r s) ∧
    r_Method r = MethodGet ∧
    collectDashboard (h_collector h) (s_Groups s) false = Ok resp ∧
    body = print (encode_response resp) ++ newline ∧
    ∀ g l, g ∈ r_Groups resp → l ∈ dg_Links g → visible (s_Groups s) l.
Proof.
  intros He Hp. unfold ServeHTTP. rewrite route_dashboard by done. unfold serveDashboard. rewrite He.
  unfold requireAuthentication. destruct (authenticateRequest _ _ _ _ _) as [[[s|e] cookies'] c1] eqn:Ha; [|done].
  apply authenticateRequest_ok in Ha as [Hv _]; [|done]. unfold dashboardHandler, method_not_allowed.
  case_bool_decide as Hm; [done|]. cbn [context_groups].
  destruct (collectDashboard _ _ _) as [resp|err] eqn:Hc; [|done]. intros [= _ <- _ _]. exists s, resp.
  split_and!; try done.
  { intros seen Hs%serving_remembers. eapply vouched_mono; [|exact Hv]. intros ep. by apply asked_endpoint_provider. }
  intros g l. by apply (shown_visible (h_collector h) _ false).
Qed.
End handler.

(** ** The injected configuration *)

(** Bytes that HTML and JavaScript could take for markup. *)
Definition markup (c : ascii) : bool := is_byte 60 c || is_byte 62 c || is_byte 38 c.
Definition plain (l : list ascii) : Prop := Forall (fun c => markup c = false) l.

Lemma high_plain a : (128 <= byte a)%N → markup a = false.
Proof. intros Ha. unfold markup, is_byte. rewrite !orb_false_iff, !N.eqb_neq. lia. Qed.

Lemma in_range_high lo hi a : (128 <= lo)%N → in_range lo hi a = true → markup a = false.
Proof. intros Hlo Hr. unfold in_range in Hr. bool_to_prop. apply high_plain. rewrite N.leb_le in *. lia. Qed.

Lemma lead2_plain a b : lead2 a b = true → markup a = false ∧ markup b = false.
Proof. unfold lead2. intros Hl. bool_to_prop. split; eapply in_range_high; [|eassumption| |eassumption]; lia. Qed.

Lemma lead3_plain a b : lead3 a b = true → markup a = false ∧ markup b = false.
Proof.
  unfold lead3, in_range. intros Hl. split; apply high_plain; revert Hl;
    rewrite ?orb_true_iff, ?andb_true_iff, ?orb_true_iff, ?andb_true_iff, ?bool_decide_eq_true, ?N.leb_le; lia.
Qed.

Lemma lead4_plain a b : lead4 a b = true → markup a = false ∧ markup b = false.
Proof.
  unfold lead4, in_range. intros Hl. split; apply high_plain; revert Hl;
    rewrite ?orb_true_iff, ?andb_true_iff, ?orb_true_iff, ?andb_true_iff, ?bool_decide_eq_true, ?N.leb_le; lia.
Qed.

(** A chunk is one ASCII byte or has no markup. *)
Definition chunk_plain (c : chunk) : Prop :=
  match c with Bad => True | Valid l => (∃ a, l = [a]) ∨ plain l end.

Lemma next_chunk_plain l c r : next_chunk l = Some (c, r) → chunk_plain c.
Proof.
  destruct l as [|a l1]; [done|]. cbn [next_chunk]. intros [= Hc].
  destruct (byte a <? 128)%N; [injection Hc as <- <-; left; by exists a|].
  destruct l1 as [|b l2]; [by injection Hc as <- <-|].
  destruct (lead2 a b) eqn:H2; [injection Hc as <- <-; right; apply lead2_plain in H2 as [??]; by repeat constructor|].
  destruct l2 as [|c' l3]; [by injection Hc as <- <-|].
  destruct (lead3 a b && in_range 128 191 c') eqn:H3.
  { injection Hc as <- <-. right. apply andb_true_iff in H3 as [[??]%lead3_plain Hr].
    apply in_range_high in Hr; [|lia]. by repeat constructor. }
  destruct l3 as [|d l4]; [by injection Hc as <- <-|].
  destruct (lead4 a b && in_range 128 191 c' && in_range 128 191 d) eqn:H4; [|by injection Hc as <- <-].
  injection Hc as <- <-. right. apply andb_true_iff in H4 as [[[??]%lead4_plain Hr]%andb_true_iff Hr'].
  apply in_range_high in Hr, Hr'; [|lia..]. by repeat constructor.
Qed.

Lemma chunks_plain l : Forall chunk_plain (chunks l).
Proof.
  unfold chunks. generalize (length l) at 1 as n. intros n. revert l.
  induction n as [|n IH]; intros l; [constructor|]. cbn [chunks_fuel].
  destruct (next_chunk l) as [[c r]|] eqn:E; [|constructor]. constructor; [by eapply next_chunk_plain|apply IH].
Qed.

Lemma plain_app l k : plain l → plain k → plain (l ++ k).
Proof. apply Forall_app_2. Qed.

Lemma plain_check l : forallb (fun c => negb (markup c)) l = true → plain l.
Proof. intros Hl. apply Forall_forall. intros c Hc. rewrite forallb_forall in Hl. apply negb_true_iff, Hl. by apply list_elem_of_In. Qed.

Lemma escape_ascii_plain a : plain (escape_ascii a).
Proof. apply plain_check. revert a. apply forall_byte. by vm_compute. Qed.

Lemma escape_plain c : chunk_plain c → plain (escape c).
Proof.
  destruct c as [l|]; [|intros _; by apply plain_check].
  assert (plain l → plain (if bool_decide (l = line_separator) then escape_u ++ bytes "2028"
    else if bool_decide (l = paragraph_separator) then escape_u ++ bytes "2029" else l)) as Hl.
  { intros Hl. repeat case_bool_decide; [by apply plain_check..|done]. }
  intros [[a ->]|Hp]; [apply escape_ascii_plain|]. destruct l as [|a [|b l]]; [by apply Hl|apply escape_ascii_plain|by apply Hl].
Qed.

Lemma print_string_plain s : plain (print_string s).
Proof.
  unfold print_string. constructor; [done|]. apply plain_app; [|by apply plain_check].
  apply Forall_concat, Forall_fmap. eapply Forall_impl; [apply chunks_plain|]. intros c. apply escape_plain.
Qed.

Lemma join_plain l : Forall plain l → plain (join l).
Proof.
  induction 1 as [|x l Hx Hl IH]; [constructor|]. destruct l as [|y l]; [done|].
  apply plain_app; [done|]. by constructor.
Qed.

(** Values without numbers. *)
Fixpoint no_numbers (v : json) : bool :=
  match v with
  | JNum _ => false
  | JArr l => forallb no_numbers l
  | JObj l => forallb (fun '(_, x) => no_numbers x) l
  | _ => true
  end.

Lemma print_plain v : no_numbers v = true → plain (print v).
Proof.
  induction v as [|[]| |s|l IH|l IH] using json_nested_ind; cbn [print no_numbers]; try done; intros Hn;
    try by apply plain_check.
  - apply print_string_plain.
  - constructor; [done|]. apply plain_app; [|by apply plain_check]. apply join_plain.
    rewrite forallb_forall in Hn. apply Forall_fmap, Forall_forall. intros x Hx.
    rewrite Forall_forall in IH. apply IH; [done|]. by apply Hn, list_elem_of_In.
  - constructor; [done|]. apply plain_app; [|by apply plain_check]. apply join_plain.
    rewrite forallb_forall in Hn. apply Forall_fmap, Forall_forall. intros [k x] Hx.
    rewrite Forall_forall in IH. apply plain_app; [apply print_string_plain|]. constructor; [done|].
    apply (IH _ Hx). by apply (Hn (k, x)), list_elem_of_In.
Qed.

Lemma config_no_numbers c : no_numbers (encode_config c) = true.
Proof.
  unfold encode_config, config_fields, omit_string. cbn [no_numbers].
  repeat case_bool_decide; done.
Qed.

Lemma no_numbers_ok v : no_numbers v = true → numbers_ok v.
Proof.
  induction v as [| | | |l IH|l IH] using json_nested_ind; cbn [no_numbers numbers_ok]; try done; intros Hn;
    rewrite forallb_forall in Hn.
  - apply numbers_ok_elements, Forall_forall. intros x Hx. rewrite Forall_forall in IH. apply IH; [done|].
    by apply Hn, list_elem_of_In.
  - apply numbers_ok_members, Forall_forall. intros [k x] Hx. rewrite Forall_forall in IH.
    apply (IH _ Hx). by apply (Hn (k, x)), list_elem_of_In.
Qed.

(** C35: the page gets the configuration as a script before its first
    [</head>], and fails exactly without one.  The script's JSON has no byte of
    markup, so no configured text can end the script element, and reads back
    as the configuration. *)
Theorem config_injected index config :
  match injectAuthConfig index config with
  | Err _ => ∀ before after, index ≠ before ++ head_close ++ after
  | Ok page => ∃ before after js,
      index = before ++ head_close ++ after ∧ first_at head_close before after ∧
      page = before ++ newline ++ bytes "    <script>window.config = " ++ js ++ bytes ";</script></head>" ++ after ∧
      plain js ∧ parse_all js = Some (normalise (encode_config config))
  end.
Proof.
  unfold injectAuthConfig. destruct (index_of head_close index) as [i|] eqn:E.
  - apply index_of_Some in E as (before & after & -> & <- & Hf).
    exists before, after, (print (encode_config config)). split; [done|]. split; [done|].
    split; [|split; [apply print_plain, config_no_numbers|apply parse_all_print, no_numbers_ok, config_no_numbers]].
    rewrite take_app_length, (app_assoc before head_close after), <-length_app, drop_app_length. unfold injection. by rewrite <-!app_assoc.
  - exact (proj1 (index_of_None _ _) E).
Qed.

(** ** Witnesses *)
#[local] Existing Instance float_bits.

(** A site whose page shows the number of its groups. *)
Definition sample_site : Site :=
  {| StatAsset := fun _ => Err (Error KNotExist "file does not exist");
     ReadAsset := fun _ => Ok (bytes "<html><head></head></html>");
     ExecutePage := fun data => Ok (bytes (itoa (Z.of_nat (length (pd_Groups data))))) |}.
#[local] Existing Instance sample_site.

Definition sample_handler : Handler :=
  {| h_auth := sample_service; h_collector := sample;
     h_page := {| po_TemplateSet := ""; po_Title := ""; po_FaviconURL := ""; po_ContentLayout := "" |} |}.

Definition request_to (path : string) (headers : gmap string string) : request :=
  {| r_Method := "GET"; r_Path := path; r_Host := "cupboard.example"; r_TLS := true; r_Header := headers; r_Cookies := [] |}.

Definition empty_collector : dashboardCollector :=
  newDashboardCollector (failing_reader refused) None "" [] [] None None.

(** A server that discovers its provider. *)
Definition discovering_handler : Handler :=
  {| h_auth := discovering_service; h_collector := sample; h_page := h_page sample_handler |}.

Definition forged : request := request_to "/api/dashboard" {["Authorization" := "Bearer f0rged"]}.

Lemma discovery_doc endpoint : discovery_names full_provider "https://id.example/" endpoint →
  endpoint = "https://id.example/userinfo".
Proof.
  intros (req & resp & body & v & rest & Hn & Hd & _ & Hb & Hp & Hv & _).
  vm_compute in Hn. injection Hn as <-. vm_compute in Hd. injection Hd as <-. vm_compute in Hb. injection Hb as <-.
  vm_compute in Hp. injection Hp as <- <-. vm_compute in Hv. by injection Hv as <-.
Qed.

(** The provider answers 401 to the forged token. *)
Lemma forged_nobody a : a_userInfoEndpointOverride a = "" → a_issuerURL a = "https://id.example/" →
  nobody a [full_provider; full_provider] full_provider new_year forged.
Proof.
  intros Ha Hi s Hv. destruct Hv as [endpoint req resp body rest v ui Ht He Hn Hd Hlt|value payload v p Hc]; [|done].
  assert (endpoint = "https://id.example/userinfo") as ->.
  { destruct He as [Ho|Do endpoint _ _ Hin He]; [done|]. apply discovery_doc. rewrite Hi in He.
    set_unfold in Hin. by destruct Hin as [->|[->|[]]]. }
  vm_compute in Hn. injection Hn as <-. vm_compute in Hd. injection Hd as <-. cbn in Hlt. lia.
Qed.

Lemma discovering_serving : serving discovering_service [full_provider]
  (ServeHTTP discovering_handler full_provider new_year (request_to "/api/dashboard"
    {["Authorization" := "Bearer t0ken"]}) sample_cache).2.
Proof. apply serving_request; [|done]. by apply (serving_new discovering_service {| ao_Enabled := true;
  ao_CookieSecret := "s3cret"; ao_IssuerURL := "https://id.example/"; ao_ClientID := "cupboard";
  ao_RedirectPath := ""; ao_Scopes := ""; ao_UserInfoEndpointURL := "" |}). Qed.

(** After a good token was served, the forged one is refused. *)
Lemma unauthenticated_learns_nothing_witness :
  let c := (ServeHTTP discovering_handler full_provider new_year (request_to "/api/dashboard"
    {["Authorization" := "Bearer t0ken"]}) sample_cache).2 in
  ac_UserInfoEP c = "https://id.example/userinfo" ∧
  ServeHTTP (over empty_collector discovering_handler) full_provider new_year forged c =
    ServeHTTP discovering_handler full_provider new_year forged c ∧
  (ServeHTTP discovering_handler full_provider new_year forged c).1 = (status_reply StatusUnauthorized, []).
Proof.
  intros c. split; [vm_compute; reflexivity|].
  destruct (unauthenticated_learns_nothing discovering_handler empty_collector [full_provider] full_provider new_year
    forged c) as [Hsame Hrefused]; [reflexivity|exact discovering_serving|by apply forged_nobody|].
  split; [exact Hsame|]. apply Hrefused; [reflexivity|left].
Defined.

Lemma dashboard_reply_witness :
  let r := request_to "/api/dashboard" {["Authorization" := "Bearer t0ken"]} in
  ∃ s resp, vouched (asked_endpoint sample_service provider sample_cache) sample_service provider new_year r s ∧
    collectDashboard sample (s_Groups s) false = Ok resp ∧ length (r_Groups resp) = 4.
Proof.
  set (r := request_to "/api/dashboard" {["Authorization" := "Bearer t0ken"]}).
  destruct (ServeHTTP sample_handler provider new_year r sample_cache) as [[o cookies] c'] eqn:E.
  assert (Ho : match o with Reply status _ _ => status = 200%Z | _ => False end).
  { apply (f_equal (fun x => x.1.1)) in E. cbn [fst] in E. rewrite <-E. vm_compute. reflexivity. }
  destruct o as [status ctype body| | | |]; try contradiction. subst status.
  destruct (dashboard_reply sample_handler provider new_year r sample_cache ctype body cookies c')
    as (s & resp & Hv & _ & _ & Hc & Hb & _); [reflexivity|reflexivity|exact E|].
  exists s, resp. split; [exact Hv|]. split; [exact Hc|].
  assert (Hg : s_Groups s = ["devs"]).
  { destruct Hv as [endpoint req resp' body' rest v ui Ht He Hn Hd Hlt Hbody Hp Hu|value payload v p Hck].
    - cbn in Hd. unfold provider in Hd. destruct (bool_decide _); [|injection Hd as <-; cbn in Hlt; lia].
      injection Hd as <-. injection Hbody as <-. vm_compute in Hp. injection Hp as <- <-.
      vm_compute in Hu. injection Hu as <-. vm_compute. reflexivity.
    - vm_compute in Hck. discriminate Hck. }
  rewrite Hg in Hc. change (h_collector sample_handler) with sample in Hc. rewrite sample_page_ok in Hc. injection Hc as <-.
  vm_compute. reflexivity.
Defined.
