(* ===== verification/ForeignCluster.v ===== *)
(** * ForeignCluster: internal/foreigncluster

    The cluster list (config.go), the Azure workload identity token source
    (azure.go), the REST configuration of a cluster (client.go) and the manager
    that keeps connections (manager.go).  The environment, files, the token
    endpoint, the kubeconfig loader and client-go's constructors are the
    fields of [World]; times and durations are nanoseconds. *)

From S2P Require Import Prelude GoStrings ApiTypes Dashboard Json Wire Sync.

(** ** config.go *)

Definition authAzureWorkloadIdentity : string := "azure-workload-identity".
Definition defaultAKSServerAppID : string := "6dae42f8-4368-4678-94ff-3960e28e3630".

Record ClusterConfig := {
  Endpoint : string;
  authMethod : string;
  azureScope : string
}.
#[export] Instance ClusterConfig_eq_dec : EqDecision ClusterConfig.
Proof. solve_decision. Defined.

Definition isAzureWorkloadIdentity (c : ClusterConfig) : bool :=
  bool_decide (authMethod c = authAzureWorkloadIdentity).

Definition kubeconfigContext (c : ClusterConfig) : string :=
  if isAzureWorkloadIdentity c then "" else authMethod c.

(** One iteration of [ParseClusterList], on a trimmed entry that is not
    empty. *)
Definition parse_entry `{Unicode} (entry : string) : result ClusterConfig :=
  let '(ep, auth, ok) := Cut entry "=" in
  if negb ok || bool_decide (TrimSpace ep = "") || bool_decide (TrimSpace auth = "")
  then Err (new_error ("invalid cluster entry " +:+ quote entry +:+ ": expected format endpoint=auth-method"))
  else
    let cfg := {| Endpoint := TrimSpace ep; authMethod := TrimSpace auth; azureScope := "" |} in
    let '(base, scope, hasSep) := Cut (authMethod cfg) ":" in
    let cfg := if hasSep && bool_decide (base = authAzureWorkloadIdentity)
      then {| Endpoint := Endpoint cfg; authMethod := authAzureWorkloadIdentity; azureScope := TrimSpace scope |}
      else cfg in
    Ok (if isAzureWorkloadIdentity cfg && bool_decide (azureScope cfg = "")
        then {| Endpoint := Endpoint cfg; authMethod := authMethod cfg;
                azureScope := defaultAKSServerAppID +:+ "/.default" |}
        else cfg).

Fixpoint parse_entries `{Unicode} (entries : list string) (out : list ClusterConfig)
    : result (list ClusterConfig) :=
  match entries with
  | [] => Ok out
  | entry :: entries =>
    let entry := TrimSpace entry in
    if bool_decide (entry = "") then parse_entries entries out else
    match parse_entry entry with
    | Err err => Err err
    | Ok cfg => parse_entries entries (out ++ [cfg])
    end
  end.

Definition ParseClusterList `{Unicode} (entries : list string) : result (list ClusterConfig) :=
  parse_entries entries [].

(** ** azure.go *)

Definition Second : Z := 1000000000.

Record azureCachedToken := { tok_value : string; tok_expiresAt : Z }.

Record azureWITokenSource := {
  az_tenantID : string;
  az_clientID : string;
  az_tokenFile : string;
  az_scope : string;
  az_cached : option azureCachedToken
}.

Definition newAzureWITokenSource (Getenv : string → string) (scope : string) : result azureWITokenSource :=
  let tenantID := Getenv "AZURE_TENANT_ID" in
  let clientID := Getenv "AZURE_CLIENT_ID" in
  let tokenFile := Getenv "AZURE_FEDERATED_TOKEN_FILE" in
  if bool_decide (tenantID = "") then Err (new_error "AZURE_TENANT_ID environment variable not set") else
  if bool_decide (clientID = "") then Err (new_error "AZURE_CLIENT_ID environment variable not set") else
  if bool_decide (tokenFile = "") then Err (new_error "AZURE_FEDERATED_TOKEN_FILE environment variable not set") else
  Ok {| az_tenantID := tenantID; az_clientID := clientID; az_tokenFile := tokenFile;
        az_scope := scope; az_cached := None |}.

(** What an exchange sees: the token file, the endpoint's answer to a form and
    what reading its body gives, and the clock before and after. *)
Record TokenWorld := {
  now_before : Z;
  now_after : Z;
  token_file : string → result string;
  PostForm : string → list (string * string) → result (result (list ascii))
}.

Section azure.
Context `{Unicode}.

Definition token_names : list string := ["access_token"; "expires_in"; "error"; "error_description"].

Record token_response := {
  tr_AccessToken : string;
  tr_ExpiresIn : Z;
  tr_Error : string;
  tr_Description : string
}.

Definition decode_token : json → option token_response :=
  dec_struct {| tr_AccessToken := ""; tr_ExpiresIn := 0; tr_Error := ""; tr_Description := "" |}
    (fun kvs =>
      access ← get dec_string "" token_names "access_token" kvs;
      expires ← get dec_int 0%Z token_names "expires_in" kvs;
      error ← get dec_string "" token_names "error" kvs;
      description ← get dec_string "" token_names "error_description" kvs;
      Some {| tr_AccessToken := access; tr_ExpiresIn := expires; tr_Error := error;
              tr_Description := description |}).

(** [time.Duration(expiresIn) * time.Second] *)
Definition lifetime (expiresIn : Z) : Z :=
  let expiresIn := if (expiresIn <=? 0)%Z then 3600%Z else expiresIn in
  wrap64 (expiresIn * Second).

Definition exchangeToken (s : azureWITokenSource) (w : TokenWorld) : result (string * Z) :=
  match token_file w (az_tokenFile s) with
  | Err err => Err (wrap_error ("reading federated token from " +:+ az_tokenFile s +:+ ": ") err)
  | Ok federatedToken =>
    let endpoint := "https://login.microsoftonline.com/" +:+ az_tenantID s +:+ "/oauth2/v2.0/token" in
    let body :=
      [("grant_type", "client_credentials"); ("client_id", az_clientID s);
       ("client_assertion_type", "urn:ietf:params:oauth:client-assertion-type:jwt-bearer");
       ("client_assertion", TrimSpace federatedToken); ("scope", az_scope s)] in
    match PostForm w endpoint body with
    | Err err => Err (wrap_error "azure token request failed: " err)
    | Ok (Err err) => Err (wrap_error "reading Azure token response: " err)
    | Ok (Ok raw) =>
      match parse_all (take (N.to_nat 65536) raw) ≫= decode_token with
      | None => Err (new_error "parsing Azure token response: invalid JSON")
      | Some r =>
        if bool_decide (tr_Error r ≠ "") then
          Err (new_error ("azure token error " +:+ tr_Error r +:+ ": " +:+ tr_Description r))
        else if bool_decide (tr_AccessToken r = "") then
          Err (new_error "azure token response contained no access_token")
        else Ok (tr_AccessToken r, now_after w + lifetime (tr_ExpiresIn r))%Z
      end
    end
  end.

(** [Token]: the cached token while more than thirty seconds are left. *)
Definition Token (s : azureWITokenSource) (w : TokenWorld) : result string * azureWITokenSource :=
  let refresh :=
    match exchangeToken s w with
    | Err err => (Err err, s)
    | Ok (token, expiry) =>
      (Ok token, {| az_tenantID := az_tenantID s; az_clientID := az_clientID s;
                    az_tokenFile := az_tokenFile s; az_scope := az_scope s;
                    az_cached := Some {| tok_value := token; tok_expiresAt := expiry |} |})
    end in
  match az_cached s with
  | Some cached => if (now_before w <? tok_expiresAt cached - 30 * Second)%Z then (Ok (tok_value cached), s) else refresh
  | None => refresh
  end.

(** [RoundTrip] of [bearerTokenRoundTripper]: the value of the Authorization
    header the base transport sees. *)
Definition RoundTrip {A} (s : azureWITokenSource) (w : TokenWorld) (base : string → result A)
    : result A * azureWITokenSource :=
  match Token s w with
  | (Err err, s) => (Err (wrap_error "obtaining Bearer token: " err), s)
  | (Ok token, s) => (base ("Bearer " +:+ token), s)
  end.
End azure.

(** ** client.go and manager.go *)
Section manager.
Context `{Unicode, TLSFiles}.

(** The transports the program builds; [ResponseHeaderTimeout] and the like
    are left out. *)
Inductive transport :=
| TLSTransport (rootCAs : option CertPool) (clientCert : option Certificate)
| BearerTransport (source : azureWITokenSource) (base : transport).

Definition tlsTransport (caPool : option CertPool) (clientCert : option Certificate) : transport :=
  TLSTransport caPool clientCert.

(** [rest.TLSClientConfig] and [rest.Config]. *)
Record tls_client_config := {
  tc_CertData : list ascii;
  tc_KeyData : list ascii;
  tc_CAData : list ascii;
  tc_CAFile : string;
  tc_Insecure : bool
}.
Definition no_tls : tls_client_config :=
  {| tc_CertData := []; tc_KeyData := []; tc_CAData := []; tc_CAFile := ""; tc_Insecure := false |}.

Record rest_config := {
  rc_Host : string;
  rc_TLS : tls_client_config;
  rc_Transport : option transport
}.

(** What a connection attempt sees. *)
Record World := {
  Getenv : string → string;
  RecommendedHomeFile : string;
  Stat : string → result unit;
  ClientConfig : string → string → result rest_config;
  X509KeyPair : list ascii → list ascii → result Certificate;
  HTTPClient : Type;
  Mapper : Type;
  HTTPClientFor : rest_config → result HTTPClient;
  plain_client : transport → HTTPClient;
  NewDynamicRESTMapper : rest_config → HTTPClient → result Mapper;
  NewWithWatch : rest_config → Mapper → HTTPClient → result Reader;
  NewDiscoveryClient : rest_config → HTTPClient → result Discovery
}.

Definition buildAzureRESTConfig (w : World) (cfg : ClusterConfig) (caPool : option CertPool)
    : result rest_config :=
  match newAzureWITokenSource (Getenv w) (azureScope cfg) with
  | Err err => Err (wrap_error ("cluster " +:+ Endpoint cfg +:+ ": azure workload identity: ") err)
  | Ok tokenSource =>
    Ok {| rc_Host := Endpoint cfg; rc_TLS := no_tls;
          rc_Transport := Some (BearerTransport tokenSource (tlsTransport caPool None)) |}
  end.

Definition buildKubeconfigRESTConfig (w : World) (cfg : ClusterConfig) (caPool : option CertPool)
    (kubeconfigPath : string) : result rest_config :=
  let contextName := kubeconfigContext cfg in
  let kubeconfigPath := if bool_decide (kubeconfigPath = "") then RecommendedHomeFile w else kubeconfigPath in
  let prefix := "cluster " +:+ Endpoint cfg +:+ ": " in
  match Stat w kubeconfigPath with
  | Err err => Err (wrap_error (prefix +:+ "kubeconfig " +:+ quote kubeconfigPath +:+ " not accessible: ") err)
  | Ok _ =>
    match ClientConfig w kubeconfigPath contextName with
    | Err err =>
      Err (wrap_error (prefix +:+ "building REST config from kubeconfig context " +:+ quote contextName +:+ ": ") err)
    | Ok loaded =>
      let restCfg := {| rc_Host := Endpoint cfg; rc_TLS := rc_TLS loaded; rc_Transport := rc_Transport loaded |} in
      match caPool with
      | None => Ok restCfg
      | Some _ =>
        let cert :=
          if bool_decide (tc_CertData (rc_TLS restCfg) ≠ []) && bool_decide (tc_KeyData (rc_TLS restCfg) ≠ [])
          then match X509KeyPair w (tc_CertData (rc_TLS restCfg)) (tc_KeyData (rc_TLS restCfg)) with
               | Err err => Err (wrap_error (prefix +:+ "loading kubeconfig client certificate: ") err)
               | Ok cert => Ok (Some cert)
               end
          else Ok None in
        clientCert ← cert;
        Ok {| rc_Host := rc_Host restCfg; rc_TLS := no_tls;
              rc_Transport := Some (tlsTransport caPool clientCert) |}
      end
    end
  end.

Definition BuildRESTConfig (w : World) (cfg : ClusterConfig) (caPool : option CertPool)
    (kubeconfigPath : string) : result rest_config :=
  if isAzureWorkloadIdentity cfg then buildAzureRESTConfig w cfg caPool
  else buildKubeconfigRESTConfig w cfg caPool kubeconfigPath.

(** [connect]: the two clients it stores on success. *)
Definition connect (w : World) (cfg : ClusterConfig) (caPool : option CertPool) (kubeconfigPath : string)
    : result (Reader * Discovery) :=
  restCfg ← BuildRESTConfig w cfg caPool kubeconfigPath;
  httpClient ← match HTTPClientFor w restCfg with
    | Ok httpClient => Ok httpClient
    | Err err =>
      match rc_Transport restCfg with
      | Some t => Ok (plain_client w t)
      | None => Err (wrap_error "building HTTP client: " err)
      end
    end;
  mapper ← match NewDynamicRESTMapper w restCfg httpClient with
    | Ok mapper => Ok mapper | Err err => Err (wrap_error "building REST mapper: " err) end;
  c ← match NewWithWatch w restCfg mapper httpClient with
    | Ok c => Ok c | Err err => Err (wrap_error "building client: " err) end;
  dc ← match NewDiscoveryClient w restCfg httpClient with
    | Ok dc => Ok dc | Err err => Err (wrap_error "building discovery client: " err) end;
  Ok (c, dc).

(** [clusterHandle]; the clients are nil until a connection succeeds. *)
Record clusterHandle := {
  h_cfg : ClusterConfig;
  h_clients : option (Reader * Discovery);
  h_ready : bool
}.

Record Manager := {
  m_configs : list ClusterConfig;
  m_caPool : option CertPool;
  m_kubeconfigPath : string;
  m_handles : list clusterHandle
}.

(** Every replica connects, leader or not. *)
Definition Manager_NeedLeaderElection : bool := false.

Definition NewManager (configs : list ClusterConfig) (caPool : option CertPool) (kubeconfigPath : string) : Manager :=
  {| m_configs := configs; m_caPool := caPool; m_kubeconfigPath := kubeconfigPath; m_handles := [] |}.

Definition with_handles (handles : list clusterHandle) (m : Manager) : Manager :=
  {| m_configs := m_configs m; m_caPool := m_caPool m; m_kubeconfigPath := m_kubeconfigPath m;
     m_handles := handles |}.

(** An attempt to connect a handle. *)
Definition try_connect (m : Manager) (w : World) (h : clusterHandle) : clusterHandle :=
  match connect w (h_cfg h) (m_caPool m) (m_kubeconfigPath m) with
  | Err _ => h
  | Ok clients => {| h_cfg := h_cfg h; h_clients := Some clients; h_ready := true |}
  end.

Definition connectAll (w : World) (m : Manager) : Manager :=
  with_handles ((fun cfg => try_connect m w {| h_cfg := cfg; h_clients := None; h_ready := false |}) <$> m_configs m) m.

Definition reconnectDown (w : World) (m : Manager) : Manager :=
  with_handles ((fun h => if h_ready h then h else try_connect m w h) <$> m_handles m) m.

(** [ActiveClusters]; a ready handle has its clients. *)
Definition ActiveClusters (m : Manager) : list ClusterInfo :=
  omap (fun h =>
    if h_ready h then
      match h_clients h with
      | Some (c, dc) => Some {| ci_Name := Endpoint (h_cfg h); ci_Client := c; ci_Discovery := dc |}
      | None => None
      end
    else None) (m_handles m).

(** [Start]: connect, then reconnect what is down at every tick; the list is
    what the connection attempts see, at the start and at each tick. *)
Definition StartManager (m : Manager) (w : World) (ticks : list World) : Manager :=
  foldl (fun m w => reconnectDown w m) (connectAll w m) ticks.

(** *** Permission checks *)

Definition dashboardProbeResources : list GroupVersionKind :=
  [GVK "networking.k8s.io" "v1" "Ingress"; GVK "" "v1" "Service";
   GVK "gateway.networking.k8s.io" "v1" "HTTPRoute"; GVK "gateway.networking.k8s.io" "v1" "GRPCRoute";
   GVK "gateway.networking.k8s.io" "v1" "TLSRoute"; GVK "gateway.networking.k8s.io" "v1alpha2" "TCPRoute";
   GVK "traefik.io" "v1alpha1" "IngressRoute"; GVK "traefik.containo.us" "v1alpha1" "IngressRoute"].

Definition IsForbidden (e : error) : bool := bool_decide (err_class e = KForbidden).
Definition IsUnauthorized (e : error) : bool := bool_decide (err_class e = KUnauthorized).

(** Whether a probe is reported as a missing permission. *)
Definition probe_reported (c : Reader) (dc : Discovery) (p : GroupVersionKind) : bool :=
  match dc (gvk_gv p) with
  | Err _ => false
  | Ok kinds =>
    if negb (existsb (fun k => bool_decide (k = gvk_Kind p)) kinds) then false else
    match list_Unstructured c {| gvk_gv := gvk_gv p; gvk_Kind := gvk_Kind p +:+ "List" |} ∅ with
    | Ok _ => false
    | Err listErr => IsForbidden listErr || IsUnauthorized listErr
    end
  end.

(** [checkPermissions]: the probes it logs. *)
Definition checkPermissions (c : Reader) (dc : Discovery) : list GroupVersionKind :=
  List.filter (probe_reported c dc) dashboardProbeResources.

(** [checkAllPermissions]: per ready cluster, the probes it logs. *)
Definition checkAllPermissions (m : Manager) : list (string * list GroupVersionKind) :=
  (fun ci => (ci_Name ci, checkPermissions (ci_Client ci) (ci_Discovery ci))) <$> ActiveClusters m.

(** The checks of [Start]: one after connecting and one after every tick's
    reconnections. *)
Fixpoint permission_log (m : Manager) (ticks : list World) : list (list (string * list GroupVersionKind)) :=
  checkAllPermissions m ::
  match ticks with [] => [] | w :: ticks => permission_log (reconnectDown w m) ticks end.

Definition LoadFleetCAPool (path : string) : result (option CertPool) :=
  if is_blank path then Ok None else
  match ReadFile path with
  | Err err => Err (wrap_error ("reading fleet trust store from " +:+ path +:+ ": ") err)
  | Ok data =>
    match AppendCertsFromPEM data with
    | None => Err (new_error ("no valid PEM certificates found in fleet trust store " +:+ path))
    | Some pool => Ok (Some pool)
    end
  end.
End manager.
