(* ===== verification/ForeignClusterProps.v ===== *)
(** * ForeignClusterProps: configuration, tokens and connections of foreign clusters *)

From S2P Require Import Prelude GoStrings ApiTypes Dashboard Json Wire Sync ForeignCluster Sample.

(** ** The cluster list *)

(** [denotes entry cfg]: the documented meaning of an [endpoint=auth-method]
    entry. *)
Inductive denotes : string → ClusterConfig → Prop :=
| denotes_context ep auth :
    "="%char ∉ bytes ep → TrimSpace ep ≠ "" → TrimSpace auth ≠ "" →
    TrimSpace auth ≠ authAzureWorkloadIdentity →
    (∀ scope, TrimSpace auth ≠ authAzureWorkloadIdentity +:+ ":" +:+ scope) →
    denotes (ep +:+ "=" +:+ auth)
      {| Endpoint := TrimSpace ep; authMethod := TrimSpace auth; azureScope := "" |}
| denotes_azure ep auth :
    "="%char ∉ bytes ep → TrimSpace ep ≠ "" → TrimSpace auth = authAzureWorkloadIdentity →
    denotes (ep +:+ "=" +:+ auth)
      {| Endpoint := TrimSpace ep; authMethod := authAzureWorkloadIdentity;
         azureScope := defaultAKSServerAppID +:+ "/.default" |}
| denotes_azure_scope ep auth scope :
    "="%char ∉ bytes ep → TrimSpace ep ≠ "" →
    TrimSpace auth = authAzureWorkloadIdentity +:+ ":" +:+ scope →
    denotes (ep +:+ "=" +:+ auth)
      {| Endpoint := TrimSpace ep; authMethod := authAzureWorkloadIdentity;
         azureScope := if bool_decide (TrimSpace scope = "")
           then defaultAKSServerAppID +:+ "/.default" else TrimSpace scope |}.

Lemma azure_no_colon : ":"%char ∉ bytes authAzureWorkloadIdentity.
Proof. apply (bool_decide_unpack _). vm_compute. exact I. Qed.

Section list.
Context `{Unicode}.

Lemma parse_entry_denotes entry cfg : parse_entry entry = Ok cfg ↔ denotes entry cfg.
Proof.
  split.
  - unfold parse_entry. destruct (Cut entry "=") as [[ep auth] ok] eqn:E.
    destruct ok; [|done]. apply Cut_char in E as [-> Hep]. cbn [negb orb].
    case_bool_decide as H1; [done|]. case_bool_decide as H2; [done|]. cbn [orb authMethod Endpoint].
    destruct (Cut (TrimSpace auth) ":") as [[base scope] hasSep] eqn:E.
    destruct hasSep.
    + apply Cut_char in E as [E Hbase]. case_bool_decide as H3; cbn [andb].
      * subst base. unfold isAzureWorkloadIdentity. cbn [authMethod azureScope Endpoint].
        rewrite (bool_decide_true (authAzureWorkloadIdentity = _)) by done. cbn [andb].
        pose proof (denotes_azure_scope ep auth scope Hep H1 E) as Hd. by case_bool_decide; intros [= <-].
      * unfold isAzureWorkloadIdentity. cbn [authMethod azureScope Endpoint].
        rewrite bool_decide_false; [intros [= <-]|]; [apply denotes_context; try done|].
        -- intros Ha. rewrite Ha in E. apply azure_no_colon. rewrite E, !bytes_app. set_solver.
        -- intros scope' Ha. apply H3.
           assert (Cut (TrimSpace auth) ":" = (base, scope, true)) as C1 by by apply Cut_char.
           assert (Cut (TrimSpace auth) ":" = (authAzureWorkloadIdentity, scope', true)) as C2.
           { apply Cut_char. split; [done|apply azure_no_colon]. }
           congruence.
        -- intros Ha. rewrite Ha in E. apply azure_no_colon. rewrite E, !bytes_app. set_solver.
    + apply Cut_char_none in E as (-> & -> & Hc). cbn [andb].
      unfold isAzureWorkloadIdentity. cbn [authMethod azureScope Endpoint]. case_bool_decide as H3.
      * rewrite bool_decide_true by done. intros [= <-]. rewrite H3. by apply denotes_azure.
      * intros [= <-]. apply denotes_context; try done. intros scope Ha. apply Hc.
        rewrite Ha, !bytes_app. set_solver.
  - unfold parse_entry. destruct 1 as [ep auth H1 H2 H3 H4 H5|ep auth H1 H2 H3|ep auth scope H1 H2 H3];
      rewrite (proj2 (Cut_char (ep +:+ "=" +:+ auth) "=" ep auth)) by done; cbn [negb orb];
      rewrite (bool_decide_false (TrimSpace ep = "")) by done; cbn [orb authMethod Endpoint].
    + rewrite bool_decide_false by done.
      destruct (Cut (TrimSpace auth) ":") as [[base scope] hasSep] eqn:E.
      assert (hasSep && bool_decide (base = authAzureWorkloadIdentity) = false) as ->.
      { destruct hasSep; [|done]. apply Cut_char in E as [E _]. rewrite bool_decide_false; [done|].
        intros ->. by apply (H5 scope). }
      unfold isAzureWorkloadIdentity. cbn [authMethod azureScope]. by rewrite bool_decide_false.
    + rewrite H3. reflexivity.
    + rewrite H3. rewrite (proj2 (Cut_char (authAzureWorkloadIdentity +:+ ":" +:+ scope) ":" authAzureWorkloadIdentity scope))
        by (split; [done|apply azure_no_colon]).
      rewrite bool_decide_false by done. cbn [andb]. rewrite (bool_decide_true (authAzureWorkloadIdentity = _)) by done.
      unfold isAzureWorkloadIdentity. cbn [authMethod azureScope Endpoint].
      rewrite (bool_decide_true (authAzureWorkloadIdentity = _)) by done. cbn [andb]. by case_bool_decide.
Qed.

(** The entries that count: trimmed, blanks dropped. *)
Definition listed (entries : list string) : list string := filter (.≠ "") (TrimSpace <$> entries).

Lemma parse_entries_spec entries out cfgs :
  parse_entries entries out = Ok cfgs ↔ ∃ new, cfgs = out ++ new ∧ Forall2 denotes (listed entries) new.
Proof.
  revert out. induction entries as [|entry entries IH]; intros out.
  - simpl. split; [intros [= ->]; exists []; by rewrite app_nil_r|].
    intros (new & -> & Hn). apply Forall2_nil_inv_l in Hn as ->. by rewrite app_nil_r.
  - cbn [parse_entries]. unfold listed. rewrite fmap_cons, filter_cons.
    destruct (decide (TrimSpace entry = "")) as [Hb|Hb].
    + rewrite bool_decide_true by done. rewrite decide_False by auto. apply IH.
    + rewrite bool_decide_false by done. rewrite decide_True by done.
      destruct (parse_entry (TrimSpace entry)) as [cfg|e] eqn:E.
      * rewrite IH. split.
        -- intros (new & -> & Hn). exists (cfg :: new). rewrite <-app_assoc. split; [done|].
           constructor; [by apply parse_entry_denotes|done].
        -- intros (new & -> & Hn). apply Forall2_cons_inv_l in Hn as (cfg' & new' & Hd & Hn & ->).
           apply parse_entry_denotes in Hd. rewrite E in Hd. injection Hd as <-.
           exists new'. by rewrite <-app_assoc.
      * split; [done|]. intros (new & -> & Hn).
        apply Forall2_cons_inv_l in Hn as (cfg' & new' & Hd & Hn & ->).
        apply parse_entry_denotes in Hd. congruence.
Qed.

(** C31: the cluster list is accepted exactly when every entry that is not
    blank has the documented form, and means what the documentation says. *)
Theorem parse_cluster_list entries cfgs :
  ParseClusterList entries = Ok cfgs ↔ Forall2 denotes (listed entries) cfgs.
Proof.
  unfold ParseClusterList. rewrite parse_entries_spec. split; [by intros (new & -> & ?)|].
  intros ?. by exists cfgs.
Qed.
End list.

(** ** Azure tokens *)
Section token.
Context `{Unicode}.
Implicit Types (s : azureWITokenSource) (w : TokenWorld).

(** The cached token has more than thirty seconds left. *)
Definition usable s w (t : azureCachedToken) : Prop :=
  az_cached s = Some t ∧ (now_before w + 30 * Second < tok_expiresAt t)%Z.

Lemma Token_cached s w t : usable s w t → Token s w = (Ok (tok_value t), s).
Proof. intros [E Hlt]. unfold Token. rewrite E. by rewrite (proj2 (Z.ltb_lt _ _)) by lia. Qed.

Lemma Token_refresh s w : (∀ t, ¬ usable s w t) →
  (Token s w).1 = fst <$> exchangeToken s w ∧
  az_cached (Token s w).2 =
    match exchangeToken s w with
    | Ok (token, expiry) => Some {| tok_value := token; tok_expiresAt := expiry |}
    | Err _ => az_cached s
    end.
Proof.
  intros Hn. unfold Token, usable in *. destruct (az_cached s) as [t|] eqn:E.
  - destruct (Z.ltb_spec (now_before w) (tok_expiresAt t - 30 * Second)) as [Hlt|_].
    + destruct (Hn t). split; [done|lia].
    + by destruct (exchangeToken s w) as [[token expiry]|e].
  - by destruct (exchangeToken s w) as [[token expiry]|e].
Qed.

(** C33: a token handed out is the cached one with more than thirty seconds
    left, in which case nothing changes, or the result of an exchange, which
    is then cached with its expiry; a failed exchange is reported and keeps
    the cache. *)
Theorem token_refreshed_in_time s w :
  match Token s w with
  | (Ok v, s') =>
    (∃ e, az_cached s = Some {| tok_value := v; tok_expiresAt := e |} ∧
      (now_before w + 30 * Second < e)%Z ∧ s' = s) ∨
    (∃ e, exchangeToken s w = Ok (v, e) ∧ az_cached s' = Some {| tok_value := v; tok_expiresAt := e |})
  | (Err err, s') =>
    exchangeToken s w = Err err ∧ az_cached s' = az_cached s ∧ ∀ t, ¬ usable s w t
  end.
Proof.
  assert ((∃ t, usable s w t) ∨ ∀ t, ¬ usable s w t) as [[t Ht]|Hn].
  { unfold usable. destruct (az_cached s) as [t|]; [|right; by intros t [? _]].
    destruct (Z.lt_ge_cases (now_before w + 30 * Second) (tok_expiresAt t)); [left; by exists t|].
    right. intros t' [[= <-] ?]. lia. }
  - rewrite (Token_cached _ _ _ Ht). left. destruct Ht as [E Hlt]. exists (tok_expiresAt t).
    rewrite E. split; [by destruct t|done].
  - pose proof (Token_refresh s w Hn) as [H1 H2]. destruct (Token s w) as [[v|err] s']; cbn in H1, H2.
    + destruct (exchangeToken s w) as [[token e]|]; [|done]. cbn in H1. injection H1 as ->. right. by exists e.
    + destruct (exchangeToken s w) as [[token e]|err']; [done|]. cbn in H1. injection H1 as ->. done.
Qed.

(** The lifetime a token is cached for is the number of seconds the
    endpoint announced (an hour when it announced none), as long as that
    number of nanoseconds fits in 64 bits; one second more and the token
    counts as expired long ago. *)
Theorem lifetime_bounds :
  (∀ n, (0 < n ≤ 9223372036)%Z → lifetime n = (n * Second)%Z) ∧
  (∀ n, (n ≤ 0)%Z → lifetime n = (3600 * Second)%Z) ∧
  (lifetime 9223372037 < -9000000000 * Second)%Z.
Proof.
  unfold lifetime, Second. split_and!.
  - intros n Hn. rewrite (proj2 (Z.leb_gt _ _)) by lia. apply wrap64_id.
    unfold in_int64, int64_min, int64_max. lia.
  - intros n Hn. by rewrite (proj2 (Z.leb_le _ _)).
  - by vm_compute.
Qed.
End token.

(** ** Connections *)
Section manager.
Context `{Unicode, TLSFiles}.

(** What a cluster's connection is, after attempts in the given worlds: the
    first that succeeds. *)
Definition first_success (m : Manager) (ws : list World) (cfg : ClusterConfig) : option (Reader * Discovery) :=
  find_map (fun w => match connect w cfg (m_caPool m) (m_kubeconfigPath m) with
    | Ok clients => Some clients | Err _ => None end) ws.

Definition handle_of (m : Manager) (ws : list World) (cfg : ClusterConfig) : clusterHandle :=
  {| h_cfg := cfg; h_clients := first_success m ws cfg;
     h_ready := match first_success m ws cfg with Some _ => true | None => false end |}.

Lemma first_success_snoc m ws w cfg :
  first_success m (ws ++ [w]) cfg =
  match first_success m ws cfg with
  | Some c => Some c
  | None => match connect w cfg (m_caPool m) (m_kubeconfigPath m) with Ok c => Some c | Err _ => None end
  end.
Proof.
  unfold first_success. induction ws as [|w' ws IH]; simpl.
  - by destruct (connect w cfg _ _).
  - by destruct (connect w' cfg _ _).
Qed.

(** The manager after its attempts: one handle per configured cluster, in
    order. *)
Definition managed (m : Manager) (ws : list World) : Manager :=
  with_handles (handle_of m ws <$> m_configs m) m.

Lemma connectAll_managed m w : connectAll w m = managed m [w].
Proof.
  unfold connectAll, managed. f_equal. apply list_fmap_ext. intros i cfg _.
  unfold try_connect, handle_of, first_success. simpl. by destruct (connect w cfg _ _).
Qed.

Lemma reconnectDown_managed m ws w : reconnectDown w (managed m ws) = managed m (ws ++ [w]).
Proof.
  unfold reconnectDown, managed, with_handles. simpl. f_equal. rewrite <-list_fmap_compose.
  apply list_fmap_ext. intros i cfg _. unfold compose, handle_of, try_connect. simpl.
  rewrite first_success_snoc. destruct (first_success m ws cfg) eqn:E; simpl; [done|].
  by destruct (connect w cfg _ _).
Qed.

Lemma StartManager_managed m w ws : StartManager m w ws = managed m (w :: ws).
Proof.
  unfold StartManager. rewrite connectAll_managed. change (w :: ws) with ([w] ++ ws).
  generalize [w] as done_so_far. induction ws as [|w' ws IH]; intros l; simpl; [by rewrite app_nil_r|].
  rewrite reconnectDown_managed, IH, <-app_assoc. done.
Qed.

(** C34: at any time the dashboard is given exactly the clusters for which an
    attempt to connect has succeeded, in the configured order, with the
    clients of the first success: a cluster that is down is retried at every
    tick, one that is up is kept. *)
Theorem active_clusters m w ws :
  ActiveClusters (StartManager m w ws) =
  omap (fun cfg => (fun c => {| ci_Name := Endpoint cfg; ci_Client := c.1; ci_Discovery := c.2 |})
    <$> first_success m (w :: ws) cfg) (m_configs m).
Proof.
  rewrite StartManager_managed. unfold ActiveClusters, managed, with_handles. simpl.
  induction (m_configs m) as [|cfg cfgs IH]; [done|]. rewrite fmap_cons. cbn [omap list_omap].
  cbn [handle_of h_ready h_clients h_cfg]. rewrite IH.
  by destruct (first_success m (w :: ws) cfg) as [[c dc]|].
Qed.

(** The roots a transport trusts. *)
Fixpoint roots (t : transport) : option CertPool :=
  match t with TLSTransport rootCAs _ => rootCAs | BearerTransport _ base => roots base end.

(** C32: every connection goes to the configured endpoint, whatever the
    kubeconfig says, and when a fleet trust store is configured its server is
    verified against that store alone. *)
Theorem rest_config_pinned w cfg caPool kubeconfigPath rc :
  BuildRESTConfig w cfg caPool kubeconfigPath = Ok rc →
  rc_Host rc = Endpoint cfg ∧
  (caPool ≠ None → rc_TLS rc = no_tls ∧ ∃ t, rc_Transport rc = Some t ∧ roots t = caPool).
Proof.
  unfold BuildRESTConfig. destruct (isAzureWorkloadIdentity cfg).
  - unfold buildAzureRESTConfig. destruct (newAzureWITokenSource _ _); [|done].
    intros [= <-]. split; [done|]. intros _. split; [done|]. by eexists.
  - unfold buildKubeconfigRESTConfig. cbv zeta. destruct (Stat w _); [|done].
    destruct (ClientConfig w _ _) as [loaded|]; [|done]. destruct caPool as [pool|]; [|by intros [= <-]].
    destruct (if _ && _ then _ else _) as [clientCert|]; [|done]. intros [= <-].
    split; [done|]. intros _. split; [done|]. by eexists.
Qed.
End manager.

(** A missing permission is reported exactly for the resources the
    dashboard reads that the cluster serves and refuses to list. *)
Theorem permissions_reported `{Unicode, TLSFiles} c dc p :
  p ∈ checkPermissions c dc ↔ p ∈ dashboardProbeResources ∧
    ∃ kinds e, dc (gvk_gv p) = Ok kinds ∧ gvk_Kind p ∈ kinds ∧
      list_Unstructured c {| gvk_gv := gvk_gv p; gvk_Kind := gvk_Kind p +:+ "List" |} ∅ = Err e ∧
      (err_class e = KForbidden ∨ err_class e = KUnauthorized).
Proof.
  unfold checkPermissions. rewrite elem_of_filter_bool. rewrite (and_comm (_ = true)). f_equiv.
  unfold probe_reported. destruct (dc (gvk_gv p)) as [kinds|]; [|naive_solver].
  assert (existsb (fun k => bool_decide (k = gvk_Kind p)) kinds = true ↔ gvk_Kind p ∈ kinds) as Hk.
  { rewrite existsb_exists. setoid_rewrite bool_decide_eq_true. setoid_rewrite <-list_elem_of_In. naive_solver. }
  destruct (existsb _ kinds); cbn [negb]; [|naive_solver].
  destruct (list_Unstructured c _ ∅) as [l|e]; [naive_solver|].
  unfold IsForbidden, IsUnauthorized. rewrite orb_true_iff, !bool_decide_eq_true. naive_solver.
Qed.

(** ** Witnesses *)

(** Certificates and pools named by their files. *)
Definition sample_files : TLSFiles :=
  {| Certificate := string; CertPool := string; ReadFile := fun path => Ok (bytes path);
     LoadX509KeyPair := fun cert _ => Ok cert; AppendCertsFromPEM := fun data => Some (str data) |}.

Definition sample_world : @World sample_files :=
  {| Getenv := fun name => if bool_decide (name = "AZURE_TENANT_ID") then "tenant" else "client";
     RecommendedHomeFile := "/root/.kube/config"; Stat := fun _ => Ok tt;
     ClientConfig := fun _ context =>
       Ok {| rc_Host := "https://" +:+ context;
             rc_TLS := {| tc_CertData := bytes "cert"; tc_KeyData := bytes "key"; tc_CAData := bytes "ca";
                          tc_CAFile := ""; tc_Insecure := true |};
             rc_Transport := None |};
     X509KeyPair := fun cert _ => Ok (str cert : @Certificate sample_files);
     HTTPClient := unit; Mapper := unit; HTTPClientFor := fun _ => Ok tt; plain_client := fun _ => tt;
     NewDynamicRESTMapper := fun _ _ => Ok tt; NewWithWatch := fun _ _ _ => Ok edge_reader;
     NewDiscoveryClient := fun _ _ => Ok no_discovery |}.

Definition prod_cluster : ClusterConfig :=
  {| Endpoint := "https://prod.example:443"; authMethod := "prod"; azureScope := "" |}.

Lemma rest_config_pinned_witness : ∃ rc,
  @BuildRESTConfig _ sample_files sample_world prod_cluster (Some "fleet.pem" : option (@CertPool sample_files)) ""
    = Ok rc ∧ rc_Host rc = "https://prod.example:443" ∧ rc_TLS rc = no_tls.
Proof.
  destruct (@BuildRESTConfig _ sample_files sample_world prod_cluster (Some "fleet.pem") "") as [rc|e] eqn:E;
    [|vm_compute in E; discriminate].
  exists rc. split; [done|].
  destruct (@rest_config_pinned _ sample_files sample_world prod_cluster (Some "fleet.pem") "" rc E) as [H1 H2].
  split; [exact H1|]. apply H2. discriminate.
Defined.

Example cluster_list_example :
  ParseClusterList [" https://a.example:443=prod "; ""; "https://b.example=azure-workload-identity:api://x/.default"] =
  Ok [{| Endpoint := "https://a.example:443"; authMethod := "prod"; azureScope := "" |};
      {| Endpoint := "https://b.example"; authMethod := authAzureWorkloadIdentity;
         azureScope := "api://x/.default" |}].
Proof. vm_compute. reflexivity. Qed.
