(* ===== verification/Setup.v ===== *)
(** * Setup: what is registered before the manager starts

    The [init] functions of [api/] and [cmd/main.go], which fill the scheme,
    and the [SetupWithManager] functions, which say what a controller or a
    webhook is for.  The builder of controller-runtime and the scheme of
    apimachinery are outside: [SchemeLib] is what the program uses of them. *)

From S2P Require Import Prelude ApiTypes.

(** ** Types of objects *)
Inductive go_type :=
| GoBookmark | GoBookmarkList
| GoBookmarkGroup | GoBookmarkGroupList
| GoInfoTile | GoInfoTileList
| GoForecastleApp | GoForecastleAppList.
#[export] Instance go_type_eq_dec : EqDecision go_type.
Proof. solve_decision. Defined.

(** ** The builders of [api/] *)
Definition dashboard_SchemeGroupVersion : GroupVersion :=
  {| gv_Group := "dashboard.netztronaut.de"; gv_Version := "v1alpha1" |}.

(** [scheme.Builder]: the objects registered so far. *)
Record SchemeBuilder := { sb_GroupVersion : GroupVersion; sb_objects : list go_type }.

Definition Register (objects : list go_type) (b : SchemeBuilder) : SchemeBuilder :=
  {| sb_GroupVersion := sb_GroupVersion b; sb_objects := sb_objects b ++ objects |}.

(** The [init] functions, in the order of their files. *)
Definition bookmark_types_init (b : SchemeBuilder) : SchemeBuilder :=
  Register [GoBookmarkGroup; GoBookmarkGroupList] (Register [GoBookmark; GoBookmarkList] b).
Definition infotile_types_init (b : SchemeBuilder) : SchemeBuilder :=
  Register [GoInfoTile; GoInfoTileList] b.
Definition forecastleapp_types_init (b : SchemeBuilder) : SchemeBuilder :=
  Register [GoForecastleApp; GoForecastleAppList] b.

Definition dashboard_SchemeBuilder : SchemeBuilder :=
  infotile_types_init (bookmark_types_init {| sb_GroupVersion := dashboard_SchemeGroupVersion; sb_objects := [] |}).
Definition forecastle_SchemeBuilder : SchemeBuilder :=
  forecastleapp_types_init {| sb_GroupVersion := forecastle_GroupVersion; sb_objects := [] |}.

(** ** The scheme *)
Class SchemeLib := {
  scheme : Type;
  NewScheme : scheme;
  clientgoscheme_AddToScheme : scheme → result scheme;
  AddToScheme : SchemeBuilder → scheme → result scheme;
  (** The group, version and kind an object is served under. *)
  ObjectKind : scheme → go_type → option GroupVersion
}.

(** Adding types succeeds, and a type stays what it was added as. *)
Class SchemeLaws `{SchemeLib} : Prop := {
  clientgo_keeps : ∀ s, ∃ s', clientgoscheme_AddToScheme s = Ok s';
  AddToScheme_adds : ∀ b s, (∀ t, t ∈ sb_objects b → ObjectKind s t = None) → ∃ s', AddToScheme b s = Ok s' ∧
    ∀ t, ObjectKind s' t = if bool_decide (t ∈ sb_objects b) then Some (sb_GroupVersion b) else ObjectKind s t;
  clientgo_foreign : ∀ s s' t, clientgoscheme_AddToScheme s = Ok s' → ObjectKind s' t = ObjectKind s t;
  NewScheme_empty : ∀ t, ObjectKind NewScheme t = None
}.

(** [init] of cmd/main.go; [utilruntime.Must] panics on errors. *)
Definition main_init `{SchemeLib} : result scheme :=
  s ← clientgoscheme_AddToScheme NewScheme;
  s ← AddToScheme dashboard_SchemeBuilder s;
  AddToScheme forecastle_SchemeBuilder s.

(** ** Controllers and webhooks *)
Record controller := { ctl_For : go_type; ctl_Named : string }.

Definition BookmarkGroupReconciler_SetupWithManager : controller :=
  {| ctl_For := GoBookmarkGroup; ctl_Named := "dashboard-bookmarkgroup" |}.
Definition BookmarkReconciler_SetupWithManager : controller :=
  {| ctl_For := GoBookmark; ctl_Named := "dashboard-bookmark" |}.
Definition InfoTileReconciler_SetupWithManager : controller :=
  {| ctl_For := GoInfoTile; ctl_Named := "dashboard-infotile" |}.

(** The type a webhook validates; its validator is the one of Webhook. *)
Definition SetupBookmarkGroupWebhookWithManager : go_type := GoBookmarkGroup.
Definition SetupBookmarkWebhookWithManager : go_type := GoBookmark.

(** ** The scheme knows every custom resource, under its own group *)
Definition served_under (t : go_type) : GroupVersion :=
  match t with
  | GoForecastleApp | GoForecastleAppList => forecastle_GroupVersion
  | _ => dashboard_SchemeGroupVersion
  end.

(** The scheme of [main] is complete, and filling it does not panic. *)
Theorem scheme_complete `{SchemeLaws} : ∃ s, main_init = Ok s ∧ ∀ t, ObjectKind s t = Some (served_under t).
Proof.
  unfold main_init. destruct (clientgo_keeps NewScheme) as [s0 Hs0]. rewrite Hs0. cbn.
  assert (∀ t, ObjectKind s0 t = None) as Hn by (intros t; rewrite (clientgo_foreign _ _ _ Hs0); apply NewScheme_empty).
  destruct (AddToScheme_adds dashboard_SchemeBuilder s0) as (s1 & Hs1 & Hk1); [intros; apply Hn|]. rewrite Hs1. cbn.
  destruct (AddToScheme_adds forecastle_SchemeBuilder s1) as (s2 & Hs2 & Hk2).
  { intros t Ht. rewrite Hk1, Hn, bool_decide_false; [done|]. cbn in *. set_solver. }
  exists s2. split; [done|]. intros t. rewrite Hk2, Hk1. by destruct t.
Qed.
