(* ===== verification/Main.v ===== *)
(** * Main: cmd/main.go

    From the command line to a running manager: how flags, environment and
    configuration file make the settings, what is registered with the manager
    and in which order, the probe of the identity provider, and the informers
    that notify the dashboard.  Viper, client-go and controller-runtime are
    outside: [Viper] is a loaded configuration, [Platform] what the calls to
    the libraries and to the operating system return. *)

From S2P Require Import Prelude GoStrings ApiTypes Links Dashboard Json Wire Sync Url Http Auth.
From S2P Require Import Flags Templates Handler ForeignCluster Notifier Setup.

(** ** Configuration *)

(** What the program asks of a [*viper.Viper]. *)
Record Viper := {
  IsSet : string → bool;
  GetString : string → string;
  GetBool : string → bool;
  GetStringSlice : string → list string;
  UnmarshalLinkGroups : string → result (list LinkGroup);
  UnmarshalStaticLinks : string → result (list StaticLink)
}.

(** The calls that configure it: [SetEnvKeyReplacer], [AutomaticEnv],
    [BindEnv] and [SetConfigFile]. *)
Record viper_options := {
  vo_EnvKeyReplacer : list (string * string);
  vo_AutomaticEnv : bool;
  vo_BindEnv : list (string * string);
  vo_ConfigFile : option string
}.

Definition env_bindings : list (string * string) :=
  [("watchNamespace", "WATCH_NAMESPACE"); ("localTesting", "LOCAL_TESTING");
   ("enableWebhooks", "ENABLE_WEBHOOKS"); ("auth.enabled", "ENABLE_AUTH");
   ("auth.cookieSecret", "CUPBOARD_COOKIE_SECRET"); ("auth.issuerURL", "OIDC_ISSUER_URL");
   ("auth.skipProbe", "SKIP_OIDC_PROBE"); ("auth.clientID", "OIDC_CLIENT_ID");
   ("auth.redirectPath", "OIDC_REDIRECT_PATH"); ("auth.scopes", "OIDC_SCOPES");
   ("auth.userInfoEndpoint", "OIDC_USERINFO_ENDPOINT");
   ("forecastle.instance", "CUPBOARD_FORECASTLE_INSTANCE");
   ("page.title", "CUPBOARD_PAGE_TITLE"); ("page.faviconURL", "CUPBOARD_FAVICON_URL");
   ("page.templateSet", "CUPBOARD_TEMPLATE_SET"); ("page.contentLayout", "CUPBOARD_CONTENT_LAYOUT");
   ("sync.bindAddress", "CUPBOARD_SYNC_BIND_ADDRESS");
   ("sync.tls.ca", "CUPBOARD_SYNC_TLS_CA"); ("sync.tls.cert", "CUPBOARD_SYNC_TLS_CERT");
   ("sync.tls.key", "CUPBOARD_SYNC_TLS_KEY"); ("sync.tls.authCert", "CUPBOARD_SYNC_TLS_AUTH_CERT");
   ("sync.tls.authKey", "CUPBOARD_SYNC_TLS_AUTH_KEY");
   ("fleet.trustStore", "CUPBOARD_FLEET_TRUST_STORE"); ("fleet.kubeconfig", "CUPBOARD_FLEET_KUBECONFIG");
   ("fleet.clusters", "CUPBOARD_FLEET_CLUSTERS")].

(** [loadViperConfig]; [load] is viper, [getenv] is [os.Getenv]. *)
Definition loadViperConfig (load : viper_options → result Viper) (getenv : string → string)
    (configFile : string) : result Viper :=
  let configFile := if is_blank configFile then getenv "CUPBOARD_CONFIG" else configFile in
  load {| vo_EnvKeyReplacer := [(".", "_")]; vo_AutomaticEnv := true; vo_BindEnv := env_bindings;
          vo_ConfigFile := if is_blank configFile then None else Some configFile |}.

Definition firstNonEmpty (values : list string) : string :=
  default "" (find_map (fun value => if is_blank value then None else Some value) values).

(** [explicitFlags]: [fs.Visit] visits the flags that were given. *)
Definition explicitFlags (fs : flag_set) : gset string := dom fs.

Definition resolveStringFlag (config : Viper) (setFlags : gset string) (flagName configKey current : string)
    : string :=
  if bool_decide (flagName ∈ setFlags) then current else
  if IsSet config configKey then GetString config configKey else current.

Definition resolveBoolFlag (config : Viper) (setFlags : gset string) (flagName configKey : string)
    (current : bool) : bool :=
  if bool_decide (flagName ∈ setFlags) then current else
  if IsSet config configKey then GetBool config configKey else current.

Definition comma : ascii := ","%char.

Definition splitCommaFlag (s : string) : list string :=
  List.filter (fun v => bool_decide (v ≠ "")) (TrimSpace <$> Split s comma).

(** [setupCacheNamespaces]: the keys of [DefaultNamespaces]; [None] is the
    empty [cache.Options], which restricts nothing. *)
Definition setupCacheNamespaces (namespaces : string) : option (gset string) :=
  if bool_decide (namespaces = "") then None
  else Some (list_to_set (TrimSpace <$> Split namespaces comma)).

(** ** The command line *)

(** The string flags of [main] with their defaults, and the boolean ones. *)
Definition string_flags : list (string * string) :=
  [("metrics-bind-address", "0"); ("health-probe-bind-address", ":8081"); ("web-bind-address", ":8082");
   ("webhook-cert-path", ""); ("webhook-cert-name", "tls.crt"); ("webhook-cert-key", "tls.key");
   ("metrics-cert-path", ""); ("metrics-cert-name", "tls.crt"); ("metrics-cert-key", "tls.key");
   ("forecastle-instance", ""); ("config", ""); ("sync-bind-address", ":8083"); ("sync-urls", "");
   ("sync-srv-records", ""); ("sync-tls-ca", ""); ("sync-tls-cert", ""); ("sync-tls-key", "");
   ("sync-tls-auth-cert", ""); ("sync-tls-auth-key", ""); ("fleet-trust-store", "");
   ("fleet-kubeconfig", ""); ("fleet-clusters", "")].
Definition bool_flags : list (string * bool) :=
  [("leader-elect", false); ("metrics-secure", true); ("enable-http2", false); ("enable-auth", true);
   ("skip-oidc-probe", false)].

Definition main_flags : list flag_decl :=
  (StringVar <$> string_flags.*1) ++ (BoolVar <$> bool_flags.*1).

(** The default a flag is declared with. *)
Definition string_default (name : string) : string :=
  default "" (find_map (fun d => if bool_decide (d.1 = name) then Some d.2 else None) string_flags).
Definition bool_default (name : string) : bool :=
  default false (find_map (fun d => if bool_decide (d.1 = name) then Some d.2 else None) bool_flags).

(** ** Settings *)

(** The variables of [main] once flags and configuration are resolved. *)
Record settings := {
  metricsAddr : string;
  probeAddr : string;
  webAddr : string;
  enableLeaderElection : bool;
  secureMetrics : bool;
  webhookCertPath : string;
  webhookCertName : string;
  webhookCertKey : string;
  metricsCertPath : string;
  metricsCertName : string;
  metricsCertKey : string;
  enableHTTP2 : bool;
  enableAuth : bool;
  skipOIDCProbe : bool;
  forecastleInstance : string;
  syncAddr : string;
  syncTLS : SyncTLSOptions;
  fleetTrustStore : string;
  fleetKubeconfig : string;
  syncURLs : list string;
  syncSRVRecords : list string;
  fleetClusterEntries : list string;
  localTesting : bool;
  enableWebhooks : bool;
  watchNamespace : string
}.

Definition resolve_settings (fs : flag_set) (config : Viper) : settings :=
  let setFlags := explicitFlags fs in
  let str flag key := resolveStringFlag config setFlags flag key (string_var fs flag (string_default flag)) in
  let bool flag key := resolveBoolFlag config setFlags flag key (bool_var fs flag (bool_default flag)) in
  let list flag key :=
    if bool_decide (flag ∈ setFlags) then splitCommaFlag (string_var fs flag (string_default flag)) else
    if IsSet config key then GetStringSlice config key else [] in
  {| metricsAddr := str "metrics-bind-address" "metrics.bindAddress";
     probeAddr := str "health-probe-bind-address" "health.probeBindAddress";
     webAddr := str "web-bind-address" "web.bindAddress";
     enableLeaderElection := bool "leader-elect" "leaderElection.enabled";
     secureMetrics := bool "metrics-secure" "metrics.secure";
     webhookCertPath := str "webhook-cert-path" "webhook.cert.path";
     webhookCertName := str "webhook-cert-name" "webhook.cert.name";
     webhookCertKey := str "webhook-cert-key" "webhook.cert.key";
     metricsCertPath := str "metrics-cert-path" "metrics.cert.path";
     metricsCertName := str "metrics-cert-name" "metrics.cert.name";
     metricsCertKey := str "metrics-cert-key" "metrics.cert.key";
     enableHTTP2 := bool "enable-http2" "http2.enabled";
     enableAuth := bool "enable-auth" "auth.enabled";
     skipOIDCProbe := bool "skip-oidc-probe" "auth.skipProbe";
     forecastleInstance := str "forecastle-instance" "forecastle.instance";
     syncAddr := str "sync-bind-address" "sync.bindAddress";
     syncTLS := {| stls_CA := str "sync-tls-ca" "sync.tls.ca";
                   stls_Cert := str "sync-tls-cert" "sync.tls.cert";
                   stls_Key := str "sync-tls-key" "sync.tls.key";
                   stls_AuthCert := str "sync-tls-auth-cert" "sync.tls.authCert";
                   stls_AuthKey := str "sync-tls-auth-key" "sync.tls.authKey" |};
     fleetTrustStore := str "fleet-trust-store" "fleet.trustStore";
     fleetKubeconfig := str "fleet-kubeconfig" "fleet.kubeconfig";
     syncURLs := list "sync-urls" "sync.urls";
     syncSRVRecords := list "sync-srv-records" "sync.srvRecords";
     fleetClusterEntries :=
       if bool_decide ("fleet-clusters" ∈ setFlags)
       then splitCommaFlag (string_var fs "fleet-clusters" (string_default "fleet-clusters")) else
       if IsSet config "fleet.clusters" then splitCommaFlag (GetString config "fleet.clusters") else [];
     localTesting := GetBool config "localTesting";
     enableWebhooks := if IsSet config "enableWebhooks" then GetBool config "enableWebhooks" else true;
     watchNamespace := TrimSpace (GetString config "watchNamespace") |}.

(** ** Startup *)

(** How far [main] gets: it goes on, the process exits, or it still waits for
    the identity provider. *)
Inductive startup (A : Type) :=
| Going (a : A)
| Exit (code : Z) (message : string)
| Waiting.
Arguments Going {_} _.
Arguments Exit {_} _ _.
Arguments Waiting {_}.

#[export] Instance startup_ret : MRet startup := fun _ a => Going a.
#[export] Instance startup_bind : MBind startup := fun _ _ f m =>
  match m with Going a => f a | Exit code message => Exit code message | Waiting => Waiting end.

(** [if err != nil { setupLog.Error(err, message); os.Exit(1) }] *)
Definition must {A} (message : string) (r : result A) : startup A :=
  match r with Ok a => Going a | Err _ => Exit 1 message end.

(** [flag.Parse] of [flag.CommandLine], which exits on errors. *)
Definition parse_command_line `{Unicode} (library_flags : list flag_decl) (args : list string) : startup flag_set :=
  match parse_flags (main_flags ++ library_flags) args ∅ with
  | Parsed fs => Going fs
  | Help => Exit 0 "usage"
  | BadFlag message => Exit 2 message
  end.

(** The link groups and static links of the configuration: two keys each, the
    second appended to the first. *)
Definition unmarshal {A} (config : Viper) (get : string → result (list A)) (key : string) : startup (list A) :=
  if IsSet config key then must ("Failed to parse " +:+ key +:+ " from configuration") (get key) else Going [].

Definition configured_link_groups (config : Viper) : startup (list LinkGroup) :=
  linkGroups ← unmarshal config (UnmarshalLinkGroups config) "linkGroups";
  dashboardLinkGroups ← unmarshal config (UnmarshalLinkGroups config) "dashboard.linkGroups";
  Going (linkGroups ++ dashboardLinkGroups).

Definition configured_static_links (config : Viper) : startup (list StaticLink) :=
  staticLinks ← unmarshal config (UnmarshalStaticLinks config) "staticLinks";
  dashboardStaticLinks ← unmarshal config (UnmarshalStaticLinks config) "dashboard.staticLinks";
  Going (staticLinks ++ dashboardStaticLinks).

(** *** TLS options of the metrics and webhook servers *)

(** An option is a function on a TLS configuration; the only one there is
    sets [NextProtos]. *)
Definition TLSOpt : Type := list string → list string.
Definition disableHTTP2 : TLSOpt := fun _ => ["http/1.1"].
Definition tlsOpts (s : settings) : list TLSOpt := if enableHTTP2 s then [] else [disableHTTP2].

Record server_options := {
  sv_TLSOpts : list TLSOpt;
  sv_CertDir : string;
  sv_CertName : string;
  sv_KeyName : string
}.

(** The certificate is only set when its directory is. *)
Definition server_certs (opts : list TLSOpt) (path name key : string) : server_options :=
  if bool_decide (path = "") then {| sv_TLSOpts := opts; sv_CertDir := ""; sv_CertName := ""; sv_KeyName := "" |}
  else {| sv_TLSOpts := opts; sv_CertDir := path; sv_CertName := name; sv_KeyName := key |}.

Record metrics_options := {
  ms_BindAddress : string;
  ms_SecureServing : bool;
  ms_AuthFilter : bool;
  ms_Server : server_options
}.

(** [ctrl.Options] *)
Record mgr_options := {
  mo_Metrics : metrics_options;
  mo_Webhook : server_options;
  mo_HealthProbeBindAddress : string;
  mo_LeaderElection : bool;
  mo_LeaderElectionID : string;
  mo_DefaultNamespaces : option (gset string)
}.

Definition mgrOptions (s : settings) : mgr_options :=
  {| mo_Metrics :=
       {| ms_BindAddress := metricsAddr s; ms_SecureServing := secureMetrics s; ms_AuthFilter := secureMetrics s;
          ms_Server := server_certs (tlsOpts s) (metricsCertPath s) (metricsCertName s) (metricsCertKey s) |};
     mo_Webhook := server_certs (tlsOpts s) (webhookCertPath s) (webhookCertName s) (webhookCertKey s);
     mo_HealthProbeBindAddress := probeAddr s; mo_LeaderElection := enableLeaderElection s;
     mo_LeaderElectionID := "7cd7701f.netztronaut.de";
     mo_DefaultNamespaces := setupCacheNamespaces (watchNamespace s) |}.

(** *** The probe of the identity provider *)

(** The loop: [reply i] is what the attempt [i] is answered, its status when
    there is an answer; [fuel] bounds the attempts the model looks at. *)
Fixpoint probe_loop (reply : nat → result Z) (attempt fuel : nat) : startup nat :=
  match fuel with
  | O => Waiting
  | S fuel =>
    match reply attempt with
    | Ok status =>
      if bool_decide (status = StatusOK) then Going attempt else probe_loop reply (S attempt) fuel
    | Err _ => probe_loop reply (S attempt) fuel
    end
  end.

Section main.
Context `{Unicode, TLSFiles, PageTemplates}.

(** *** Registrations with the manager *)
Inductive runnable :=
| RunNotifier
| RunSyncClient (options : SyncOptions) (tlsConfig : option tls_config)
| RunFleet (m : Manager)
| RunWeb (address : string)
| RunSyncEndpoint (address : string) (tlsConfig : option tls_config).

Inductive registration :=
| Add (r : runnable)
| SetupController (name : string)
| SetupWebhook (kind : string)
| AddHealthzCheck (name : string)
| AddReadyzCheck (name : string).

Definition failure_message (r : registration) : string :=
  match r with
  | Add RunNotifier => "Failed to add dashboard notifier"
  | Add (RunSyncClient _ _) => "Failed to add sync client runnable"
  | Add (RunFleet _) => "Failed to add fleet manager runnable"
  | Add (RunWeb _) => "Failed to add embedded web interface runnable"
  | Add (RunSyncEndpoint _ _) => "Failed to add sync endpoint runnable"
  | SetupController _ => "Failed to create controller"
  | SetupWebhook _ => "Failed to create webhook"
  | AddHealthzCheck _ => "Failed to set up health check"
  | AddReadyzCheck _ => "Failed to set up ready check"
  end.

(** [alwaysOnRunnable] wraps the two servers. *)
Definition alwaysOnRunnable_NeedLeaderElection : bool := false.

(** Of the runnables, by their methods; controllers and webhooks keep
    controller-runtime's default. *)
Definition NeedLeaderElection (r : registration) : bool :=
  match r with
  | Add RunNotifier => DashboardNotifier_NeedLeaderElection
  | Add (RunSyncClient _ _) => SyncClient_NeedLeaderElection
  | Add (RunFleet _) => Manager_NeedLeaderElection
  | Add (RunWeb _) | Add (RunSyncEndpoint _ _) => alwaysOnRunnable_NeedLeaderElection
  | SetupController _ => true
  | SetupWebhook _ | AddHealthzCheck _ | AddReadyzCheck _ => false
  end.

(** What the libraries and the operating system answer. *)
Record Platform := {
  pf_Args : list string;
  pf_Getenv : string → string;
  pf_LibraryFlags : list flag_decl;
  pf_LoadViper : viper_options → result Viper;
  pf_GetConfig : result rest_config;
  pf_HomeFile : string;
  pf_BuildConfigFromFlags : string → result rest_config;
  pf_ContextConfig : string → string → result rest_config;
  pf_NewManager : rest_config → mgr_options → result Reader;
  pf_NewDiscoveryClient : rest_config → result Discovery;
  pf_Informer : GroupVersionKind → result unit;
  pf_Register : registration → result unit;
  pf_ProbeReply : string → nat → result Z;
  pf_Files : FS;
  pf_Embedded : FS
}.

(** *** Informers *)
Definition resource_served (dc : Discovery) (gvk : GroupVersionKind) : bool :=
  match dc (gvk_gv gvk) with
  | Err _ => false
  | Ok kinds => existsb (fun k => bool_decide (k = gvk_Kind gvk)) kinds
  end.

Definition always_watched : list GroupVersionKind :=
  [GVK "dashboard.netztronaut.de" "v1alpha1" "BookmarkGroup"; GVK "networking.k8s.io" "v1" "Ingress";
   GVK "" "v1" "Service"].
Definition watched_if_served : list GroupVersionKind :=
  [GVK "forecastle.stakater.com" "v1alpha1" "ForecastleApp";
   GVK "gateway.networking.k8s.io" "v1" "HTTPRoute"; GVK "gateway.networking.k8s.io" "v1" "GRPCRoute";
   GVK "gateway.networking.k8s.io" "v1" "TLSRoute"; GVK "gateway.networking.k8s.io" "v1alpha2" "TCPRoute"].
Definition traefik_gvks : list GroupVersionKind :=
  [GVK "traefik.io" "v1alpha1" "IngressRoute"; GVK "traefik.containo.us" "v1alpha1" "IngressRoute"].
Definition dns_endpoint_gvk : GroupVersionKind := GVK "externaldns.k8s.io" "v1alpha1" "DNSEndpoint".
Definition endpoint_slice_gvk : GroupVersionKind := GVK "discovery.k8s.io" "v1" "EndpointSlice".

(** The calls of [addWatch], in order. *)
Definition dashboard_watches (dc : Discovery) : list GroupVersionKind :=
  always_watched ++ List.filter (resource_served dc) watched_if_served ++
  match List.find (resource_served dc) traefik_gvks with Some gvk => [gvk] | None => [] end ++
  List.filter (resource_served dc) [dns_endpoint_gvk] ++ [endpoint_slice_gvk].

(** [setupDashboardWatches]: the informers whose events call [Notify]; one
    that cannot be set up is logged and left out. *)
Definition setupDashboardWatches (informer : GroupVersionKind → result unit) (dc : Discovery)
    : list GroupVersionKind :=
  List.filter (fun gvk => is_ok (informer gvk)) (dashboard_watches dc).

(** *** The steps of [main] *)

(** [setupRuntimeConfig]; [ctrl.GetConfigOrDie] exits by itself. *)
Definition setupRuntimeConfig (pf : Platform) (localTesting : bool) : startup (result rest_config) :=
  if negb localTesting then
    cfg ← must "unable to get kubeconfig" (pf_GetConfig pf);
    Going (Ok cfg)
  else
  Going (let unavailable := new_error "LOCAL_TESTING=true requires kubeconfig context kind-cupboard" in
  match pf_BuildConfigFromFlags pf (pf_HomeFile pf) with
  | Ok _ =>
    match pf_ContextConfig pf (pf_HomeFile pf) "kind-cupboard" with
    | Ok cfg => Ok cfg
    | Err _ => Err unavailable
    end
  | Err _ => Err unavailable
  end).

Definition register (pf : Platform) (r : registration) (registered : list registration)
    : startup (list registration) :=
  _ ← must (failure_message r) (pf_Register pf r);
  Going (registered ++ [r]).

Definition sync_options (s : settings) : SyncOptions :=
  {| so_BindAddress := syncAddr s; so_URLs := syncURLs s; so_SRVRecords := syncSRVRecords s; so_TLS := syncTLS s |}.

(** The sync client, when there are peers to find. *)
Definition start_sync_client (pf : Platform) (s : settings) (registered : list registration)
    : startup (list registration) :=
  if bool_decide (syncURLs s = []) && bool_decide (syncSRVRecords s = []) then Going registered else
  client ← must "Failed to initialize sync client" (NewSyncClient (sync_options s));
  let '(options, tlsConfig, _) := client in
  register pf (Add (RunSyncClient options tlsConfig)) registered.

(** The probe, when an issuer is configured and the probe is not skipped. *)
Definition wait_for_issuer (pf : Platform) (s : settings) (issuerURL : string) (fuel : nat) : startup unit :=
  if bool_decide (issuerURL = "") || skipOIDCProbe s then Going tt else
  _ ← probe_loop (pf_ProbeReply pf (TrimRight issuerURL slash +:+ well_known)) 0 fuel;
  Going tt.

Definition start_fleet (pf : Platform) (s : settings) (registered : list registration)
    : startup (list registration) :=
  if bool_decide (fleetClusterEntries s = []) then Going registered else
  fleetConfigs ← must "Failed to parse fleet cluster list" (ParseClusterList (fleetClusterEntries s));
  caPool ← must "Failed to load fleet trust store" (LoadFleetCAPool (fleetTrustStore s));
  register pf (Add (RunFleet (NewManager fleetConfigs caPool (fleetKubeconfig s)))) registered.

Definition start_sync_endpoint (pf : Platform) (s : settings) (registered : list registration)
    : startup (list registration) :=
  if is_blank (syncAddr s) then Going registered else
  syncTLSConfig ← must "Failed to build sync server TLS configuration" (BuildSyncServerTLSConfig (syncTLS s));
  register pf (Add (RunSyncEndpoint (syncAddr s) syncTLSConfig)) registered.

(** The controllers, the webhooks and the health checks. *)
Definition last_registrations (s : settings) : list registration :=
  ((fun c => SetupController (ctl_Named c)) <$> [BookmarkGroupReconciler_SetupWithManager;
     BookmarkReconciler_SetupWithManager; InfoTileReconciler_SetupWithManager]) ++
  (if enableWebhooks s then [SetupWebhook "BookmarkGroup"; SetupWebhook "Bookmark"] else []) ++
  [AddHealthzCheck "healthz"; AddReadyzCheck "readyz"].

Fixpoint register_all (pf : Platform) (rs : list registration) (registered : list registration)
    : startup (list registration) :=
  match rs with
  | [] => Going registered
  | r :: rs => registered ← register pf r registered; register_all pf rs registered
  end.

(** The options handed to the web interface. *)
Definition web_options (s : settings) (config : Viper) (linkGroups : list LinkGroup)
    (staticLinks : list StaticLink) : Options :=
  let page key := firstNonEmpty [GetString config ("page." +:+ key); GetString config ("web." +:+ key)] in
  {| o_Auth := {| ao_Enabled := enableAuth s;
                  ao_CookieSecret := GetString config "auth.cookieSecret";
                  ao_IssuerURL := GetString config "auth.issuerURL";
                  ao_ClientID := GetString config "auth.clientID";
                  ao_RedirectPath := GetString config "auth.redirectPath";
                  ao_Scopes := GetString config "auth.scopes";
                  ao_UserInfoEndpointURL := GetString config "auth.userInfoEndpoint" |};
     o_Instance := forecastleInstance s; o_LinkGroups := linkGroups; o_StaticLinks := staticLinks;
     o_Page := {| po_TemplateSet := page "templateSet"; po_Title := page "title";
                  po_FaviconURL := page "faviconURL"; po_ContentLayout := page "contentLayout" |} |}.

(** The process when it calls [mgr.Start]. *)
Record instance := {
  i_settings : settings;
  i_manager : mgr_options;
  i_watches : list GroupVersionKind;
  i_web : site_handler;
  i_registered : list registration
}.

(** *** The servers *)

(** How a server listens, and what its runnable returns: the error of
    [ListenAndServe], unless the server was shut down. *)
Inductive listener := ListenAndServe | ListenAndServeTLS.

Definition ErrServerClosed : error := new_error "http: Server closed".

Definition run_server (listen : listener → option error) (l : listener) : option error :=
  match listen l with
  | Some serveErr => if bool_decide (serveErr = ErrServerClosed) then None else Some serveErr
  | None => None
  end.

Definition run_web (listen : listener → option error) : option error := run_server listen ListenAndServe.

Definition endpoint_listener (syncTLSConfig : option tls_config) : listener :=
  match syncTLSConfig with Some _ => ListenAndServeTLS | None => ListenAndServe end.

Definition run_sync_endpoint (syncTLSConfig : option tls_config) (listen : listener → option error) : option error :=
  run_server listen (endpoint_listener syncTLSConfig).

(** What [main] has when it probes the issuer. *)
Record prepared := {
  p_config : Viper;
  p_settings : settings;
  p_linkGroups : list LinkGroup;
  p_staticLinks : list StaticLink;
  p_reader : Reader;
  p_discovery : Discovery;
  p_watches : list GroupVersionKind;
  p_registered : list registration
}.

(** [main] up to the probe. *)
Definition prepare (pf : Platform) : startup prepared :=
  fs ← parse_command_line (pf_LibraryFlags pf) (pf_Args pf);
  config ← must "Failed to load configuration"
    (loadViperConfig (pf_LoadViper pf) (pf_Getenv pf) (string_var fs "config" ""));
  let s := resolve_settings fs config in
  linkGroups ← configured_link_groups config;
  staticLinks ← configured_static_links config;
  runtimeConfig ← setupRuntimeConfig pf (localTesting s);
  cfg ← must "Failed to initialize runtime config" runtimeConfig;
  reader ← must "Failed to start manager" (pf_NewManager pf cfg (mgrOptions s));
  discovery ← must "Failed to initialize discovery client" (pf_NewDiscoveryClient pf cfg);
  registered ← register pf (Add RunNotifier) [];
  let watches := setupDashboardWatches (pf_Informer pf) discovery in
  registered ← start_sync_client pf s registered;
  Going {| p_config := config; p_settings := s; p_linkGroups := linkGroups; p_staticLinks := staticLinks;
           p_reader := reader; p_discovery := discovery; p_watches := watches; p_registered := registered |}.

(** [main] from the probe to [mgr.Start]. *)
Definition assemble (pf : Platform) (p : prepared) : startup instance :=
  let s := p_settings p in
  registered ← start_fleet pf s (p_registered p);
  web ← must "Failed to initialize embedded web interface"
    (NewHandler (pf_Files pf) (pf_Embedded pf) (p_reader p) (Some (p_discovery p))
       (web_options s (p_config p) (p_linkGroups p) (p_staticLinks p)));
  registered ← register pf (Add (RunWeb (webAddr s))) registered;
  registered ← start_sync_endpoint pf s registered;
  registered ← register_all pf (last_registrations s) registered;
  Going {| i_settings := s; i_manager := mgrOptions s; i_watches := p_watches p; i_web := web;
           i_registered := registered |}.

Definition issuer_url (p : prepared) : string := GetString (p_config p) "auth.issuerURL".

Definition main (pf : Platform) (fuel : nat) : startup instance :=
  p ← prepare pf;
  _ ← wait_for_issuer pf (p_settings p) (issuer_url p) fuel;
  assemble pf p.
End main.
