(* ===== verification/MainProps.v ===== *)
(** * MainProps: what a started process is

    Where its settings come from, what it runs, when startup ends, and which
    changes its informers see. *)

From S2P Require Import Prelude GoStrings StableSort ApiTypes UrlResolver Links Collectors Dashboard Json Wire Sync SyncProps.
From S2P Require Import Url Http Auth AuthProps Flags Templates Handler HandlerProps ForeignCluster Main.

(** ** The startup monad *)
Lemma must_going {A} message (r : result A) x : must message r = Going x ↔ r = Ok x.
Proof. destruct r; cbn; split; by intros [= ->]. Qed.

Lemma must_waiting {A} message (r : result A) : must message r ≠ Waiting.
Proof. by destruct r. Qed.

Lemma bind_going {A B} (m : startup A) (f : A → startup B) x :
  m ≫= f = Going x ↔ ∃ y, m = Going y ∧ f y = Going x.
Proof. destruct m; cbn; split; [by eauto|by intros (? & [= ->] & ?)|done|by intros (? & ? & _)|done|by intros (? & ? & _)]. Qed.

(** The last step of a startup that got through tells what the earlier ones
    returned. *)
Ltac startup :=
  repeat match goal with
  | H : (_ ≫= _) = Going _ |- _ => apply bind_going in H as (? & ? & H)
  | H : must _ _ = Going _ |- _ => apply must_going in H
  | H : Going _ = Going _ |- _ => injection H as H
  end; subst.

(** ** The probe of the identity provider *)

Lemma probe_waits reply attempt fuel :
  probe_loop reply attempt fuel = Waiting ↔
  ∀ n, attempt ≤ n < attempt + fuel → reply n ≠ Ok StatusOK.
Proof.
  revert attempt. induction fuel as [|fuel IH]; intros attempt; cbn [probe_loop].
  { split; [|done]. intros _ n. lia. }
  assert ((∀ n, attempt ≤ n < attempt + S fuel → reply n ≠ Ok StatusOK) ↔
    reply attempt ≠ Ok StatusOK ∧ probe_loop reply (S attempt) fuel = Waiting) as ->.
  { rewrite IH. split.
    - intros H. split; [apply H; lia|]. intros n ?. apply H. lia.
    - intros [H0 H] n ?. destruct (decide (n = attempt)) as [->|]; [done|]. apply H. lia. }
  destruct (reply attempt) as [status|e]; [|naive_solver].
  case_bool_decide as Hs; [subst; naive_solver|]. split; [|tauto].
  intros H. split; [|done]. by intros [= ?].
Qed.

Lemma probe_going reply attempt fuel n :
  probe_loop reply attempt fuel = Going n ↔
  attempt ≤ n < attempt + fuel ∧ reply n = Ok StatusOK ∧ ∀ i, attempt ≤ i < n → reply i ≠ Ok StatusOK.
Proof.
  revert attempt. induction fuel as [|fuel IH]; intros attempt; cbn [probe_loop].
  { split; [done|]. intros [? _]. lia. }
  assert (reply attempt ≠ Ok StatusOK → probe_loop reply (S attempt) fuel = Going n ↔
    attempt ≤ n < attempt + S fuel ∧ reply n = Ok StatusOK ∧ ∀ i, attempt ≤ i < n → reply i ≠ Ok StatusOK) as Hnext.
  { intros H0. rewrite IH. split.
    - intros (? & ? & H). repeat split; [lia|lia|done|]. intros i ?.
      destruct (decide (i = attempt)) as [->|]; [done|]. apply H. lia.
    - intros (Hn & ? & H). destruct (decide (n = attempt)) as [->|]; [done|].
      repeat split; [lia|lia|done|]. intros i ?. apply H. lia. }
  destruct (reply attempt) as [status|e] eqn:E; [|by apply Hnext].
  case_bool_decide as Hs; [|apply Hnext; by intros [= ?]].
  subst. split.
  - intros [= ->]. repeat split; [lia|lia|done|]. intros i ?. lia.
  - intros (? & ? & H). f_equal. destruct (decide (n = attempt)) as [->|]; [done|]. destruct (H attempt); [lia|done].
Qed.

Lemma probe_no_exit reply attempt fuel code message : probe_loop reply attempt fuel ≠ Exit code message.
Proof.
  revert attempt. induction fuel as [|fuel IH]; intros attempt; cbn; [done|].
  destruct (reply attempt) as [status|e]; [case_bool_decide|]; auto.
Qed.

(** ** Termination *)

(** A step that does not wait. *)
Class Settles {A} (m : startup A) : Prop := settles : m ≠ Waiting.

#[export] Instance settles_must {A} message (r : result A) : Settles (must message r).
Proof. apply must_waiting. Qed.
#[export] Instance settles_going {A} (a : A) : Settles (Going a).
Proof. done. Qed.
#[export] Instance settles_exit {A} code message : Settles (@Exit A code message).
Proof. done. Qed.
#[export] Instance settles_bind {A B} (m : startup A) (f : A → startup B) :
  Settles m → (∀ a, Settles (f a)) → Settles (m ≫= f).
Proof. intros Hm Hf. destruct m; cbn; [apply Hf|done|done]. Qed.
#[export] Instance settles_if {A} (b : bool) (m k : startup A) : Settles m → Settles k → Settles (if b then m else k).
Proof. by destruct b. Qed.

Section startup.
Context `{Unicode, TLSFiles, PageTemplates}.
Implicit Types (pf : Platform) (s : settings).

#[export] Instance settles_command_line flags args : Settles (parse_command_line flags args).
Proof. unfold parse_command_line. by destruct (parse_flags _ _ _). Qed.
#[export] Instance settles_unmarshal {A} config (get : string → result (list A)) key : Settles (unmarshal config get key).
Proof. unfold unmarshal. apply _. Qed.
#[export] Instance settles_link_groups config : Settles (configured_link_groups config).
Proof. unfold configured_link_groups. apply _. Qed.
#[export] Instance settles_static_links config : Settles (configured_static_links config).
Proof. unfold configured_static_links. apply _. Qed.
#[export] Instance settles_register pf r l : Settles (register pf r l).
Proof. unfold register. apply _. Qed.
#[export] Instance settles_register_all pf rs l : Settles (register_all pf rs l).
Proof. revert l. induction rs as [|r rs IH]; intros l; cbn [register_all]; apply _. Qed.
#[export] Instance settles_sync_client pf s l : Settles (start_sync_client pf s l).
Proof. unfold start_sync_client. apply settles_if; [apply _|]. apply settles_bind; [apply _|]. intros [[o t] c]. apply _. Qed.
#[export] Instance settles_fleet pf s l : Settles (start_fleet pf s l).
Proof. unfold start_fleet. apply _. Qed.
#[export] Instance settles_sync_endpoint pf s l : Settles (start_sync_endpoint pf s l).
Proof. unfold start_sync_endpoint. apply _. Qed.
#[export] Instance settles_runtime_config pf b : Settles (setupRuntimeConfig pf b).
Proof. unfold setupRuntimeConfig. apply _. Qed.
#[export] Instance settles_prepare pf : Settles (prepare pf).
Proof. unfold prepare. cbv zeta. apply _. Qed.
#[export] Instance settles_assemble pf p : Settles (assemble pf p).
Proof. unfold assemble. cbv zeta. apply _. Qed.

(** The URL a process probes. *)
Definition probed (pf : Platform) (url : string) : Prop :=
  ∃ p, prepare pf = Going p ∧ issuer_url p ≠ "" ∧ skipOIDCProbe (p_settings p) = false ∧
    url = TrimRight (issuer_url p) slash +:+ well_known.

Lemma probed_once pf url url' : probed pf url → probed pf url' → url = url'.
Proof. intros (p & Hp & _ & _ & ->) (p' & Hp' & _ & _ & ->). congruence. Qed.

Lemma main_waits pf fuel :
  main pf fuel = Waiting ↔ ∃ url, probed pf url ∧ ∀ n, n < fuel → pf_ProbeReply pf url n ≠ Ok StatusOK.
Proof.
  unfold main, probed. destruct (prepare pf) as [p|code message|] eqn:E; cbn; [| |by destruct (settles_prepare pf)].
  2:{ split; [done|]. by intros (url & (p & [=] & _) & _). }
  unfold wait_for_issuer. case_bool_decide as Hi; cbn [orb].
  { split; [intros Hw; by destruct (settles_assemble pf p)|]. by intros (url & (p' & [= <-] & ? & _) & _). }
  destruct (skipOIDCProbe (p_settings p)) eqn:Hs.
  { split; [intros Hw; by destruct (settles_assemble pf p)|]. intros (url & (p' & [= <-] & _ & Hs' & _) & _). congruence. }
  set (url := TrimRight (issuer_url p) slash +:+ well_known). pose proof (probe_waits (pf_ProbeReply pf url) 0 fuel) as Hw.
  split.
  - intros H'. exists url. split; [by exists p|]. intros n ?. apply Hw; [|lia].
    destruct (probe_loop _ _ _); [|done|done]. cbn in H'. by destruct (settles_assemble pf p).
  - intros (url' & (p' & [= <-] & _ & _ & ->) & H'). rewrite (proj2 Hw); [done|]. intros n ?. apply H'. lia.
Qed.

(** C23: startup ends.  The process waits only for the identity provider it is
    told to probe: after any number of attempts it still waits exactly if none
    of them was answered with status 200; once it got further, more attempts
    change nothing; and it gets further whenever the provider ever answers
    with 200. *)
Theorem startup_terminates pf :
  (∀ fuel, main pf fuel = Waiting ↔ ∃ url, probed pf url ∧ ∀ n, n < fuel → pf_ProbeReply pf url n ≠ Ok StatusOK) ∧
  (∀ fuel fuel', main pf fuel ≠ Waiting → fuel ≤ fuel' → main pf fuel' = main pf fuel) ∧
  ((∀ url, probed pf url → ∃ n, pf_ProbeReply pf url n = Ok StatusOK) →
   ∃ fuel r, r ≠ Waiting ∧ ∀ fuel', fuel ≤ fuel' → main pf fuel' = r).
Proof.
  assert (∀ fuel fuel', main pf fuel ≠ Waiting → fuel ≤ fuel' → main pf fuel' = main pf fuel) as Hmono.
  { intros fuel fuel' Hn Hle. revert Hn. unfold main. destruct (prepare pf) as [p|code message|]; cbn; [|done|done].
    unfold wait_for_issuer. destruct (_ || _); [done|]. cbn. set (reply := pf_ProbeReply pf _).
    destruct (probe_loop reply 0 fuel) as [n|code message|] eqn:E; cbn; [|by destruct (probe_no_exit _ _ _ _ _ E)|done].
    apply probe_going in E as (? & ? & ?). intros _.
    rewrite (proj2 (probe_going reply 0 fuel' n)); [done|]. repeat split; [lia|lia|done|done]. }
  split; [apply main_waits|]. split; [done|]. intros Hok.
  assert (∃ fuel, main pf fuel ≠ Waiting) as [fuel Hf]; [|by exists fuel, (main pf fuel); eauto].
  destruct (main pf 0) as [i|code message|] eqn:E0; [exists 0; by rewrite E0..|].
  apply main_waits in E0 as (url & Hu & _). destruct (Hok url Hu) as [n Hn]. exists (S n).
  intros (url' & Hu' & H')%main_waits. rewrite (probed_once _ _ _ Hu' Hu) in H'. by apply (H' n); [lia|].
Qed.

(** ** What runs *)

Definition client_plan (s : settings) : result (list registration) :=
  if bool_decide (syncURLs s = []) && bool_decide (syncSRVRecords s = []) then Ok [] else
  tlsConfig ← buildSyncHTTPClient (syncTLS s);
  Ok [Add (RunSyncClient (sync_options s) tlsConfig)].

Definition fleet_plan (s : settings) : result (list registration) :=
  if bool_decide (fleetClusterEntries s = []) then Ok [] else
  configs ← ParseClusterList (fleetClusterEntries s);
  caPool ← LoadFleetCAPool (fleetTrustStore s);
  Ok [Add (RunFleet (NewManager configs caPool (fleetKubeconfig s)))].

Definition endpoint_plan (s : settings) : result (list registration) :=
  if is_blank (syncAddr s) then Ok [] else
  tlsConfig ← BuildSyncServerTLSConfig (syncTLS s);
  Ok [Add (RunSyncEndpoint (syncAddr s) tlsConfig)].

(** Everything registered with the manager, as a function of the settings. *)
Definition plan (s : settings) : result (list registration) :=
  client ← client_plan s;
  fleet ← fleet_plan s;
  endpoint ← endpoint_plan s;
  Ok (Add RunNotifier :: client ++ fleet ++ Add (RunWeb (webAddr s)) :: endpoint ++ last_registrations s).

Abbreviation accepted pf := (Forall (fun r => pf_Register pf r = Ok tt)).

Lemma register_going pf r l l' : register pf r l = Going l' ↔ pf_Register pf r = Ok tt ∧ l' = l ++ [r].
Proof.
  unfold register. destruct (pf_Register pf r) as [[]|e]; cbn; [|by split; [|intros [? _]]].
  split; [by intros [= <-]|by intros [_ ->]].
Qed.

Lemma register_all_going pf rs l l' : register_all pf rs l = Going l' ↔ accepted pf rs ∧ l' = l ++ rs.
Proof.
  revert l. induction rs as [|r rs IH]; intros l; cbn [register_all].
  - rewrite app_nil_r. split; [by intros [= <-]|by intros [_ ->]].
  - rewrite bind_going, Forall_cons. setoid_rewrite register_going. split.
    + intros (y & [Hr ->] & [? ->]%IH). by rewrite <-app_assoc.
    + intros [[Hr ?] ->]. exists (l ++ [r]). split; [done|]. apply IH. by rewrite <-app_assoc.
Qed.

Lemma client_going pf s l l' : start_sync_client pf s l = Going l' →
  ∃ k, client_plan s = Ok k ∧ accepted pf k ∧ l' = l ++ k.
Proof.
  unfold start_sync_client, client_plan, NewSyncClient. destruct (_ && _).
  { intros [= <-]. exists []. by rewrite app_nil_r. }
  destruct (buildSyncHTTPClient _) as [t|e]; cbn; [|done]. intros [? ->]%register_going. eauto using Forall.
Qed.

Lemma fleet_going pf s l l' : start_fleet pf s l = Going l' →
  ∃ k, fleet_plan s = Ok k ∧ accepted pf k ∧ l' = l ++ k.
Proof.
  unfold start_fleet, fleet_plan. case_bool_decide.
  { intros [= <-]. exists []. by rewrite app_nil_r. }
  destruct (ParseClusterList _) as [c|e]; cbn; [|done]. destruct (LoadFleetCAPool _) as [t|e]; cbn; [|done].
  intros [? ->]%register_going. eauto using Forall.
Qed.

Lemma endpoint_going pf s l l' : start_sync_endpoint pf s l = Going l' →
  ∃ k, endpoint_plan s = Ok k ∧ accepted pf k ∧ l' = l ++ k.
Proof.
  unfold start_sync_endpoint, endpoint_plan. destruct (is_blank _).
  { intros [= <-]. exists []. by rewrite app_nil_r. }
  destruct (BuildSyncServerTLSConfig _) as [t|e]; cbn; [|done]. intros [? ->]%register_going. eauto using Forall.
Qed.

(** The command line and the configuration a process runs with. *)
Definition configured (pf : Platform) (fs : flag_set) (config : Viper) : Prop :=
  parse_flags (main_flags ++ pf_LibraryFlags pf) (pf_Args pf) ∅ = Parsed fs ∧
  loadViperConfig (pf_LoadViper pf) (pf_Getenv pf) (string_var fs "config" "") = Ok config.

Lemma prepare_going pf p : prepare pf = Going p →
  accepted pf [Add RunNotifier] ∧
  (∃ fs, configured pf fs (p_config p) ∧ p_settings p = resolve_settings fs (p_config p)) ∧
  p_watches p = setupDashboardWatches (pf_Informer pf) (p_discovery p) ∧
  ∃ k, client_plan (p_settings p) = Ok k ∧ accepted pf k ∧ p_registered p = Add RunNotifier :: k.
Proof.
  unfold prepare, parse_command_line, configured. intros Hg. startup.
  destruct (parse_flags _ _ _) as [fs| |] eqn:Ef; simplify_eq. cbn in *.
  repeat match goal with H : register _ _ _ = Going _ |- _ => apply register_going in H as [? ->] end.
  match goal with H : start_sync_client _ _ _ = Going _ |- _ => apply client_going in H as (k & ? & ? & ->) end.
  split; [by constructor|]. split; [by eexists|]. split; [done|]. by exists k.
Qed.

Lemma main_going pf fuel i : main pf fuel = Going i →
  ∃ p, prepare pf = Going p ∧ assemble pf p = Going i ∧ i_settings i = p_settings p ∧
    i_watches i = p_watches p ∧ i_manager i = mgrOptions (p_settings p) ∧
    NewHandler (pf_Files pf) (pf_Embedded pf) (p_reader p) (Some (p_discovery p))
      (web_options (p_settings p) (p_config p) (p_linkGroups p) (p_staticLinks p)) = Ok (i_web i) ∧
    plan (i_settings i) = Ok (i_registered i) ∧ accepted pf (i_registered i).
Proof.
  unfold main. intros (p & Hp & (_ & _ & Hg)%bind_going)%bind_going. exists p. split; [done|]. split; [done|].
  apply prepare_going in Hp as (Hn & _ & _ & k & Hk & Hak & Hr).
  unfold assemble in Hg. cbv zeta in Hg. startup. cbn [i_settings i_watches i_manager i_web i_registered].
  repeat match goal with H : register _ _ _ = Going _ |- _ => apply register_going in H as [? ->] end.
  match goal with H : start_fleet _ _ _ = Going _ |- _ => apply fleet_going in H as (f & Hf & ? & ->) end.
  match goal with H : start_sync_endpoint _ _ _ = Going _ |- _ => apply endpoint_going in H as (e & He & ? & ->) end.
  match goal with H : register_all _ _ _ = Going _ |- _ => apply register_all_going in H as [? ->] end.
  repeat split; try done.
  - unfold plan. rewrite Hk, Hf, He, Hr. cbn. by rewrite <-!app_assoc.
  - rewrite Hr. rewrite !Forall_app, Forall_cons, !Forall_singleton. rewrite Forall_singleton in Hn. tauto.
Qed.

(** What a process runs is a function of its settings: the notifier and
    the web server always, the sync client when there are peers to find, the
    cluster manager when clusters are listed, the sync endpoint when it has an
    address, the controllers, and the webhooks unless disabled; the manager
    accepted each of them, and a part whose certificates or clusters are
    unusable keeps the process from starting. *)
Theorem startup_plan pf fuel i :
  main pf fuel = Going i →
  plan (i_settings i) = Ok (i_registered i) ∧
  Forall (fun r => pf_Register pf r = Ok tt) (i_registered i) ∧
  i_manager i = mgrOptions (i_settings i).
Proof. intros (p & _ & _ & Hs & _ & Hm & _ & Hpl & Ha)%main_going. by rewrite Hm, Hs in *. Qed.

(** *** The sync endpoint *)

(** How an endpoint must listen under given options: plain HTTP without a
    certificate or without a key, whatever the CA; else TLS with that
    certificate, and client certificates exactly with a CA. *)
Definition endpoint_secured (t : SyncTLSOptions) (tlsConfig : option tls_config) : Prop :=
  if bool_decide (stls_Cert t = "" ∨ stls_Key t = "")
  then tlsConfig = None ∧ endpoint_listener tlsConfig = ListenAndServe
  else ∃ cfg, tlsConfig = Some cfg ∧ endpoint_listener tlsConfig = ListenAndServeTLS ∧
    (∃ cert, LoadX509KeyPair (stls_Cert t) (stls_Key t) = Ok cert ∧ Certificates cfg = [cert]) ∧
    (RequireAndVerify cfg = true ↔ stls_CA t ≠ "") ∧
    (stls_CA t ≠ "" → ∃ pool, loadCertPool (stls_CA t) = Ok pool ∧ ClientCAs cfg = Some pool).

Lemma last_no_endpoint s addr t : Add (RunSyncEndpoint addr t) ∉ last_registrations s.
Proof.
  unfold last_registrations. cbn [fmap list_fmap]. rewrite !elem_of_app, !elem_of_cons.
  destruct (enableWebhooks s); rewrite ?elem_of_cons, ?elem_of_nil; naive_solver.
Qed.

Lemma plan_endpoint s l addr t : plan s = Ok l → Add (RunSyncEndpoint addr t) ∈ l →
  is_blank addr = false ∧ addr = syncAddr s ∧ BuildSyncServerTLSConfig (syncTLS s) = Ok t.
Proof.
  unfold plan, client_plan, fleet_plan, endpoint_plan. intros Hp Hin.
  pose proof (last_no_endpoint s addr t) as Hl. revert Hl Hp. generalize (last_registrations s) as rest. intros rest Hl Hp.
  destruct (if bool_decide _ && _ then _ else _) as [c|] eqn:Hc; [|done].
  cbn [mbind result_bind] in Hp.
  destruct (if bool_decide _ then _ else _) as [f|] eqn:Hf; [|done]. cbn [mbind result_bind] in Hp.
  assert (Add (RunSyncEndpoint addr t) ∉ c) as Hc'.
  { destruct (_ && _); simplify_eq; [apply not_elem_of_nil|].
    destruct (buildSyncHTTPClient _); simplify_eq/=. rewrite list_elem_of_singleton. by intros [=]. }
  assert (Add (RunSyncEndpoint addr t) ∉ f) as Hf'.
  { case_bool_decide; simplify_eq; [apply not_elem_of_nil|].
    destruct (ParseClusterList _), (LoadFleetCAPool _); simplify_eq/=. rewrite list_elem_of_singleton. by intros [=]. }
  destruct (is_blank (syncAddr s)) eqn:Hb; cbn [mbind result_bind] in Hp.
  - injection Hp as <-. rewrite !elem_of_cons, !elem_of_app, elem_of_cons in Hin.
    destruct Hin as [[=]|[?|[?|[[=]|Hin]]]]; done.
  - destruct (BuildSyncServerTLSConfig (syncTLS s)) as [tlsConfig|e]; [|done]. cbn in Hp. injection Hp as <-.
    rewrite !elem_of_cons, !elem_of_app, !elem_of_cons in Hin.
    destruct Hin as [[=]|[?|[?|[[=]|[Heq|Hin]]]]]; try done.
    by injection Heq as -> ->.
Qed.

(** C25: what the sync endpoint listens with.  In a process that started, the
    endpoint listens exactly when it has an address.  With certificate and key
    both configured it speaks TLS with that certificate, and demands client
    certificates exactly if a CA is configured, of that CA; it never falls back
    from this: a file that cannot be loaded keeps the process from starting.
    Without the certificate or without the key it is plain HTTP and demands no
    client certificate, even with a CA configured. *)
Theorem sync_endpoint_secured pf fuel i :
  main pf fuel = Going i →
  let s := i_settings i in
  (∀ addr t, Add (RunSyncEndpoint addr t) ∈ i_registered i →
     addr = syncAddr s ∧ is_blank addr = false ∧ endpoint_secured (syncTLS s) t) ∧
  (is_blank (syncAddr s) = false → ∃ t, Add (RunSyncEndpoint (syncAddr s) t) ∈ i_registered i).
Proof.
  intros (p & _ & _ & _ & _ & _ & _ & Hpl & _)%main_going s. split.
  - intros addr t Hin. destruct (plan_endpoint _ _ _ _ Hpl Hin) as (Hb & Ha & Ht). split; [done|]. split; [done|].
    pose proof (sync_server_mtls (syncTLS s)) as Hm. unfold s in *. rewrite Ht in Hm.
    unfold endpoint_secured. destruct t as [cfg|].
    + destruct Hm as (? & ? & ? & ? & ?). rewrite bool_decide_false by tauto. by exists cfg.
    + by rewrite bool_decide_true.
  - intros Hb. unfold plan, endpoint_plan in Hpl. unfold s in *. rewrite Hb in Hpl.
    destruct (client_plan _), (fleet_plan _); cbn in Hpl; try done.
    destruct (BuildSyncServerTLSConfig _) as [t|e]; cbn in Hpl; [|done]. injection Hpl as <-. exists t.
    rewrite !elem_of_cons, !elem_of_app, !elem_of_cons. tauto.
Qed.
End startup.
