(* ===== verification/WatchProps.v ===== *)
(** * WatchProps: what the informers see

    The informers of [setupDashboardWatches] are meant to notify the dashboard
    of every change that affects it.  Two states of the cluster that no
    informer tells apart, and that agree on bookmarks, info tiles and the
    objects no informer covers, give the same page; and there are states no
    informer tells apart that do not. *)

From S2P Require Import Prelude GoStrings StableSort ApiTypes UrlResolver Links Collectors Dashboard Sample.
From S2P Require Import Flags ForeignCluster Main.

(** ** Collectors that do the same in every state *)
Definition collector_eq : relation collector := pointwise_relation dash eq.

#[export] Instance collector_eq_equiv : Equivalence collector_eq.
Proof. unfold collector_eq. apply _. Qed.

#[export] Instance seq_proper : Proper (collector_eq ==> collector_eq ==> collector_eq) seq.
Proof. intros m m' Hm k k' Hk st. unfold seq. rewrite Hm. by destruct (m' st) as [[] ?]. Qed.

#[export] Instance for_each_i_proper {A} :
  Proper (pointwise_relation nat (pointwise_relation dash (pointwise_relation A eq)) ==> eq ==> collector_eq)
    (@for_each_i A).
Proof.
  intros f g Hfg l _ <- st. unfold for_each_i. f_equal. generalize (imap pair l) as ps. intros ps.
  revert st. induction ps as [|p ps IH]; intros st; cbn; [done|]. by rewrite Hfg.
Qed.

Lemma when_eq b m m' : (b = true → collector_eq m m') → collector_eq (when b m) (when b m').
Proof. destruct b; cbn; auto. reflexivity. Qed.

(** ** What an informer covers *)

Definition bookmark_group_gvk : GroupVersionKind := GVK "dashboard.netztronaut.de" "v1alpha1" "BookmarkGroup".
Definition ingress_gvk : GroupVersionKind := GVK "networking.k8s.io" "v1" "Ingress".
Definition service_gvk : GroupVersionKind := GVK "" "v1" "Service".
Definition forecastle_gvk : GroupVersionKind := GVK "forecastle.stakater.com" "v1alpha1" "ForecastleApp".

(** The list kind of a kind. *)
Definition list_kind (gvk : GroupVersionKind) : GroupVersionKind :=
  {| gvk_gv := gvk_gv gvk; gvk_Kind := gvk_Kind gvk +:+ "List" |}.

(** Two states of the cluster hold the same objects of a kind. *)
Definition same_objects (r r' : Reader) (gvk : GroupVersionKind) : Prop :=
  (gvk = bookmark_group_gvk → list_BookmarkGroups r = list_BookmarkGroups r') ∧
  (gvk = forecastle_gvk → list_ForecastleApps r = list_ForecastleApps r') ∧
  (gvk = ingress_gvk → (∀ sel, list_Ingresses r sel = list_Ingresses r' sel) ∧
                       ∀ n, get_Ingress r n = get_Ingress r' n) ∧
  (gvk = service_gvk → (∀ sel, list_Services r sel = list_Services r' sel) ∧
                       ∀ n, get_Service r n = get_Service r' n) ∧
  (gvk = endpoint_slice_gvk → ∀ sel, list_EndpointSlices r sel = list_EndpointSlices r' sel) ∧
  (∀ sel, list_Unstructured r (list_kind gvk) sel = list_Unstructured r' (list_kind gvk) sel) ∧
  (∀ n, get_Unstructured r gvk n = get_Unstructured r' gvk n).

(** No informer tells the states apart. *)
Definition unnoticed (watches : list GroupVersionKind) (r r' : Reader) : Prop :=
  Forall (same_objects r r') watches.

(** The states agree on what no informer covers: bookmarks, info tiles and
    single objects of kinds without an informer. *)
Definition same_unwatched (watches : list GroupVersionKind) (r r' : Reader) : Prop :=
  list_Bookmarks r None = list_Bookmarks r' None ∧
  list_InfoTiles r = list_InfoTiles r' ∧
  ∀ gvk n, gvk ∉ watches → get_Unstructured r gvk n = get_Unstructured r' gvk n.

Definition with_reader (r : Reader) (c : dashboardCollector) : dashboardCollector :=
  {| dc_reader := r; dc_discovery := dc_discovery c; dc_forecastleInstance := dc_forecastleInstance c;
     dc_linkGroups := dc_linkGroups c; dc_staticLinks := dc_staticLinks c;
     dc_syncClient := dc_syncClient c; dc_foreignClusters := dc_foreignClusters c |}.

Section completeness.
Context `{Unicode, Apimachinery, MapRange, StableSort}.
Context (dc : Discovery) (informer : GroupVersionKind → result unit).
Context (informers_ok : ∀ gvk, is_ok (informer gvk) = true).
Context (r r' : Reader).
Abbreviation watches := (setupDashboardWatches informer dc).
Hypothesis Hseen : unnoticed watches r r'.
Hypothesis Hrest : same_unwatched watches r r'.

Lemma watches_all : watches = dashboard_watches dc.
Proof.
  unfold setupDashboardWatches. induction (dashboard_watches dc) as [|g l IH]; cbn; [done|].
  by rewrite informers_ok, IH.
Qed.

Lemma watched_same gvk : gvk ∈ dashboard_watches dc → same_objects r r' gvk.
Proof. intros Hg. rewrite <-watches_all in Hg. unfold unnoticed in Hseen. rewrite Forall_forall in Hseen. auto. Qed.

Lemma gets_same gvk n : get_Unstructured r gvk n = get_Unstructured r' gvk n.
Proof.
  destruct (decide (gvk ∈ watches)) as [Hw|Hw]; [|by apply Hrest].
  rewrite watches_all in Hw. by apply watched_same in Hw as (_ & _ & _ & _ & _ & _ & ?).
Qed.

Lemma always_same gvk : gvk ∈ endpoint_slice_gvk :: always_watched → same_objects r r' gvk.
Proof.
  intros Hg. apply watched_same. unfold dashboard_watches. rewrite !elem_of_app, list_elem_of_singleton.
  apply elem_of_cons in Hg as [->|Hg]; tauto.
Qed.

Lemma resourceAvailable_served gvk :
  resourceAvailable (Some dc) (gvk_gv gvk) (gvk_Kind gvk) = resource_served dc gvk.
Proof. done. Qed.

Lemma served_same gvk : gvk ∈ dns_endpoint_gvk :: watched_if_served → resource_served dc gvk = true → same_objects r r' gvk.
Proof.
  intros Hg Hs. apply watched_same. unfold dashboard_watches.
  rewrite !elem_of_app, !elem_of_filter_bool, list_elem_of_singleton.
  apply elem_of_cons in Hg as [->|Hg]; [|tauto]. right. right. right. left. by rewrite Hs.
Qed.

Lemma resolve_same namespace source : ResolveURLFromSource r namespace source = ResolveURLFromSource r' namespace source.
Proof.
  assert (∀ n, get_Ingress r n = get_Ingress r' n) as Hi.
  { by apply (always_same ingress_gvk); [right; right; left|]. }
  assert (∀ n, get_Service r n = get_Service r' n) as Hsv.
  { by apply (always_same service_gvk); [right; right; right; left|]. }
  destruct source as [s|]; [|done]. unfold ResolveURLFromSource, resolveIngressURL, resolveHTTPRouteURL,
    resolveGRPCRouteURL, resolve_gateway, resolveServiceURL, resolveOpenShiftRouteURL, resolveTraefikIngressRouteURL.
  cbn [resolve_traefik_in]. repeat case_match; simplify_eq; rewrite ?Hi, ?Hsv, ?gets_same in *; congruence.
Qed.

Lemma bookmarks_same : collectBookmarkGroups r = collectBookmarkGroups r'.
Proof.
  destruct (always_same bookmark_group_gvk) as [Hb _]; [by right; left|].
  destruct Hrest as [Hbm _]. unfold collectBookmarkGroups. by rewrite (Hb eq_refl), Hbm.
Qed.

Lemma forecastle_url_same item : forecastle_url r item = forecastle_url r' item.
Proof. unfold forecastle_url. repeat case_match; rewrite ?resolve_same in *; congruence. Qed.

Lemma forecastle_same instance loop : resource_served dc forecastle_gvk = true →
  collector_eq (collectForecastleApps r instance loop) (collectForecastleApps r' instance loop).
Proof.
  intros Hs. destruct (served_same forecastle_gvk) as (_ & Hf & _); [by right; left|done|].
  unfold collectForecastleApps. rewrite (Hf eq_refl). destruct (list_ForecastleApps r'); [|reflexivity].
  apply for_each_i_proper; [|done]. intros i st item. unfold forecastle_step, forecastle_link.
  by rewrite forecastle_url_same.
Qed.

Lemma unstructured_same gvk step : same_objects r r' gvk →
  collect_unstructured r (list_kind gvk) step = collect_unstructured r' (list_kind gvk) step.
Proof. intros (_ & _ & _ & _ & _ & Hl & _). unfold collect_unstructured. by rewrite Hl. Qed.

Lemma gateway_same gvk step : gvk ∈ dns_endpoint_gvk :: watched_if_served → resource_served dc gvk = true →
  collector_eq (collect_unstructured r (list_kind gvk) step) (collect_unstructured r' (list_kind gvk) step).
Proof. intros Hg Hs st. by rewrite (unstructured_same gvk) by by apply served_same. Qed.

Lemma traefik_same :
  collector_eq (first_available (Some dc) "IngressRoute" traefik_gvs (collectIngressRoutes r))
               (first_available (Some dc) "IngressRoute" traefik_gvs (collectIngressRoutes r')).
Proof.
  assert (∀ gvk, List.find (resource_served dc) traefik_gvks = Some gvk →
    collectIngressRoutes r (gvk_gv gvk) = collectIngressRoutes r' (gvk_gv gvk)) as Hf.
  { intros gvk Hg. assert (gvk_Kind gvk = "IngressRoute") as Hk.
    { apply List.find_some in Hg as [[<-|[<-|[]]] _]; done. }
    pose proof (unstructured_same gvk ingress_route_step) as Hu. unfold list_kind in Hu. rewrite Hk in Hu.
    apply Hu, watched_same. unfold dashboard_watches. rewrite !elem_of_app, Hg. right. right. left. left. }
  intros st. cbn [first_available traefik_gvs]. cbn [List.find traefik_gvks] in Hf.
  repeat (rewrite <-(resourceAvailable_served (GVK _ _ _)) in Hf).
  cbn [gvk_gv gvk_Kind GVK] in Hf.
  repeat (case_match; [specialize (Hf _ eq_refl); cbn [gvk_gv GVK] in Hf; by rewrite Hf|]). done.
Qed.

Lemma local_same c : dc_discovery c = Some dc →
  collector_eq (collect_local (with_reader r c)) (collect_local (with_reader r' c)).
Proof.
  intros Hdc. unfold collect_local. cbn [with_reader dc_reader dc_discovery dc_staticLinks dc_forecastleInstance].
  rewrite Hdc, bookmarks_same.
  destruct (always_same ingress_gvk) as (_ & _ & Hi & _); [by right; right; left|].
  destruct (always_same service_gvk) as (_ & _ & _ & Hs & _); [by right; right; right; left|].
  destruct (always_same endpoint_slice_gvk) as (_ & _ & _ & _ & He & _); [left|].
  destruct Hrest as (_ & Ht & _).
  assert (collectIngresses r = collectIngresses r') as ->.
  { unfold collectIngresses. by rewrite (proj1 (Hi eq_refl)). }
  assert (collectServices r = collectServices r') as ->.
  { unfold collectServices. by rewrite (proj1 (Hs eq_refl)). }
  assert (collectEndpointSlices r = collectEndpointSlices r') as ->.
  { unfold collectEndpointSlices. by rewrite (He eq_refl). }
  assert (collectInfoTiles r = collectInfoTiles r') as ->.
  { unfold collectInfoTiles. by rewrite Ht. }
  do 2 (apply seq_proper; [reflexivity|]).
  apply seq_proper; [apply when_eq; intros ?; by apply forecastle_same|].
  apply seq_proper; [reflexivity|].
  apply seq_proper; [apply when_eq; intros ?; apply (gateway_same (GVK _ _ "HTTPRoute")); [right; right; left|done]|].
  apply seq_proper; [apply when_eq; intros ?; apply (gateway_same (GVK _ _ "GRPCRoute")); [do 3 right; left|done]|].
  apply seq_proper; [apply when_eq; intros ?; apply (gateway_same (GVK _ _ "TLSRoute")); [do 4 right; left|done]|].
  apply seq_proper; [apply when_eq; intros ?; apply (gateway_same (GVK _ _ "TCPRoute")); [do 5 right; left|done]|].
  apply seq_proper; [apply traefik_same|]. do 2 (apply seq_proper; [reflexivity|]).
  apply seq_proper; [|reflexivity]. apply when_eq; intros ?; apply (gateway_same dns_endpoint_gvk); [left|done].
Qed.
End completeness.

Section theorems.
Context `{Unicode, Apimachinery, MapRange, StableSort}.

(** C20: the informers cover the page.  With every informer set up, a change
    of the cluster that triggers none of them changes no reply, of the
    dashboard or of the sync endpoint, unless it changes bookmarks, info tiles
    or an object of a kind without an informer that a reference names. *)
Theorem watches_complete c dc informer r r' userGroups localOnly :
  dc_discovery c = Some dc → (∀ gvk, is_ok (informer gvk) = true) →
  let watches := setupDashboardWatches informer dc in
  unnoticed watches r r' → same_unwatched watches r r' →
  collectDashboard (with_reader r c) userGroups localOnly = collectDashboard (with_reader r' c) userGroups localOnly.
Proof.
  intros Hdc Hok watches Hseen Hrest. unfold collectDashboard.
  assert (initial_dash (with_reader r c) = initial_dash (with_reader r' c)) as -> by done.
  assert (merge_others (with_reader r c) localOnly = merge_others (with_reader r' c) localOnly) as -> by done.
  unfold seq. by rewrite (local_same dc informer Hok r r' Hseen Hrest c Hdc _).
Qed.
End theorems.

(** ** What the informers miss *)

Definition change_reader (bookmarks : list Bookmark) (tiles : list InfoTile)
    (unstructured : GroupVersionKind → gmap string string → result (list Unstructured)) (r : Reader) : Reader :=
  {| list_BookmarkGroups := list_BookmarkGroups r; list_Bookmarks := fun _ => Ok bookmarks;
     list_ForecastleApps := list_ForecastleApps r; list_InfoTiles := Ok tiles;
     list_Ingresses := list_Ingresses r; list_Services := list_Services r;
     list_EndpointSlices := list_EndpointSlices r; list_Unstructured := unstructured;
     get_Ingress := get_Ingress r; get_Service := get_Service r; get_Unstructured := get_Unstructured r |}.

Lemma unnoticed_change watches bookmarks tiles r :
  unnoticed watches r (change_reader bookmarks tiles (list_Unstructured r) r).
Proof. apply Forall_forall. intros gvk _. unfold same_objects. by split_and!. Qed.

(** A bookmark that appears, or becomes reachable, changes the page and
    triggers no informer; so does the content of a tile, for which the
    reconciler calls [Notify] itself, on the elected replica only. *)
Theorem bookmark_change_unnoticed :
  ∃ r r', (∀ watches, unnoticed watches r r') ∧ list_InfoTiles r = list_InfoTiles r' ∧
    (∀ gvk n, get_Unstructured r gvk n = get_Unstructured r' gvk n) ∧
    collectDashboard (with_reader r sample) ["devs"] false ≠ collectDashboard (with_reader r' sample) ["devs"] false.
Proof.
  exists sample_reader, (change_reader [] [uptime_tile] (list_Unstructured sample_reader) sample_reader).
  split; [intros; apply unnoticed_change|]. split; [done|]. split; [done|].
  intros Heq. apply (f_equal (fun x => length (concat (dg_Links <$> r_Groups (response_of x))))) in Heq.
  vm_compute in Heq. discriminate.
Qed.

Theorem tile_change_unnoticed :
  ∃ r r', (∀ watches, unnoticed watches r r') ∧ (∀ sel, list_Bookmarks r sel = list_Bookmarks r' sel) ∧
    (∀ gvk n, get_Unstructured r gvk n = get_Unstructured r' gvk n) ∧
    collectDashboard (with_reader r sample) ["devs"] false ≠ collectDashboard (with_reader r' sample) ["devs"] false.
Proof.
  exists sample_reader, (change_reader [wiki; vault; broken] [] (list_Unstructured sample_reader) sample_reader).
  split; [intros; apply unnoticed_change|]. split; [done|]. split; [done|].
  intros Heq. apply (f_equal (fun x => length (concat (dg_Tiles <$> r_Groups (response_of x))))) in Heq.
  vm_compute in Heq. discriminate.
Qed.

(** A route of a kind that is not served. *)
Definition hidden_route (gvk : GroupVersionKind) (_ : gmap string string) : result (list Unstructured) :=
  if bool_decide (gvk = GVK "gateway.networking.k8s.io" "v1" "HTTPRouteList")
  then Ok [{| u_meta := meta "default" "r" ∅; u_Object := ANil |}] else Err not_found.

Lemma watches_complete_witness :
  collectDashboard (with_reader sample_reader sample) ["devs"] false =
  collectDashboard (with_reader (change_reader [wiki; vault; broken] [uptime_tile] hidden_route sample_reader) sample)
    ["devs"] false.
Proof.
  apply (watches_complete sample sample_discovery (fun _ => Ok tt)); [reflexivity|reflexivity| |].
  - change (unnoticed (dashboard_watches sample_discovery) sample_reader
      (change_reader [wiki; vault; broken] [uptime_tile] hidden_route sample_reader)).
    assert (dashboard_watches sample_discovery =
      [bookmark_group_gvk; ingress_gvk; service_gvk; forecastle_gvk; endpoint_slice_gvk]) as -> by reflexivity.
    unfold unnoticed. rewrite !Forall_cons. split_and!; [..|constructor]; repeat split; reflexivity.
  - split_and!; [reflexivity|reflexivity|]. reflexivity.
Defined.
