(* ===== verification/SettingsProps.v ===== *)
(** * SettingsProps: where settings come from

    A flag on the command line wins over the environment, the environment over
    the configuration file, and the file over the default.  Authentication is
    only off when somebody asked for it. *)

From S2P Require Import Prelude GoStrings StableSort ApiTypes UrlResolver Links Collectors Dashboard Json Wire Sync.
From S2P Require Import Sample Any Url Http Auth AuthProps Flags Templates Handler HandlerProps ForeignCluster ForeignClusterProps Main MainProps.

(** ** Viper and the environment *)
Section environment.
Context `{Unicode}.

(** The variable [AutomaticEnv] looks at for a key, with dots replaced. *)
Definition automatic_env (key : string) : string :=
  ToUpper (str ((fun a => if bool_decide (a = dot) then "_"%char else a) <$> bytes key)).

(** The variables of a key, and the first that is set and not empty. *)
Definition env_names (key : string) : list string :=
  automatic_env key :: omap (fun b => if bool_decide (b.1 = key) then Some b.2 else None) env_bindings.

Definition env_value (getenv : string → string) (key : string) : option string :=
  find_map (fun name => if bool_decide (getenv name = "") then None else Some (getenv name)) (env_names key).

(** Viper's documented behaviour for a bound or automatic variable; a boolean
    that is none reads as false. *)
Definition reads_environment (load : viper_options → result Viper) (getenv : string → string) : Prop :=
  ∀ o config key val, load o = Ok config → vo_AutomaticEnv o = true → vo_EnvKeyReplacer o = [(".", "_")] →
    vo_BindEnv o = env_bindings → env_value getenv key = Some val →
    IsSet config key = true ∧ GetString config key = val ∧ GetBool config key = default false (ParseBool val).

(** What a setting should be: the last flag of the command line, else the
    environment, else the configuration file, else the default. *)
Definition effective_string (getenv : string → string) (config : Viper) (given : list (string * string))
    (flag key : string) : string :=
  match last_given given flag with
  | Some v => v
  | None =>
    match env_value getenv key with
    | Some v => v
    | None => if IsSet config key then GetString config key else string_default flag
    end
  end.

Definition effective_bool (getenv : string → string) (config : Viper) (given : list (string * string))
    (flag key : string) : bool :=
  match last_given given flag with
  | Some v => bool_decide (ParseBool v = Some true)
  | None =>
    match env_value getenv key with
    | Some v => bool_decide (ParseBool v = Some true)
    | None => if IsSet config key then GetBool config key else bool_default flag
    end
  end.

(** The settings with their flags and keys. *)
Definition string_settings : list (string * string * (settings → string)) :=
  [("metrics-bind-address", "metrics.bindAddress", metricsAddr);
   ("health-probe-bind-address", "health.probeBindAddress", probeAddr);
   ("web-bind-address", "web.bindAddress", webAddr);
   ("webhook-cert-path", "webhook.cert.path", webhookCertPath);
   ("webhook-cert-name", "webhook.cert.name", webhookCertName);
   ("webhook-cert-key", "webhook.cert.key", webhookCertKey);
   ("metrics-cert-path", "metrics.cert.path", metricsCertPath);
   ("metrics-cert-name", "metrics.cert.name", metricsCertName);
   ("metrics-cert-key", "metrics.cert.key", metricsCertKey);
   ("forecastle-instance", "forecastle.instance", forecastleInstance);
   ("sync-bind-address", "sync.bindAddress", syncAddr);
   ("sync-tls-ca", "sync.tls.ca", fun s => stls_CA (syncTLS s));
   ("sync-tls-cert", "sync.tls.cert", fun s => stls_Cert (syncTLS s));
   ("sync-tls-key", "sync.tls.key", fun s => stls_Key (syncTLS s));
   ("sync-tls-auth-cert", "sync.tls.authCert", fun s => stls_AuthCert (syncTLS s));
   ("sync-tls-auth-key", "sync.tls.authKey", fun s => stls_AuthKey (syncTLS s));
   ("fleet-trust-store", "fleet.trustStore", fleetTrustStore);
   ("fleet-kubeconfig", "fleet.kubeconfig", fleetKubeconfig)].

Definition bool_settings : list (string * string * (settings → bool)) :=
  [("leader-elect", "leaderElection.enabled", enableLeaderElection);
   ("metrics-secure", "metrics.secure", secureMetrics);
   ("enable-http2", "http2.enabled", enableHTTP2);
   ("enable-auth", "auth.enabled", enableAuth);
   ("skip-oidc-probe", "auth.skipProbe", skipOIDCProbe)].

(** ** The command line *)

(** The flags of a command line of settings. *)
Definition flags_of (given : list (string * string)) : flag_set :=
  foldl (fun m g => <[g.1 := g.2]> m) ∅ given.

Lemma flags_of_lookup given name : flags_of given !! name = last_given given name.
Proof. unfold flags_of. rewrite given_lookup, lookup_empty. by destruct (last_given given name). Qed.

Lemma flag_given given name : bool_decide (name ∈ explicitFlags (flags_of given)) = bool_decide (is_Some (last_given given name)).
Proof. unfold explicitFlags. apply bool_decide_ext. by rewrite elem_of_dom, flags_of_lookup. Qed.

Lemma last_given_in given name v : last_given given name = Some v → (name, v) ∈ given.
Proof.
  intros (l & [n w] & k & Hl & Hf & _)%find_map_Some. cbn in Hf. case_bool_decide; simplify_eq.
  apply elem_of_reverse. rewrite Hl. apply elem_of_app. right. left.
Qed.

Section settings.
Context (load : viper_options → result Viper) (getenv : string → string) (config : Viper).
Context (given : list (string * string)) (o : viper_options).
Hypothesis Henv : ∀ key val, env_value getenv key = Some val →
  IsSet config key = true ∧ GetString config key = val ∧ GetBool config key = default false (ParseBool val).

Lemma resolve_string flag key :
  resolveStringFlag config (explicitFlags (flags_of given)) flag key
    (string_var (flags_of given) flag (string_default flag)) = effective_string getenv config given flag key.
Proof.
  unfold resolveStringFlag, effective_string, string_var. rewrite flag_given, flags_of_lookup.
  destruct (last_given given flag) as [v|]; [by rewrite bool_decide_true by by exists v|].
  rewrite bool_decide_false by by intros [? ?]. cbn [default].
  destruct (env_value getenv key) as [v|] eqn:E; [|done]. by destruct (Henv key v E) as (-> & -> & _).
Qed.

Lemma resolve_bool flag key :
  (∀ v, last_given given flag = Some v → ParseBool v ≠ None) →
  resolveBoolFlag config (explicitFlags (flags_of given)) flag key
    (bool_var (flags_of given) flag (bool_default flag)) = effective_bool getenv config given flag key.
Proof.
  intros Hok. unfold resolveBoolFlag, effective_bool, bool_var. rewrite flag_given, flags_of_lookup.
  destruct (last_given given flag) as [v|].
  - rewrite bool_decide_true by by exists v. specialize (Hok v eq_refl). by destruct (ParseBool v) as [[]|].
  - rewrite bool_decide_false by by intros [? ?].
    destruct (env_value getenv key) as [v|] eqn:E; [|done]. destruct (Henv key v E) as (-> & _ & ->).
    by destruct (ParseBool v) as [[]|].
Qed.
End settings.

Lemma lookup_main_flag library name d :
  lookup_flag main_flags name = Some d → lookup_flag (main_flags ++ library) name = Some d.
Proof. unfold lookup_flag. rewrite find_map_app. by intros ->. Qed.

(** A boolean flag of the program has a boolean value. *)
Lemma bool_given library given flag v :
  Forall (acceptable (main_flags ++ library)) given → flag ∈ bool_flags.*1 →
  last_given given flag = Some v → ParseBool v ≠ None.
Proof.
  intros Hg Hf Hv%last_given_in. rewrite Forall_forall in Hg. destruct (Hg _ Hv) as (d & Hd & Hc & _). cbn [fst snd] in *.
  assert (lookup_flag main_flags flag = Some (BoolVar flag)) as Hm.
  { repeat (apply elem_of_cons in Hf as [->|Hf]; [reflexivity|]). by apply not_elem_of_nil in Hf. }
  apply (lookup_main_flag library) in Hm. rewrite Hm in Hd. injection Hd as <-. cbn in Hc.
  intros Hn. by rewrite Hn in Hc.
Qed.

Section process.
Context `{TLSFiles, PageTemplates}.

Lemma started_settings pf given fuel i :
  reads_environment (pf_LoadViper pf) (pf_Getenv pf) →
  Forall (acceptable (main_flags ++ pf_LibraryFlags pf)) given → pf_Args pf = long_flag <$> given →
  main pf fuel = Going i →
  ∃ config, configured pf (flags_of given) config ∧ i_settings i = resolve_settings (flags_of given) config ∧
    ∀ key val, env_value (pf_Getenv pf) key = Some val →
      IsSet config key = true ∧ GetString config key = val ∧ GetBool config key = default false (ParseBool val).
Proof.
  intros Henv Hg Ha (p & Hp & _ & -> & _)%main_going.
  apply prepare_going in Hp as (_ & (fs & [Hf Hl] & ->) & _).
  rewrite Ha, parse_long in Hf by done. injection Hf as <-. exists (p_config p). split_and!; try done.
  - split; [rewrite Ha; by apply parse_long|done].
  - intros key val. unfold loadViperConfig in Hl. by apply (Henv _ _ _ _ Hl).
Qed.

(** A switch of the environment. *)
Definition env_switch (getenv : string → string) (key : string) : option bool :=
  (fun v => bool_decide (ParseBool v = Some true)) <$> env_value getenv key.

(** The settings with rules of their own.  Two lists are the comma-separated
    parts of their flag, else the list viper reads for the key; the list of
    clusters is the parts of one text wherever it comes from; three have no
    flag. *)
Record other_settings (getenv : string → string) (config : Viper) (given : list (string * string)) (s : settings)
    : Prop := {
  os_syncURLs : syncURLs s = default (if IsSet config "sync.urls" then GetStringSlice config "sync.urls" else [])
    (splitCommaFlag <$> last_given given "sync-urls");
  os_syncSRVRecords : syncSRVRecords s =
    default (if IsSet config "sync.srvRecords" then GetStringSlice config "sync.srvRecords" else [])
      (splitCommaFlag <$> last_given given "sync-srv-records");
  os_fleetClusters : fleetClusterEntries s =
    splitCommaFlag (effective_string getenv config given "fleet-clusters" "fleet.clusters");
  os_localTesting : localTesting s = default (GetBool config "localTesting") (env_switch getenv "localTesting");
  os_enableWebhooks : enableWebhooks s =
    default (if IsSet config "enableWebhooks" then GetBool config "enableWebhooks" else true)
      (env_switch getenv "enableWebhooks");
  os_watchNamespace : watchNamespace s =
    TrimSpace (default (GetString config "watchNamespace") (env_value getenv "watchNamespace"))
}.

Lemma resolve_others getenv config given :
  (∀ key val, env_value getenv key = Some val →
    IsSet config key = true ∧ GetString config key = val ∧ GetBool config key = default false (ParseBool val)) →
  other_settings getenv config given (resolve_settings (flags_of given) config).
Proof.
  intros Henv. constructor; cbn [syncURLs syncSRVRecords fleetClusterEntries localTesting enableWebhooks watchNamespace resolve_settings].
  - rewrite flag_given. unfold string_var. rewrite flags_of_lookup. by destruct (last_given given "sync-urls").
  - rewrite flag_given. unfold string_var. rewrite flags_of_lookup. by destruct (last_given given "sync-srv-records").
  - rewrite <-(resolve_string getenv config given Henv). unfold resolveStringFlag.
    destruct (bool_decide _) eqn:Hf; [done|]. destruct (IsSet _ _); [done|].
    rewrite flag_given in Hf. unfold string_var. rewrite flags_of_lookup. by destruct (last_given given "fleet-clusters").
  - unfold env_switch. destruct (env_value getenv _) as [v|] eqn:E; [|done].
    destruct (Henv _ v E) as (_ & _ & ->). cbn. by destruct (ParseBool v) as [[]|].
  - unfold env_switch. destruct (env_value getenv _) as [v|] eqn:E; [|done].
    destruct (Henv _ v E) as (-> & _ & ->). cbn. by destruct (ParseBool v) as [[]|].
  - destruct (env_value getenv _) as [v|] eqn:E; [|done]. by destruct (Henv _ v E) as (_ & -> & _).
Qed.

(** C24: the settings [main] resolves.  For a command line of settings and a
    viper that reads the environment, each of eighteen texts and five switches
    is the last flag of its name, else the environment variable of its key,
    else the configuration file, else the default of the flag.  The other six
    have rules of their own: the peer URLs and SRV records are the
    comma-separated parts of the last flag, else the list viper gives for the
    key; the clusters are the comma-separated parts of a text found like the
    eighteen; local testing, the webhooks and the watched namespaces have no
    flag, and are the variable, else the file. *)
Theorem settings_precedence pf given fuel i :
  reads_environment (pf_LoadViper pf) (pf_Getenv pf) →
  Forall (acceptable (main_flags ++ pf_LibraryFlags pf)) given → pf_Args pf = long_flag <$> given →
  main pf fuel = Going i →
  ∃ config, configured pf (flags_of given) config ∧
    Forall (fun '(flag, key, field) =>
      field (i_settings i) = effective_string (pf_Getenv pf) config given flag key) string_settings ∧
    Forall (fun '(flag, key, field) =>
      field (i_settings i) = effective_bool (pf_Getenv pf) config given flag key) bool_settings ∧
    other_settings (pf_Getenv pf) config given (i_settings i).
Proof.
  intros Henv Hg Ha Hm. destruct (started_settings _ _ _ _ Henv Hg Ha Hm) as (config & Hc & -> & Hr).
  exists config. split; [done|]. split; [|split; [|by apply resolve_others]].
  - repeat (apply Forall_cons; split); [..|by apply Forall_nil]; by apply resolve_string.
  - repeat (apply Forall_cons; split); [..|by apply Forall_nil];
      (apply resolve_bool; [done|]; intros v; apply (bool_given (pf_LibraryFlags pf)); [done|]);
      apply list_elem_of_In; cbn; tauto.
Qed.

(** ** Authentication *)

(** Somebody turned authentication off: a flag, a variable or the file. *)
Definition turned_off (getenv : string → string) (config : Viper) (given : list (string * string)) : Prop :=
  match last_given given "enable-auth" with
  | Some v => ParseBool v = Some false
  | None =>
    match env_value getenv "auth.enabled" with
    | Some v => ParseBool v ≠ Some true
    | None => IsSet config "auth.enabled" = true ∧ GetBool config "auth.enabled" = false
    end
  end.

Lemma NewHandler_auth filesystem embedded reader discovery options web peers clusters :
  NewHandler filesystem embedded reader discovery options = Ok web →
  h_auth (sh_handler web peers clusters) = (newAuthService (o_Auth options)).1.
Proof.
  unfold NewHandler. destruct (newAuthService _) as [a c]. destruct (loadPageTemplate _ _ _); cbn; [|done].
  intros Hw. injection Hw as <-. reflexivity.
Qed.

Lemma NewHandler_cache filesystem embedded reader discovery options web :
  NewHandler filesystem embedded reader discovery options = Ok web → sh_cache web = (newAuthService (o_Auth options)).2.
Proof.
  unfold NewHandler. destruct (newAuthService _) as [a c]. destruct (loadPageTemplate _ _ _); cbn; [|done].
  intros Hw. injection Hw as <-. reflexivity.
Qed.

Lemma started_auth pf fuel i peers clusters :
  main pf fuel = Going i → a_enabled (h_auth (sh_handler (i_web i) peers clusters)) = enableAuth (i_settings i).
Proof. intros (p & _ & _ & -> & _ & _ & Hw & _)%main_going. by rewrite (NewHandler_auth _ _ _ _ _ _ _ _ Hw). Qed.

Context `{Apimachinery, MapRange, StableSort, Float64Text, Site}.

Lemma started_serving pf fuel i peers clusters :
  main pf fuel = Going i → serving (h_auth (sh_handler (i_web i) peers clusters)) [] (sh_cache (i_web i)).
Proof.
  intros (p & _ & _ & _ & _ & _ & Hw & _)%main_going. rewrite (NewHandler_cache _ _ _ _ _ _ Hw).
  apply serving_new. apply (NewHandler_auth _ _ _ _ _ _ _ _ Hw).
Qed.

(** C10: a process is closed unless somebody opened it.  Either authentication
    was turned off, by the last flag, by a variable that is not true, or in
    the file, or, from the caches the process starts with and after any
    requests, every request with neither a signed cookie that has not expired
    nor a bearer token the provider's user info endpoint accepts gets an answer
    that does not depend on the cluster, on the peers or on the foreign
    clusters, which is 401 for a GET of the dashboard or its updates. *)
Theorem closed_by_default pf given fuel i :
  reads_environment (pf_LoadViper pf) (pf_Getenv pf) →
  Forall (acceptable (main_flags ++ pf_LibraryFlags pf)) given → pf_Args pf = long_flag <$> given →
  main pf fuel = Going i →
  (∃ config, configured pf (flags_of given) config ∧ turned_off (pf_Getenv pf) config given) ∨
  ∀ peers clusters, let h := sh_handler (i_web i) peers clusters in
    serving (h_auth h) [] (sh_cache (i_web i)) ∧
    ∀ collector seen Do now r c, serving (h_auth h) seen c → nobody (h_auth h) (Do :: seen) Do now r →
      ServeHTTP (over collector h) Do now r c = ServeHTTP h Do now r c ∧
      (r_Method r = MethodGet → r_Path r ∈ refused_paths →
       (ServeHTTP h Do now r c).1 = (status_reply StatusUnauthorized, [])).
Proof.
  intros Henv Hg Ha Hm. destruct (started_settings _ _ _ _ Henv Hg Ha Hm) as (config & Hc & Hs & Hr).
  destruct (enableAuth (i_settings i)) eqn:He.
  - right. intros peers clusters h. split; [by eapply started_serving|]. intros collector seen Do now r c Hsv Hn.
    assert (a_enabled (h_auth h) = true) as Hen by (unfold h; by rewrite (started_auth _ _ _ _ _ Hm)).
    split; [by eapply nobody_learns|by eapply nobody_refused].
  - left. exists config. split; [done|]. rewrite Hs in He. cbn [enableAuth resolve_settings] in He.
    rewrite (resolve_bool (pf_Getenv pf)) in He; [|done|].
    2:{ intros v. apply (bool_given (pf_LibraryFlags pf)); [done|]. apply list_elem_of_In. cbn. tauto. }
    unfold effective_bool in He. unfold turned_off. destruct (last_given given _) as [v|] eqn:Hv.
    { apply bool_decide_eq_false in He. apply (bool_given (pf_LibraryFlags pf)) in Hv; [|done|apply list_elem_of_In; cbn; tauto].
      by destruct (ParseBool v) as [[]|]. }
    destruct (env_value _ _) as [v|]; [by apply bool_decide_eq_false in He|].
    destruct (IsSet config "auth.enabled"); [done|discriminate].
Qed.
End process.
End environment.

(** ** A process *)

(** Viper over an environment and a flat configuration file. *)
Definition viper_over (getenv : string → string) (file : gmap string string) : Viper :=
  let value key := match env_value getenv key with Some v => Some v | None => file !! key end in
  {| IsSet := fun key => match value key with Some _ => true | None => false end;
     GetString := fun key => default "" (value key);
     GetBool := fun key => default false (value key ≫= ParseBool);
     GetStringSlice := fun key => match value key with Some v => splitCommaFlag v | None => [] end;
     UnmarshalLinkGroups := fun _ => Ok []; UnmarshalStaticLinks := fun _ => Ok [] |}.

Lemma viper_over_reads getenv file : reads_environment (fun _ => Ok (viper_over getenv file)) getenv.
Proof. intros o config key val [= <-] _ _ _ He. cbn [viper_over IsSet GetString GetBool]. rewrite He. cbn [mbind option_bind default]. split; [reflexivity|]. split; reflexivity. Qed.

Definition sample_templates : PageTemplates :=
  {| PageTemplate := list (string * list ascii); new_page := []; parse_as := fun t name contents => Ok ((name, contents) :: t) |}.
#[local] Existing Instance sample_templates.
#[local] Existing Instance sample_files.
#[local] Existing Instance float_bits.
#[local] Existing Instance sample_site.

Definition sample_env (vars : gmap string string) : string → string := fun name => default "" (vars !! name).

(** The identity provider is down, then starting, then up. *)
Definition sample_replies (_ : string) (attempt : nat) : result Z :=
  match attempt with 0 => Err refused | 1 => Ok StatusServiceUnavailable | _ => Ok StatusOK end.

Definition in_cluster : rest_config := {| rc_Host := "https://10.0.0.1"; rc_TLS := no_tls; rc_Transport := None |}.

Definition sample_platform (vars file : gmap string string) (given : list (string * string)) : Platform :=
  {| pf_Args := long_flag <$> given; pf_Getenv := sample_env vars; pf_LibraryFlags := [StringVar "kubeconfig"];
     pf_LoadViper := fun _ => Ok (viper_over (sample_env vars) file);
     pf_GetConfig := Ok in_cluster; pf_HomeFile := "/root/.kube/config";
     pf_BuildConfigFromFlags := fun _ => Err refused; pf_ContextConfig := fun _ _ => Err refused;
     pf_NewManager := fun _ _ => Ok sample_reader; pf_NewDiscoveryClient := fun _ => Ok sample_discovery;
     pf_Informer := fun _ => Ok tt; pf_Register := fun _ => Ok tt; pf_ProbeReply := sample_replies;
     pf_Files := no_files; pf_Embedded := fun _ => Ok (bytes "{{ . }}") |}.

Definition sample_vars : gmap string string :=
  {["OIDC_ISSUER_URL" := "https://id.example/"; "WEB_BINDADDRESS" := ":8000"; "CUPBOARD_SYNC_TLS_CA" := "ca.pem"]}.
Definition sample_file : gmap string string :=
  {["sync.tls.cert" := "file.pem"; "sync.tls.ca" := "other.pem"; "metrics.bindAddress" := ":8443"]}.
Definition sample_given : list (string * string) :=
  [("sync-tls-cert", "first.pem"); ("sync-tls-key", "key.pem"); ("sync-tls-cert", "tls.pem"); ("leader-elect", "T")].
Definition sample_process : Platform := sample_platform sample_vars sample_file sample_given.

Lemma sample_acceptable : Forall (acceptable (main_flags ++ pf_LibraryFlags sample_process)) sample_given.
Proof. apply (bool_decide_eq_true_1 _). vm_compute. reflexivity. Qed.

Example sample_started :
  match main sample_process 3 with
  | Going i =>
    (webAddr (i_settings i), metricsAddr (i_settings i), probeAddr (i_settings i), stls_Cert (syncTLS (i_settings i)),
     stls_CA (syncTLS (i_settings i)), enableLeaderElection (i_settings i)) =
      (":8000", ":8443", ":8081", "tls.pem", "ca.pem", true) ∧
    length (i_registered i) = 10
  | _ => False
  end.
Proof. vm_compute. by split. Qed.

Example sample_waits : main sample_process 2 = Waiting.
Proof. vm_compute. reflexivity. Qed.

Lemma settings_precedence_witness : ∃ i config, main sample_process 3 = Going i ∧
  Forall (fun '(flag, key, field) =>
    field (i_settings i) = effective_string (pf_Getenv sample_process) config sample_given flag key) string_settings ∧
  other_settings (pf_Getenv sample_process) config sample_given (i_settings i).
Proof.
  destruct (main sample_process 3) as [i| |] eqn:E; [|vm_compute in E; discriminate..].
  destruct (settings_precedence sample_process sample_given 3 i) as (config & _ & Hs & _ & Ho);
    [apply viper_over_reads|apply sample_acceptable|reflexivity|exact E|].
  exists i, config. split; [reflexivity|]. split; [exact Hs|exact Ho].
Defined.

(** After a good token was served, a forged one is refused. *)
Lemma closed_by_default_witness : ∃ i, main sample_process 3 = Going i ∧
  let h := sh_handler (i_web i) None None in
  let c := (ServeHTTP h full_provider new_year (request_to "/api/dashboard"
    {["Authorization" := "Bearer t0ken"]}) (sh_cache (i_web i))).2 in
  ServeHTTP (over empty_collector h) full_provider new_year forged c = ServeHTTP h full_provider new_year forged c ∧
  (ServeHTTP h full_provider new_year forged c).1 = (status_reply StatusUnauthorized, []).
Proof.
  destruct (main sample_process 3) as [i| |] eqn:E; [|vm_compute in E; discriminate..].
  exists i. split; [done|].
  destruct (closed_by_default sample_process sample_given 3 i) as [(config & [_ Hc] & Hoff)|Hclosed];
    [apply viper_over_reads|apply sample_acceptable|reflexivity|exact E| |].
  - exfalso. injection Hc as <-. vm_compute in Hoff. destruct Hoff as [? _]. discriminate.
  - intros h c. destruct (Hclosed None None) as [Hnew Hall].
    assert (Ha : match main sample_process 3 with
      | Going i => let a := h_auth (sh_handler (i_web i) None None) in
        a_userInfoEndpointOverride a = "" ∧ a_issuerURL a = "https://id.example/"
      | _ => True end) by (vm_compute; split; reflexivity).
    rewrite E in Ha. destruct Ha as [Ha1 Ha2].
    destruct (Hall empty_collector [full_provider] full_provider new_year forged c) as [Hsame Hrefused].
    + by apply serving_request.
    + by apply forged_nobody.
    + split; [exact Hsame|]. apply Hrefused; [reflexivity|left].
Defined.

Lemma startup_plan_witness : ∃ i, main sample_process 3 = Going i ∧ plan (i_settings i) = Ok (i_registered i).
Proof.
  destruct (main sample_process 3) as [i| |] eqn:E; [|vm_compute in E; discriminate..].
  exists i. split; [done|]. apply (startup_plan sample_process 3 i E).
Defined.

Lemma sync_endpoint_secured_witness : ∃ i t, main sample_process 3 = Going i ∧
  Add (RunSyncEndpoint ":8083" t) ∈ i_registered i ∧ endpoint_secured (syncTLS (i_settings i)) t.
Proof.
  destruct (main sample_process 3) as [i| |] eqn:E; [|vm_compute in E; discriminate..].
  destruct (sync_endpoint_secured sample_process 3 i E) as [Hs Hex].
  assert (syncAddr (i_settings i) = ":8083") as Ha by (vm_compute in E; by injection E as <-).
  destruct Hex as [t Ht]; [rewrite Ha; reflexivity|]. rewrite Ha in Ht. exists i, t. split; [done|]. split; [done|].
  apply (Hs _ _ Ht).
Defined.

(** ** What goes wrong *)

(** A variable that is no boolean, such as [ENABLE_AUTH=yes], turns
    authentication off. *)
Theorem misspelt_switch_opens :
  match main (sample_platform {["ENABLE_AUTH" := "yes"]} ∅ []) 3 with
  | Going i => a_enabled (h_auth (sh_handler (i_web i) None None)) = false
  | _ => False
  end.
Proof. vm_compute. reflexivity. Qed.

(** The namespaces [ns1,] are not [ns1] alone: the empty name, which the cache
    takes for all namespaces, is among them. *)
Theorem trailing_comma_widens : setupCacheNamespaces "ns1," = Some {["ns1"; ""]}.
Proof. vm_compute. reflexivity. Qed.

(** A replica that is not elected runs everything that serves readers, and no
    reconciler: the [Notify] of the info tile reconciler never runs there. *)
Definition runs_unelected `{TLSFiles} (i : instance) : list registration :=
  List.filter (fun r => negb (NeedLeaderElection r)) (i_registered i).

Theorem unelected_never_reconciles pf fuel i :
  main pf fuel = Going i →
  Add RunNotifier ∈ runs_unelected i ∧ Add (RunWeb (webAddr (i_settings i))) ∈ runs_unelected i ∧
  ∀ name, SetupController name ∉ runs_unelected i.
Proof.
  intros (p & _ & _ & _ & _ & _ & _ & Hp & _)%main_going. unfold runs_unelected. split_and!.
  - apply elem_of_filter_bool. split; [done|]. unfold plan in Hp.
    destruct (client_plan _), (fleet_plan _), (endpoint_plan _); try done. injection Hp as <-. left.
  - apply elem_of_filter_bool. split; [done|]. unfold plan in Hp.
    destruct (client_plan _), (fleet_plan _), (endpoint_plan _); try done. injection Hp as <-.
    rewrite elem_of_cons, !elem_of_app, elem_of_cons. tauto.
  - intros name [? _]%elem_of_filter_bool. done.
Qed.
